(* ===== verification/_CoqProject ===== *)
-Q . S2P
Prelude.v
Platform.v
Cstd.v
Fwmark.v
UidRanges.v
Children.v
Netlink.v
NetdConstants.v
Ledger.v
Iptables.v
RouteController.v
RouteSpec.v
SampleKernel.v
FirewallController.v
NatController.v
IdletimerController.v
BandwidthController.v
BandwidthSpec.v
BandwidthChains.v
TetherStats.v
Networks.v
NetworkSpec.v
RouteProperties.v
NetworkController.v
ControllerSpec.v
Indices.v
Daemon.v
NetworkCommand.v
Access.v
FwmarkServer.v
NetdClient.v
TetherController.v
ClatdController.v
PppController.v
SoftapController.v
InterfaceController.v
QcRouteController.v
CommandListener.v
Commands.v
Footprint.v
ListenerSpec.v
ListenerReplies.v
ListenerInvariant.v
ListenerChains.v
ShellSafety.v
NetdList.v
Mdns.v
MdnsSpec.v
DnsProxy.v
NetlinkHandler.v
NetlinkManager.v
Startup.v
Ndc.v
Locks.v
Threads.v
