(* ===== verification/Prelude.v ===== *)
(** * netd: a verification development of Android's network daemon

    netd is the daemon that owns the network configuration of an Android
    device.  Frameworks send it text commands over a socket; it turns them into
    routing rules, routes and iptables rules, and it marks the sockets of
    applications with the network they belong to.  This library models its core
    (src/server/ and src/include/) and proves what it promises.

    ** The program and the files that model it

    Commands arrive in [CommandListener], which checks them and calls one of the
    controllers.  [NetworkController] keeps the networks; every network object
    asks [RouteController] for its rules, which sends netlink requests and runs
    "ip" and "iptables".  [FwmarkServer] answers applications from the state of
    [NetworkController], DnsProxyListener puts DNS queries on the network it chooses,
    MDnsSdListener discovers services for clients, and NetlinkHandler announces what
    the kernel reports.  The other controllers each own some iptables chains or a
    program that they run.

    - Prelude.v: widths of machine integers, errno values, tactics, generic
      lemmas.
    - Platform.v: the outside world.  A run of netd is a [trace] of the calls it
      made with their replies; what is replied is the parameter [Kernel], a
      function of everything that happened before, so a theorem over every
      [Kernel] covers every failure.  [M S] is the state monad over a
      component's state and the trace; [wp] its weakest precondition.
    - Cstd.v: what the code uses of the C library (strtoul, atoi, snprintf of
      integers, strsep, sscanf, fgets, strlcpy).
    - Fwmark.v: include/Fwmark.h and Permission.h, the bit fields of a mark.
    - UidRanges.v: server/UidRanges.cpp.
    - Netlink.v, NetdConstants.v: sendNetlinkRequest of RouteController.cpp and
      a decoder of its messages; server/NetdConstants.cpp.
    - RouteController.v: server/RouteController.cpp; its state is the map
      [interfaceToTable].  RouteSpec.v says which rules every operation adds or
      removes, RouteProperties.v what single requests do, errors included.
    - Ledger.v and Iptables.v: two abstract specifications of the kernel's side.
      The ledger counts acknowledged additions minus removals of every routing
      rule and mark rule; [chain_rules] replays the acknowledged iptables
      commands on one chain.
    - SampleKernel.v: concrete kernels, for the witnesses.
    - Networks.v: Network.cpp, LocalNetwork.cpp, PhysicalNetwork.cpp and
      VirtualNetwork.cpp as records; methods run on the object and the route
      cache.  NetworkSpec.v specifies every method.  [PhysicalNetwork::Delegate]
      is a record of operations whose laws are the class [DelegateLaws].
    - NetworkController.v: server/NetworkController.cpp; ControllerSpec.v proves
      its invariant and discharges [DelegateLaws].
    - Daemon.v: the commands one after the other, as a reachability relation.
    - NetworkCommand.v: the network commands of server/CommandListener.cpp, text
      in, response out.
    - Access.v: the questions other components ask NetworkController.
    - FwmarkServer.v: server/FwmarkServer.cpp and include/FwmarkCommand.h.
    - NetdClient.v: client/FwmarkClient.cpp and client/NetdClient.cpp, the
      library inside every application, run against FwmarkServer.v.
    - FirewallController.v, NatController.v, IdletimerController.v,
      TetherController.v, ClatdController.v, PppController.v, SoftapController.v,
      InterfaceController.v, QcRouteController.v: the controllers of these names.
      Children.v: the programs that some of them run in the background, and what
      it means that they own them.
    - BandwidthController.v, with BandwidthSpec.v (the commands and the lists,
      whatever fails) and BandwidthChains.v (the chains, when nothing fails);
      TetherStats.v: the statistics of the same source file.
    - CommandListener.v: the state of the daemon, one record of controllers, the
      monad of text commands (replies to the client, arguments read within
      bounds) and the constructor of CommandListener.cpp, with
      oem_iptables_hook.cpp.  Commands.v: every [runCommand] of that file and
      of QsoftapCmd.cpp, a Module each, and the table of commands; how netd is built is
      a field of [Ambient], so what is proved holds of both builds.
    - Footprint.v: which calls each controller can make, a rule per construct of
      the monad; ListenerSpec.v lifts it to commands.
    - ListenerReplies.v, ListenerInvariant.v, ListenerChains.v, ShellSafety.v: the
      theorems about all commands.
    - NetdList.v: server/List.h, the linked list of several controllers, as nodes in a
      heap; programs over lists are compared with the same programs over plain lists.
    - Mdns.v: server/MDnsSdListener.cpp, its commands and the Monitor with its poll
      thread; one step is what a thread does between two releases of the lock.
      MdnsSpec.v: the invariant over all interleavings.
    - DnsProxy.v: server/DnsProxyListener.cpp, commands, handlers and the bytes sent.
    - NetlinkHandler.v and NetlinkManager.v: the files of these names; effects of an
      event, and the sockets with their threads.
    - Startup.v: server/main.cpp on a state of all the parts above.
    - Ndc.v: server/ndc.c, the command-line client, against the replies of the daemon.
    - Service.v: the start and the commands after it, one after the other.
    - Locks.v and Threads.v: the threads.  NetworkController.v gives every method in one
      step; Threads.v has the methods that read as sequences of reads under the
      lock, and the requests of FwmarkServer and DnsProxyListener as sequences of
      calls, while another thread runs commands.  Locks.v is about any data
      guarded by such a lock; android::RWLock is a class with its laws.

    A definition carries the name it has in the code.  Methods that return
    errors return the same integers; what is only logged is left out.

    ** What the theorems show

    - The rules the kernel holds are those of the networks: Daemon.v, with the
      structural invariants of the state and, for the case that everything is
      torn down, that nothing is left behind.
    - Applications cannot get around a secure VPN nor obtain a mark they have no
      right to: Access.v and FwmarkServer.v, and end to end, from the calls an
      application makes to the marks of its sockets, NetdClient.v.
    - Requests mean what they say: rule and route messages decode to the request
      that was made, and malformed requests are refused before anything is sent
      (RouteProperties.v); text commands are parsed within bounds, and printing
      and parsing are inverse (NetworkCommand.v, UidRanges.v, TetherStats.v).
    - Chains hold the rules of the controller's state: firewall, tethering, idle
      timers, restricted applications, shared quota.  The children TetherController
      starts are the ones it knows.
    - The daemon as a whole: every command is answered once (ListenerReplies.v);
      the invariants of the controllers hold together and the children are those
      they know (ListenerInvariant.v); the order of the hooked chains and a closed
      firewall survive all other commands (ListenerChains.v); a client cannot get
      a command of its own run by a shell (ShellSafety.v).
    - From end to end: a command given to the client prints what the daemon sends
      and ends (Ndc.v, with ListenerReplies.v); the parts start in order, commands last
      (Startup.v), and what serves them keeps all invariants (Service.v).
    - Threads: every method of NetworkController is one step for the others, nobody
      waits for ever, a request that no command interrupts does what the other files
      say, and what a mark grants was allowed at one of the questions of its request,
      whatever ran between them (Threads.v).  Service discovery follows no invalid
      pointer and loses no request, in every interleaving, as long as no request
      failed (MdnsSpec.v).
    - What is written can be read back: DNS answers (DnsProxy.v), TXT records
      (MdnsSpec.v), the configuration of hostapd (SoftapController.v), announcements of
      the kernel's events (NetlinkHandler.v); the linked list is a list (NetdList.v).
    - Loops end: clearing a network and flushing routes (RouteProperties.v).
    - Error paths: what a failed operation leaves behind, in the theorems named
      after failures and in the invariants that hold whatever is replied.
    The number C<n> in front of a theorem's comment is its rank among the
    properties of the development.

    ** Assumptions

    They are about code outside the repository, and each is a named hypothesis:
    [KernelLaws] (errno is positive after a failure, an interface keeps its
    index), [pid_laws] (a new child has a pid of its own), [unmarked_sockets] (the
    kernel creates sockets without a mark), [Accepting] (requests are granted;
    only the theorems that compare a chain, or that say an operation succeeds,
    need it), [address_sizes] (raw addresses have the size of their family),
    [deletes_forward] (deletions succeed), [hooks_work] (iptables adds a jump to a
    chain just created and deletes one that is there), [plain_kernel] (interface
    names and addresses hold no character of the shell), [zeroed] (the memory that
    constructors leave as it is was 0).  [Ambient] names texts of libc, what an
    uninitialised variable holds and how netd is built.  The library of service
    discovery, the resolver and the socket of a DNS client are parameters of Mdns.v and
    DnsProxy.v; [calm] of MdnsSpec.v says that no request failed and that
    there are less than 2^31, [polite] that no client stops a request twice or fills a
    TXT record to its last byte; [fresh_sockets] that a new socket has a descriptor not
    in use; [RWLockLaws] that a readers-writer lock has many readers or one writer and
    does not block when nobody holds it; [unlink_works] that a file that is there can be removed; that the text of a
    message starts with its code is a hypothesis about libsysutils (Ndc.v).  The witnesses instantiate them with the kernels of SampleKernel.v.  In Access.v
    [stray] stands for what a bad cast reads (see the comment there).

    ** Fuel and bounds

    Every function is total.  [print_digits] has fuel 64, more digits than any
    64-bit number has; [clear_loop] has the number of interfaces as fuel, and
    [clear_loop_fuel] proves that more changes nothing; [flush_attempts] has the
    code's own bound; [parse_attrs] has the number of bytes; [fgets_all] splits
    at the buffer size of the code.

    ** Not modelled

    Logging and sleeping; what libsysutils does: the threads of the listeners, the
    splitting of a command line, the decoding of the kernel's events; in a child, what
    follows when its program cannot be run.  With threads (Threads.v) a command is
    obeyed in the step in which it gives the lock back, and until then the members
    may hold anything: the order of its own writes is that of NetworkController.v.
    Constructors that only set members to their arguments, destructors and the macros
    of class declarations have no definition of their own. *)
From stdpp Require Export prelude gmap strings list fin_maps sorting.
From Stdlib Require Export ZArith Lia.

#[global] Set Default Goal Selector "!".
#[export] Unset Program Cases.

(** ** Machine integers *)

Declare Scope netd_scope.
Delimit Scope netd_scope with netd.
#[global] Open Scope netd_scope.
#[global] Open Scope Z_scope.

(** Conversion of an integer to an unsigned type of 8, 16, 32 or 64 bits. *)
Definition u8 (x : Z) : Z := x mod 2 ^ 8.
Definition u16 (x : Z) : Z := x mod 2 ^ 16.
Definition u32 (x : Z) : Z := x mod 2 ^ 32.
Definition u64 (x : Z) : Z := x mod 2 ^ 64.

(** Conversion to a signed 32-bit [int] (two's complement). *)
Definition s32 (x : Z) : Z := (x + 2 ^ 31) mod 2 ^ 32 - 2 ^ 31.

(** ** errno values (Linux, asm-generic) *)

Definition EPERM : Z := 1.
Definition ENOENT : Z := 2.
Definition ESRCH : Z := 3.
Definition EBADF : Z := 9.
Definition ECHILD : Z := 10.
Definition ENOMEM : Z := 12.
Definition EACCES : Z := 13.
Definition EFAULT : Z := 14.
Definition EBUSY : Z := 16.
Definition EEXIST : Z := 17.
Definition ENODEV : Z := 19.
Definition EINVAL : Z := 22.
Definition ENOSPC : Z := 28.
Definition ERANGE : Z := 34.
Definition ENAMETOOLONG : Z := 36.
Definition ENONET : Z := 64.
Definition EPROTO : Z := 71.
Definition EBADMSG : Z := 74.
Definition EUSERS : Z := 87.
Definition EAFNOSUPPORT : Z := 97.
Definition ENOBUFS : Z := 105.
Definition EREMOTEIO : Z := 121.

(** ** Ordered traversal of [std::map] and [std::set]

    A [std::map] is a [gmap], a [std::set] a [gset]; a range-for loop over one
    of them visits the entries in the order of the keys. *)

Definition key_le {V} (a b : Z * V) : Prop := a.1 <= b.1.
Definition string_le (a b : string) : Prop := String.leb a b = true.
Definition string_key_le {V} (a b : string * V) : Prop := string_le a.1 b.1.

#[export] Instance key_le_dec {V} : RelDecision (@key_le V) :=
  fun a b => Z_le_dec a.1 b.1.
#[export] Instance string_le_dec : RelDecision string_le :=
  fun a b => decide (String.leb a b = true).
#[export] Instance string_key_le_dec {V} : RelDecision (@string_key_le V) :=
  fun a b => string_le_dec a.1 b.1.

Definition map_entries {V} (m : gmap Z V) : list (Z * V) :=
  merge_sort key_le (map_to_list m).

Definition string_map_entries {V} (m : gmap string V) : list (string * V) :=
  merge_sort string_key_le (map_to_list m).

Definition string_set_elements (s : gset string) : list string :=
  merge_sort string_le (elements s).

(** ** Counting occurrences *)

Definition cnt {A} `{EqDecision A} (x : A) (l : list A) : Z :=
  Z.of_nat (length (filter (fun y => x = y) l)).

(** ** Tactics *)

(** Case split on the scrutinees of the [if]s and [match]es of the goal. *)
Ltac split_cases :=
  repeat (case_match; simplify_eq/=; try done).

(** Split a boolean hypothesis or goal built with [&&], [||] and [negb]. *)
Ltac bool_to_prop :=
  repeat match goal with
  | H : (_ && _)%bool = true |- _ => apply andb_true_iff in H as [? ?]
  | H : (_ || _)%bool = false |- _ => apply orb_false_iff in H as [? ?]
  | H : negb _ = true |- _ => apply negb_true_iff in H
  | H : negb _ = false |- _ => apply negb_false_iff in H
  | H : (_ =? _) = true |- _ => apply Z.eqb_eq in H
  | H : (_ =? _) = false |- _ => apply Z.eqb_neq in H
  | H : (_ <=? _) = true |- _ => apply Z.leb_le in H
  | H : (_ <=? _) = false |- _ => apply Z.leb_gt in H
  | H : (_ <? _) = true |- _ => apply Z.ltb_lt in H
  | H : (_ <? _) = false |- _ => apply Z.ltb_ge in H
  end.

Create HintDb netd.
Create Rewrite HintDb netd.
Create Rewrite HintDb cnt.

(** ** Lemmas on machine integers *)

Lemma u32_range x : 0 <= u32 x < 2 ^ 32.
Proof. apply Z.mod_pos_bound. lia. Qed.

Lemma u16_range x : 0 <= u16 x < 2 ^ 16.
Proof. apply Z.mod_pos_bound. lia. Qed.

Lemma u32_small x : 0 <= x < 2 ^ 32 -> u32 x = x.
Proof. intros. by apply Z.mod_small. Qed.

Lemma u32_idemp x : u32 (u32 x) = u32 x.
Proof. apply u32_small, u32_range. Qed.

Lemma u16_small x : 0 <= x < 2 ^ 16 -> u16 x = x.
Proof. intros. by apply Z.mod_small. Qed.

Lemma u16_idemp x : u16 (u16 x) = u16 x.
Proof. apply u16_small, u16_range. Qed.

Definition is_int (x : Z) : Prop := - 2 ^ 31 <= x < 2 ^ 31.
Lemma s32_int x : is_int (s32 x).
Proof. unfold s32, is_int. pose proof (Z.mod_pos_bound (x + 2 ^ 31) (2 ^ 32)). lia. Qed.
Lemma s32_small x : - 2 ^ 31 <= x < 2 ^ 31 -> s32 x = x.
Proof. intros. unfold s32. rewrite Z.mod_small; lia. Qed.

#[export] Hint Resolve u32_range u16_range : netd.
#[export] Hint Rewrite u32_idemp u16_idemp : netd.

(** Bitwise disjunction accumulates error codes: the result is 0 iff both are. *)
Lemma lor_eq_0 a b : Z.lor a b = 0 <-> a = 0 /\ b = 0.
Proof. apply Z.lor_eq_0_iff. Qed.

(** ** Lemmas on counting *)

Section Cnt.
Context {A : Type} `{EqDecision A}.
Implicit Types (x : A) (l : list A).

Lemma cnt_nil x : cnt x [] = 0.
Proof. done. Qed.

Lemma cnt_cons x y l : cnt x (y :: l) = (if decide (x = y) then 1 else 0) + cnt x l.
Proof. unfold cnt. rewrite filter_cons. case_decide; cbn [length]; lia. Qed.

Lemma cnt_app x l1 l2 : cnt x (l1 ++ l2) = cnt x l1 + cnt x l2.
Proof. unfold cnt. rewrite filter_app, length_app. lia. Qed.

Lemma cnt_nonneg x l : 0 <= cnt x l.
Proof. unfold cnt. lia. Qed.

#[export] Instance cnt_Permutation x : Proper ((≡ₚ) ==> eq) (cnt x).
Proof. intros l1 l2 H. unfold cnt. by rewrite H. Qed.

Lemma cnt_elem_of x l : x ∈ l <-> 0 < cnt x l.
Proof.
  induction l as [|y l IH].
  - rewrite cnt_nil. split; [by intros ?%not_elem_of_nil|lia].
  - rewrite cnt_cons, elem_of_cons, IH. pose proof (cnt_nonneg x l).
    case_decide; intuition (try congruence; try lia).
Qed.

(** Lists with the same counts are permutations of each other. *)
Lemma cnt_permutation l1 l2 : (forall x, cnt x l1 = cnt x l2) -> l1 ≡ₚ l2.
Proof.
  revert l2. induction l1 as [|a l1 IH]; intros l2 Hc.
  - destruct l2 as [|b l2]; [done|]. specialize (Hc b).
    rewrite cnt_cons, decide_True, cnt_nil in Hc by done.
    pose proof (cnt_nonneg b l2). lia.
  - assert (a ∈ l2) as (l & l' & ->)%list_elem_of_split.
    { apply cnt_elem_of. rewrite <-Hc, cnt_cons, decide_True by done.
      pose proof (cnt_nonneg a l1). lia. }
    rewrite <-Permutation_middle. f_equiv. apply IH. intros x.
    specialize (Hc x). rewrite cnt_app, !cnt_cons in Hc. rewrite cnt_app. lia.
Qed.
End Cnt.
#[export] Existing Instance cnt_Permutation.
#[export] Hint Rewrite @cnt_nil @cnt_cons @cnt_app : cnt.

Lemma cnt_concat_map_Permutation {A B} `{EqDecision B} (f : A -> list B) x l1 l2 :
  l1 ≡ₚ l2 -> cnt x (concat (map f l1)) = cnt x (concat (map f l2)).
Proof.
  induction 1 as [|a l1 l2 _ IH|a b l|l1 l2 l3 _ IH1 _ IH2]; cbn; autorewrite with cnt; lia.
Qed.

(** ** Lemmas on ordered traversal *)

Lemma map_entries_Permutation {V} (m : gmap Z V) : map_entries m ≡ₚ map_to_list m.
Proof. apply merge_sort_Permutation. Qed.

Lemma elem_of_map_entries {V} (m : gmap Z V) k v : (k, v) ∈ map_entries m <-> m !! k = Some v.
Proof. by rewrite map_entries_Permutation, elem_of_map_to_list. Qed.

Lemma string_set_elements_Permutation s : string_set_elements s ≡ₚ elements s.
Proof. apply merge_sort_Permutation. Qed.

Lemma elem_of_string_set_elements s x : x ∈ string_set_elements s <-> x ∈ s.
Proof. by rewrite string_set_elements_Permutation, elem_of_elements. Qed.

Lemma string_set_elements_insert s x :
  x ∉ s -> string_set_elements ({[x]} ∪ s) ≡ₚ x :: string_set_elements s.
Proof.
  intros. rewrite !string_set_elements_Permutation. by apply elements_union_singleton.
Qed.

Lemma string_set_elements_delete s x :
  x ∈ s -> string_set_elements s ≡ₚ x :: string_set_elements (s ∖ {[x]}).
Proof.
  intros. rewrite <-(string_set_elements_insert (s ∖ {[x]})) by set_solver.
  by rewrite (union_difference_singleton_L x s) at 1.
Qed.

(** The keys of the ordered traversal increase strictly. *)
Lemma map_entries_sorted {V} (m : gmap Z V) :
  StronglySorted (fun a b : Z * V => a.1 < b.1) (map_entries m).
Proof.
  assert (StronglySorted key_le (map_entries m)) as Hs.
  { apply StronglySorted_merge_sort; unfold key_le; [intros x y z|intros x y]; lia. }
  assert (NoDup (map_entries m).*1) as Hnd.
  { rewrite map_entries_Permutation. apply NoDup_fst_map_to_list. }
  induction Hs as [|a l Hs IH Hall]; [constructor|].
  cbn in Hnd. apply NoDup_cons in Hnd as [Hni Hnd]. constructor; [by apply IH|].
  rewrite Forall_forall in Hall |- *. intros b Hb.
  specialize (Hall b Hb). assert (a.1 ≠ b.1); [|unfold key_le in *; lia].
  intros Heq. apply Hni. rewrite Heq. apply list_elem_of_fmap. by exists b.
Qed.

Lemma map_entries_insert_new {V} (m : gmap Z V) k v :
  m !! k = None -> map_entries (<[k := v]> m) ≡ₚ (k, v) :: map_entries m.
Proof. intros. rewrite !map_entries_Permutation. by apply map_to_list_insert. Qed.

Lemma map_entries_delete {V} (m : gmap Z V) k v :
  m !! k = Some v -> map_entries m ≡ₚ (k, v) :: map_entries (delete k m).
Proof. intros. rewrite !map_entries_Permutation. symmetry. by apply map_to_list_delete. Qed.

(** In a strongly sorted list, an earlier element is related to a later one. *)
Lemma StronglySorted_lookup {A} (R : A -> A -> Prop) l i j x y :
  StronglySorted R l -> l !! i = Some x -> l !! j = Some y -> (i < j)%nat -> R x y.
Proof.
  intros Hs. revert i j. induction Hs as [|a l Hs IH Hall]; intros i j Hi Hj Hij; [done|].
  destruct j as [|j]; [lia|]. destruct i as [|i]; cbn in Hi, Hj.
  - injection Hi as ->. rewrite Forall_lookup in Hall. by eapply Hall.
  - apply (IH i j); [done..|lia].
Qed.
