(* ===== verification/Platform.v ===== *)
(** * Platform: the system calls netd makes, and the monad its code runs in

    netd is a program that talks to the kernel and to child processes.  A run
    is recorded as a [trace], the list of the calls it made with their replies,
    oldest first.  What the outside world answers is the parameter [Kernel]: a
    function of everything that happened before the call, so that quantifying
    over it quantifies over every behaviour of the environment, failures
    included. *)
From S2P Require Import Prelude.

(** ** Calls and replies *)

(** Outcome of the socket/connect/writev/recv sequence of one netlink request. *)
Inductive nlreply :=
| NlErrno (e : Z)      (** one of the calls failed and left this errno *)
| NlShort (n : Z)      (** recv returned [n], not the size of the response *)
| NlAck (error : Z).   (** a full response, carrying [nlmsgerr.error] *)

(** Outcome of [android_fork_execvp]: its return value, and the wait status
    split into [WIFEXITED] and [WEXITSTATUS]. *)
Record execres := ExecRes { ex_ret : Z; ex_exited : bool; ex_status : Z }.

(** Starting a child: [errno] of a failed pipe() or fork(), or the child's pid
    and the end of the pipe the parent keeps. *)
Inductive spawned := SpawnError (e : Z) | Spawned (pid fd : Z).

(** File operations whose result the code uses or whose effect matters. *)
Inductive fileop :=
| FOpen (path : string)
| FChmod (path : string)
| FWrite (path data : string)
| FRead (path : string)
| FAccess (path : string)
| FOpenDir (path : string)      (** 0, or [- errno] *)
| FMkdir (path : string)
| FChown (path : string)
| FUnlink (path : string).

(** Calls into the libraries that drive the Wi-Fi hardware: hardware_legacy, and
    the vendor's access point library. *)
Inductive wifiop :=
| WifiEntropy                      (** ensure_entropy_file_exists() *)
| WifiFirmware (path : string)     (** wifi_change_fw_path() *)
| QsapSet (argv : list string)     (** qsapsetSoftap() *)
| QsapCreate (interface : string)  (** qsap_create_intf() *)
| QsapRemove (interface : string)  (** qsap_remove_intf() *)
| QsapExec (command : string).     (** qsap_hostd_exec_cmd() *)

(** Changes of an interface's configuration with libnetutils. *)
Inductive ifcop :=
| IfcSetAddr (name : string) (addr : Z)
| IfcSetPrefixLength (name : string) (prefixLength : Z)
| IfcUp (name : string)
| IfcDown (name : string)
| IfcClearAddresses (name : string).

Inductive event :=
| EvNetlink (msg : list Z) (r : nlreply)
| EvExec (argv : list string) (r : execres)
| EvIfIndex (name : string) (index : Z)
| EvFile (op : fileop) (r : Z)
| EvSpawn (argv : list string) (pid : Z)   (** fork(), and execv() in the child: the
                                               program's path and the arguments after [argv[0]] *)
| EvKill (pid : Z)                          (** kill(SIGTERM) and waitpid() *)
| EvWait (pid r : Z)                        (** waitpid() with [WNOHANG] *)
| EvPipe (fd : Z) (data : string) (r : Z)   (** write() to a child's pipe *)
| EvShell (command : string) (output : option string)   (** a command line run with popen() *)
| EvSystem (command : string) (r : Z)       (** system() *)
| EvIfc (op : ifcop) (r : Z)
| EvWifi (op : wifiop) (r : Z)
| EvResolvSet (netId : Z) (domains : string) (servers : list string)
| EvResolvFlush (netId : Z)
| EvResolvDelete (netId : Z).

Definition trace := list event.

Class Kernel := {
  k_netlink : trace -> list Z -> nlreply;
  k_exec : trace -> list string -> execres;
  k_ifindex : trace -> string -> Z;
  k_file : trace -> fileop -> Z;
  k_property : trace -> string -> string;
  (** What a command run with [popen] prints; [None] when it cannot be run. *)
  k_popen : trace -> string -> option string;
  (** What a file holds; [None] when it cannot be opened. *)
  k_read : trace -> string -> option string;
  (** The entries of a directory, with whether they are directories themselves;
      [None] when it cannot be opened. *)
  k_readdir : trace -> string -> option (list (string * bool));
  k_spawn : trace -> list string -> spawned;
  (** waitpid() of a child with [WNOHANG]: 0 while it runs. *)
  k_wait : trace -> Z -> Z;
  (** What system() returns. *)
  k_system : trace -> string -> Z;
  (** libnetutils: the value returned, the address, prefix length and flags of an
      interface, and its hardware address. *)
  k_ifc : trace -> ifcop -> Z;
  k_ifc_get_info : trace -> string -> option (Z * Z * Z);
  k_ifc_get_hwaddr : trace -> string -> option (list Z);
  (** The Wi-Fi libraries: the value returned, the text that qsap_hostd_exec_cmd()
      leaves in its buffer, the firmware's path for a mode (NULL when there is none). *)
  k_wifi : trace -> wifiop -> Z;
  k_qsap_reply : trace -> string -> string;
  k_wifi_fw_path : Z -> option string;
  (** PKCS5_PBKDF2_HMAC_SHA1 of a password and a salt, 4096 rounds, 32 bytes. *)
  k_pbkdf2 : string -> string -> list Z;
  (** [prefixLengthToIpv4Netmask] of libnetutils. *)
  k_netmask : Z -> Z;
  (** What write() returns. *)
  k_pipe : trace -> Z -> string -> Z;
  (** [getaddrinfo] with [AI_NUMERICHOST]: family and raw address of the first
      result, [None] when it fails or finds nothing. *)
  k_getaddrinfo : string -> option (Z * list Z);
  (** [inet_pton]: the raw address on success. *)
  k_inet_pton : Z -> string -> option (list Z);
  (** [inet_aton]: the address in network order, as the integer the machine
      (little-endian) reads. *)
  k_inet_aton : string -> option Z
}.

(** ** The monad *)

(** A computation over a component's state [S]; the trace grows at its end. *)
Definition M (S A : Type) : Type := S -> trace -> A * S * trace.

#[export] Instance M_ret S : MRet (M S) := fun A a s tr => (a, s, tr).
#[export] Instance M_bind S : MBind (M S) :=
  fun A B k m s tr => let '(a, s1, tr1) := m s tr in k a s1 tr1.

(** Read or change the component's state. *)
Definition gets {S A} (f : S -> A) : M S A := fun s tr => (f s, s, tr).
Definition modify {S} (f : S -> S) : M S unit := fun s tr => (tt, f s, tr).

(** [if (int ret = c) return ret;] followed by [k]. *)
Definition orelse {S} (c k : M S Z) : M S Z :=
  ret ← c; if ret =? 0 then k else mret ret.
Notation "'try!' c ;; k" := (orelse c k)
  (at level 100, c at level 99, k at level 200, right associativity) : netd_scope.

(** [for (x : l) { if (int ret = f(x)) return ret; }  return 0;] *)
Fixpoint for_each {S A} (l : list A) (f : A -> M S Z) : M S Z :=
  match l with
  | [] => mret 0
  | x :: l => try! f x ;; for_each l f
  end.

(** Run a computation on a part of the state. *)
Definition zoom {S T A} (get : S -> T) (put : T -> S -> S) (m : M T A) : M S A :=
  fun s tr => let '(a, t, tr') := m (get s) tr in (a, put t s, tr').

Definition on_fst {S T A} (m : M S A) : M (S * T) A := zoom fst (fun s p => (s, p.2)) m.
Definition on_snd {S T A} (m : M T A) : M (S * T) A := zoom snd (fun t p => (p.1, t)) m.

(** ** The calls as computations *)

Section Calls.
Context `{K : Kernel} {S : Type}.

Definition sys_netlink (msg : list Z) : M S nlreply :=
  fun s tr => let r := k_netlink tr msg in (r, s, tr ++ [EvNetlink msg r]).
Definition sys_exec (argv : list string) : M S execres :=
  fun s tr => let r := k_exec tr argv in (r, s, tr ++ [EvExec argv r]).
(** [android_fork_execvp] without a status pointer: the child's exit status is
    the value returned. *)
Definition exec_value (r : execres) : Z :=
  if negb (ex_ret r =? 0) then ex_ret r else if ex_exited r then ex_status r else - ECHILD.
Definition sys_exec_value (argv : list string) : M S Z :=
  fun s tr => let r := k_exec tr argv in (exec_value r, s, tr ++ [EvExec argv r]).
Definition sys_ifindex (name : string) : M S Z :=
  fun s tr => let r := k_ifindex tr name in (r, s, tr ++ [EvIfIndex name r]).
Definition sys_file (op : fileop) : M S Z :=
  fun s tr => let r := k_file tr op in (r, s, tr ++ [EvFile op r]).
Definition sys_popen (command : string) : M S (option string) :=
  fun s tr => (k_popen tr command, s, tr).
Definition sys_read (path : string) : M S (option string) :=
  fun s tr => (k_read tr path, s, tr).
Definition sys_spawn (argv : list string) : M S spawned :=
  fun s tr => let r := k_spawn tr argv in
    (r, s, match r with Spawned pid _ => tr ++ [EvSpawn argv pid] | SpawnError _ => tr end).
Definition sys_readdir (path : string) : M S (option (list (string * bool))) :=
  fun s tr => (k_readdir tr path, s, tr).
Definition sys_wait (pid : Z) : M S Z :=
  fun s tr => let r := k_wait tr pid in (r, s, tr ++ [EvWait pid r]).
Definition sys_shell (command : string) : M S (option string) :=
  fun s tr => let r := k_popen tr command in (r, s, tr ++ [EvShell command r]).
Definition sys_system (command : string) : M S Z :=
  fun s tr => let r := k_system tr command in (r, s, tr ++ [EvSystem command r]).
Definition sys_ifc (op : ifcop) : M S Z :=
  fun s tr => let r := k_ifc tr op in (r, s, tr ++ [EvIfc op r]).
Definition sys_wifi (op : wifiop) : M S Z :=
  fun s tr => let r := k_wifi tr op in (r, s, tr ++ [EvWifi op r]).
(** The value returned is not looked at. *)
Definition sys_qsap_exec (command : string) : M S string :=
  fun s tr => (k_qsap_reply tr command, s, tr ++ [EvWifi (QsapExec command) (k_wifi tr (QsapExec command))]).
Definition sys_ifc_get_info (name : string) : M S (option (Z * Z * Z)) :=
  fun s tr => (k_ifc_get_info tr name, s, tr).
Definition sys_ifc_get_hwaddr (name : string) : M S (option (list Z)) :=
  fun s tr => (k_ifc_get_hwaddr tr name, s, tr).
Definition sys_kill (pid : Z) : M S unit := fun s tr => (tt, s, tr ++ [EvKill pid]).
Definition sys_pipe (fd : Z) (data : string) : M S Z :=
  fun s tr => let r := k_pipe tr fd data in (r, s, tr ++ [EvPipe fd data r]).
Definition sys_property (key : string) : M S string :=
  fun s tr => (k_property tr key, s, tr).
Definition sys_resolv_set (netId : Z) (domains : string) (servers : list string) : M S unit :=
  fun s tr => (tt, s, tr ++ [EvResolvSet netId domains servers]).
Definition sys_resolv_flush (netId : Z) : M S unit :=
  fun s tr => (tt, s, tr ++ [EvResolvFlush netId]).
Definition sys_resolv_delete (netId : Z) : M S unit :=
  fun s tr => (tt, s, tr ++ [EvResolvDelete netId]).
End Calls.

(** ** Weakest preconditions *)

Definition wp {S A} (m : M S A) (Q : A -> S -> trace -> Prop) : S -> trace -> Prop :=
  fun s tr => let '(a, s', tr') := m s tr in Q a s' tr'.

Section Wp.
Context {S : Type}.
Implicit Types (s : S) (tr : trace).

Lemma wp_run {A} (m : M S A) Q s tr a s' tr' :
  m s tr = (a, s', tr') -> wp m Q s tr -> Q a s' tr'.
Proof. unfold wp. by intros ->. Qed.

Lemma wp_intro {A} (m : M S A) (Q : A -> S -> trace -> Prop) s tr :
  (forall a s' tr', m s tr = (a, s', tr') -> Q a s' tr') -> wp m Q s tr.
Proof. unfold wp. destruct (m s tr) as [[a s'] tr']. eauto. Qed.

Lemma wp_mono {A} (m : M S A) (Q Q' : A -> S -> trace -> Prop) s tr :
  wp m Q s tr -> (forall a s' tr', Q a s' tr' -> Q' a s' tr') -> wp m Q' s tr.
Proof. unfold wp. destruct (m s tr) as [[a s'] tr']. eauto. Qed.

Lemma wp_and {A} (m : M S A) (Q Q' : A -> S -> trace -> Prop) s tr :
  wp m Q s tr -> wp m Q' s tr -> wp m (fun a s' tr' => Q a s' tr' /\ Q' a s' tr') s tr.
Proof. unfold wp. by destruct (m s tr) as [[a s'] tr']. Qed.

Lemma wp_ret {A} (a : A) Q s tr : Q a s tr -> wp (mret a) Q s tr.
Proof. done. Qed.

Lemma wp_bind {A B} (m : M S A) (k : A -> M S B) Q s tr :
  wp m (fun a s' tr' => wp (k a) Q s' tr') s tr -> wp (m ≫= k) Q s tr.
Proof. unfold wp, mbind, M_bind. by destruct (m s tr) as [[a s'] tr']. Qed.

Lemma wp_gets {A} (f : S -> A) Q s tr : Q (f s) s tr -> wp (gets f) Q s tr.
Proof. done. Qed.

Lemma wp_orelse (c k : M S Z) Q s tr :
  wp c (fun ret s' tr' => (ret = 0 -> wp k Q s' tr') /\ (ret <> 0 -> Q ret s' tr')) s tr ->
  wp (orelse c k) Q s tr.
Proof.
  intros H. apply wp_bind. eapply wp_mono; [exact H|]. intros ret s' tr' [H0 H1].
  destruct (ret =? 0) eqn:E; [apply H0|apply wp_ret, H1]; lia.
Qed.

Lemma wp_zoom {T A} (get : S -> T) put (m : M T A) Q s tr :
  wp m (fun a t tr' => Q a (put t s) tr') (get s) tr -> wp (zoom get put m) Q s tr.
Proof. unfold wp, zoom. by destruct (m (get s) tr) as [[a t] tr']. Qed.
End Wp.

Lemma wp_modify {S} (f : S -> S) Q s tr : Q tt (f s) tr -> wp (modify f) Q s tr.
Proof. done. Qed.

(** Loop rule: [Inv done rest] holds of the elements handled so far and to come. *)
Lemma wp_for_each {S A} (Inv : list A -> S -> trace -> Prop) (f : A -> M S Z)
    (Q : Z -> S -> trace -> Prop) l s tr :
  Inv l s tr ->
  (forall x rest s tr, Inv (x :: rest) s tr ->
    wp (f x) (fun ret s' tr' =>
      (ret = 0 -> Inv rest s' tr') /\ (ret <> 0 -> Q ret s' tr')) s tr) ->
  (forall s tr, Inv [] s tr -> Q 0 s tr) ->
  wp (for_each l f) Q s tr.
Proof.
  intros H Hstep Hend. revert s tr H. induction l as [|x l IH]; intros s tr H.
  - apply wp_ret. by apply Hend.
  - apply wp_orelse. eapply wp_mono; [by apply Hstep|]. cbn.
    intros ret s' tr' [H0 H1]. split; [|done]. intros. apply IH. by apply H0.
Qed.

(** ** Traces only grow *)

(** [appends m]: a run of [m] extends the trace. *)
Definition appends {S A} (m : M S A) : Prop :=
  forall s tr, exists evs, (m s tr).2 = tr ++ evs.

Section Appends.
Context `{K : Kernel} {S : Type}.

Lemma appends_ret {A} (a : A) : appends (S:=S) (mret a).
Proof. intros s tr. exists []. by rewrite app_nil_r. Qed.

Lemma appends_bind {A B} (m : M S A) (k : A -> M S B) :
  appends m -> (forall a, appends (k a)) -> appends (m ≫= k).
Proof.
  intros Hm Hk s tr. unfold mbind, M_bind. destruct (Hm s tr) as [e1 H1].
  destruct (m s tr) as [[a s1] tr1]. cbn in H1. subst.
  destruct (Hk a s1 (tr ++ e1)) as [e2 ->]. exists (e1 ++ e2). by rewrite app_assoc.
Qed.

Lemma appends_orelse (c k : M S Z) : appends c -> appends k -> appends (orelse c k).
Proof. intros. apply appends_bind; [done|]. intros a. case_match; [done|apply appends_ret]. Qed.

Lemma appends_for_each {A} (l : list A) (f : A -> M S Z) :
  (forall x, appends (f x)) -> appends (for_each l f).
Proof.
  intros. induction l; [apply appends_ret|]. cbn. by apply appends_orelse.
Qed.
End Appends.
