(* ===== verification/Cstd.v ===== *)
(** * Cstd: what netd uses of the C library

    A C string is a [string] without its terminating NUL.  [unsigned long] has
    64 bits and [int] 32 (the LP64 ABI). *)
From S2P Require Import Prelude.
From Stdlib Require Export Ascii.

Definition ULONG_MAX : Z := 2 ^ 64 - 1.
Definition LONG_MAX : Z := 2 ^ 63 - 1.
Definition LONG_MIN : Z := - 2 ^ 63.

(** ** Characters (the "C" locale) *)

Definition code (c : ascii) : Z := Z.of_N (N_of_ascii c).
Definition isspace (c : ascii) : bool := (code c =? 32) || ((9 <=? code c) && (code c <=? 13)).
Definition isdigit (c : ascii) : bool := (48 <=? code c) && (code c <=? 57).
Definition isupper (c : ascii) : bool := (65 <=? code c) && (code c <=? 90).
Definition islower (c : ascii) : bool := (97 <=? code c) && (code c <=? 122).
Definition isalnum (c : ascii) : bool := isdigit c || isupper c || islower c.

(** Value of a digit or letter in a numeral, [None] for any other character. *)
Definition digit_val (c : ascii) : option Z :=
  if isdigit c then Some (code c - 48)
  else if isupper c then Some (code c - 55)
  else if islower c then Some (code c - 87)
  else None.

Definition is_digit_of (base : Z) (c : ascii) : bool :=
  match digit_val c with Some d => d <? base | None => false end.

(** ** Strings *)

Definition strlen (s : string) : Z := Z.of_nat (String.length s).

(** [strchr]: the suffix that starts at the first occurrence of [c]. *)
Fixpoint strchr (s : string) (c : ascii) : option string :=
  match s with
  | EmptyString => None
  | String d s' => if Ascii.eqb d c then Some s else strchr s' c
  end.

(** The part of [s] before the first occurrence of [c] (all of it if none). *)
Fixpoint before_char (s : string) (c : ascii) : string :=
  match s with
  | EmptyString => EmptyString
  | String d s' => if Ascii.eqb d c then EmptyString else String d (before_char s' c)
  end.

(** The bytes of a C string, without and with its terminating NUL. *)
Definition bytes_of (s : string) : list Z := map code (String.list_ascii_of_string s).
Definition cbytes_of (s : string) : list Z := bytes_of s ++ [0].

Fixpoint skip_spaces (s : string) : string :=
  match s with
  | String c s' => if isspace c then skip_spaces s' else s
  | EmptyString => s
  end.

(** ** strtoul, strtol, atoi *)

(** The value of the longest run of digits at the start of [s] added to [acc],
    and the rest. *)
Fixpoint read_digits (base : Z) (s : string) (acc : Z) : Z * string :=
  match s with
  | String c s' =>
      match digit_val c with
      | Some d => if d <? base then read_digits base s' (acc * base + d) else (acc, s)
      | None => (acc, s)
      end
  | EmptyString => (acc, s)
  end.

Definition read_sign (s : string) : bool * string :=
  match s with
  | String "-" s' => (true, s')
  | String "+" s' => (false, s')
  | _ => (false, s)
  end.

(** The base and the numeral once a "0x" or "0" prefix is accounted for. *)
Definition read_base (base : Z) (s : string) : Z * string :=
  match s with
  | String "0" (String x (String h _ as s')) =>
      if ((base =? 0) || (base =? 16)) && (Ascii.eqb x "x" || Ascii.eqb x "X") && is_digit_of 16 h
      then (16, s')
      else (if base =? 0 then 8 else base, s)
  | String "0" _ => (if base =? 0 then 8 else base, s)
  | _ => (if base =? 0 then 10 else base, s)
  end.

(** Sign, magnitude and rest of the numeral at the start of [s]; [None] if
    there is none. *)
Definition read_integer (base : Z) (s : string) : option (bool * Z * string) :=
  let '(neg, s1) := read_sign (skip_spaces s) in
  let '(b, s2) := read_base base s1 in
  match s2 with
  | String c _ =>
      if is_digit_of b c then let '(v, rest) := read_digits b s2 0 in Some (neg, v, rest)
      else None
  | EmptyString => None
  end.

(** [strtoul(s, &end, base)]: the value and [end].  Without a numeral the
    value is 0 and [end] is [s]; a magnitude out of range gives [ULONG_MAX]; a
    minus sign negates in [unsigned long]. *)
Definition strtoul (s : string) (base : Z) : Z * string :=
  match read_integer base s with
  | None => (0, s)
  | Some (neg, v, rest) =>
      (if ULONG_MAX <? v then ULONG_MAX else if neg : bool then u64 (- v) else v, rest)
  end.

Definition strtol (s : string) (base : Z) : Z * string :=
  match read_integer base s with
  | None => (0, s)
  | Some (neg, v, rest) =>
      (if neg : bool then Z.max LONG_MIN (- v) else Z.min LONG_MAX v, rest)
  end.

Definition atoi (s : string) : Z := s32 (strtol s 10).1.
Definition atoll (s : string) : Z := (strtol s 10).1.

(** ** snprintf of integers *)

Definition digit_char (d : Z) : ascii :=
  ascii_of_N (Z.to_N (if d <? 10 then 48 + d else 87 + d)).

(** Digits of [n] in [base], most significant first, before [acc]; [fuel]
    bounds the number of digits. *)
Fixpoint print_digits (fuel : nat) (base n : Z) (acc : string) : string :=
  match fuel with
  | O => acc
  | S fuel =>
      let acc := String (digit_char (n mod base)) acc in
      if n / base =? 0 then acc else print_digits fuel base (n / base) acc
  end.

(** ["%u"] and ["%x"] of an unsigned value below [2^64], ["%d"] and PRId64 of a signed one. *)
Definition print_u (n : Z) : string := print_digits 64 10 n "".
Definition print_x (n : Z) : string := print_digits 64 16 n "".
Definition print_d (n : Z) : string := if n <? 0 then "-" +:+ print_u (- n) else print_u n.

(** "%02x" and "%.2x" of a byte *)
Definition hex2 (b : Z) : string := if b <? 16 then "0" +:+ print_x b else print_x b.

(** ** sscanf and fgets *)

(** Conversion specifications: a byte to match, white space to skip, "%s", and
    "%lld" (SCNd64). *)
Inductive scan := SLit (c : ascii) | SSpace | SStr | SInt64.
Inductive scanned := VStr (s : string) | VInt (n : Z).

Fixpoint scan_format (format : string) : list scan :=
  match format with
  | EmptyString => []
  | String "%" (String "s" f) => SStr :: scan_format f
  | String "%" (String "l" (String "l" (String "d" f))) => SInt64 :: scan_format f
  | String c f => (if isspace c then SSpace else SLit c) :: scan_format f
  end.

(** The longest prefix without white space, and the rest. *)
Fixpoint span_word (s : string) : string * string :=
  match s with
  | EmptyString => ("", "")
  | String c s' => if isspace c then ("", s) else let '(w, rest) := span_word s' in (String c w, rest)
  end.

(** The values assigned before the first directive that fails. *)
Fixpoint scan_run (ds : list scan) (s : string) : list scanned :=
  match ds with
  | [] => []
  | SLit c :: ds =>
      match s with String d s' => if Ascii.eqb c d then scan_run ds s' else [] | EmptyString => [] end
  | SSpace :: ds => scan_run ds (skip_spaces s)
  | SStr :: ds =>
      let '(w, rest) := span_word (skip_spaces s) in
      if String.eqb w "" then [] else VStr w :: scan_run ds rest
  | SInt64 :: ds =>
      match read_integer 10 s with
      | None => []
      | Some (neg, v, rest) =>
          VInt (if neg : bool then Z.max LONG_MIN (- v) else Z.min LONG_MAX v) :: scan_run ds rest
      end
  end.
Definition sscanf (s format : string) : list scanned := scan_run (scan_format format) s.

Definition newline : ascii := ascii_of_N 10.

(** The buffers that repeated [fgets(buf, size, fp)] yields: at most [size - 1]
    bytes each, up to a newline included.  [room] is what is left of the buffer. *)
Fixpoint fgets_loop (size room : nat) (buf s : string) : list string :=
  match s with
  | EmptyString => if String.eqb buf "" then [] else [buf]
  | String c s =>
      let buf := buf +:+ String c "" in
      if Ascii.eqb c newline || (room =? 1)%nat then buf :: fgets_loop size size "" s
      else fgets_loop size (room - 1) buf s
  end.
Definition fgets_all (size : Z) (s : string) : list string :=
  let room := Z.to_nat (size - 1) in fgets_loop room room "" s.

(** ** Characters and digits *)

Lemma code_range c : 0 <= code c < 256.
Proof.
  unfold code. pose proof (N_ascii_bounded c). lia.
Qed.

Lemma code_ascii_of_N n : 0 <= n < 256 -> code (ascii_of_N (Z.to_N n)) = n.
Proof. intros. unfold code. rewrite N_ascii_embedding; lia. Qed.

Lemma digit_val_char d : 0 <= d < 36 -> digit_val (digit_char d) = Some d.
Proof.
  intros. unfold digit_val, digit_char, isdigit, isupper, islower.
  destruct (d <? 10) eqn:E; rewrite !code_ascii_of_N by lia.
  - rewrite (proj2 (Z.leb_le 48 (48 + d))), (proj2 (Z.leb_le (48 + d) 57)) by lia.
    cbn [andb]. f_equal. lia.
  - rewrite (proj2 (Z.leb_gt (87 + d) 57)) by lia.
    rewrite (proj2 (Z.leb_gt (87 + d) 90)) by lia. rewrite !andb_false_r.
    rewrite (proj2 (Z.leb_le 97 (87 + d))), (proj2 (Z.leb_le (87 + d) 122)) by lia.
    cbn [andb]. f_equal. lia.
Qed.

Lemma digit_char_is_digit base d : 0 <= d < base -> base <= 36 -> is_digit_of base (digit_char d) = true.
Proof. intros. unfold is_digit_of. rewrite digit_val_char by lia. lia. Qed.

(** ** Reading back what was printed *)

(** [rest] does not continue a numeral in [base]. *)
Definition ends_numeral (base : Z) (rest : string) : bool :=
  match rest with String c _ => negb (is_digit_of base c) | EmptyString => true end.

Lemma read_digits_ends base rest acc :
  ends_numeral base rest = true -> read_digits base rest acc = (acc, rest).
Proof.
  destruct rest as [|c rest]; [done|]. cbn. unfold is_digit_of. intros H.
  destruct (digit_val c); [|done]. by rewrite (proj1 (negb_true_iff _) H).
Qed.

(** Reading the printed digits of [n] shifts the accumulator by as many
    digits and adds [n]. *)
Lemma read_print_digits fuel base n tl acc :
  2 <= base <= 36 -> 0 <= n < base ^ Z.of_nat fuel -> (0 < fuel)%nat ->
  exists k, 0 <= k /\
    read_digits base (print_digits fuel base n tl) acc = read_digits base tl (acc * base ^ k + n).
Proof.
  intros Hb. revert n tl acc. induction fuel as [|fuel IH]; intros n tl acc Hn Hf; [lia|].
  cbn [print_digits].
  assert (n = base * (n / base) + n mod base) as Hdm by (apply Z.div_mod; lia).
  assert (0 <= n mod base < base) by (apply Z.mod_pos_bound; lia).
  assert (0 <= n / base) by (apply Z.div_pos; lia).
  assert (forall s a, read_digits base (String (digit_char (n mod base)) s) a =
            read_digits base s (a * base + n mod base)) as Hstep.
  { intros. cbn. rewrite digit_val_char by lia.
    by rewrite (proj2 (Z.ltb_lt (n mod base) base)) by lia. }
  destruct (n / base =? 0) eqn:E.
  - exists 1. split; [lia|]. rewrite Hstep, Z.pow_1_r. do 2 f_equal. lia.
  - destruct fuel as [|fuel].
    { change (Z.of_nat 1) with 1 in Hn. rewrite Z.pow_1_r in Hn.
      assert (n / base = 0) by (by apply Z.div_small). lia. }
    destruct (IH (n / base) (String (digit_char (n mod base)) tl) acc) as (k & Hk & ->);
      [|lia|].
    { split; [done|]. apply Z.div_lt_upper_bound; [lia|].
      rewrite <-Z.pow_succ_r by lia. rewrite <-Nat2Z.inj_succ. apply Hn. }
    exists (k + 1). split; [lia|]. rewrite Hstep, Z.pow_add_r, Z.pow_1_r by lia. f_equal. lia.
Qed.

Lemma print_digits_nonempty fuel base n tl :
  2 <= base <= 36 -> 0 <= n -> (0 < fuel)%nat ->
  exists d s, print_digits fuel base n tl = String (digit_char d) s /\ 0 <= d < base /\
    (n <> 0 -> n < base ^ Z.of_nat fuel -> d <> 0) /\ (n = 0 -> d = 0 /\ s = tl).
Proof.
  intros Hb. revert n tl. induction fuel as [|fuel IH]; intros n tl Hn Hf; [lia|].
  cbn [print_digits].
  assert (0 <= n mod base < base) by (apply Z.mod_pos_bound; lia).
  assert (n = base * (n / base) + n mod base) as Hdm by (apply Z.div_mod; lia).
  assert (0 <= n / base) by (apply Z.div_pos; lia).
  destruct (n / base =? 0) eqn:E.
  - exists (n mod base), tl. split_and!; [done|lia|lia|lia|].
    intros ->. by rewrite Z.mod_0_l by lia.
  - destruct fuel as [|fuel].
    { cbn. exists (n mod base), tl. split_and!; [done|lia|lia| |].
      - intros _ Hlt. change (Z.of_nat 1) with 1 in Hlt. rewrite Z.pow_1_r in Hlt.
        assert (n / base = 0) by (by apply Z.div_small). lia.
      - intros ->. by rewrite Z.div_0_l in E by lia. }
    destruct (IH (n / base) (String (digit_char (n mod base)) tl)) as (d & s & -> & ? & Hd & _);
      [done|lia|].
    exists d, s. split_and!; [done|lia|lia| |].
    + intros _ Hlt. apply Hd; [lia|]. apply Z.div_lt_upper_bound; [lia|].
      rewrite <-Z.pow_succ_r by lia. rewrite <-Nat2Z.inj_succ. apply Hlt.
    + intros ->. by rewrite Z.div_0_l in E by lia.
Qed.

Lemma digit_char_code d : 0 <= d < 10 -> code (digit_char d) = 48 + d.
Proof.
  intros. unfold digit_char. rewrite (proj2 (Z.ltb_lt d 10)) by lia.
  apply code_ascii_of_N. lia.
Qed.

(** A decimal digit is neither a space nor a sign. *)
Lemma decimal_digit_plain d s :
  0 <= d < 10 -> read_sign (skip_spaces (String (digit_char d) s)) = (false, String (digit_char d) s).
Proof.
  intros Hd. assert (d ∈ [0;1;2;3;4;5;6;7;8;9]) as Hin.
  { rewrite !elem_of_cons. lia. }
  rewrite !elem_of_cons in Hin. repeat destruct Hin as [->|Hin]; try done.
  by apply not_elem_of_nil in Hin.
Qed.

Lemma read_base_decimal d s :
  0 <= d < 10 -> (d = 0 -> ends_numeral 10 s = true /\ ends_numeral 36 s = true) ->
  read_base 0 (String (digit_char d) s) = (if d =? 0 then 8 else 10, String (digit_char d) s) /\
  read_base 10 (String (digit_char d) s) = (10, String (digit_char d) s).
Proof.
  intros Hd H0. assert (d ∈ [0;1;2;3;4;5;6;7;8;9]) as Hin.
  { rewrite !elem_of_cons. lia. }
  rewrite !elem_of_cons in Hin. repeat destruct Hin as [->|Hin]; try done.
  2: { by apply not_elem_of_nil in Hin. }
  destruct H0 as [_ H36]; [done|]. cbn.
  destruct s as [|x [|h s]]; [done..|]. cbn in H36.
  destruct (Ascii.eqb x "x") eqn:Ex; [apply Ascii.eqb_eq in Ex as ->; done|].
  destruct (Ascii.eqb x "X") eqn:EX; [apply Ascii.eqb_eq in EX as ->; done|].
  done.
Qed.

(** Printing a number in decimal and reading it back, with base 0 or 10 and a
    rest that is neither a digit nor a letter, gives the number and the rest. *)
Lemma read_integer_print_u n rest base :
  0 <= n < 2 ^ 64 -> (base = 0 \/ base = 10) ->
  ends_numeral 36 rest = true ->
  read_integer base (print_digits 64 10 n rest) = Some (false, n, rest).
Proof.
  intros Hn Hbase Hr.
  assert (forall b, b <= 36 -> ends_numeral b rest = true) as Hrb.
  { intros b Hb. destruct rest as [|c r]; [done|]. cbn in *. unfold is_digit_of in *.
    destruct (digit_val c) as [v|]; [|done]. apply negb_true_iff in Hr.
    apply negb_true_iff. lia. }
  destruct (print_digits_nonempty 64 10 n rest) as (d & s & Hp & Hd & Hnz & Hz); [lia..|].
  assert (n < 10 ^ Z.of_nat 64) by (cbn; lia).
  unfold read_integer. rewrite Hp, decimal_digit_plain by lia.
  destruct (read_base_decimal d s) as [R0 R10]; [lia| |].
  { intros ->. destruct (decide (n = 0)) as [->|]; [|by destruct Hnz].
    destruct (Hz eq_refl) as [_ ->]. split; apply Hrb; lia. }
  assert (exists b, read_base base (String (digit_char d) s) = (b, String (digit_char d) s) /\
            (b = 10 \/ b = 8 /\ n = 0)) as (b & -> & Hb).
  { destruct Hbase as [->| ->].
    - rewrite R0. destruct (d =? 0) eqn:Ed; [|by eexists; eauto].
      exists 8. split; [done|]. right. split; [done|].
      destruct (decide (n = 0)); [done|]. destruct Hnz; [done..|lia].
    - rewrite R10. by eexists; eauto. }
  assert (is_digit_of b (digit_char d) = true) as Hdig.
  { destruct Hb as [->|[-> ->]]; [apply digit_char_is_digit; lia|].
    by destruct (Hz eq_refl) as [-> _]. }
  rewrite Hdig. destruct Hb as [->|[-> ->]].
  - rewrite <-Hp.
    destruct (read_print_digits 64 10 n rest 0) as (k & _ & ->); [lia|cbn; lia|lia|].
    rewrite read_digits_ends by (apply Hrb; lia). done.
  - destruct (Hz eq_refl) as [-> ->]. cbn -[read_digits]. change (read_digits 8 (String (digit_char 0) rest) 0) with (read_digits 8 rest 0).
    rewrite read_digits_ends by (apply Hrb; lia). done.
Qed.

Lemma strtoul_print_u n rest base :
  0 <= n < 2 ^ 64 -> (base = 0 \/ base = 10) -> ends_numeral 36 rest = true ->
  strtoul (print_digits 64 10 n rest) base = (n, rest).
Proof.
  intros. unfold strtoul. rewrite read_integer_print_u by done.
  by rewrite (proj2 (Z.ltb_ge ULONG_MAX n)) by (unfold ULONG_MAX; lia).
Qed.

Lemma print_u_inj n m : 0 <= n < 2 ^ 64 -> 0 <= m < 2 ^ 64 -> print_u n = print_u m -> n = m.
Proof.
  unfold print_u. intros Hn Hm E. pose proof (strtoul_print_u n "" 10 Hn (or_intror eq_refl) eq_refl) as E1.
  rewrite E, strtoul_print_u in E1 by auto. congruence.
Qed.

(** Printing in front of a suffix. *)
Lemma print_digits_app fuel base n tl tl' :
  print_digits fuel base n (tl +:+ tl') = print_digits fuel base n tl +:+ tl'.
Proof.
  revert n tl. induction fuel as [|fuel IH]; intros n tl; [done|]. cbn [print_digits].
  change (String ?c (tl +:+ tl')) with (String c tl +:+ tl').
  case_match; [done|]. apply IH.
Qed.

(** ** Strings without spaces *)

Fixpoint no_space (s : string) : bool :=
  match s with
  | EmptyString => true
  | String c s => negb (Ascii.eqb c " ") && no_space s
  end.

Lemma no_space_app s1 s2 : no_space (s1 +:+ s2) = no_space s1 && no_space s2.
Proof.
  induction s1 as [|c s1 IH]; [done|].
  change (negb (Ascii.eqb c " ") && no_space (s1 +:+ s2) = (negb (Ascii.eqb c " ") && no_space s1) && no_space s2).
  by rewrite IH, andb_assoc.
Qed.

Lemma digit_char_no_space d : 0 <= d < 36 -> Ascii.eqb (digit_char d) " " = false.
Proof.
  intros Hd. apply Ascii.eqb_neq. intros E. pose proof (digit_val_char d Hd) as H. by rewrite E in H.
Qed.

Lemma print_digits_no_space fuel base n tl :
  2 <= base <= 36 -> no_space tl = true -> no_space (print_digits fuel base n tl) = true.
Proof.
  intros Hb. revert n tl. induction fuel as [|fuel IH]; intros n tl Htl; [done|]. cbn [print_digits].
  assert (no_space (String (digit_char (n mod base)) tl) = true).
  { cbn [no_space]. rewrite digit_char_no_space, Htl; [done|].
    pose proof (Z.mod_pos_bound n base). lia. }
  case_match; [done|by apply IH].
Qed.

Lemma print_digits_length fuel base n tl :
  strlen (print_digits fuel base n tl) <= Z.of_nat fuel + strlen tl.
Proof.
  revert n tl. induction fuel as [|fuel IH]; intros n tl; cbn [print_digits]; [lia|].
  assert (forall c, strlen (String c tl) = 1 + strlen tl) as Hl by (intros; unfold strlen; cbn; lia).
  case_match; [rewrite Hl; lia|]. etrans; [apply IH|]. rewrite Hl. lia.
Qed.

Lemma append_empty_r s : s +:+ "" = s.
Proof. induction s as [|c s IH]; [done|]. change (String c (s +:+ "") = String c s). by rewrite IH. Qed.

Lemma append_assoc s1 s2 s3 : (s1 +:+ s2) +:+ s3 = s1 +:+ (s2 +:+ s3).
Proof.
  induction s1 as [|c s1 IH]; [done|].
  change (String c ((s1 +:+ s2) +:+ s3) = String c (s1 +:+ (s2 +:+ s3))). by rewrite IH.
Qed.

Lemma strlen_app s1 s2 : strlen (s1 +:+ s2) = strlen s1 + strlen s2.
Proof.
  unfold strlen. induction s1 as [|c s1 IH]; [done|].
  change (Z.of_nat (S (String.length (s1 +:+ s2))) = Z.of_nat (S (String.length s1)) + Z.of_nat (String.length s2)).
  lia.
Qed.

Lemma print_d_no_space n : no_space (print_d n) = true.
Proof.
  unfold print_d, print_u. case_match; rewrite ?no_space_app, print_digits_no_space by (lia || done); done.
Qed.

Lemma print_d_length n : strlen (print_d n) <= 65.
Proof.
  unfold print_d, print_u. pose proof (print_digits_length 64 10 n "") as H1.
  pose proof (print_digits_length 64 10 (- n) "") as H2.
  assert (strlen "" = 0) by done. assert (strlen "-" = 1) by done.
  case_match; rewrite ?strlen_app; lia.
Qed.

Lemma print_d_inj n m : - 2 ^ 63 <= n < 2 ^ 63 -> - 2 ^ 63 <= m < 2 ^ 63 -> print_d n = print_d m -> n = m.
Proof.
  intros Hn Hm. unfold print_d.
  assert (forall k x, 0 <= k < 2 ^ 64 -> print_u k <> String "-" x) as Hpos.
  { intros k x Hk E. unfold print_u in E. destruct (print_digits_nonempty 64 10 k "") as (d & r & Hp & Hd & _); [lia..|].
    rewrite Hp in E. injection E as E _. pose proof (digit_val_char d) as H. rewrite E in H.
    assert (0 <= d < 36) as Hd' by lia. by specialize (H Hd'). }
  destruct (n <? 0) eqn:En, (m <? 0) eqn:Em; bool_to_prop; intros E.
  - change (String "-" (print_u (- n)) = String "-" (print_u (- m))) in E. injection E as E.
    apply print_u_inj in E; lia.
  - symmetry in E. change (print_u m = String "-" (print_u (- n))) in E. apply Hpos in E; [done|lia].
  - change (print_u n = String "-" (print_u (- m))) in E. apply Hpos in E; [done|lia].
  - apply print_u_inj in E; lia.
Qed.

#[global] Arguments print_digits : simpl never.
#[global] Arguments print_u : simpl never.
#[global] Arguments print_x : simpl never.
#[global] Arguments print_d : simpl never.
#[global] Arguments strtoul : simpl never.
#[global] Arguments strtol : simpl never.
