(* ===== verification/Fwmark.v ===== *)
(** * Fwmark: permissions and the socket mark

    Models [include/Permission.h] and [include/Fwmark.h].  A [Fwmark] is a
    union of a 32-bit integer and a struct of bit-fields: the model keeps the
    integer, and each field is the bit operation the compiler generates for it
    (fields are laid out from the least significant bit, as on every Android
    target). *)
From S2P Require Import Prelude.

(** ** Permission *)

Definition PERMISSION_NONE : Z := 0x0.
Definition PERMISSION_NETWORK : Z := 0x1.
Definition PERMISSION_SYSTEM : Z := 0x3.

(** [(held & required) == required] *)
Definition has_permission (held required : Z) : bool := Z.land held required =? required.

(** ** Fwmark *)

Definition FWMARK_NET_ID_MASK : Z := 0xffff.

(** [Fwmark() : intValue(0)] *)
Definition Fwmark_init : Z := 0.

(** Read and write the bit-field of [width] bits at [pos]. *)
Definition get_bits (pos width w : Z) : Z := Z.land (Z.shiftr w pos) (Z.ones width).
Definition set_bits (pos width v w : Z) : Z :=
  Z.lor (Z.ldiff w (Z.shiftl (Z.ones width) pos)) (Z.shiftl (Z.land v (Z.ones width)) pos).

Definition fwmark_netId (w : Z) : Z := get_bits 0 16 w.
Definition fwmark_explicitlySelected (w : Z) : bool := Z.testbit w 16.
Definition fwmark_protectedFromVpn (w : Z) : bool := Z.testbit w 17.
Definition fwmark_permission (w : Z) : Z := get_bits 18 2 w.

Definition set_netId (v w : Z) : Z := set_bits 0 16 v w.
Definition set_explicitlySelected (b : bool) (w : Z) : Z := set_bits 16 1 (Z.b2z b) w.
Definition set_protectedFromVpn (b : bool) (w : Z) : Z := set_bits 17 1 (Z.b2z b) w.
Definition set_permission (p w : Z) : Z := set_bits 18 2 p w.

(** ** Bit-field laws *)

Lemma testbit_get_bits pos width w i :
  0 <= pos -> 0 <= width -> 0 <= i ->
  Z.testbit (get_bits pos width w) i = (Z.testbit w (i + pos) && (i <? width))%bool.
Proof.
  intros. unfold get_bits. rewrite Z.land_spec, Z.shiftr_spec, Z.testbit_ones_nonneg by lia.
  done.
Qed.

Lemma testbit_set_bits pos width v w i :
  0 <= pos -> 0 <= width -> 0 <= i ->
  Z.testbit (set_bits pos width v w) i =
  if ((pos <=? i) && (i <? pos + width))%bool then Z.testbit v (i - pos) else Z.testbit w i.
Proof.
  intros. unfold set_bits. rewrite Z.lor_spec, Z.ldiff_spec, !Z.shiftl_spec by lia.
  destruct (pos <=? i) eqn:E1; cbn.
  - rewrite Z.land_spec, !Z.testbit_ones_nonneg by lia.
    replace (i - pos <? width) with (i <? pos + width) by lia.
    destruct (i <? pos + width); cbn.
    + by rewrite andb_false_r, andb_true_r.
    + by rewrite andb_true_r, andb_false_r, orb_false_r.
  - rewrite !(Z.testbit_neg_r _ (i - pos)) by lia. cbn. by rewrite andb_true_r, orb_false_r.
Qed.

Ltac bits_ext :=
  apply Z.bits_inj'; let i := fresh "i" in let Hi := fresh "Hi" in intros i Hi.

Lemma get_set_bits_same pos width v w :
  0 <= pos -> 0 <= width -> get_bits pos width (set_bits pos width v w) = v mod 2 ^ width.
Proof.
  intros. rewrite <-Z.land_ones by done. bits_ext.
  rewrite testbit_get_bits, testbit_set_bits by lia.
  rewrite Z.land_spec, Z.testbit_ones_nonneg by lia.
  destruct (i <? width) eqn:E; [|by rewrite !andb_false_r].
  rewrite (proj2 (Z.leb_le pos (i + pos))) by lia.
  rewrite (proj2 (Z.ltb_lt (i + pos) (pos + width))) by lia. cbn.
  by rewrite Z.add_simpl_r.
Qed.

Lemma get_set_bits_other p1 w1 p2 w2 v w :
  0 <= p1 -> 0 <= w1 -> 0 <= p2 -> 0 <= w2 -> p1 + w1 <= p2 \/ p2 + w2 <= p1 ->
  get_bits p1 w1 (set_bits p2 w2 v w) = get_bits p1 w1 w.
Proof.
  intros. bits_ext. rewrite !testbit_get_bits, testbit_set_bits by lia.
  destruct (i <? w1) eqn:E; [|by rewrite !andb_false_r].
  destruct (p2 <=? i + p1) eqn:E1, (i + p1 <? p2 + w2) eqn:E2; cbn; try done. lia.
Qed.

Lemma set_bits_testbit_other pos width v w i :
  0 <= pos -> 0 <= width -> 0 <= i -> i < pos \/ pos + width <= i ->
  Z.testbit (set_bits pos width v w) i = Z.testbit w i.
Proof.
  intros. rewrite testbit_set_bits by lia.
  destruct (pos <=? i) eqn:E1, (i <? pos + width) eqn:E2; cbn; try done. lia.
Qed.

Lemma set_bits_testbit_same pos b w :
  0 <= pos -> Z.testbit (set_bits pos 1 (Z.b2z b) w) pos = b.
Proof.
  intros. rewrite testbit_set_bits by lia.
  rewrite (proj2 (Z.leb_le pos pos)), (proj2 (Z.ltb_lt pos (pos + 1))) by lia. cbn.
  rewrite Z.sub_diag. by destruct b.
Qed.

Lemma bounded_by_bits w n :
  0 <= n -> 0 <= w -> (forall i, n <= i -> Z.testbit w i = false) -> 0 <= w < 2 ^ n.
Proof.
  intros Hn Hw Hb. split; [done|].
  assert (w = Z.land w (Z.ones n)) as ->.
  { bits_ext. rewrite Z.land_spec, Z.testbit_ones_nonneg by lia.
    destruct (i <? n) eqn:E; [by rewrite andb_true_r|]. rewrite Hb by lia. done. }
  rewrite Z.land_ones by done. apply Z.mod_pos_bound. lia.
Qed.

Lemma testbit_above w n i : 0 <= w < 2 ^ n -> n <= i -> Z.testbit w i = false.
Proof.
  intros [H0 H1] Hi. destruct (decide (w = 0)) as [->|]; [apply Z.testbit_0_l|].
  apply Z.bits_above_log2; [lia|]. apply Z.log2_lt_pow2 in H1; lia.
Qed.

Lemma set_bits_nonneg pos width v w : 0 <= pos -> 0 <= width -> 0 <= w -> 0 <= set_bits pos width v w.
Proof.
  intros. unfold set_bits. apply Z.lor_nonneg. split.
  - apply Z.ldiff_nonneg. left. lia.
  - apply Z.shiftl_nonneg, Z.land_nonneg. right. rewrite Z.ones_equiv.
    pose proof (Z.pow_pos_nonneg 2 width). lia.
Qed.

Lemma set_bits_range pos width v w n :
  0 <= pos -> 0 <= width -> pos + width <= n -> 0 <= w < 2 ^ n ->
  0 <= set_bits pos width v w < 2 ^ n.
Proof.
  intros. apply bounded_by_bits; [lia|apply set_bits_nonneg; lia|]. intros i Hi.
  rewrite set_bits_testbit_other by lia. eapply testbit_above; [|exact Hi]. lia.
Qed.

(** Setters keep the mark a 32-bit value. *)
Lemma set_fields_range w :
  0 <= w < 2 ^ 32 ->
  (forall v, 0 <= set_netId v w < 2 ^ 32) /\
  (forall b, 0 <= set_explicitlySelected b w < 2 ^ 32) /\
  (forall b, 0 <= set_protectedFromVpn b w < 2 ^ 32) /\
  (forall p, 0 <= set_permission p w < 2 ^ 32).
Proof. intros. split_and!; intros; by apply set_bits_range. Qed.

(** ** Marks as sums

    Fields written from the least significant one up add to the mark. *)

Definition pack (netId : Z) (explicit protected : bool) (permission : Z) : Z :=
  netId + 2 ^ 16 * Z.b2z explicit + 2 ^ 17 * Z.b2z protected + 2 ^ 18 * permission.

Definition valid_permission (p : Z) : Prop := 0 <= p < 4.
Definition netId_fits (n : Z) : Prop := 0 <= n < 2 ^ 16.

Lemma land_shiftl_low w pos v : 0 <= pos -> 0 <= w < 2 ^ pos -> Z.land w (Z.shiftl v pos) = 0.
Proof.
  intros Hpos Hw. bits_ext. rewrite Z.land_spec, Z.bits_0.
  destruct (decide (i < pos)).
  - by rewrite Z.shiftl_spec_low, andb_false_r.
  - by rewrite (testbit_above w pos) by lia.
Qed.

Lemma set_bits_above pos width v w :
  0 <= pos -> 0 <= width -> 0 <= w < 2 ^ pos -> 0 <= v < 2 ^ width ->
  set_bits pos width v w = w + 2 ^ pos * v.
Proof.
  intros. unfold set_bits. rewrite (Z.land_ones v), Z.mod_small by done.
  assert (Z.ldiff w (Z.shiftl (Z.ones width) pos) = w) as ->.
  { bits_ext. rewrite Z.ldiff_spec. destruct (decide (i < pos)).
    - rewrite (Z.shiftl_spec_low _ pos) by done. apply andb_true_r.
    - by rewrite (testbit_above w pos) by lia. }
  pose proof (Z.add_lor_land w (Z.shiftl v pos)) as Hsum.
  rewrite land_shiftl_low, Z.add_0_r in Hsum by done. rewrite Hsum, Z.shiftl_mul_pow2 by done. lia.
Qed.

Lemma b2z_range b : 0 <= Z.b2z b < 2 ^ 1.
Proof. by destruct b. Qed.

(** The four fields set in order on an empty mark. *)
Lemma set_all_pack netId e p perm :
  netId_fits netId -> valid_permission perm ->
  set_permission perm (set_protectedFromVpn p (set_explicitlySelected e (set_netId netId Fwmark_init)))
    = pack netId e p perm.
Proof.
  unfold netId_fits, valid_permission. intros.
  pose proof (b2z_range e). pose proof (b2z_range p).
  unfold set_permission, set_protectedFromVpn, set_explicitlySelected, set_netId, Fwmark_init, pack.
  rewrite (set_bits_above 0), (set_bits_above 16), (set_bits_above 17), (set_bits_above 18); lia.
Qed.

(** Leaving a field out is setting it to 0. *)
Lemma set_netId_pack netId : netId_fits netId -> set_netId netId Fwmark_init = pack netId false false 0.
Proof.
  unfold netId_fits. intros. unfold set_netId, Fwmark_init, pack. rewrite set_bits_above; cbn; lia.
Qed.

Lemma set_explicit_pack netId e :
  netId_fits netId -> set_explicitlySelected e (pack netId false false 0) = pack netId e false 0.
Proof.
  unfold netId_fits. intros. pose proof (b2z_range e). unfold set_explicitlySelected, pack.
  rewrite set_bits_above; cbn; lia.
Qed.

Lemma set_permission_pack netId e p perm :
  netId_fits netId -> valid_permission perm ->
  set_permission perm (pack netId e p 0) = pack netId e p perm.
Proof.
  unfold netId_fits, valid_permission. intros. pose proof (b2z_range e). pose proof (b2z_range p).
  unfold set_permission, pack. rewrite set_bits_above; lia.
Qed.

Lemma set_permission_init perm :
  valid_permission perm -> set_permission perm Fwmark_init = pack 0 false false perm.
Proof. intros. apply (set_permission_pack 0 false false); done. Qed.

Lemma pack_range netId e p perm :
  netId_fits netId -> valid_permission perm -> 0 <= pack netId e p perm < 2 ^ 20.
Proof.
  unfold netId_fits, valid_permission, pack. intros. pose proof (b2z_range e).
  pose proof (b2z_range p). lia.
Qed.

(** ** A mark covered by its mask

    The kernel ignores the bits outside the mask, so a rule whose mark has such
    bits is refused. *)

Lemma ldiff_0_testbit a b :
  Z.ldiff a b = 0 <-> forall i, 0 <= i -> Z.testbit a i = true -> Z.testbit b i = true.
Proof.
  split.
  - intros H i Hi Ha. assert (Z.testbit (Z.ldiff a b) i = false) as Hd by (by rewrite H, Z.bits_0).
    rewrite Z.ldiff_spec, Ha in Hd. by destruct (Z.testbit b i).
  - intros H. bits_ext. rewrite Z.ldiff_spec, Z.bits_0.
    destruct (Z.testbit a i) eqn:E; [|done]. by rewrite H.
Qed.

Lemma ldiff_set_bits pos width v v' a b :
  0 <= pos -> 0 <= width -> Z.ldiff a b = 0 ->
  (forall i, 0 <= i < width -> Z.testbit v i = true -> Z.testbit v' i = true) ->
  Z.ldiff (set_bits pos width v a) (set_bits pos width v' b) = 0.
Proof.
  intros Hp Hw Hab Hv. apply ldiff_0_testbit. intros i Hi. rewrite !testbit_set_bits by done.
  destruct ((pos <=? i) && (i <? pos + width))%bool eqn:E.
  - bool_to_prop. apply Hv. lia.
  - by apply ldiff_0_testbit.
Qed.

Lemma pack_within netId e p e' p' perm :
  netId_fits netId -> valid_permission perm -> implb e e' = true -> implb p p' = true ->
  Z.ldiff (pack netId e p perm) (pack FWMARK_NET_ID_MASK e' p' perm) = 0.
Proof.
  intros Hn Hv He Hp. rewrite <-!set_all_pack by done.
  repeat (apply ldiff_set_bits; [done..| |]); try done.
  - intros i Hi _. change FWMARK_NET_ID_MASK with (Z.ones 16).
    rewrite Z.testbit_ones_nonneg by lia. lia.
  - intros i Hi. assert (i = 0) as -> by lia. by destruct e, e'.
  - intros i Hi. assert (i = 0) as -> by lia. by destruct p, p'.
Qed.

(** ** Reading a field that was set last or before other fields *)

Lemma read_netId_netId v w : netId_fits v -> fwmark_netId (set_netId v w) = v.
Proof.
  unfold netId_fits. intros. unfold fwmark_netId, set_netId.
  rewrite get_set_bits_same by done. by apply Z.mod_small.
Qed.
Lemma read_netId_explicit b w : fwmark_netId (set_explicitlySelected b w) = fwmark_netId w.
Proof. apply get_set_bits_other; lia. Qed.
Lemma read_netId_protected b w : fwmark_netId (set_protectedFromVpn b w) = fwmark_netId w.
Proof. apply get_set_bits_other; lia. Qed.
Lemma read_netId_permission p w : fwmark_netId (set_permission p w) = fwmark_netId w.
Proof. apply get_set_bits_other; lia. Qed.

Lemma read_explicit_explicit b w : fwmark_explicitlySelected (set_explicitlySelected b w) = b.
Proof. by apply set_bits_testbit_same. Qed.
Lemma read_explicit_netId v w : fwmark_explicitlySelected (set_netId v w) = fwmark_explicitlySelected w.
Proof. apply set_bits_testbit_other; lia. Qed.
Lemma read_explicit_protected b w :
  fwmark_explicitlySelected (set_protectedFromVpn b w) = fwmark_explicitlySelected w.
Proof. apply set_bits_testbit_other; lia. Qed.
Lemma read_explicit_permission p w :
  fwmark_explicitlySelected (set_permission p w) = fwmark_explicitlySelected w.
Proof. apply set_bits_testbit_other; lia. Qed.

Lemma read_protected_protected b w : fwmark_protectedFromVpn (set_protectedFromVpn b w) = b.
Proof. by apply set_bits_testbit_same. Qed.
Lemma read_protected_netId v w : fwmark_protectedFromVpn (set_netId v w) = fwmark_protectedFromVpn w.
Proof. apply set_bits_testbit_other; lia. Qed.
Lemma read_protected_explicit b w :
  fwmark_protectedFromVpn (set_explicitlySelected b w) = fwmark_protectedFromVpn w.
Proof. apply set_bits_testbit_other; lia. Qed.
Lemma read_protected_permission p w :
  fwmark_protectedFromVpn (set_permission p w) = fwmark_protectedFromVpn w.
Proof. apply set_bits_testbit_other; lia. Qed.

Lemma read_permission_permission p w : valid_permission p -> fwmark_permission (set_permission p w) = p.
Proof.
  unfold valid_permission. intros. unfold fwmark_permission, set_permission.
  rewrite get_set_bits_same by done. by apply Z.mod_small.
Qed.
Lemma read_permission_netId v w : fwmark_permission (set_netId v w) = fwmark_permission w.
Proof. apply get_set_bits_other; lia. Qed.
Lemma read_permission_explicit b w : fwmark_permission (set_explicitlySelected b w) = fwmark_permission w.
Proof. apply get_set_bits_other; lia. Qed.
Lemma read_permission_protected b w : fwmark_permission (set_protectedFromVpn b w) = fwmark_permission w.
Proof. apply get_set_bits_other; lia. Qed.

Create Rewrite HintDb fwmark.
#[export] Hint Rewrite read_netId_explicit read_netId_protected read_netId_permission
  read_explicit_explicit read_explicit_netId read_explicit_protected read_explicit_permission
  read_protected_protected read_protected_netId read_protected_explicit read_protected_permission
  read_permission_netId read_permission_explicit read_permission_protected : fwmark.
