(* ===== verification/UidRanges.v ===== *)
(** * UidRanges: sorted lists of UID ranges

    Models [server/UidRanges.cpp].  [mRanges] is a vector of pairs kept sorted
    by [std::pair]'s lexicographic order. *)
From S2P Require Import Prelude Cstd.

(** [const uid_t INVALID_UID = static_cast<uid_t>(-1)] (server/NetdConstants.h) *)
Definition INVALID_UID : Z := 2 ^ 32 - 1.

Module UidRanges.

Abbreviation Range := (Z * Z)%type.

(** [std::pair]'s [operator<] and the order it induces. *)
Definition range_ltb (a b : Range) : bool :=
  (a.1 <? b.1) || ((a.1 =? b.1) && (a.2 <? b.2)).
Definition range_le (a b : Range) : Prop := range_ltb b a = false.
#[export] Instance range_le_dec : RelDecision range_le :=
  fun a b => decide (range_ltb b a = false).

(** [std::lower_bound]: the position of the first element not less than [v]. *)
Fixpoint lower_bound (l : list Range) (v : Range) : nat :=
  match l with
  | [] => 0
  | r :: l => if range_ltb r v then S (lower_bound l v) else 0
  end.

Definition hasUid (mRanges : list Range) (uid : Z) : bool :=
  let iter := lower_bound mRanges (uid, uid) in
  match mRanges !! iter with Some r => r.1 =? uid | None => false end ||
  match iter with
  | O => false
  | S prev => match mRanges !! prev with Some r => uid <=? r.2 | None => false end
  end.

(** One iteration of the loop of [parseFrom]: the range an argument denotes. *)
Definition parse_range (arg : string) : option Range :=
  match arg with
  | EmptyString => None
  | _ =>
      let '(v, endPtr) := strtoul arg 0 in
      let uidStart := u32 v in
      uidEnd ←
        match endPtr with
        | EmptyString => Some uidStart
        | String "-" EmptyString => None
        | String "-" endPtr' =>
            let '(v', endPtr'') := strtoul endPtr' 0 in
            let uidEnd := u32 v' in
            match endPtr'' with
            | EmptyString => if uidEnd <? uidStart then None else Some uidEnd
            | _ => None
            end
        | _ => None
        end;
      if (uidStart =? INVALID_UID) || (uidEnd =? INVALID_UID) then None
      else Some (uidStart, uidEnd)
  end.

(** The loop: [false] and the ranges pushed so far on the first bad argument. *)
Fixpoint parse_loop (argv : list string) (mRanges : list Range) : bool * list Range :=
  match argv with
  | [] => (true, mRanges)
  | arg :: argv =>
      match parse_range arg with
      | None => (false, mRanges)
      | Some r => parse_loop argv (mRanges ++ [r])
      end
  end.

(** Result and the new [mRanges]: sorted on success, as pushed on failure. *)
Definition parseFrom (argv : list string) : bool * list Range :=
  let '(ok, mRanges) := parse_loop argv [] in
  if ok then (true, merge_sort range_le mRanges) else (false, mRanges).

(** [std::inplace_merge] of the ranges and the appended [other]. *)
Definition add (mRanges other : list Range) : list Range := list_merge range_le mRanges other.

(** [std::set_difference]. *)
Fixpoint set_difference (l1 : list Range) : list Range -> list Range :=
  fix go (l2 : list Range) : list Range :=
    match l1, l2 with
    | [], _ => []
    | _, [] => l1
    | x1 :: l1', x2 :: l2' =>
        if range_ltb x1 x2 then x1 :: set_difference l1' l2
        else if range_ltb x2 x1 then go l2'
        else set_difference l1' l2'
    end.

Definition remove (mRanges other : list Range) : list Range := set_difference mRanges other.

(** ** Specification *)

(** The ranges cover [uid]. *)
Definition covers (l : list Range) (uid : Z) : Prop :=
  exists r, r ∈ l /\ r.1 <= uid <= r.2.

Definition valid_range (r : Range) : Prop := 0 <= r.1 <= r.2 /\ r.2 < INVALID_UID.
Definition sorted_ranges (l : list Range) : Prop := StronglySorted range_le l.
(** No range is strictly inside another one (the ends increase with the starts). *)
Definition unnested (l : list Range) : Prop := StronglySorted (fun a b => a.2 <= b.2) l.

(** The text form of a range: one UID, or "start-end". *)
Definition print_range (r : Range) : string :=
  if r.1 =? r.2 then print_u r.1 else print_u r.1 +:+ "-" +:+ print_u r.2.

(** ** Order *)

Lemma range_le_iff a b : range_le a b <-> a.1 < b.1 \/ (a.1 = b.1 /\ a.2 <= b.2).
Proof.
  unfold range_le, range_ltb. destruct a as [a1 a2], b as [b1 b2]; cbn.
  destruct (b1 <? a1) eqn:E1, (b1 =? a1) eqn:E2, (b2 <? a2) eqn:E3; cbn;
    bool_to_prop; split; intros; try done; lia.
Qed.

Lemma range_ltb_iff a b : range_ltb a b = true <-> a.1 < b.1 \/ (a.1 = b.1 /\ a.2 < b.2).
Proof.
  unfold range_ltb. destruct a as [a1 a2], b as [b1 b2]; cbn.
  destruct (a1 <? b1) eqn:E1, (a1 =? b1) eqn:E2, (a2 <? b2) eqn:E3; cbn;
    bool_to_prop; split; intros; try done; lia.
Qed.

#[export] Instance range_le_trans : Transitive range_le.
Proof. intros a b c. rewrite !range_le_iff. lia. Qed.
#[export] Instance range_le_total : Total range_le.
Proof. intros a b. rewrite !range_le_iff. lia. Qed.
#[export] Instance range_le_antisymm : AntiSymm eq range_le.
Proof. intros [a1 a2] [b1 b2]. rewrite !range_le_iff. cbn. intros. f_equal; lia. Qed.

Lemma range_ltb_false_eq a b : range_ltb a b = false -> range_ltb b a = false -> a = b.
Proof. intros H1 H2. by apply (anti_symm range_le). Qed.

(** ** lower_bound *)

Lemma lower_bound_before l v i r :
  l !! i = Some r -> (i < lower_bound l v)%nat -> range_ltb r v = true.
Proof.
  revert i. induction l as [|x l IH]; intros i Hi Hlt; [done|]. cbn in Hlt.
  destruct (range_ltb x v) eqn:E; [|lia].
  destruct i as [|i]; [by injection Hi as <-|]. apply (IH i); [done|lia].
Qed.

Lemma lower_bound_at l v r : l !! lower_bound l v = Some r -> range_ltb r v = false.
Proof.
  induction l as [|x l IH]; [done|]. cbn.
  destruct (range_ltb x v) eqn:E; [done|]. cbn. intros [= <-]. done.
Qed.

Lemma lower_bound_length l v : (lower_bound l v <= length l)%nat.
Proof. induction l as [|x l IH]; cbn; [done|]. case_match; lia. Qed.

(** Everything from the bound on is not less, when the list is sorted. *)
Lemma lower_bound_after l v i r :
  sorted_ranges l -> l !! i = Some r -> (lower_bound l v <= i)%nat -> range_ltb r v = false.
Proof.
  intros Hs. revert i. induction Hs as [|x l Hs IH Hall]; intros i Hi Hle; [done|].
  cbn in Hle. destruct (range_ltb x v) eqn:E.
  - destruct i as [|i]; [lia|]. apply (IH i); [done|lia].
  - destruct i as [|i]; [by injection Hi as <-|]. cbn in Hi.
    rewrite Forall_lookup in Hall. specialize (Hall i r Hi).
    apply not_true_iff_false. intros Hr. apply not_true_iff_false in E. apply E.
    rewrite range_ltb_iff in Hr |- *. rewrite range_le_iff in Hall. lia.
Qed.

(** Whatever [hasUid] accepts is covered. *)
Lemma hasUid_covers l uid :
  Forall (fun r : Range => r.1 <= r.2) l -> hasUid l uid = true -> covers l uid.
Proof.
  intros Hv. rewrite Forall_lookup in Hv.
  unfold hasUid. intros [H|H]%orb_true_iff.
  - destruct (l !! lower_bound l (uid, uid)) as [r|] eqn:E; [|done].
    apply Z.eqb_eq in H. exists r. split; [by eapply list_elem_of_lookup_2|].
    specialize (Hv _ _ E). lia.
  - destruct (lower_bound l (uid, uid)) as [|prev] eqn:Elb; [done|].
    destruct (l !! prev) as [r|] eqn:E; [|done]. apply Z.leb_le in H.
    exists r. split; [by eapply list_elem_of_lookup_2|].
    assert (range_ltb r (uid, uid) = true) as Hr.
    { eapply (lower_bound_before l _ prev); [done|lia]. }
    rewrite range_ltb_iff in Hr. cbn in Hr. lia.
Qed.

(** Without nesting, every covered UID is accepted. *)
Lemma covers_hasUid l uid :
  sorted_ranges l -> unnested l -> covers l uid -> hasUid l uid = true.
Proof.
  intros Hs Hu (r & Hr & Hin). apply list_elem_of_lookup in Hr as [i Hi].
  unfold hasUid. remember (lower_bound l (uid, uid)) as lb eqn:Hlbd.
  destruct (decide (lb <= i)%nat) as [Hle|Hlt].
  - (* [r] is not below (uid, uid): it starts at [uid], and so does the bound *)
    apply orb_true_iff. left.
    assert (range_ltb r (uid, uid) = false) as Hnl by (eapply lower_bound_after; [done..|by rewrite <-Hlbd]).
    assert (r.1 = uid) as Hr1.
    { apply not_true_iff_false in Hnl. rewrite range_ltb_iff in Hnl. cbn in Hnl. lia. }
    assert (lb < length l)%nat as Hlb.
    { eapply Nat.le_lt_trans; [exact Hle|by eapply lookup_lt_Some]. }
    apply lookup_lt_is_Some in Hlb as [x Hx]. rewrite Hx. apply Z.eqb_eq.
    assert (range_ltb x (uid, uid) = false) as Hxn by (eapply (lower_bound_at l); by rewrite <-Hlbd).
    assert (range_le x r) as Hxr.
    { destruct (decide (lb = i)) as [<-|]; [simplify_eq; apply range_le_iff; lia|].
      eapply (StronglySorted_lookup _ l lb i); [done..|lia]. }
    apply not_true_iff_false in Hxn. rewrite range_ltb_iff in Hxn. cbn in Hxn.
    rewrite range_le_iff in Hxr. lia.
  - apply orb_true_iff. right. destruct lb as [|prev]; [lia|].
    assert (prev < length l)%nat as Hp.
    { pose proof (lower_bound_length l (uid, uid)) as Hl. rewrite <-Hlbd in Hl. lia. }
    apply lookup_lt_is_Some in Hp as [x Hx]. rewrite Hx. apply Z.leb_le.
    destruct (decide (i = prev)) as [->|]; [simplify_eq; lia|].
    assert (r.2 <= x.2); [|lia].
    eapply (StronglySorted_lookup (fun a b : Range => a.2 <= b.2) l i prev); [done..|lia].
Qed.

(** ** add and remove *)

Lemma add_Permutation l other : add l other ≡ₚ l ++ other.
Proof. apply merge_Permutation. Qed.

Lemma add_sorted l other : sorted_ranges l -> sorted_ranges other -> sorted_ranges (add l other).
Proof.
  intros. apply Sorted_StronglySorted; [apply _|]. apply Sorted_list_merge; [apply _|..];
    by apply StronglySorted_Sorted.
Qed.

(** Below the head of a sorted list, an element does not occur in it. *)
Lemma cnt_below (x y : Range) l :
  sorted_ranges (y :: l) -> range_ltb x y = true -> cnt x (y :: l) = 0.
Proof.
  intros Hs Hlt. pose proof (cnt_nonneg x (y :: l)).
  destruct (decide (cnt x (y :: l) = 0)); [done|exfalso].
  assert (x ∈ y :: l) as Hin by (apply cnt_elem_of; lia).
  apply StronglySorted_cons in Hs as [Hall _].
  assert (range_le y x) as Hle.
  { apply elem_of_cons in Hin as [->|Hin]; [apply range_le_iff; lia|].
    rewrite Forall_forall in Hall. by apply Hall. }
  unfold range_le in Hle. congruence.
Qed.

(** Unfolding [set_difference], whose inner loop runs over the second list. *)
Lemma set_difference_nil_l l2 : set_difference [] l2 = [].
Proof. by destruct l2. Qed.
Lemma set_difference_nil_r l1 : set_difference l1 [] = l1.
Proof. by destruct l1. Qed.
Lemma set_difference_cons x1 l1 x2 l2 :
  set_difference (x1 :: l1) (x2 :: l2) =
  if range_ltb x1 x2 then x1 :: set_difference l1 (x2 :: l2)
  else if range_ltb x2 x1 then set_difference (x1 :: l1) l2
  else set_difference l1 l2.
Proof. done. Qed.

(** On sorted lists, each range is kept as often as it occurs in the first list
    beyond its occurrences in the second. *)
Lemma cnt_set_difference x l1 l2 :
  sorted_ranges l1 -> sorted_ranges l2 ->
  cnt x (set_difference l1 l2) = Z.max 0 (cnt x l1 - cnt x l2).
Proof.
  intros H1. revert l2. induction l1 as [|x1 l1 IH1]; intros l2 H2.
  { rewrite set_difference_nil_l, cnt_nil. pose proof (cnt_nonneg x l2). lia. }
  induction l2 as [|x2 l2 IH2].
  { rewrite set_difference_nil_r, cnt_nil. pose proof (cnt_nonneg x (x1 :: l1)). lia. }
  pose proof H1 as H1c. pose proof H2 as H2c.
  apply StronglySorted_cons in H1c as [_ H1t]. apply StronglySorted_cons in H2c as [_ H2t].
  rewrite set_difference_cons. pose proof (cnt_nonneg x l1). pose proof (cnt_nonneg x l2).
  destruct (range_ltb x1 x2) eqn:E12.
  - rewrite cnt_cons, IH1 by done. rewrite (cnt_cons x x1). case_decide; [subst|lia].
    rewrite (cnt_below x1 x2 l2) by done. lia.
  - destruct (range_ltb x2 x1) eqn:E21.
    + rewrite IH2 by done. rewrite (cnt_cons x x2). case_decide; [subst|lia].
      rewrite (cnt_below x2 x1 l1) by done. lia.
    + rewrite IH1 by done. rewrite (range_ltb_false_eq x1 x2) by done.
      rewrite !cnt_cons. case_decide; lia.
Qed.

Lemma set_difference_sublist l1 l2 : sublist (set_difference l1 l2) l1.
Proof.
  revert l2. induction l1 as [|x1 l1 IH1]; intros l2.
  { rewrite set_difference_nil_l. constructor. }
  induction l2 as [|x2 l2 IH2]; [by rewrite set_difference_nil_r|].
  rewrite set_difference_cons. repeat case_match; [constructor; apply IH1|done|].
  constructor. apply IH1.
Qed.

Lemma StronglySorted_sublist {A} (R : A -> A -> Prop) l1 l2 :
  sublist l1 l2 -> StronglySorted R l2 -> StronglySorted R l1.
Proof.
  induction 1 as [|x l1 l2 Hsub IH|x l1 l2 Hsub IH]; intros Hs; [constructor| |].
  - apply StronglySorted_cons in Hs as [Hall Hs]. constructor; [by apply IH|].
    rewrite Forall_forall in Hall |- *. intros y Hy. apply Hall.
    eapply sublist_submseteq, elem_of_submseteq in Hsub; done.
  - apply StronglySorted_cons in Hs as [_ Hs]. by apply IH.
Qed.

Lemma remove_sorted l other : sorted_ranges l -> sorted_ranges (remove l other).
Proof. apply StronglySorted_sublist, set_difference_sublist. Qed.

(** Removing ranges that are all present takes exactly them away. *)
Lemma remove_Permutation l other :
  sorted_ranges l -> sorted_ranges other -> other ⊆+ l -> remove l other ++ other ≡ₚ l.
Proof.
  intros Hl Ho [k Hk]%submseteq_Permutation. apply cnt_permutation. intros x.
  unfold remove. rewrite cnt_app, cnt_set_difference by done.
  rewrite Hk, cnt_app. pose proof (cnt_nonneg x k). lia.
Qed.

(** ** Parsing *)

Lemma parse_range_valid arg r : parse_range arg = Some r -> valid_range r.
Proof.
  unfold parse_range, valid_range. destruct arg as [|c arg]; [done|].
  destruct (strtoul (String c arg) 0) as [v e].
  pose proof (u32_range v). cbn zeta.
  destruct (match e with EmptyString => _ | _ => _ end) as [uidEnd|] eqn:He; [|done].
  cbn [mbind option_bind]. intros Hr.
  assert (u32 v <= uidEnd < 2 ^ 32) as Hend.
  { destruct e as [|d e]; [injection He as <-; lia|].
    repeat (case_match; try done); simplify_eq; bool_to_prop;
      match goal with |- context [u32 ?w] => pose proof (u32_range w) end; try lia.
    all: match goal with |- _ <= u32 ?w < _ => pose proof (u32_range w) end; lia. }
  unfold INVALID_UID in *. case_match; [done|]. simplify_eq. bool_to_prop. cbn. lia.
Qed.

Lemma parse_loop_spec argv acc ok l :
  parse_loop argv acc = (ok, l) ->
  exists l', l = acc ++ l' /\ Forall valid_range l' /\ (ok = true -> mapM parse_range argv = Some l').
Proof.
  revert acc. induction argv as [|a argv IH]; intros acc; cbn.
  { intros [= <- <-]. exists []. rewrite app_nil_r. done. }
  destruct (parse_range a) as [r|] eqn:Er; cbn.
  - intros (l' & -> & Hv & Hok)%IH. exists (r :: l').
    rewrite <-app_assoc. split_and!; [done| |].
    + constructor; [by eapply parse_range_valid|done].
    + intros ->. by rewrite Hok.
  - intros [= <- <-]. exists []. by rewrite app_nil_r.
Qed.

Lemma parseFrom_sorted argv l :
  parseFrom argv = (true, l) -> sorted_ranges l /\ Forall valid_range l.
Proof.
  unfold parseFrom. destruct (parse_loop argv []) as [ok l'] eqn:E.
  apply parse_loop_spec in E as (l'' & -> & Hv & _). destruct ok; [|done]. intros [= <-].
  split; [apply StronglySorted_merge_sort; apply _|]. by rewrite merge_sort_Permutation.
Qed.

Lemma print_u_append n s : print_u n +:+ s = print_digits 64 10 n s.
Proof. unfold print_u. by rewrite <-print_digits_app. Qed.

Lemma print_u_cons n s : 0 <= n -> exists c s', print_digits 64 10 n s = String c s'.
Proof.
  intros. destruct (print_digits_nonempty 64 10 n s) as (d & s' & -> & _); [lia..|]. eauto.
Qed.

(** A printed range is read back as itself. *)
Lemma parse_print_range r : valid_range r -> parse_range (print_range r) = Some r.
Proof.
  intros [[H0 H1] H2]. destruct r as [a b]; cbn in *. unfold INVALID_UID in H2.
  assert (u32 a = a) as Ha by (apply u32_small; lia).
  assert (u32 b = b) as Hb by (apply u32_small; lia).
  assert ((a =? INVALID_UID) = false /\ (b =? INVALID_UID) = false) as [Na Nb].
  { unfold INVALID_UID. lia. }
  unfold print_range; cbn [fst snd]. destruct (a =? b) eqn:E.
  - apply Z.eqb_eq in E as ->. unfold print_u.
    assert (strtoul (print_digits 64 10 b "") 0 = (b, "")) as Hs.
    { apply strtoul_print_u; [lia|by left|done]. }
    destruct (print_u_cons b "") as (c & s & Hp); [done|]. rewrite Hp in Hs |- *.
    unfold parse_range. rewrite Hs. cbn. by rewrite Hb, Nb.
  - rewrite print_u_append.
    assert (strtoul (print_digits 64 10 a ("-" +:+ print_u b)) 0 = (a, "-" +:+ print_u b)) as Hs.
    { apply strtoul_print_u; [lia|by left|done]. }
    assert (strtoul (print_u b) 0 = (b, "")) as Hs'.
    { apply strtoul_print_u; [lia|by left|done]. }
    destruct (print_u_cons a ("-" +:+ print_u b)) as (c & s & Hp); [done|].
    rewrite Hp in Hs |- *. unfold parse_range. rewrite Hs. cbn.
    destruct (print_u_cons b "") as (c' & s' & Hp'); [lia|].
    unfold print_u in Hs' |- *. rewrite Hp' in Hs' |- *. change ("-" +:+ String c' s') with (String "-" (String c' s')). cbn. rewrite Hs'. cbn.
    rewrite Ha, Hb, (proj2 (Z.ltb_ge b a)) by lia. cbn. by rewrite Na, Nb.
Qed.

Lemma parse_loop_print l acc :
  Forall valid_range l -> parse_loop (map print_range l) acc = (true, acc ++ l).
Proof.
  revert acc. induction l as [|r l IH]; intros acc; cbn; [by rewrite app_nil_r|].
  intros [Hr Hl]%Forall_cons. rewrite parse_print_range by done.
  rewrite IH by done. by rewrite <-app_assoc.
Qed.

(** ** Properties *)

(** C33. A user is found exactly when one of the ranges covers the UID, for
    ranges that are sorted, well formed and not nested in one another. *)
Theorem hasUid_iff_covers l uid :
  sorted_ranges l -> Forall valid_range l -> unnested l -> (hasUid l uid = true <-> covers l uid).
Proof.
  intros Hs Hv Hu. split; [|by apply covers_hasUid].
  apply hasUid_covers. eapply Forall_impl; [exact Hv|]. intros r [? _]. lia.
Qed.

Lemma hasUid_iff_covers_witness :
  let l := [(10, 20); (30, 40)] in hasUid l 35 = true /\ hasUid l 25 = false /\
  (hasUid l 35 = true <-> covers l 35).
Proof.
  split; [vm_compute; reflexivity|]. split; [vm_compute; reflexivity|].
  apply (hasUid_iff_covers [(10, 20); (30, 40)] 35).
  - repeat (constructor; [|by repeat constructor]). constructor.
  - unfold valid_range, INVALID_UID. repeat (apply Forall_cons_2 || apply Forall_nil_2); cbn; lia.
  - repeat constructor; cbn; lia.
Defined.

Lemma parseFrom_print_ranges l :
  sorted_ranges l -> Forall valid_range l -> parseFrom (map print_range l) = (true, l).
Proof.
  intros Hs Hv. unfold parseFrom. rewrite (parse_loop_print l []) by done. cbn. f_equal.
  apply (StronglySorted_unique range_le); [|done|].
  - apply StronglySorted_merge_sort; apply _.
  - apply merge_sort_Permutation.
Qed.

(** Ranges printed one per argument are read back as they were. *)
Theorem parseFrom_print l :
  sorted_ranges l -> Forall valid_range l -> parseFrom (map print_range l) = (true, l).
Proof. apply parseFrom_print_ranges. Qed.

Lemma parseFrom_print_witness :
  map print_range [(7, 7); (10000, 10100)] = ["7"; "10000-10100"] /\
  parseFrom (map print_range [(7, 7); (10000, 10100)]) = (true, [(7, 7); (10000, 10100)]).
Proof.
  split; [vm_compute; reflexivity|]. apply (parseFrom_print [(7, 7); (10000, 10100)]).
  - repeat (constructor; [|by repeat constructor]). constructor.
  - unfold valid_range, INVALID_UID. repeat (apply Forall_cons_2 || apply Forall_nil_2); cbn; lia.
Defined.

(** Whatever [parseFrom] accepts is sorted, has the ranges of the
    arguments, each with its start not after its end and no invalid UID. *)
Theorem parseFrom_accepts argv l :
  parseFrom argv = (true, l) ->
  sorted_ranges l /\ Forall valid_range l /\
  exists l', mapM parse_range argv = Some l' /\ l ≡ₚ l'.
Proof.
  intros H. destruct (parseFrom_sorted argv l H) as [Hs Hv]. split_and!; [done..|].
  revert H. unfold parseFrom. destruct (parse_loop argv []) as [ok l'] eqn:E.
  apply parse_loop_spec in E as (l'' & -> & _ & Hm). destruct ok; [|done]. intros [= <-].
  exists l''. split; [by apply Hm|]. by rewrite merge_sort_Permutation.
Qed.

Lemma parseFrom_accepts_witness :
  parseFrom ["20-30"; "0x5"] = (true, [(5, 5); (20, 30)]) /\ sorted_ranges [(5, 5); (20, 30)].
Proof.
  split; [vm_compute; reflexivity|].
  apply (parseFrom_accepts ["20-30"; "0x5"] [(5, 5); (20, 30)]). vm_compute. reflexivity.
Defined.

(** Removing the ranges just added gives the ranges back. *)
Theorem remove_add l other :
  sorted_ranges l -> sorted_ranges other -> remove (add l other) other = l.
Proof.
  intros Hl Ho. apply (StronglySorted_unique range_le); [|done|].
  - by apply remove_sorted, add_sorted.
  - apply (Permutation_app_inv_r other). rewrite <-(add_Permutation l other).
    apply remove_Permutation; [by apply add_sorted|done|].
    rewrite add_Permutation. by apply submseteq_inserts_l.
Qed.

Lemma remove_add_witness :
  add [(1, 2); (5, 6)] [(3, 4)] = [(1, 2); (3, 4); (5, 6)] /\
  remove (add [(1, 2); (5, 6)] [(3, 4)]) [(3, 4)] = [(1, 2); (5, 6)].
Proof.
  split; [vm_compute; reflexivity|]. apply (remove_add [(1, 2); (5, 6)] [(3, 4)]).
  - repeat (constructor; [|by repeat constructor]). constructor.
  - repeat constructor.
Defined.

(** The search looks at one range before the bound only: with nested
    ranges, which [parseFrom] accepts, it misses users they cover. *)
Theorem hasUid_misses_nested :
  parseFrom ["0-100"; "50-60"] = (true, [(0, 100); (50, 60)]) /\
  covers [(0, 100); (50, 60)] 70 /\ hasUid [(0, 100); (50, 60)] 70 = false.
Proof.
  split_and!; [by vm_compute| |by vm_compute]. exists (0, 100). split; [constructor|cbn; lia].
Qed.

End UidRanges.
