(* ===== verification/Children.v ===== *)
(** * Children: the programs netd runs in the background

    Several controllers start children and keep their pids.  [children] reads
    the children that exist off the trace, and [owns rest known tr] says that the
    ones a controller knows, together with those of the others, are all of them.
    [rest] is what a controller must leave alone. *)
From S2P Require Import Prelude Platform Cstd.

(** The children started and neither killed nor reaped, with their program. *)
Definition child_step (l : list (string * Z)) (e : event) : list (string * Z) :=
  match e with
  | EvSpawn (program :: _) pid => l ++ [(program, pid)]
  | EvKill pid => filter (fun c => c.2 <> pid) l
  | EvWait pid r => if r =? 0 then l else filter (fun c => c.2 <> pid) l
  | _ => l
  end.

Definition children (tr : trace) : list (string * Z) := foldl child_step [] tr.

Lemma children_snoc tr e : children (tr ++ [e]) = child_step (children tr) e.
Proof. unfold children. by rewrite foldl_app. Qed.

Lemma children_app tr evs : children (tr ++ evs) = foldl child_step (children tr) evs.
Proof. apply foldl_app. Qed.

(** Pids are positive and not those of existing children: a pid is not used again
    before its process has been waited for. *)
Definition pid_laws (K : Kernel) : Prop :=
  forall tr argv pid fd, k_spawn tr argv = Spawned pid fd ->
    0 < pid /\ 0 <= fd /\ pid ∉ map snd (children tr).

Lemma filter_all {A} (P : A -> Prop) `{forall x, Decision (P x)} (l : list A) :
  (forall x, x ∈ l -> P x) -> filter P l = l.
Proof.
  induction l as [|x l IH]; intros Hl; [done|].
  rewrite filter_cons_True by (apply Hl; constructor). f_equal. apply IH. intros y Hy. apply Hl. by constructor.
Qed.

(** ** Ownership *)

Record owns (rest known : list (string * Z)) (tr : trace) : Prop := {
  owns_children : children tr ≡ₚ known ++ rest;
  owns_pids : NoDup (map snd (known ++ rest))
}.

#[export] Instance owns_Permutation :
  Proper ((≡ₚ) ==> (≡ₚ) ==> eq ==> iff) owns.
Proof.
  intros r1 r2 Hr k1 k2 Hk tr ? <-. split; intros [H1 H2]; split; first
    [by rewrite H1, Hr, Hk | by rewrite <-Hr, <-Hk | by rewrite Hr, Hk].
Qed.

Lemma owns_swap rest known other tr : owns (known ++ rest) other tr <-> owns (other ++ rest) known tr.
Proof.
  split; intros [H1 H2]; split; rewrite ?H1;
    first [ by rewrite !(assoc_L app), (Permutation_app_comm other known)
          | by rewrite !(assoc_L app), (Permutation_app_comm known other)
          | by rewrite !(assoc_L app), (Permutation_app_comm other known), <-(assoc_L app)
          | revert H2; by rewrite !(assoc_L app), (Permutation_app_comm other known)
          | revert H2; by rewrite !(assoc_L app), (Permutation_app_comm known other) ].
Qed.

(** An event that is not about children. *)
Definition childless (e : event) : Prop :=
  match e with EvSpawn _ _ | EvKill _ | EvWait _ _ => False | _ => True end.

Lemma children_childless tr e : childless e -> children (tr ++ [e]) = children tr.
Proof. intros H. rewrite children_snoc. by destruct e. Qed.

Lemma owns_childless rest known tr e : childless e -> owns rest known tr -> owns rest known (tr ++ [e]).
Proof. intros He [H1 H2]. split; [|done]. by rewrite children_childless. Qed.

Lemma owns_spawn rest known tr program args pid :
  owns rest known tr -> pid ∉ map snd (children tr) ->
  owns rest ((program, pid) :: known) (tr ++ [EvSpawn (program :: args) pid]).
Proof.
  intros [H1 H2] Hpid. split.
  - rewrite children_snoc. cbn [child_step]. rewrite H1. by rewrite Permutation_app_comm.
  - cbn. rewrite H1 in Hpid. by apply NoDup_cons.
Qed.

Lemma owns_gone rest known tr program pid e :
  owns rest ((program, pid) :: known) tr ->
  child_step (children tr) e = filter (fun c => c.2 <> pid) (children tr) ->
  owns rest known (tr ++ [e]).
Proof.
  intros [H1 H2] He. cbn in H2. apply NoDup_cons in H2 as [Hn H2]. split; [|done].
  rewrite children_snoc, He, H1. cbn [app]. rewrite filter_cons_False by (cbn; tauto).
  rewrite filter_all; [done|]. intros [p q] Hin. cbn. intros ->.
  apply Hn. apply list_elem_of_fmap. by exists (p, pid).
Qed.

Lemma owns_kill rest known tr program pid :
  owns rest ((program, pid) :: known) tr -> owns rest known (tr ++ [EvKill pid]).
Proof. intros H. by eapply owns_gone. Qed.

Lemma owns_reaped rest known tr program pid r :
  r <> 0 -> owns rest ((program, pid) :: known) tr -> owns rest known (tr ++ [EvWait pid r]).
Proof.
  intros Hr H. eapply owns_gone; [done|]. cbn. by rewrite (proj2 (Z.eqb_neq _ _) Hr).
Qed.

Lemma owns_running rest known tr pid : owns rest known tr -> owns rest known (tr ++ [EvWait pid 0]).
Proof. intros [H1 H2]. split; [|done]. by rewrite children_snoc. Qed.
