(* ===== verification/Netlink.v ===== *)
(** * Netlink: the bytes of rtnetlink requests

    [sendNetlinkRequest] of [server/RouteController.cpp], the layout of the
    messages it sends, and a decoder for them (how the kernel reads an
    rtnetlink rule request: header, [fib_rule_hdr], attributes), which the
    specifications use to say which rule a request denotes.  Integers are
    little-endian, as on every Android target. *)
From S2P Require Import Prelude Platform Cstd.

(** ** Constants of the kernel's uapi headers *)

Definition AF_INET : Z := 2.
Definition AF_INET6 : Z := 10.
Definition NLM_F_REQUEST : Z := 0x1.
Definition NLM_F_ACK : Z := 0x4.
Definition NLM_F_EXCL : Z := 0x200.
Definition NLM_F_CREATE : Z := 0x400.
Definition RTM_NEWROUTE : Z := 24.
Definition RTM_DELROUTE : Z := 25.
Definition RTM_NEWRULE : Z := 32.
Definition RTM_DELRULE : Z := 33.
Definition FR_ACT_TO_TBL : Z := 1.
Definition FR_ACT_UNREACHABLE : Z := 7.
Definition FRA_IIFNAME : Z := 3.
Definition FRA_PRIORITY : Z := 6.
Definition FRA_FWMARK : Z := 10.
Definition FRA_TABLE : Z := 15.
Definition FRA_FWMASK : Z := 16.
Definition FRA_OIFNAME : Z := 17.

(** server/RouteController.cpp: not in the kernel's headers *)
Definition FRA_UID_START : Z := 18.
Definition FRA_UID_END : Z := 19.

(** ** Layout *)

Definition le16 (x : Z) : list Z := [x mod 256; x / 256 mod 256].
Definition le32 (x : Z) : list Z :=
  [x mod 256; x / 256 mod 256; x / 65536 mod 256; x / 16777216 mod 256].

(** [RTA_LENGTH], [RTA_SPACE] ([RTA_ALIGNTO] is 4) and the [uint16_t] cast. *)
Definition RTA_ALIGN (len : Z) : Z := (len + 3) / 4 * 4.
Definition RTA_LENGTH (len : Z) : Z := 4 + len.
Definition RTA_SPACE (len : Z) : Z := RTA_ALIGN (RTA_LENGTH len).
Definition U16_RTA_LENGTH (len : Z) : Z := u16 (RTA_LENGTH len).

(** [struct nlmsghdr] with sequence number and port 0. *)
Definition nlmsghdr (len type flags : Z) : list Z :=
  le32 len ++ le16 type ++ le16 flags ++ le32 0 ++ le32 0.

(** [struct rtattr] *)
Definition rtattr (len type : Z) : list Z := le16 len ++ le16 type.

(** [struct fib_rule_hdr] with the other fields 0. *)
Definition fib_rule_hdr (family action : Z) : list Z :=
  [u8 family; 0; 0; 0; 0; 0; 0; u8 action] ++ le32 0.

(** [struct rtmsg] with the other fields 0. *)
Definition rtmsg (family dst_len protocol scope type : Z) : list Z :=
  [u8 family; u8 dst_len; 0; 0; 0; u8 protocol; u8 scope; u8 type] ++ le32 0.

(** ** sendNetlinkRequest *)

(** [iov] is what follows the header's slot: the bytes of [iov[1..]].  The
    length in the header counts the header and every other entry. *)
Definition sendNetlinkRequest `{Kernel} {S} (action flags : Z) (iov : list (list Z)) : M S Z :=
  let nlmsg_len := foldl (fun n e => n + Z.of_nat (length e)) 16 iov in
  response ← sys_netlink (nlmsghdr (u32 nlmsg_len) action flags ++ concat iov);
  mret match response with
       | NlAck error => error
       | NlShort _ => - EBADMSG
       | NlErrno e => - e
       end.

(** ** Decoding *)

Definition rd16 (a b : Z) : Z := a + 256 * b.
Definition rd32 (a b c d : Z) : Z := a + 256 * b + 65536 * c + 16777216 * d.

(** Type-length-value attributes; [fuel] is the number of bytes. *)
Fixpoint parse_attrs (fuel : nat) (bytes : list Z) : option (list (Z * list Z)) :=
  match bytes, fuel with
  | [], _ => Some []
  | l0 :: l1 :: t0 :: t1 :: rest, S fuel =>
      let len := rd16 l0 l1 in
      if (len <? 4) || (Z.of_nat (length rest) <? len - 4) then None
      else
        attrs ← parse_attrs fuel (drop (Z.to_nat (RTA_ALIGN len - 4)) rest);
        Some ((rd16 t0 t1, take (Z.to_nat (len - 4)) rest) :: attrs)
  | _, _ => None
  end.

Definition find_attr (type : Z) (attrs : list (Z * list Z)) : option (list Z) :=
  snd <$> list_find (fun a => a.1 = type) attrs ≫= fun p => Some p.2.

Definition attr_u32 (type : Z) (attrs : list (Z * list Z)) : option Z :=
  match find_attr type attrs with
  | Some [a; b; c; d] => Some (rd32 a b c d)
  | _ => None
  end.

(** An interface name: the bytes before the first NUL. *)
Fixpoint string_of_cbytes (l : list Z) : string :=
  match l with
  | [] => EmptyString
  | b :: l => if b =? 0 then EmptyString else String (ascii_of_N (Z.to_N b)) (string_of_cbytes l)
  end.

Definition attr_name (type : Z) (attrs : list (Z * list Z)) : option string :=
  string_of_cbytes <$> find_attr type attrs.

(** A routing rule: table 0 stands for "unreachable", mask 0 for any mark,
    [None] for any interface or any UID. *)
Record rule := Rule {
  r_family : Z; r_priority : Z; r_table : Z; r_mark : Z; r_mask : Z;
  r_iif : option string; r_oif : option string; r_uids : option (Z * Z)
}.

#[export] Instance rule_eq_dec : EqDecision rule.
Proof. solve_decision. Defined.

(** The request a message makes: its type, its flags and the rule. *)
Definition decode_rule (msg : list Z) : option (Z * Z * rule) :=
  match msg with
  | n0 :: n1 :: n2 :: n3 :: t0 :: t1 :: f0 :: f1 ::
    _ :: _ :: _ :: _ :: _ :: _ :: _ :: _ ::
    family :: _ :: _ :: _ :: _ :: _ :: _ :: action :: _ :: _ :: _ :: _ :: bytes =>
      let type := rd16 t0 t1 in
      if (rd32 n0 n1 n2 n3 =? Z.of_nat (length msg)) &&
         ((type =? RTM_NEWRULE) || (type =? RTM_DELRULE)) then
        attrs ← parse_attrs (length bytes) bytes;
        let table := default 0 (attr_u32 FRA_TABLE attrs) in
        Some (type, rd16 f0 f1,
          Rule family (default 0 (attr_u32 FRA_PRIORITY attrs))
            (if action =? FR_ACT_TO_TBL then table else 0)
            (default 0 (attr_u32 FRA_FWMARK attrs)) (default 0 (attr_u32 FRA_FWMASK attrs))
            (attr_name FRA_IIFNAME attrs) (attr_name FRA_OIFNAME attrs)
            (us ← attr_u32 FRA_UID_START attrs; ue ← attr_u32 FRA_UID_END attrs; Some (us, ue)))
      else None
  | _ => None
  end.

(** ** Lemmas *)

Lemma rd16_le16 x : rd16 (x mod 256) (x / 256 mod 256) = u16 x.
Proof.
  unfold rd16, u16. change (2 ^ 16) with (256 * 256). rewrite Z.rem_mul_r by lia. lia.
Qed.

Lemma rd32_le32 x :
  rd32 (x mod 256) (x / 256 mod 256) (x / 65536 mod 256) (x / 16777216 mod 256) = u32 x.
Proof.
  unfold rd32, u32. change (2 ^ 32) with (256 * (256 * (256 * 256))).
  rewrite (Z.rem_mul_r x 256), (Z.rem_mul_r (x / 256) 256), (Z.rem_mul_r (x / 256 / 256) 256) by lia.
  rewrite !Z.div_div by lia. change (256 * 256 * 256) with 16777216.
  change (256 * 256) with 65536. lia.
Qed.

Lemma RTA_ALIGN_bounds n : 0 <= n -> n <= RTA_ALIGN n < n + 4 /\ RTA_ALIGN n mod 4 = 0.
Proof.
  intros. unfold RTA_ALIGN. split; [|by rewrite Z.mod_mul by lia].
  pose proof (Z.div_mod (n + 3) 4). pose proof (Z.mod_pos_bound (n + 3) 4). lia.
Qed.

(** One attribute as [modifyIpRule] lays it out. *)
Definition attr_bytes (a : Z * list Z) : list Z :=
  let n := Z.of_nat (length a.2) in
  rtattr (U16_RTA_LENGTH n) a.1 ++ a.2 ++ replicate (Z.to_nat (RTA_SPACE n - RTA_LENGTH n)) 0.

Definition attr_ok (a : Z * list Z) : Prop :=
  0 <= a.1 < 2 ^ 16 /\ Z.of_nat (length a.2) < 2 ^ 15.

Lemma parse_attr_bytes fuel a rest attrs :
  attr_ok a -> parse_attrs fuel rest = Some attrs ->
  parse_attrs (S fuel) (attr_bytes a ++ rest) = Some (a :: attrs).
Proof.
  intros [Ht Hl] Hrest. destruct a as [t v]. cbn [fst snd] in *.
  assert (u16 (RTA_LENGTH (Z.of_nat (length v))) = 4 + Z.of_nat (length v)) as Hlen.
  { unfold u16, RTA_LENGTH. apply Z.mod_small. lia. }
  assert (u16 t = t) as Htt by (by apply Z.mod_small).
  unfold attr_bytes, rtattr, le16, U16_RTA_LENGTH. cbn [fst snd app parse_attrs].
  rewrite !rd16_le16, u16_idemp, Hlen, Htt.
  set (n := Z.of_nat (length v)) in *.
  set (pad := replicate (Z.to_nat (RTA_SPACE n - RTA_LENGTH n)) 0).
  pose proof (RTA_ALIGN_bounds (4 + n) ltac:(lia)) as [Hal _].
  rewrite (proj2 (Z.ltb_ge (4 + n) 4)) by lia.
  rewrite (proj2 (Z.ltb_ge _ (4 + n - 4))) by (rewrite <-app_assoc, length_app; lia).
  cbn [orb].
  replace (Z.to_nat (4 + n - 4)) with (length v) by (unfold n; lia).
  replace (Z.to_nat (RTA_ALIGN (4 + n) - 4)) with (length (v ++ pad)).
  2: { unfold pad. rewrite length_app, length_replicate. unfold RTA_SPACE, RTA_LENGTH. lia. }
  rewrite drop_app_length, <-app_assoc, take_app_length, Hrest. done.
Qed.

Lemma parse_attrs_concat fuel attrs :
  Forall attr_ok attrs -> (length attrs <= fuel)%nat ->
  parse_attrs fuel (concat (map attr_bytes attrs)) = Some attrs.
Proof.
  intros H. revert fuel. induction H as [|a attrs Ha H IH]; intros fuel Hf; cbn in Hf |- *.
  { by destruct fuel. }
  destruct fuel as [|fuel]; [lia|]. apply parse_attr_bytes; [done|]. apply IH. lia.
Qed.

Lemma length_attr_bytes a : (4 <= length (attr_bytes a))%nat.
Proof. unfold attr_bytes, rtattr, le16. cbn. lia. Qed.

Lemma length_concat_attr_bytes attrs :
  (length attrs <= length (concat (map attr_bytes attrs)))%nat.
Proof.
  induction attrs as [|a attrs IH]; cbn; [done|]. rewrite length_app.
  pose proof (length_attr_bytes a). lia.
Qed.

(** The length field computed by the loop of [sendNetlinkRequest]. *)
Lemma nlmsg_len_eq iov n :
  foldl (fun n (e : list Z) => n + Z.of_nat (length e)) n iov = n + Z.of_nat (length (concat iov)).
Proof.
  revert n. induction iov as [|e iov IH]; intros n; cbn; [lia|].
  rewrite IH, length_app. lia.
Qed.

(** ** Encoding a rule *)

Definition attr32 (type x : Z) : Z * list Z := (type, le32 x).

(** The attributes of a rule, in the order [modifyIpRule] sends them. *)
Definition rule_attrs (r : rule) : list (Z * list Z) :=
  [attr32 FRA_PRIORITY (r_priority r)] ++
  (if r_table r =? 0 then [] else [attr32 FRA_TABLE (r_table r)]) ++
  (if r_mask r =? 0 then [] else [attr32 FRA_FWMARK (r_mark r); attr32 FRA_FWMASK (r_mask r)]) ++
  match r_uids r with
  | None => []
  | Some (us, ue) => [attr32 FRA_UID_START us; attr32 FRA_UID_END ue]
  end ++
  match r_iif r with None => [] | Some s => [(FRA_IIFNAME, cbytes_of s)] end ++
  match r_oif r with None => [] | Some s => [(FRA_OIFNAME, cbytes_of s)] end.

Definition rule_action (r : rule) : Z :=
  if r_table r =? 0 then FR_ACT_UNREACHABLE else FR_ACT_TO_TBL.

Definition rule_msg (type flags : Z) (r : rule) : list Z :=
  let body := fib_rule_hdr (r_family r) (rule_action r) ++ concat (map attr_bytes (rule_attrs r)) in
  nlmsghdr (u32 (16 + Z.of_nat (length body))) type flags ++ body.

(** Without NUL characters, the bytes of a C string read back. *)
Definition no_nul (s : string) : Prop := Forall (fun b => b <> 0) (bytes_of s).

Record wf_rule (r : rule) : Prop := {
  wf_family : 0 <= r_family r < 256;
  wf_priority : 0 <= r_priority r < 2 ^ 32;
  wf_table : 0 <= r_table r < 2 ^ 32;
  wf_mark : 0 <= r_mark r < 2 ^ 32;
  wf_mask : 0 <= r_mask r < 2 ^ 32;
  wf_mask_mark : r_mask r = 0 -> r_mark r = 0;
  wf_uids : match r_uids r with
            | None => True
            | Some (us, ue) => 0 <= us < 2 ^ 32 /\ 0 <= ue < 2 ^ 32
            end;
  wf_iif : match r_iif r with None => True | Some s => no_nul s /\ strlen s < 16 end;
  wf_oif : match r_oif r with None => True | Some s => no_nul s /\ strlen s < 16 end
}.

Lemma string_of_cbytes_of s : no_nul s -> string_of_cbytes (cbytes_of s) = s.
Proof.
  unfold no_nul, cbytes_of, bytes_of. induction s as [|c s IH]; cbn; [done|].
  intros [Hc Hs]%Forall_cons. rewrite (proj2 (Z.eqb_neq _ _) Hc), IH by done.
  unfold code. by rewrite N2Z.id, ascii_N_embedding.
Qed.

Lemma attr_u32_le32 type x attrs :
  attr_u32 type (attr32 type x :: attrs) = Some (u32 x).
Proof.
  unfold attr_u32, find_attr, attr32. cbn [list_find fst]. rewrite decide_True by done.
  cbn. by rewrite rd32_le32.
Qed.

Lemma length_cbytes_of s : Z.of_nat (length (cbytes_of s)) = strlen s + 1.
Proof.
  unfold cbytes_of, bytes_of, strlen. rewrite length_app, length_map. cbn.
  assert (length (String.list_ascii_of_string s) = String.length s) as ->; [|lia].
  induction s; cbn; [done|]. by f_equal.
Qed.

Lemma rule_attrs_ok r : wf_rule r -> Forall attr_ok (rule_attrs r).
Proof.
  intros H. destruct H. unfold rule_attrs.
  assert (forall t x, 0 <= t < 2 ^ 16 -> attr_ok (attr32 t x)) as H32.
  { intros t x Ht. split; [done|]. by cbn. }
  repeat apply Forall_app_2; repeat case_match; repeat constructor; cbn; try done;
    try (apply H32; done); rewrite length_cbytes_of; lia.
Qed.

(** Looking an attribute up in a list that starts with other attributes. *)
Lemma find_attr_cons_ne type t v attrs : t <> type -> find_attr type ((t, v) :: attrs) = find_attr type attrs.
Proof.
  intros. unfold find_attr. cbn [list_find fst]. rewrite decide_False by done.
  by destruct (list_find _ attrs) as [[]|].
Qed.

Lemma find_attr_cons_eq type v attrs : find_attr type ((type, v) :: attrs) = Some v.
Proof. unfold find_attr. cbn [list_find fst]. by rewrite decide_True. Qed.

Lemma length_concat_le {A} (l : list (list A)) n :
  Forall (fun e => (length e <= n)%nat) l -> (length (concat l) <= n * length l)%nat.
Proof.
  induction 1 as [|e l He H IH]; cbn; [lia|]. rewrite length_app. lia.
Qed.

Lemma length_attr_bytes_le a :
  (length a.2 <= 20)%nat -> (length (attr_bytes a) <= 28)%nat.
Proof.
  intros. unfold attr_bytes, rtattr, le16.
  rewrite !length_app, length_replicate. cbn [length app].
  pose proof (RTA_ALIGN_bounds (RTA_LENGTH (Z.of_nat (length a.2)))) as Hal.
  unfold RTA_SPACE. unfold RTA_LENGTH at 1 in Hal. lia.
Qed.

Lemma rule_attrs_length r : (length (rule_attrs r) <= 8)%nat.
Proof. unfold rule_attrs. repeat case_match; cbn; lia. Qed.

Lemma rule_attrs_payload r :
  wf_rule r -> Forall (fun a : Z * list Z => (length a.2 <= 20)%nat) (rule_attrs r).
Proof.
  intros H. destruct H. unfold rule_attrs.
  repeat apply Forall_app_2; repeat case_match;
    repeat (apply Forall_nil_2 || apply Forall_cons_2); cbn; try lia;
    match goal with |- context [cbytes_of ?s] => pose proof (length_cbytes_of s) end; lia.
Qed.

Lemma attrs_length_le attrs :
  Forall (fun a : Z * list Z => (length a.2 <= 20)%nat) attrs ->
  (length (concat (map attr_bytes attrs)) <= 28 * length attrs)%nat.
Proof.
  intros H. rewrite <-(length_map attr_bytes attrs). apply length_concat_le.
  induction H; cbn; constructor; [by apply length_attr_bytes_le|done].
Qed.

Lemma rule_body_length r :
  wf_rule r -> Z.of_nat (length (concat (map attr_bytes (rule_attrs r)))) <= 224.
Proof.
  intros H. pose proof (rule_attrs_length r).
  pose proof (attrs_length_le _ (rule_attrs_payload r H)). lia.
Qed.

Lemma find_attr_app type l1 l2 :
  find_attr type (l1 ++ l2) =
  match find_attr type l1 with Some v => Some v | None => find_attr type l2 end.
Proof.
  induction l1 as [|[t v] l1 IH]; [done|]. cbn [app].
  destruct (decide (t = type)) as [->|].
  - by rewrite !find_attr_cons_eq.
  - by rewrite !find_attr_cons_ne.
Qed.

Lemma find_attr_other type l : Forall (fun a => a.1 <> type) l -> find_attr type l = None.
Proof.
  induction 1 as [|[t v] l Ht H IH]; [done|]. by rewrite find_attr_cons_ne.
Qed.

(** Pass over the segments of [rule_attrs] that hold other attributes. *)
Ltac no_such_attr :=
  apply find_attr_other; repeat apply Forall_app_2; repeat case_match;
    repeat (apply Forall_nil_2 || apply Forall_cons_2); done.
Ltac skip_segments :=
  repeat match goal with
  | |- context [find_attr ?t (?l1 ++ ?l2)] =>
      rewrite (find_attr_app t l1 l2);
      let H := fresh in assert (find_attr t l1 = None) as H by no_such_attr; rewrite H; clear H
  end.

Lemma find_priority r : find_attr FRA_PRIORITY (rule_attrs r) = Some (le32 (r_priority r)).
Proof. apply find_attr_cons_eq. Qed.

Lemma find_table r :
  find_attr FRA_TABLE (rule_attrs r) = if r_table r =? 0 then None else Some (le32 (r_table r)).
Proof.
  unfold rule_attrs, attr32. skip_segments. rewrite find_attr_app.
  destruct (r_table r =? 0); [|by rewrite find_attr_cons_eq].
  no_such_attr.
Qed.

Lemma find_mark r :
  find_attr FRA_FWMARK (rule_attrs r) = (if r_mask r =? 0 then None else Some (le32 (r_mark r))) /\
  find_attr FRA_FWMASK (rule_attrs r) = (if r_mask r =? 0 then None else Some (le32 (r_mask r))).
Proof.
  unfold rule_attrs, attr32. split; skip_segments; rewrite find_attr_app; destruct (r_mask r =? 0);
    rewrite ?find_attr_cons_ne, ?find_attr_cons_eq by done; try done;
    no_such_attr.
Qed.

Lemma find_uids r :
  find_attr FRA_UID_START (rule_attrs r) = (fun u => le32 u.1) <$> r_uids r /\
  find_attr FRA_UID_END (rule_attrs r) = (fun u => le32 u.2) <$> r_uids r.
Proof.
  unfold rule_attrs, attr32. split; skip_segments; rewrite find_attr_app; destruct (r_uids r) as [[us ue]|];
    rewrite ?find_attr_cons_ne, ?find_attr_cons_eq by done; try done;
    no_such_attr.
Qed.

Lemma find_names r :
  find_attr FRA_IIFNAME (rule_attrs r) = cbytes_of <$> r_iif r /\
  find_attr FRA_OIFNAME (rule_attrs r) = cbytes_of <$> r_oif r.
Proof.
  unfold rule_attrs, attr32. split; skip_segments.
  - rewrite find_attr_app. destruct (r_iif r); rewrite ?find_attr_cons_eq by done; try done.
    no_such_attr.
  - destruct (r_oif r); by rewrite ?find_attr_cons_eq.
Qed.

(** What the decoder finds in the attributes of a rule. *)
Lemma decode_attrs r :
  wf_rule r ->
  let attrs := rule_attrs r in
  default 0 (attr_u32 FRA_PRIORITY attrs) = r_priority r /\
  default 0 (attr_u32 FRA_TABLE attrs) = r_table r /\
  default 0 (attr_u32 FRA_FWMARK attrs) = r_mark r /\
  default 0 (attr_u32 FRA_FWMASK attrs) = r_mask r /\
  attr_name FRA_IIFNAME attrs = r_iif r /\ attr_name FRA_OIFNAME attrs = r_oif r /\
  (us ← attr_u32 FRA_UID_START attrs; ue ← attr_u32 FRA_UID_END attrs; Some (us, ue)) = r_uids r.
Proof.
  intros [? Hp Ht Hm Hk Hkm Hu Hi Ho] attrs. subst attrs. unfold attr_u32, attr_name.
  destruct (find_mark r) as [-> ->], (find_uids r) as [-> ->], (find_names r) as [-> ->].
  rewrite find_priority, find_table. unfold le32.
  split_and!.
  - cbn. by rewrite rd32_le32, u32_small.
  - destruct (r_table r =? 0) eqn:E; bool_to_prop; cbn; [done|]. by rewrite rd32_le32, u32_small.
  - destruct (r_mask r =? 0) eqn:E; bool_to_prop; cbn; [by rewrite Hkm|].
    by rewrite rd32_le32, u32_small.
  - destruct (r_mask r =? 0) eqn:E; bool_to_prop; cbn; [done|]. by rewrite rd32_le32, u32_small.
  - destruct (r_iif r) as [n|]; [|done]. destruct Hi as [Hi _]. cbn. by rewrite string_of_cbytes_of.
  - destruct (r_oif r) as [n|]; [|done]. destruct Ho as [Ho _]. cbn. by rewrite string_of_cbytes_of.
  - destruct (r_uids r) as [[us ue]|]; [|done]. destruct Hu. cbn. by rewrite !rd32_le32, !u32_small.
Qed.

(** Decoding the message of a rule gives the request back. *)
Lemma decode_rule_msg type flags r :
  wf_rule r -> type = RTM_NEWRULE \/ type = RTM_DELRULE ->
  decode_rule (rule_msg type flags r) = Some (type, u16 flags, r).
Proof.
  intros Hwf Htype. pose proof (rule_body_length r Hwf) as Hlen.
  destruct (decode_attrs r Hwf) as (Hp & Ht & Hm & Hk & Hi & Ho & Hu).
  unfold rule_msg, fib_rule_hdr, nlmsghdr.
  remember (concat (map attr_bytes (rule_attrs r))) as body eqn:Hbody.
  cbn -[Z.add Z.mul Z.modulo Z.div parse_attrs].
  assert (u16 type = type) as Htt by (destruct Htype as [-> | ->]; done).
  rewrite !rd16_le16, rd32_le32, Htt, u32_idemp, u32_small by lia.
  rewrite (proj2 (Z.eqb_eq _ _)) by lia.
  assert (((type =? RTM_NEWRULE) || (type =? RTM_DELRULE))%bool = true) as ->.
  { by destruct Htype as [-> | ->]. }
  cbn [andb]. rewrite Hbody at 2.
  rewrite parse_attrs_concat; [|by apply rule_attrs_ok|].
  2: { rewrite Hbody. apply length_concat_attr_bytes. }
  cbn -[rule_attrs Z.eqb]. rewrite Hp, Ht, Hm, Hk, Hi, Ho, Hu.
  unfold u8. rewrite (Z.mod_small (r_family r)) by (destruct Hwf; lia).
  destruct r as [fam prio table mark mask iif oif uids]; cbn in *.
  unfold rule_action; cbn. destruct (table =? 0) eqn:Et; bool_to_prop; cbn; by subst.
Qed.
