(* ===== verification/NetdConstants.v ===== *)
(** * NetdConstants: helpers shared by the controllers

    Models [server/NetdConstants.cpp] ([execIptables], [isIfaceName],
    [parsePrefix], [writeFile]). *)
From S2P Require Import Prelude Platform Cstd Netlink.

Definition IPTABLES_PATH : string := "/system/bin/iptables".
Definition IP6TABLES_PATH : string := "/system/bin/ip6tables".
Definition IP_PATH : string := "/system/bin/ip".

(** <net/if.h> *)
Definition IFNAMSIZ : Z := 16.

(** bionic's resolv_netid.h *)
Definition NETID_UNSET : Z := 0.
Definition MARK_UNSET : Z := 0.

Inductive IptablesTarget := V4 | V6 | V4V6.

#[export] Instance IptablesTarget_eq_dec : EqDecision IptablesTarget.
Proof. solve_decision. Defined.

Section Exec.
Context `{K : Kernel} {S : Type}.

Definition execIptablesCommand (argv : list string) : M S Z :=
  r ← sys_exec argv;
  mret (if negb (ex_ret r =? 0) then ex_ret r
        else if negb (ex_exited r) then ECHILD
        else ex_status r).

(** [args] are the arguments after the program's path. *)
Definition execIptables (target : IptablesTarget) (args : list string) : M S Z :=
  res4 ← match target with
         | V4 | V4V6 => execIptablesCommand (IPTABLES_PATH :: args)
         | V6 => mret 0
         end;
  res6 ← match target with
         | V6 | V4V6 => execIptablesCommand (IP6TABLES_PATH :: args)
         | V4 => mret 0
         end;
  mret (Z.lor res4 res6).

Definition writeFile (path value : string) : M S Z :=
  fd ← sys_file (FOpen path);
  if fd <? 0 then mret (-1)
  else
    n ← sys_file (FWrite path value);
    if n =? strlen value then mret 0 else mret (-1).
End Exec.

Fixpoint iface_chars (s : string) : bool :=
  match s with
  | EmptyString => true
  | String c s =>
      (isalnum c || Ascii.eqb c "_" || Ascii.eqb c "-" || Ascii.eqb c ":") && iface_chars s
  end.

Definition isIfaceName (name : string) : bool :=
  let name_len := strlen name in
  if (name_len =? 0) || (IFNAMSIZ <? name_len) then false
  else
    match name with
    | EmptyString => false
    | String c rest => if negb (isalnum c) then false else iface_chars rest
    end.

(** The results of a successful [parsePrefix]. *)
Record parsed_prefix := Prefix { px_family : Z; px_address : list Z; px_length : Z }.

(** [size] is the room for the address.  [inl] is the negative errno returned. *)
Definition parsePrefix `{Kernel} (prefix : string) (size : Z) : Z + parsed_prefix :=
  match strchr prefix "/" with
  | None | Some EmptyString | Some (String _ EmptyString) => inl (- EINVAL)
  | Some (String _ prefixlenString) =>
      let '(v, endptr) := strtoul prefixlenString 10 in
      let templen := u32 v in
      if negb (String.eqb endptr "") || (255 <? templen) then inl (- EINVAL)
      else
        match k_getaddrinfo (before_char prefix "/") with
        | None => inl (- EINVAL)
        | Some (family, raw) =>
            if family =? AF_INET then
              if 32 <? templen then inl (- EINVAL)
              else if size <? 4 then inl (- ENOSPC)
              else inr (Prefix family (take 4 raw) templen)
            else if family =? AF_INET6 then
              if 128 <? templen then inl (- EINVAL)
              else if size <? 16 then inl (- ENOSPC)
              else inr (Prefix family (take 16 raw) templen)
            else inl (- EAFNOSUPPORT)
        end
  end.

(** ** Lemmas *)

(** An exit status of 0 is the only success. *)
Definition exec_ok (r : execres) : bool :=
  (ex_ret r =? 0) && ex_exited r && (ex_status r =? 0).

Lemma wp_execIptablesCommand `{Kernel} {S} argv Q (s : S) tr :
  (forall r, Q (if exec_ok r then 0
                else if negb (ex_ret r =? 0) then ex_ret r
                else if negb (ex_exited r) then ECHILD else ex_status r)
             s (tr ++ [EvExec argv r])) ->
  wp (execIptablesCommand argv) Q s tr.
Proof.
  intros HQ. apply wp_bind. unfold sys_exec, wp. specialize (HQ (k_exec tr argv)).
  unfold exec_ok in HQ. destruct (k_exec tr argv) as [ret ex st]. cbn in *.
  destruct (ret =? 0) eqn:Er; cbn in *; [|done]. destruct ex; cbn in *; [|done].
  destruct (st =? 0) eqn:Es; [|done]. by apply Z.eqb_eq in Es as ->.
Qed.

(** The value returned is 0 exactly on success. *)
Lemma exec_value_0 r :
  (if exec_ok r then 0
   else if negb (ex_ret r =? 0) then ex_ret r
   else if negb (ex_exited r) then ECHILD else ex_status r) = 0 <-> exec_ok r = true.
Proof.
  destruct r as [ret ex st]. unfold exec_ok. cbn.
  destruct (ret =? 0) eqn:Er, ex, (st =? 0) eqn:Es; cbn; bool_to_prop; split; intros; try done.
Qed.

Lemma exec_value_ok r : exec_value r = 0 <-> exec_ok r = true.
Proof.
  destruct r as [ret ex st]. unfold exec_value, exec_ok, ECHILD. cbn.
  destruct (ret =? 0) eqn:Er, ex, (st =? 0) eqn:Es; cbn; bool_to_prop; split; intros; done || lia.
Qed.

Lemma wp_sys_exec_value `{Kernel} {S} argv Q (s : S) tr :
  (forall r, Q (exec_value r) s (tr ++ [EvExec argv r])) -> wp (sys_exec_value argv) Q s tr.
Proof. intros HQ. apply HQ. Qed.

Lemma isIfaceName_length name : isIfaceName name = true -> 0 < strlen name <= 16.
Proof.
  unfold isIfaceName, IFNAMSIZ. destruct (_ || _) eqn:E; [done|]. bool_to_prop.
  unfold strlen in *. lia.
Qed.
