(* ===== verification/Ledger.v ===== *)
(** * Ledger: what the kernel has been asked to hold

    The ledger of a trace counts, for every routing rule and every iptables
    rule, the acknowledged additions minus the acknowledged removals.  A
    controller is correct when the ledger always equals what its own state
    says should be installed. *)
From S2P Require Import Prelude Platform Cstd Netlink NetdConstants.

Inductive item :=
| IRule (r : rule)
| IIptables (path table chain : string) (spec : list string).

#[export] Instance item_eq_dec : EqDecision item.
Proof. solve_decision. Defined.

(** The item an event adds (+1) or removes (-1), if any. *)
Definition event_item (ev : event) : option (Z * item) :=
  match ev with
  | EvNetlink msg (NlAck 0) =>
      match decode_rule msg with
      | Some (type, _, r) => Some (if type =? RTM_NEWRULE then 1 else -1, IRule r)
      | None => None
      end
  | EvExec (path :: "-w" :: "-t" :: table :: op :: chain :: spec) r =>
      if exec_ok r then
        if String.eqb op "-A" then Some (1, IIptables path table chain spec)
        else if String.eqb op "-D" then Some (-1, IIptables path table chain spec)
        else None
      else None
  | _ => None
  end.

Definition event_delta (i : item) (ev : event) : Z :=
  match event_item ev with
  | Some (d, j) => if decide (i = j) then d else 0
  | None => 0
  end.

Fixpoint ledger (evs : list event) (i : item) : Z :=
  match evs with
  | [] => 0
  | ev :: evs => event_delta i ev + ledger evs i
  end.

Lemma ledger_app evs1 evs2 i : ledger (evs1 ++ evs2) i = ledger evs1 i + ledger evs2 i.
Proof. induction evs1 as [|ev evs1 IH]; cbn; lia. Qed.

Lemma ledger_snoc evs ev i : ledger (evs ++ [ev]) i = ledger evs i + event_delta i ev.
Proof. rewrite ledger_app. cbn. lia. Qed.

(** ** Ledger specifications

    [books d l m]: a run of [m] that returns 0 changes the ledger by [d] times
    each item of [l], and any run keeps the invariant [I] of the state. *)

(** Which items the code means may depend on its surroundings staying as they
    are, see [Interfaces] of RouteSpec.v: what is said of the ledger is said under
    the condition [steady], what is said of the state is not. *)
Class Steady := steady : Prop.

Definition changes {St : Steady} (tr tr' : trace) (d : item -> Z) : Prop :=
  steady -> forall i, ledger tr' i = ledger tr i + d i.

Section Books.
Context {St : Steady} {S : Type} (I : S -> Prop).

Definition books (d : item -> Z) (m : M S Z) : Prop :=
  forall s tr, I s -> wp m (fun ret s' tr' => I s' /\ (ret = 0 -> changes tr tr' d)) s tr.

Lemma books_ext d d' m : (forall i, d i = d' i) -> books d m -> books d' m.
Proof.
  intros Hd Hm s tr Hs. eapply wp_mono; [by apply Hm|]. cbn. intros ret s' tr' [HI Hc].
  split; [done|]. intros Hr st i. rewrite <-Hd. by apply Hc.
Qed.

Lemma books_ret v : books (fun _ => 0) (mret v).
Proof. intros s tr Hs. apply wp_ret. split; [done|]. intros _ _ i. lia. Qed.

Lemma books_orelse d1 d2 m1 m2 :
  books d1 m1 -> books d2 m2 -> books (fun i => d1 i + d2 i) (try! m1 ;; m2).
Proof.
  intros H1 H2 s tr Hs. apply wp_orelse. eapply wp_mono; [by apply H1|]. cbn.
  intros ret s' tr' [HI Hc]. split.
  - intros Hr. eapply wp_mono; [by apply H2|]. cbn. intros ret2 s2 tr2 [HI2 Hc2].
    split; [done|]. intros Hr2 st i. rewrite Hc2, Hc by done. lia.
  - intros Hr. split; [done|]. intros. congruence.
Qed.

Lemma books_for_each {A} (d : A -> item -> Z) (f : A -> M S Z) l :
  (forall x, x ∈ l -> books (d x) (f x)) ->
  books (fun i => foldr (fun x n => d x i + n) 0 l) (for_each l f).
Proof.
  induction l as [|x l IH]; intros Hf; [apply books_ret|].
  cbn. eapply books_ext; [|apply (books_orelse (d x))].
  - done.
  - apply Hf. constructor.
  - apply IH. intros y Hy. apply Hf. by constructor.
Qed.

(** Computations that compute a value first. *)
Lemma books_bind {A} d (m : M S A) (k : A -> M S Z) (P : A -> Prop) :
  (forall s tr, I s -> wp m (fun a s' tr' => I s' /\ P a /\ changes tr tr' (fun _ => 0)) s tr) ->
  (forall a, P a -> books d (k a)) -> books d (m ≫= k).
Proof.
  intros Hm Hk s tr Hs. apply wp_bind. eapply wp_mono; [by apply Hm|]. cbn.
  intros a s' tr' (HI & HP & Hc). eapply wp_mono; [by apply (Hk a HP)|]. cbn.
  intros ret s2 tr2 [HI2 Hc2]. split; [done|]. intros Hr st i. rewrite Hc2, Hc by done. lia.
Qed.

Lemma books_if d (b : bool) m1 m2 :
  (b = true -> books d m1) -> (b = false -> books d m2) -> books d (if b then m1 else m2).
Proof. destruct b; auto. Qed.

(** A computation that never returns 0 books anything. *)
Lemma books_fail d v : v <> 0 -> books d (mret v).
Proof. intros Hv s tr Hs. apply wp_ret. split; [done|]. intros. congruence. Qed.
End Books.

(** The ledger change that adds ([add = true]) or removes each item of [l]. *)
Definition signed (add : bool) (l : list item) (i : item) : Z :=
  if add then cnt i l else - cnt i l.

Lemma signed_app add l1 l2 i : signed add (l1 ++ l2) i = signed add l1 i + signed add l2 i.
Proof. unfold signed. rewrite cnt_app. destruct add; lia. Qed.

Lemma signed_nil add i : signed add [] i = 0.
Proof. by destruct add. Qed.

Lemma signed_concat {A} add (f : A -> list item) l i :
  foldr (fun x n => signed add (f x) i + n) 0 l = signed add (concat (map f l)) i.
Proof.
  induction l as [|x l IH]; cbn; [by rewrite signed_nil|]. rewrite IH, signed_app. lia.
Qed.

Section SignedBooks.
Context {St : Steady} {S : Type} (I : S -> Prop).

(** Sequences and loops that add (or remove) lists of items. *)
Lemma books_seq add l1 l2 (m1 m2 : M S Z) :
  books I (signed add l1) m1 -> books I (signed add l2) m2 ->
  books I (signed add (l1 ++ l2)) (try! m1 ;; m2).
Proof.
  intros. eapply books_ext; [|by apply (books_orelse I (signed add l1) (signed add l2))].
  intros i. cbn. by rewrite signed_app.
Qed.

Lemma books_each {A} add (f : A -> list item) (g : A -> M S Z) l :
  (forall x, x ∈ l -> books I (signed add (f x)) (g x)) ->
  books I (signed add (concat (map f l))) (for_each l g).
Proof.
  intros. eapply books_ext; [|by apply (books_for_each I (fun x => signed add (f x)))].
  intros i. apply (signed_concat add f).
Qed.

(** A step that leaves the ledger alone. *)
Definition quiet {A} (m : M S A) : Prop :=
  forall s tr, I s -> wp m (fun _ s' tr' => I s' /\ changes tr tr' (fun _ => 0)) s tr.

Lemma quiet_ret {A} (a : A) : quiet (mret a).
Proof. intros s tr Hs. split; [done|]. intros _ i. lia. Qed.

Lemma quiet_bind {A B} (m : M S A) (k : A -> M S B) :
  quiet m -> (forall a, quiet (k a)) -> quiet (m ≫= k).
Proof.
  intros Hm Hk s tr Hs. apply wp_bind. eapply wp_mono; [by apply Hm|]. cbn.
  intros a s1 tr1 [H1 C1]. eapply wp_mono; [by apply (Hk a)|]. cbn.
  intros b s2 tr2 [H2 C2]. split; [done|]. intros st i. rewrite C2, C1 by done. lia.
Qed.

Lemma quiet_gets {A} (f : S -> A) : quiet (gets f).
Proof. intros s tr Hs. split; [done|]. intros _ i. lia. Qed.

Lemma quiet_modify (f : S -> S) : (forall s, I s -> I (f s)) -> quiet (modify f).
Proof. intros Hf s tr Hs. split; [by apply Hf|]. intros _ i. lia. Qed.

Lemma quiet_if {A} (b : bool) (m1 m2 : M S A) : quiet m1 -> quiet m2 -> quiet (if b then m1 else m2).
Proof. by destruct b. Qed.

Lemma quiet_books (m : M S Z) : quiet m -> books I (fun _ => 0) m.
Proof. intros Hm s tr Hs. eapply wp_mono; [by apply Hm|]. cbn. intros ret s' tr' []. done. Qed.

Lemma books_quiet_bind {A} d (m : M S A) (k : A -> M S Z) :
  quiet m -> (forall a, books I d (k a)) -> books I d (m ≫= k).
Proof.
  intros Hm Hk. apply (books_bind I d m k (fun _ => True)); [|by intros].
  intros s tr Hs. eapply wp_mono; [by apply Hm|]. cbn. intros a s' tr' []. done.
Qed.

Lemma books_then_quiet d (m k : M S Z) :
  books I d m -> quiet k -> books I d (try! m ;; k).
Proof.
  intros Hm Hk. eapply books_ext; [|apply books_orelse; [done|by apply quiet_books]].
  intros i. cbn. lia.
Qed.
End SignedBooks.

(** ** Success

    [succeeds m]: from a state that satisfies the invariant, [m] returns 0. *)
Section Succeeds.
Context {St : Steady} {S : Type} (I : S -> Prop).

Definition succeeds (m : M S Z) : Prop :=
  forall s tr, I s -> wp m (fun ret s' _ => ret = 0 /\ I s') s tr.

Lemma succeeds_ret : succeeds (mret 0).
Proof. done. Qed.

Lemma succeeds_orelse m1 m2 : succeeds m1 -> succeeds m2 -> succeeds (try! m1 ;; m2).
Proof.
  intros H1 H2 s tr Hs. apply wp_orelse. eapply wp_mono; [by apply H1|]. cbn.
  intros ret s' tr' [-> HI]. split; [|done]. intros _. by apply H2.
Qed.

Lemma succeeds_for_each {A} (l : list A) f :
  (forall x, x ∈ l -> succeeds (f x)) -> succeeds (for_each l f).
Proof.
  induction l as [|x l IH]; intros Hf; [apply succeeds_ret|].
  apply succeeds_orelse; [apply Hf; constructor|]. apply IH. intros y Hy. apply Hf. by constructor.
Qed.

Lemma succeeds_quiet_bind {A} (m : M S A) (k : A -> M S Z) :
  quiet I m -> (forall a, succeeds (k a)) -> succeeds (m ≫= k).
Proof.
  intros Hm Hk s tr Hs. apply wp_bind. eapply wp_mono; [by apply Hm|]. cbn.
  intros a s' tr' [HI _]. by apply Hk.
Qed.
End Succeeds.

(** ** iptables *)

Definition iptables_items (target : IptablesTarget) (table chain : string) (spec : list string) : list item :=
  match target with
  | V4 => [IIptables IPTABLES_PATH table chain spec]
  | V6 => [IIptables IP6TABLES_PATH table chain spec]
  | V4V6 => [IIptables IPTABLES_PATH table chain spec; IIptables IP6TABLES_PATH table chain spec]
  end.

Lemma event_delta_iptables path table add chain spec r i :
  exec_ok r = true ->
  event_delta i (EvExec (path :: "-w" :: "-t" :: table :: (if add : bool then "-A" else "-D") ::
                         chain :: spec) r) =
  signed add [IIptables path table chain spec] i.
Proof.
  intros Hr. unfold event_delta, event_item. rewrite Hr. unfold signed.
  destruct add; cbn; rewrite cnt_cons, cnt_nil; case_decide; lia.
Qed.

(** Appending or deleting one iptables rule for each of the targets. *)
Lemma books_execIptables {St : Steady} `{Kernel} {S} (I : S -> Prop) target table (add : bool) chain spec :
  books I (signed add (iptables_items target table chain spec))
    (execIptables target ("-w" :: "-t" :: table :: (if add then "-A" else "-D") :: chain :: spec)).
Proof.
  intros s tr Hs. unfold execIptables.
  set (args := "-w" :: "-t" :: table :: (if add then "-A" else "-D") :: chain :: spec).
  destruct target; cbn [iptables_items].
  - apply wp_bind, wp_execIptablesCommand. intros r. apply wp_bind, wp_ret, wp_ret.
    split; [done|]. rewrite lor_eq_0, exec_value_0. intros [Hr _] _ i.
    rewrite ledger_snoc. unfold args. by rewrite event_delta_iptables.
  - apply wp_bind, wp_ret, wp_bind, wp_execIptablesCommand. intros r. apply wp_ret.
    split; [done|]. rewrite lor_eq_0, exec_value_0. intros [_ Hr] _ i.
    rewrite ledger_snoc. unfold args. by rewrite event_delta_iptables.
  - apply wp_bind, wp_execIptablesCommand. intros r4.
    apply wp_bind, wp_execIptablesCommand. intros r6. apply wp_ret.
    split; [done|]. rewrite lor_eq_0, !exec_value_0. intros [H4 H6] _ i.
    rewrite !ledger_snoc. unfold args. rewrite !event_delta_iptables by done.
    pose proof (signed_app add [IIptables IPTABLES_PATH table chain spec]
      [IIptables IP6TABLES_PATH table chain spec] i) as Happ. cbn [app] in Happ. lia.
Qed.

(** A kernel and helper programs that do what they are asked. *)
Class Accepting {K : Kernel} := {
  accept_netlink : forall tr msg, k_netlink tr msg = NlAck 0;
  accept_exec : forall tr argv, exec_ok (k_exec tr argv) = true;
  accept_ifindex : forall tr name, k_ifindex tr name <> 0
}.
Arguments Accepting : clear implicits.

Section AcceptingCalls.
Context {K : Kernel} {KA : Accepting K} {S : Type} (I : S -> Prop).

Lemma accept_exec_value tr argv : exec_value (k_exec tr argv) = 0.
Proof. by apply exec_value_ok, accept_exec. Qed.

Lemma succeeds_execIptablesCommand argv : succeeds I (execIptablesCommand argv).
Proof.
  intros s tr Hs. unfold execIptablesCommand. apply wp_bind. unfold sys_exec, wp.
  pose proof (accept_exec tr argv) as H. unfold exec_ok in H. bool_to_prop.
  rewrite (proj2 (Z.eqb_eq _ _)) by done. cbn [negb].
  by destruct (ex_exited _).
Qed.

Lemma succeeds_execIptables target args : succeeds I (execIptables target args).
Proof.
  intros s tr Hs. unfold execIptables. apply wp_bind.
  assert (forall b : bool, wp (if b then execIptablesCommand (IPTABLES_PATH :: args) else mret 0)
    (fun ret s' _ => ret = 0 /\ I s') s tr) as H4.
  { intros []; [by apply succeeds_execIptablesCommand|done]. }
  assert (forall (b : bool) s tr, I s ->
    wp (if b then execIptablesCommand (IP6TABLES_PATH :: args) else mret 0)
    (fun ret s' _ => ret = 0 /\ I s') s tr) as H6.
  { intros []; intros; [by apply succeeds_execIptablesCommand|done]. }
  eapply wp_mono; [by destruct target; [apply (H4 true)|apply (H4 false)|apply (H4 true)]|].
  cbn. intros r4 s4 tr4 [-> HI4]. apply wp_bind.
  eapply wp_mono; [by destruct target; [apply (H6 false)|apply (H6 true)|apply (H6 true)]|].
  cbn. intros r6 s6 tr6 [-> HI6]. done.
Qed.
End AcceptingCalls.
