(* ===== verification/Iptables.v ===== *)
(** * Iptables: the chains the acknowledged commands leave behind

    The controllers of iptables chains run "iptables" and "ip6tables"
    commands.  [chain_rules] replays the acknowledged commands of a trace on
    one chain of one table, in the order in which they were run: this is the
    specification the controllers are proved against.  Only the documented
    effect of -A, -I, -D, -F, -N and -X is used. *)
From S2P Require Import Prelude Platform Cstd Netlink NetdConstants Ledger.

(** A rule is the list of the words after the chain's name. *)
Abbreviation iprule := (list string).

(** The chain [cn_name] of the table [cn_table], as the program [cn_path] sees it. *)
Record chain_name := Chain { cn_path : string; cn_table : string; cn_name : string }.

#[export] Instance chain_name_eq_dec : EqDecision chain_name.
Proof. solve_decision. Defined.

(** ** Commands *)

Inductive chain_op :=
| OpAppend (r : iprule)
| OpInsert (pos : nat) (r : iprule)      (** before the rule at index [pos], from 0 *)
| OpDelete (r : iprule)                  (** the first rule equal to [r] *)
| OpClear.                               (** flush, create or delete the chain *)

Definition is_numeral (w : string) : bool :=
  match String.list_ascii_of_string w with
  | [] => false
  | l => forallb isdigit l
  end.

(** The operation that the words after the table select. *)
Definition parse_op (words : list string) : option (string * chain_op) :=
  match words with
  | op :: chain :: spec =>
      if String.eqb op "-A" then Some (chain, OpAppend spec)
      else if String.eqb op "-I" then
        match spec with
        | w :: spec' =>
            if is_numeral w then Some (chain, OpInsert (Z.to_nat (atoi w - 1)) spec')
            else Some (chain, OpInsert 0 spec)
        | [] => Some (chain, OpInsert 0 [])
        end
      else if String.eqb op "-D" then Some (chain, OpDelete spec)
      else if String.eqb op "-F" || String.eqb op "-N" || String.eqb op "-X"
      then Some (chain, OpClear)
      else None
  | _ => None
  end.

(** The chain a command line is about, and what it does to it. *)
Definition parse_iptables (argv : list string) : option (chain_name * chain_op) :=
  match argv with
  | [] => None
  | path :: args =>
      let args := match args with w :: args' => if String.eqb w "-w" then args' else args | [] => [] end in
      let '(table, args) :=
        match args with
        | t :: table :: args' => if String.eqb t "-t" then (table, args') else ("filter", args)
        | _ => ("filter", args)
        end in
      '(chain, op) ← parse_op args; Some (Chain path table chain, op)
  end.

(** ** Replay *)

Fixpoint remove_first (r : iprule) (rs : list iprule) : list iprule :=
  match rs with
  | [] => []
  | r' :: rs => if decide (r = r') then rs else r' :: remove_first r rs
  end.

Definition run_op (op : chain_op) (rs : list iprule) : list iprule :=
  match op with
  | OpAppend r => rs ++ [r]
  | OpInsert pos r => take pos rs ++ r :: drop pos rs
  | OpDelete r => remove_first r rs
  | OpClear => []
  end.

Definition run_argv (c : chain_name) (rs : list iprule) (argv : list string) : list iprule :=
  match parse_iptables argv with
  | Some (c', op) => if decide (c = c') then run_op op rs else rs
  | None => rs
  end.

Definition replay (c : chain_name) (rs : list iprule) (l : list (list string)) : list iprule :=
  foldl (run_argv c) rs l.

(** The command lines that were run with success. *)
Definition acked_event (ev : event) : option (list string) :=
  match ev with
  | EvExec argv r => if exec_ok r then Some argv else None
  | _ => None
  end.
Definition acked (tr : trace) : list (list string) := omap acked_event tr.

Definition chain_rules (c : chain_name) (tr : trace) : list iprule := replay c [] (acked tr).

(** ** Lemmas *)

Lemma replay_app c rs l1 l2 : replay c rs (l1 ++ l2) = replay c (replay c rs l1) l2.
Proof. apply foldl_app. Qed.

Lemma acked_app tr1 tr2 : acked (tr1 ++ tr2) = acked tr1 ++ acked tr2.
Proof. apply omap_app. Qed.

Lemma acked_exec tr argv r :
  acked (tr ++ [EvExec argv r]) = if exec_ok r then acked tr ++ [argv] else acked tr.
Proof. rewrite acked_app. cbn. destruct (exec_ok r); by rewrite ?app_nil_r. Qed.

Lemma acked_quiet tr ev :
  match ev with EvExec _ _ => False | _ => True end -> acked (tr ++ [ev]) = acked tr.
Proof. intros. rewrite acked_app. destruct ev; [|done|..]; cbn; by rewrite app_nil_r. Qed.

Lemma chain_rules_exec c tr argv r :
  chain_rules c (tr ++ [EvExec argv r]) =
  if exec_ok r then run_argv c (chain_rules c tr) argv else chain_rules c tr.
Proof.
  unfold chain_rules. rewrite acked_exec. destruct (exec_ok r); [|done]. by rewrite replay_app.
Qed.

Lemma parse_iptables_path path args c op : parse_iptables (path :: args) = Some (c, op) -> cn_path c = path.
Proof.
  unfold parse_iptables. intros H. destruct (match _ with [] => _ | _ :: _ => _ end) as [table rest].
  destruct (parse_op rest) as [[chain op']|]; [|done]. by injection H as <- _.
Qed.

Lemma run_argv_other_path c rs path args :
  path <> cn_path c -> run_argv c rs (path :: args) = rs.
Proof.
  intros Hne. unfold run_argv. destruct (parse_iptables _) as [[c' op]|] eqn:E; [|done].
  apply parse_iptables_path in E. rewrite decide_False; [done|]. congruence.
Qed.

Lemma remove_first_notin r rs : r ∉ rs -> remove_first r rs = rs.
Proof.
  induction rs as [|r' rs IH]; intros H; [done|]. cbn. apply not_elem_of_cons in H as [??].
  rewrite decide_False by done. by rewrite IH.
Qed.

Lemma remove_first_app_in r rs1 rs2 : r ∈ rs1 -> remove_first r (rs1 ++ rs2) = remove_first r rs1 ++ rs2.
Proof.
  induction rs1 as [|r' rs1 IH]; intros H; [by apply elem_of_nil in H|]. cbn.
  case_decide; [done|]. cbn. f_equal. apply IH. by apply elem_of_cons in H as [->|].
Qed.

Lemma remove_first_app_notin r rs1 rs2 : r ∉ rs1 -> remove_first r (rs1 ++ rs2) = rs1 ++ remove_first r rs2.
Proof.
  induction rs1 as [|r' rs1 IH]; intros H; [done|]. cbn. apply not_elem_of_cons in H as [??].
  rewrite decide_False by done. by rewrite IH.
Qed.

Lemma remove_first_cons_ne r r' rs : r <> r' -> remove_first r (r' :: rs) = r' :: remove_first r rs.
Proof. intros. cbn. by rewrite decide_False. Qed.

Lemma remove_first_cons_eq r rs : remove_first r (r :: rs) = rs.
Proof. cbn. by rewrite decide_True. Qed.

Lemma remove_first_incl r rs x : x ∈ remove_first r rs -> x ∈ rs.
Proof.
  induction rs as [|r' rs IH]; [done|]. cbn. case_decide; [by constructor|].
  intros [->|?]%elem_of_cons; [by constructor|]. constructor. by apply IH.
Qed.

(** Counting the occurrences of a rule. *)
Lemma cnt_remove_first (x r : iprule) (rs : list iprule) :
  cnt x (remove_first r rs) = cnt x rs - (if decide (x = r /\ r ∈ rs) then 1 else 0).
Proof.
  induction rs as [|r' rs IH]; cbn [remove_first].
  - rewrite cnt_nil, decide_False; [lia|]. intros [_ H]. by apply elem_of_nil in H.
  - destruct (decide (r = r')) as [E|E].
    + subst r'. rewrite cnt_cons. destruct (decide (x = r)) as [->|].
      * rewrite decide_True by (split; [done|constructor]). lia.
      * rewrite decide_False by tauto. lia.
    + rewrite !cnt_cons, IH.
      assert (x = r /\ r ∈ rs <-> x = r /\ r ∈ r' :: rs) as Hiff.
      { rewrite elem_of_cons. intuition congruence. }
      destruct (decide (x = r /\ r ∈ rs)), (decide (x = r /\ r ∈ r' :: rs)); tauto || lia.
Qed.

Lemma cnt_insert_at (x r : iprule) pos (rs : list iprule) :
  cnt x (take pos rs ++ r :: drop pos rs) = cnt x rs + (if decide (x = r) then 1 else 0).
Proof.
  rewrite <-(take_drop pos rs) at 3. rewrite !cnt_app, cnt_cons. lia.
Qed.

(** Deleting another rule leaves the last rule last. *)
Lemma remove_first_last r rs x : r <> x -> last rs = Some x -> last (remove_first r rs) = Some x.
Proof.
  intros Hne. induction rs as [|r' rs IH]; [done|]. intros Hl. cbn. case_decide as E.
  - subst r'. destruct rs as [|y rs]; [cbn in Hl; congruence|]. by rewrite last_cons_cons in Hl.
  - destruct rs as [|y rs]; [done|]. rewrite last_cons_cons in Hl. specialize (IH Hl).
    destruct (remove_first r (y :: rs)) eqn:E2; [done|]. by rewrite last_cons_cons.
Qed.

(** ** Reasoning about one chain

    [on_chain c P Q m]: a run of [m] from a state and a chain that satisfy [P]
    ends in a value, a state and a chain that satisfy [Q]. *)
Section OnChain.
Context {K : Kernel} {S : Type} (c : chain_name).

Definition on_chain {A} (P : S -> list iprule -> Prop) (m : M S A)
    (Q : A -> S -> list iprule -> Prop) : Prop :=
  forall s tr, P s (chain_rules c tr) -> wp m (fun a s' tr' => Q a s' (chain_rules c tr')) s tr.

Lemma on_chain_mono {A} P (m : M S A) (Q Q' : A -> S -> list iprule -> Prop) :
  on_chain P m Q -> (forall a s rs, Q a s rs -> Q' a s rs) -> on_chain P m Q'.
Proof. intros Hm HQ s tr HP. eapply wp_mono; [by apply Hm|]. cbn. intros. by apply HQ. Qed.

Lemma on_chain_ret {A} (P : S -> list iprule -> Prop) (a : A) :
  on_chain P (mret a) (fun b s rs => b = a /\ P s rs).
Proof. intros s tr HP. apply wp_ret. done. Qed.

Lemma on_chain_bind {A B} P (m : M S A) (k : A -> M S B) Q R :
  on_chain P m Q -> (forall a, on_chain (Q a) (k a) R) -> on_chain P (m ≫= k) R.
Proof.
  intros Hm Hk s tr HP. apply wp_bind. eapply wp_mono; [by apply Hm|]. cbn. intros a s' tr' HQ.
  by apply Hk.
Qed.

(** Both programs for the targets of [execIptables]. *)
Lemma on_chain_execIptables P target args (Q : S -> list iprule -> Prop) :
  (forall s rs, P s rs -> Q s rs) ->
  (forall path r s tr, (path = IPTABLES_PATH \/ path = IP6TABLES_PATH) -> Q s (chain_rules c tr) ->
     Q s (chain_rules c (tr ++ [EvExec (path :: args) r]))) ->
  on_chain P (execIptables target args) (fun _ s rs => Q s rs).
Proof.
  intros HPQ Hstep s tr HP. apply HPQ in HP. unfold execIptables.
  destruct target.
  - apply wp_bind, wp_execIptablesCommand. intros r. apply wp_bind, wp_ret, wp_ret. auto.
  - apply wp_bind, wp_ret, wp_bind, wp_execIptablesCommand. intros r. apply wp_ret. auto.
  - apply wp_bind, wp_execIptablesCommand. intros r4.
    apply wp_bind, wp_execIptablesCommand. intros r6. apply wp_ret. auto.
Qed.
End OnChain.

(** ** What a successful run has executed

    [runs l m]: when [m] returns 0 it has run the command lines [l], in this
    order, all of them with success. *)
Section Runs.
Context {K : Kernel} {S : Type}.

Definition runs (l : list (list string)) (m : M S Z) : Prop :=
  forall s tr, wp m (fun ret _ tr' => ret = 0 -> acked tr' = acked tr ++ l) s tr.

Lemma runs_ret v : runs [] (mret v).
Proof. intros s tr. apply wp_ret. by rewrite app_nil_r. Qed.

Lemma runs_value argv : runs [argv] (sys_exec_value argv).
Proof.
  intros s tr. apply wp_sys_exec_value. intros r Hr%exec_value_ok. by rewrite acked_exec, Hr.
Qed.

Lemma runs_orelse l1 l2 m1 m2 : runs l1 m1 -> runs l2 m2 -> runs (l1 ++ l2) (try! m1 ;; m2).
Proof.
  intros H1 H2 s tr. apply wp_orelse. eapply wp_mono; [by apply H1|]. cbn.
  intros ret s' tr' Hc. split; [|done]. intros Hr. eapply wp_mono; [by apply H2|]. cbn.
  intros ret2 s2 tr2 Hc2 Hr2. by rewrite Hc2, Hc, app_assoc.
Qed.

(** [res |= m1; res |= m2; return res;] *)
Lemma runs_lor l1 l2 (m1 m2 : M S Z) :
  runs l1 m1 -> runs l2 m2 -> runs (l1 ++ l2) (a ← m1; b ← m2; mret (Z.lor a b)).
Proof.
  intros H1 H2 s tr. apply wp_bind. eapply wp_mono; [by apply H1|]. cbn. intros a s1 tr1 Ha.
  apply wp_bind. eapply wp_mono; [by apply H2|]. cbn. intros b s2 tr2 Hb.
  rewrite lor_eq_0. intros [E1 E2]. by rewrite Hb, Ha, app_assoc by done.
Qed.

Definition targets (target : IptablesTarget) (args : list string) : list (list string) :=
  match target with
  | V4 => [IPTABLES_PATH :: args]
  | V6 => [IP6TABLES_PATH :: args]
  | V4V6 => [IPTABLES_PATH :: args; IP6TABLES_PATH :: args]
  end.

Lemma runs_execIptables target args : runs (targets target args) (execIptables target args).
Proof.
  intros s tr. unfold execIptables. destruct target; cbn [targets].
  - apply wp_bind, wp_execIptablesCommand. intros r. apply wp_bind, wp_ret, wp_ret.
    rewrite lor_eq_0, exec_value_0. intros [Hr _]. by rewrite acked_exec, Hr.
  - apply wp_bind, wp_ret, wp_bind, wp_execIptablesCommand. intros r. apply wp_ret.
    rewrite lor_eq_0, exec_value_0. intros [_ Hr]. by rewrite acked_exec, Hr.
  - apply wp_bind, wp_execIptablesCommand. intros r4.
    apply wp_bind, wp_execIptablesCommand. intros r6. apply wp_ret.
    rewrite lor_eq_0, !exec_value_0. intros [H4 H6]. by rewrite !acked_exec, H4, H6, <-app_assoc.
Qed.
End Runs.

(** ** Computations that run no program *)
Section NoExec.
Context {K : Kernel} {S : Type}.

Definition no_exec {A} (m : M S A) : Prop :=
  forall s tr, wp m (fun _ _ tr' => acked tr' = acked tr) s tr.

Lemma no_exec_ret {A} (a : A) : no_exec (mret a).
Proof. by intros s tr. Qed.

Lemma no_exec_gets {A} (f : S -> A) : no_exec (gets f).
Proof. by intros s tr. Qed.

Lemma no_exec_modify (f : S -> S) : no_exec (modify f).
Proof. by intros s tr. Qed.

Lemma no_exec_bind {A B} (m : M S A) (k : A -> M S B) :
  no_exec m -> (forall a, no_exec (k a)) -> no_exec (m ≫= k).
Proof.
  intros Hm Hk s tr. apply wp_bind. eapply wp_mono; [apply Hm|]. cbn. intros a s1 tr1 E1.
  eapply wp_mono; [apply Hk|]. cbn. intros. congruence.
Qed.

Lemma no_exec_if {A} (b : bool) (m1 m2 : M S A) : no_exec m1 -> no_exec m2 -> no_exec (if b then m1 else m2).
Proof. by destruct b. Qed.

Lemma no_exec_for_each {A} (l : list A) (f : A -> M S Z) :
  (forall x, no_exec (f x)) -> no_exec (for_each l f).
Proof.
  intros Hf. induction l as [|x l IH]; [apply no_exec_ret|].
  apply no_exec_bind; [done|]. intros a. by apply no_exec_if; [|apply no_exec_ret].
Qed.

Lemma no_exec_netlink action flags iov : no_exec (sendNetlinkRequest action flags iov).
Proof.
  apply no_exec_bind; [|intros; apply no_exec_ret]. intros s tr. unfold sys_netlink, wp.
  by apply acked_quiet.
Qed.

Lemma no_exec_ifindex name : no_exec (sys_ifindex name).
Proof. intros s tr. unfold sys_ifindex, wp. by apply acked_quiet. Qed.
End NoExec.
#[export] Hint Resolve no_exec_ret no_exec_gets no_exec_modify no_exec_netlink no_exec_ifindex : netd.
