(* ===== verification/RouteController.v ===== *)
(** * RouteController: routing rules and routes

    Models [server/RouteController.cpp].  The state is the static map
    [interfaceToTable]; everything else is what the functions send to the
    kernel: rule and route requests over netlink, iptables and ip commands. *)
From S2P Require Import Prelude Platform Cstd Fwmark UidRanges Netlink.
From S2P Require Import NetdConstants Ledger.

(** ** Constants *)

Definition RULE_PRIORITY_VPN_OVERRIDE_SYSTEM : Z := 10000.
Definition RULE_PRIORITY_VPN_OUTPUT_TO_LOCAL : Z := 11000.
Definition RULE_PRIORITY_SECURE_VPN : Z := 12000.
Definition RULE_PRIORITY_EXPLICIT_NETWORK : Z := 13000.
Definition RULE_PRIORITY_OUTPUT_INTERFACE : Z := 14000.
Definition RULE_PRIORITY_LEGACY_SYSTEM : Z := 15000.
Definition RULE_PRIORITY_LEGACY_NETWORK : Z := 16000.
Definition RULE_PRIORITY_LOCAL_NETWORK : Z := 17000.
Definition RULE_PRIORITY_TETHERING : Z := 18000.
Definition RULE_PRIORITY_IMPLICIT_NETWORK : Z := 19000.
Definition RULE_PRIORITY_BYPASSABLE_VPN : Z := 20000.
Definition RULE_PRIORITY_VPN_FALLTHROUGH : Z := 21000.
Definition RULE_PRIORITY_DEFAULT_NETWORK : Z := 22000.
Definition RULE_PRIORITY_DIRECTLY_CONNECTED : Z := 23000.
Definition RULE_PRIORITY_UNREACHABLE : Z := 32000.

Definition ROUTE_TABLE_LOCAL_NETWORK : Z := 97.
Definition ROUTE_TABLE_LEGACY_NETWORK : Z := 98.
Definition ROUTE_TABLE_LEGACY_SYSTEM : Z := 99.
Definition ROUTE_TABLE_OFFSET_FROM_INDEX : Z := 1000.

Definition ROUTE_TABLE_NAME_LOCAL_NETWORK : string := "local_network".
Definition ROUTE_TABLE_NAME_LEGACY_NETWORK : string := "legacy_network".
Definition ROUTE_TABLE_NAME_LEGACY_SYSTEM : string := "legacy_system".
Definition ROUTE_TABLE_NAME_LOCAL : string := "local".
Definition ROUTE_TABLE_NAME_MAIN : string := "main".

(** <linux/rtnetlink.h> *)
Definition RT_TABLE_UNSPEC : Z := 0.
Definition RT_TABLE_MAIN : Z := 254.
Definition RT_TABLE_LOCAL : Z := 255.
Definition RTN_UNICAST : Z := 1.
Definition RTN_UNREACHABLE : Z := 7.
Definition RTN_THROW : Z := 9.
Definition RTPROT_STATIC : Z := 4.
Definition RT_SCOPE_UNIVERSE : Z := 0.
Definition RT_SCOPE_LINK : Z := 253.
Definition RTA_DST : Z := 1.
Definition RTA_OIF : Z := 4.
Definition RTA_GATEWAY : Z := 5.
Definition RTA_TABLE : Z := 15.

Definition NETLINK_REQUEST_FLAGS : Z := Z.lor NLM_F_REQUEST NLM_F_ACK.
Definition NETLINK_CREATE_REQUEST_FLAGS : Z :=
  Z.lor (Z.lor NETLINK_REQUEST_FLAGS NLM_F_CREATE) NLM_F_EXCL.
Definition AF_FAMILIES : list Z := [AF_INET; AF_INET6].
Definition IP_VERSIONS : list string := ["-4"; "-6"].
Definition UID_ROOT : Z := 0.
Definition IIF_NONE : option string := None.
Definition OIF_NONE : option string := None.
Definition ACTION_ADD : bool := true.
Definition ACTION_DEL : bool := false.
Definition MODIFY_NON_UID_BASED_RULES : bool := true.
Definition RT_TABLES_PATH : string := "/data/misc/net/rt_tables".
Definition ROUTE_FLUSH_ATTEMPTS : nat := 2.

Inductive TableType := INTERFACE | LOCAL_NETWORK | LEGACY_NETWORK | LEGACY_SYSTEM.

(** [interfaceToTable] *)
Abbreviation RouteState := (gmap string Z).

(** An optional entry of an iovec array. *)
Definition when_bytes (b : bool) (bytes : list Z) : list Z := if b then bytes else [].

(** [add ? RTM_NEWRULE : RTM_DELRULE] *)
Definition rule_type (add : bool) : Z := if add then RTM_NEWRULE else RTM_DELRULE.

(** Bytes of the name with its NUL, its length, and the padding after it.
    [inl] is the negative errno returned. *)
Definition padInterfaceName (input : option string) : Z + list Z * Z * Z :=
  match input with
  | None => inr ([], 0, 0)
  | Some name =>
      let length := strlen name + 1 in
      if IFNAMSIZ <? length then inl (- ENAMETOOLONG)
      else inr (cbytes_of name, length, RTA_SPACE length - RTA_LENGTH length)
  end.

Definition addTableName (table : Z) (name contents : string) : string :=
  contents +:+ print_u table +:+ " " +:+ name +:+ String "010" "".

Definition tableNames (interfaceToTable : RouteState) : string :=
  let contents := addTableName RT_TABLE_LOCAL ROUTE_TABLE_NAME_LOCAL "" in
  let contents := addTableName RT_TABLE_MAIN ROUTE_TABLE_NAME_MAIN contents in
  let contents := addTableName ROUTE_TABLE_LOCAL_NETWORK ROUTE_TABLE_NAME_LOCAL_NETWORK contents in
  let contents := addTableName ROUTE_TABLE_LEGACY_NETWORK ROUTE_TABLE_NAME_LEGACY_NETWORK contents in
  let contents := addTableName ROUTE_TABLE_LEGACY_SYSTEM ROUTE_TABLE_NAME_LEGACY_SYSTEM contents in
  foldl (fun contents entry => addTableName entry.2 entry.1 contents) contents
    (string_map_entries interfaceToTable).

(** The message body of a rule request: [iov[1..]] of [modifyIpRule]. *)
Definition rule_iov (family priority table fwmark mask uidStart uidEnd : Z)
    (iif : option string) (iifName : list Z) (iifLength iifPadding : Z)
    (oif : option string) (oifName : list Z) (oifLength oifPadding : Z) : list (list Z) :=
  let to_table := negb (table =? RT_TABLE_UNSPEC) in
  let action := if to_table then FR_ACT_TO_TBL else FR_ACT_UNREACHABLE in
  let masked := negb (mask =? 0) in
  let isUidRule := negb (uidStart =? INVALID_UID) in
  [ fib_rule_hdr family action;
    rtattr (U16_RTA_LENGTH 4) FRA_PRIORITY;
    le32 priority;
    when_bytes to_table (rtattr (U16_RTA_LENGTH 4) FRA_TABLE);
    when_bytes to_table (le32 table);
    when_bytes masked (rtattr (U16_RTA_LENGTH 4) FRA_FWMARK);
    when_bytes masked (le32 fwmark);
    when_bytes masked (rtattr (U16_RTA_LENGTH 4) FRA_FWMASK);
    when_bytes masked (le32 mask);
    when_bytes isUidRule (rtattr (U16_RTA_LENGTH 4) FRA_UID_START);
    when_bytes isUidRule (le32 uidStart);
    when_bytes isUidRule (rtattr (U16_RTA_LENGTH 4) FRA_UID_END);
    when_bytes isUidRule (le32 uidEnd);
    when_bytes (bool_decide (iif <> IIF_NONE)) (rtattr (U16_RTA_LENGTH iifLength) FRA_IIFNAME);
    iifName;
    replicate (Z.to_nat iifPadding) 0;
    when_bytes (bool_decide (oif <> OIF_NONE)) (rtattr (U16_RTA_LENGTH oifLength) FRA_OIFNAME);
    oifName;
    replicate (Z.to_nat oifPadding) 0 ].

(** [nexthop && !strcmp(nexthop, word)] *)
Definition is_hop (word : string) (nexthop : option string) : bool :=
  match nexthop with None => false | Some hop => String.eqb hop word end.

Section RouteController.
Context `{K : Kernel}.

(** ** Tables *)

Definition getRouteTableForInterface (interface : string) : M RouteState Z :=
  index ← sys_ifindex interface;
  let index := u32 index in
  if negb (index =? 0) then
    let index := u32 (index + ROUTE_TABLE_OFFSET_FROM_INDEX) in
    modify (fun interfaceToTable => <[interface := index]> interfaceToTable);;
    mret index
  else
    gets (fun interfaceToTable =>
      match interfaceToTable !! interface with
      | None => RT_TABLE_UNSPEC
      | Some table => table
      end).

Definition updateTableNamesFile : M RouteState unit :=
  contents ← gets tableNames;
  fd ← sys_file (FOpen RT_TABLES_PATH);
  if fd =? -1 then mret tt
  else
    _ ← sys_file (FChmod RT_TABLES_PATH);
    _ ← sys_file (FWrite RT_TABLES_PATH contents);
    mret tt.

(** ** Rules *)

Definition modifyIpRule (action priority table fwmark mask : Z) (iif oif : option string)
    (uidStart uidEnd : Z) : M RouteState Z :=
  if negb (Z.ldiff fwmark mask =? 0) then mret (- ERANGE)
  else
    match padInterfaceName iif with
    | inl ret => mret ret
    | inr (iifName, iifLength, iifPadding) =>
        match padInterfaceName oif with
        | inl ret => mret ret
        | inr (oifName, oifLength, oifPadding) =>
            if negb (Bool.eqb (uidStart =? INVALID_UID) (uidEnd =? INVALID_UID))
            then mret (- EUSERS)
            else
              let flags := if action =? RTM_NEWRULE then NETLINK_CREATE_REQUEST_FLAGS
                           else NETLINK_REQUEST_FLAGS in
              for_each AF_FAMILIES (fun family =>
                sendNetlinkRequest action flags
                  (rule_iov family priority table fwmark mask uidStart uidEnd
                     iif iifName iifLength iifPadding oif oifName oifLength oifPadding))
        end
    end.

(** The overload without interfaces and UIDs. *)
Definition modifyIpRule5 (action priority table fwmark mask : Z) : M RouteState Z :=
  modifyIpRule action priority table fwmark mask IIF_NONE OIF_NONE INVALID_UID INVALID_UID.

Definition modifyIncomingPacketMark (netId : Z) (interface : string) (permission : Z) (add : bool)
    : M RouteState Z :=
  let fwmark := set_netId netId Fwmark_init in
  let fwmark := set_explicitlySelected true fwmark in
  let fwmark := set_protectedFromVpn true fwmark in
  let fwmark := set_permission permission fwmark in
  let markString := "0x" +:+ print_x fwmark in
  res ← execIptables V4V6 ["-w"; "-t"; "mangle"; if add then "-A" else "-D"; "INPUT";
                           "-i"; interface; "-j"; "MARK"; "--set-mark"; markString];
  if negb (res =? 0) then mret (- EREMOTEIO) else mret 0.

Definition modifyVpnOutputToLocalRule (vpnInterface : string) (add : bool) : M RouteState Z :=
  modifyIpRule (rule_type add) RULE_PRIORITY_VPN_OUTPUT_TO_LOCAL ROUTE_TABLE_LOCAL_NETWORK
    MARK_UNSET MARK_UNSET (Some vpnInterface) OIF_NONE INVALID_UID INVALID_UID.

Definition modifyVpnUidRangeRule (table uidStart uidEnd : Z) (secure add : bool) : M RouteState Z :=
  let fwmark := set_protectedFromVpn false Fwmark_init in
  let mask := set_protectedFromVpn true Fwmark_init in
  let '(priority, fwmark, mask) :=
    if secure then (RULE_PRIORITY_SECURE_VPN, fwmark, mask)
    else (RULE_PRIORITY_BYPASSABLE_VPN, set_explicitlySelected false fwmark,
          set_explicitlySelected true mask) in
  modifyIpRule (rule_type add) priority table fwmark mask IIF_NONE OIF_NONE uidStart uidEnd.

Definition modifyVpnSystemPermissionRule (netId table : Z) (secure add : bool) : M RouteState Z :=
  let fwmark := set_netId netId Fwmark_init in
  let mask := set_netId FWMARK_NET_ID_MASK Fwmark_init in
  let fwmark := set_permission PERMISSION_SYSTEM fwmark in
  let mask := set_permission PERMISSION_SYSTEM mask in
  let priority := if secure then RULE_PRIORITY_SECURE_VPN else RULE_PRIORITY_BYPASSABLE_VPN in
  modifyIpRule5 (rule_type add) priority table fwmark mask.

Definition modifyExplicitNetworkRule (netId table permission uidStart uidEnd : Z) (add : bool)
    : M RouteState Z :=
  let fwmark := set_netId netId Fwmark_init in
  let mask := set_netId FWMARK_NET_ID_MASK Fwmark_init in
  let fwmark := set_explicitlySelected true fwmark in
  let mask := set_explicitlySelected true mask in
  let fwmark := set_permission permission fwmark in
  let mask := set_permission permission mask in
  modifyIpRule (rule_type add) RULE_PRIORITY_EXPLICIT_NETWORK table fwmark mask
    IIF_NONE OIF_NONE uidStart uidEnd.

Definition modifyOutputInterfaceRule (interface : string) (table permission uidStart uidEnd : Z)
    (add : bool) : M RouteState Z :=
  let fwmark := set_permission permission Fwmark_init in
  let mask := set_permission permission Fwmark_init in
  modifyIpRule (rule_type add) RULE_PRIORITY_OUTPUT_INTERFACE table fwmark mask
    IIF_NONE (Some interface) uidStart uidEnd.

Definition modifyImplicitNetworkRule (netId table permission : Z) (add : bool) : M RouteState Z :=
  let fwmark := set_netId netId Fwmark_init in
  let mask := set_netId FWMARK_NET_ID_MASK Fwmark_init in
  let fwmark := set_explicitlySelected false fwmark in
  let mask := set_explicitlySelected true mask in
  let fwmark := set_permission permission fwmark in
  let mask := set_permission permission mask in
  modifyIpRule5 (rule_type add) RULE_PRIORITY_IMPLICIT_NETWORK table fwmark mask.

Definition modifyVpnFallthroughRule (action vpnNetId : Z) (physicalInterface : string)
    (permission : Z) : M RouteState Z :=
  table ← getRouteTableForInterface physicalInterface;
  if table =? RT_TABLE_UNSPEC then mret (- ESRCH)
  else
    let fwmark := set_netId vpnNetId Fwmark_init in
    let mask := set_netId FWMARK_NET_ID_MASK Fwmark_init in
    let fwmark := set_explicitlySelected false fwmark in
    let mask := set_explicitlySelected true mask in
    let fwmark := set_permission permission fwmark in
    let mask := set_permission permission mask in
    modifyIpRule5 action RULE_PRIORITY_VPN_FALLTHROUGH table fwmark mask.

Definition addLegacyRouteRules : M RouteState Z :=
  let fwmark := set_explicitlySelected false Fwmark_init in
  let mask := set_explicitlySelected true Fwmark_init in
  try! modifyIpRule5 RTM_NEWRULE RULE_PRIORITY_LEGACY_SYSTEM ROUTE_TABLE_LEGACY_SYSTEM
         fwmark mask ;;
  try! modifyIpRule5 RTM_NEWRULE RULE_PRIORITY_LEGACY_NETWORK ROUTE_TABLE_LEGACY_NETWORK
         fwmark mask ;;
  let fwmark := set_permission PERMISSION_SYSTEM fwmark in
  let mask := set_permission PERMISSION_SYSTEM mask in
  modifyIpRule5 RTM_NEWRULE RULE_PRIORITY_VPN_OVERRIDE_SYSTEM ROUTE_TABLE_LEGACY_SYSTEM
    fwmark mask.

Definition addLocalNetworkRules (localNetId : Z) : M RouteState Z :=
  try! modifyExplicitNetworkRule localNetId ROUTE_TABLE_LOCAL_NETWORK PERMISSION_NONE
         INVALID_UID INVALID_UID ACTION_ADD ;;
  let fwmark := set_explicitlySelected false Fwmark_init in
  let mask := set_explicitlySelected true Fwmark_init in
  modifyIpRule5 RTM_NEWRULE RULE_PRIORITY_LOCAL_NETWORK ROUTE_TABLE_LOCAL_NETWORK fwmark mask.

Definition addDirectlyConnectedRule : M RouteState Z :=
  let fwmark := set_netId NETID_UNSET Fwmark_init in
  let mask := set_netId FWMARK_NET_ID_MASK Fwmark_init in
  modifyIpRule RTM_NEWRULE RULE_PRIORITY_DIRECTLY_CONNECTED RT_TABLE_MAIN fwmark mask
    IIF_NONE OIF_NONE UID_ROOT UID_ROOT.

Definition addUnreachableRule : M RouteState Z :=
  modifyIpRule5 RTM_NEWRULE RULE_PRIORITY_UNREACHABLE RT_TABLE_UNSPEC MARK_UNSET MARK_UNSET.

(** ** Networks *)

Definition modifyLocalNetwork (netId : Z) (interface : string) (add : bool) : M RouteState Z :=
  try! modifyIncomingPacketMark netId interface PERMISSION_NONE add ;;
  modifyOutputInterfaceRule interface ROUTE_TABLE_LOCAL_NETWORK PERMISSION_NONE
    INVALID_UID INVALID_UID add.

Definition modifyPhysicalNetwork (netId : Z) (interface : string) (permission : Z) (add : bool)
    : M RouteState Z :=
  table ← getRouteTableForInterface interface;
  if table =? RT_TABLE_UNSPEC then mret (- ESRCH)
  else
    try! modifyIncomingPacketMark netId interface permission add ;;
    try! modifyExplicitNetworkRule netId table permission INVALID_UID INVALID_UID add ;;
    try! modifyOutputInterfaceRule interface table permission INVALID_UID INVALID_UID add ;;
    modifyImplicitNetworkRule netId table permission add.

Definition modifyVirtualNetwork (netId : Z) (interface : string) (uidRanges : list (Z * Z))
    (secure add modifyNonUidBasedRules : bool) : M RouteState Z :=
  table ← getRouteTableForInterface interface;
  if table =? RT_TABLE_UNSPEC then mret (- ESRCH)
  else
    try! for_each uidRanges (fun range =>
           try! modifyVpnUidRangeRule table range.1 range.2 secure add ;;
           try! modifyExplicitNetworkRule netId table PERMISSION_NONE range.1 range.2 add ;;
           modifyOutputInterfaceRule interface table PERMISSION_NONE range.1 range.2 add) ;;
    if modifyNonUidBasedRules then
      try! modifyIncomingPacketMark netId interface PERMISSION_NONE add ;;
      try! modifyVpnOutputToLocalRule interface add ;;
      try! modifyVpnSystemPermissionRule netId table secure add ;;
      modifyExplicitNetworkRule netId table PERMISSION_NONE UID_ROOT UID_ROOT add
    else mret 0.

Definition modifyDefaultNetwork (action : Z) (interface : string) (permission : Z)
    : M RouteState Z :=
  table ← getRouteTableForInterface interface;
  if table =? RT_TABLE_UNSPEC then mret (- ESRCH)
  else
    let fwmark := set_netId NETID_UNSET Fwmark_init in
    let mask := set_netId FWMARK_NET_ID_MASK Fwmark_init in
    let fwmark := set_permission permission fwmark in
    let mask := set_permission permission mask in
    modifyIpRule5 action RULE_PRIORITY_DEFAULT_NETWORK table fwmark mask.

Definition modifyTetheredNetwork (action : Z) (inputInterface outputInterface : string)
    : M RouteState Z :=
  table ← getRouteTableForInterface outputInterface;
  if table =? RT_TABLE_UNSPEC then mret (- ESRCH)
  else
    modifyIpRule action RULE_PRIORITY_TETHERING table MARK_UNSET MARK_UNSET
      (Some inputInterface) OIF_NONE INVALID_UID INVALID_UID.

(** ** Routes *)

Definition modifyIpRoute (action table : Z) (interface : option string)
    (destination nexthop : option string) : M RouteState Z :=
  match destination with
  | None => mret (- EFAULT)
  | Some destination =>
      match parsePrefix destination 16 with
      | inl err => mret err
      | inr p =>
          let special type := (type, OIF_NONE, 0, @None (list Z)) in
          r ← if is_hop "unreachable" nexthop then mret (inr (special RTN_UNREACHABLE))
              else if is_hop "throw" nexthop then mret (inr (special RTN_THROW))
              else
                ifindex ← match interface with
                          | Some name => sys_ifindex name
                          | None => mret 0
                          end;
                let ifindex := u32 ifindex in
                if bool_decide (interface <> OIF_NONE) && (ifindex =? 0)
                then mret (inl (- ENODEV))
                else
                  match nexthop with
                  | None => mret (inr (RTN_UNICAST, interface, ifindex, None))
                  | Some hop =>
                      match k_inet_pton (px_family p) hop with
                      | None => mret (inl (- EINVAL))
                      | Some raw => mret (inr (RTN_UNICAST, interface, ifindex, Some raw))
                      end
                  end;
          match r : Z + Z * option string * Z * option (list Z) with
          | inl err => mret err
          | inr (type, interface, ifindex, rawNexthop) =>
              let rawLength := Z.of_nat (length (px_address p)) in
              let scope := if bool_decide (rawNexthop <> None) then RT_SCOPE_UNIVERSE
                           else RT_SCOPE_LINK in
              let has_oif := bool_decide (interface <> OIF_NONE) in
              let iov :=
                [ rtmsg (px_family p) (px_length p) RTPROT_STATIC scope type;
                  rtattr (U16_RTA_LENGTH 4) RTA_TABLE;
                  le32 table;
                  rtattr (U16_RTA_LENGTH rawLength) RTA_DST;
                  px_address p;
                  when_bytes has_oif (rtattr (U16_RTA_LENGTH 4) RTA_OIF);
                  when_bytes has_oif (le32 ifindex);
                  when_bytes (bool_decide (rawNexthop <> None))
                    (rtattr (U16_RTA_LENGTH rawLength) RTA_GATEWAY);
                  match rawNexthop with
                  | Some raw => take (length (px_address p)) raw
                  | None => []
                  end ] in
              let flags := if action =? RTM_NEWROUTE then NETLINK_CREATE_REQUEST_FLAGS
                           else NETLINK_REQUEST_FLAGS in
              sendNetlinkRequest action flags iov
          end
      end
  end.

Definition modifyRoute (action : Z) (interface : string) (destination nexthop : option string)
    (tableType : TableType) : M RouteState Z :=
  table ← match tableType with
          | INTERFACE => getRouteTableForInterface interface
          | LOCAL_NETWORK => mret ROUTE_TABLE_LOCAL_NETWORK
          | LEGACY_NETWORK => mret ROUTE_TABLE_LEGACY_NETWORK
          | LEGACY_SYSTEM => mret ROUTE_TABLE_LEGACY_SYSTEM
          end;
  if table =? RT_TABLE_UNSPEC then mret (- ESRCH)
  else
    ret ← modifyIpRoute action table (Some interface) destination nexthop;
    if negb (ret =? 0) && negb ((action =? RTM_NEWROUTE) && (ret =? - EEXIST))
    then mret ret else mret 0.

(** ** Flushing *)

Definition flushRules : M RouteState Z :=
  for_each IP_VERSIONS (fun version =>
    r ← sys_exec_value [IP_PATH; version; "rule"; "flush"];
    if negb (r =? 0) then mret (- EREMOTEIO) else mret 0).

(** The [do ... while] loop: at most [attempts] runs of the command. *)
Fixpoint flush_attempts (attempts : nat) (argv : list string) : M RouteState Z :=
  match attempts with
  | O => mret 0
  | S attempts =>
      err ← sys_exec_value argv;
      match attempts with
      | S _ => if negb (err =? 0) then flush_attempts attempts argv else mret 0
      | O => mret err
      end
  end.

(** The loop over the IP versions, with the accumulated [ret]. *)
Fixpoint flush_versions (versions : list string) (tableString : string) (ret : Z)
    : M RouteState Z :=
  match versions with
  | [] => mret ret
  | version :: versions =>
      err ← flush_attempts ROUTE_FLUSH_ATTEMPTS
              [IP_PATH; version; "route"; "flush"; "table"; tableString];
      flush_versions versions tableString (if negb (err =? 0) then - EREMOTEIO else ret)
  end.

Definition flushRoutes (interface : string) : M RouteState Z :=
  table ← getRouteTableForInterface interface;
  if table =? RT_TABLE_UNSPEC then mret (- ESRCH)
  else
    ret ← flush_versions IP_VERSIONS (print_u table) 0;
    if ret =? 0 then
      modify (fun interfaceToTable => delete interface interfaceToTable);; mret ret
    else mret ret.

(** ** The public interface *)

Definition Init (localNetId : Z) : M RouteState Z :=
  try! flushRules ;;
  try! addLegacyRouteRules ;;
  try! addLocalNetworkRules localNetId ;;
  try! addDirectlyConnectedRule ;;
  try! addUnreachableRule ;;
  updateTableNamesFile;; mret 0.

Definition addInterfaceToLocalNetwork (netId : Z) (interface : string) : M RouteState Z :=
  modifyLocalNetwork netId interface ACTION_ADD.

Definition removeInterfaceFromLocalNetwork (netId : Z) (interface : string) : M RouteState Z :=
  modifyLocalNetwork netId interface ACTION_DEL.

Definition addInterfaceToPhysicalNetwork (netId : Z) (interface : string) (permission : Z)
    : M RouteState Z :=
  try! modifyPhysicalNetwork netId interface permission ACTION_ADD ;;
  updateTableNamesFile;; mret 0.

Definition removeInterfaceFromPhysicalNetwork (netId : Z) (interface : string) (permission : Z)
    : M RouteState Z :=
  try! modifyPhysicalNetwork netId interface permission ACTION_DEL ;;
  try! flushRoutes interface ;;
  updateTableNamesFile;; mret 0.

Definition addInterfaceToVirtualNetwork (netId : Z) (interface : string) (secure : bool)
    (uidRanges : list (Z * Z)) : M RouteState Z :=
  try! modifyVirtualNetwork netId interface uidRanges secure ACTION_ADD
         MODIFY_NON_UID_BASED_RULES ;;
  updateTableNamesFile;; mret 0.

Definition removeInterfaceFromVirtualNetwork (netId : Z) (interface : string) (secure : bool)
    (uidRanges : list (Z * Z)) : M RouteState Z :=
  try! modifyVirtualNetwork netId interface uidRanges secure ACTION_DEL
         MODIFY_NON_UID_BASED_RULES ;;
  try! flushRoutes interface ;;
  updateTableNamesFile;; mret 0.

Definition modifyPhysicalNetworkPermission (netId : Z) (interface : string)
    (oldPermission newPermission : Z) : M RouteState Z :=
  try! modifyPhysicalNetwork netId interface newPermission ACTION_ADD ;;
  modifyPhysicalNetwork netId interface oldPermission ACTION_DEL.

Definition addUsersToVirtualNetwork (netId : Z) (interface : string) (secure : bool)
    (uidRanges : list (Z * Z)) : M RouteState Z :=
  modifyVirtualNetwork netId interface uidRanges secure ACTION_ADD
    (negb MODIFY_NON_UID_BASED_RULES).

Definition removeUsersFromVirtualNetwork (netId : Z) (interface : string) (secure : bool)
    (uidRanges : list (Z * Z)) : M RouteState Z :=
  modifyVirtualNetwork netId interface uidRanges secure ACTION_DEL
    (negb MODIFY_NON_UID_BASED_RULES).

Definition addInterfaceToDefaultNetwork (interface : string) (permission : Z) : M RouteState Z :=
  modifyDefaultNetwork RTM_NEWRULE interface permission.

Definition removeInterfaceFromDefaultNetwork (interface : string) (permission : Z)
    : M RouteState Z :=
  modifyDefaultNetwork RTM_DELRULE interface permission.

Definition addRoute (interface : string) (destination nexthop : option string)
    (tableType : TableType) : M RouteState Z :=
  modifyRoute RTM_NEWROUTE interface destination nexthop tableType.

Definition removeRoute (interface : string) (destination nexthop : option string)
    (tableType : TableType) : M RouteState Z :=
  modifyRoute RTM_DELROUTE interface destination nexthop tableType.

Definition enableTethering (inputInterface outputInterface : string) : M RouteState Z :=
  modifyTetheredNetwork RTM_NEWRULE inputInterface outputInterface.

Definition disableTethering (inputInterface outputInterface : string) : M RouteState Z :=
  modifyTetheredNetwork RTM_DELRULE inputInterface outputInterface.

Definition addVirtualNetworkFallthrough (vpnNetId : Z) (physicalInterface : string)
    (permission : Z) : M RouteState Z :=
  modifyVpnFallthroughRule RTM_NEWRULE vpnNetId physicalInterface permission.

Definition removeVirtualNetworkFallthrough (vpnNetId : Z) (physicalInterface : string)
    (permission : Z) : M RouteState Z :=
  modifyVpnFallthroughRule RTM_DELRULE vpnNetId physicalInterface permission.
End RouteController.
