(* ===== verification/RouteSpec.v ===== *)
(** * RouteSpec: what RouteController asks the kernel to hold

    For every operation of [RouteController] that adds or removes rules: the
    exact items (routing rules of both families, iptables rules) a successful
    run adds to or removes from the ledger, and that the operation does succeed
    when the kernel accepts the requests. *)
From S2P Require Import Prelude Platform Cstd Fwmark UidRanges Netlink.
From S2P Require Import NetdConstants Ledger RouteController.

(** What the code relies on: a failed system call leaves a positive errno, and the
    index of an interface is a positive [int] ([if_nametoindex] gives 0 when there
    is no such interface). *)
Class KernelLaws {K : Kernel} := {
  netlink_errno : forall tr msg e, k_netlink tr msg = NlErrno e -> 0 < e;
  ifindex_range : forall tr name, 0 <= k_ifindex tr name < 2 ^ 31
}.
Arguments KernelLaws : clear implicits.

(** The rules an interface stands for name its table, which is made from its
    index.  While interfaces keep their indexes - none is removed and created
    again under another index - each name has one table. *)
Class Interfaces := if_index : string -> Z.
Class KeepsIndices {K : Kernel} {St : Steady} {IX : Interfaces} : Prop :=
  if_index_steady : steady -> forall tr name, k_ifindex tr name = if_index name \/ k_ifindex tr name = 0.
Arguments KeepsIndices K {_ _}.

(** ** Requests and rules *)

Definition name_ok (name : option string) : Prop :=
  match name with None => True | Some s => no_nul s end.

(** The UID selector of a rule; [INVALID_UID] means none. *)
Definition uid_selector (uidStart uidEnd : Z) : option (Z * Z) :=
  if uidStart =? INVALID_UID then None else Some (uidStart, uidEnd).

(** The rules of one call of [modifyIpRule], one for each family. *)
Definition rule_items (priority table : Z) (fwmark mask : Z) (iif oif : option string)
    (uids : option (Z * Z)) : list item :=
  map (fun family => IRule (Rule family priority table fwmark mask iif oif uids)) AF_FAMILIES.

Lemma padInterfaceName_spec name bytes len pad :
  padInterfaceName name = inr (bytes, len, pad) ->
  match name with
  | None => bytes = [] /\ pad = 0
  | Some s => strlen s < 16 /\ bytes = cbytes_of s /\ len = Z.of_nat (length (cbytes_of s)) /\
              pad = RTA_SPACE len - RTA_LENGTH len
  end.
Proof.
  unfold padInterfaceName, IFNAMSIZ. destruct name as [s|].
  - destruct (16 <? strlen s + 1) eqn:E; intros; simplify_eq. bool_to_prop.
    rewrite length_cbytes_of. split_and!; lia || done.
  - intros; by simplify_eq.
Qed.

Lemma attr_bytes_attr32 t x : attr_bytes (attr32 t x) = rtattr (U16_RTA_LENGTH 4) t ++ le32 x.
Proof. unfold attr_bytes, attr32. cbn. done. Qed.

(** [modifyIpRule] lays out exactly the attributes of the rule. *)
Lemma concat_rule_iov family priority table fwmark mask us ue iif bi li pi oif bo lo po :
  padInterfaceName iif = inr (bi, li, pi) -> padInterfaceName oif = inr (bo, lo, po) ->
  let r := Rule family priority table fwmark mask iif oif (uid_selector us ue) in
  concat (rule_iov family priority table fwmark mask us ue iif bi li pi oif bo lo po) =
  fib_rule_hdr family (rule_action r) ++ concat (map attr_bytes (rule_attrs r)).
Proof.
  intros Hi Ho r. apply padInterfaceName_spec in Hi, Ho.
  unfold rule_iov, rule_attrs, rule_action, r, uid_selector, RT_TABLE_UNSPEC, when_bytes, IIF_NONE, OIF_NONE.
  cbn [r_table r_mask r_mark r_priority r_uids r_iif r_oif concat].
  assert (forall name t b l p,
    match name with
    | None => b = [] /\ p = 0
    | Some s => strlen s < 16 /\ b = cbytes_of s /\ l = Z.of_nat (length (cbytes_of s)) /\
                p = RTA_SPACE l - RTA_LENGTH l
    end ->
    (if bool_decide (name <> None) then rtattr (U16_RTA_LENGTH l) t else []) ++ b ++
      replicate (Z.to_nat p) 0 =
    concat (map attr_bytes match name with None => [] | Some s => [(t, cbytes_of s)] end)) as Hname.
  { intros [s|] t b l p; cbn.
    - intros (_ & -> & -> & ->). unfold attr_bytes. cbn [fst snd]. by rewrite app_nil_r.
    - by intros [-> ->]. }
  rewrite !map_app, !concat_app, <-!(Hname _ _ _ _ _ Hi), <-!(Hname _ _ _ _ _ Ho).
  destruct (table =? 0), (mask =? 0), (us =? INVALID_UID);
    cbn [negb map concat app]; rewrite ?attr_bytes_attr32, <-?app_assoc, ?app_nil_r; done.
Qed.

(** The message of a rule request is the encoding of the rule. *)
Lemma rule_request_msg type flags family priority table fwmark mask us ue iif bi li pi oif bo lo po :
  padInterfaceName iif = inr (bi, li, pi) -> padInterfaceName oif = inr (bo, lo, po) ->
  let iov := rule_iov family priority table fwmark mask us ue iif bi li pi oif bo lo po in
  nlmsghdr (u32 (foldl (fun n e => n + Z.of_nat (length e)) 16 iov)) type flags ++ concat iov =
  rule_msg type flags (Rule family priority table fwmark mask iif oif (uid_selector us ue)).
Proof.
  intros Hi Ho iov. rewrite nlmsg_len_eq. subst iov.
  by rewrite (concat_rule_iov _ _ _ _ _ _ _ _ _ _ _ _ _ _ _ Hi Ho).
Qed.

(** ** Ledger effect *)

Section Books.
Context {K : Kernel} {KL : KernelLaws K} {St : Steady} {S : Type} (I : S -> Prop).

Lemma event_delta_rule type flags r i :
  wf_rule r -> type = RTM_NEWRULE \/ type = RTM_DELRULE ->
  event_delta i (EvNetlink (rule_msg type flags r) (NlAck 0)) =
  signed (type =? RTM_NEWRULE) [IRule r] i.
Proof.
  intros Hwf Ht. unfold event_delta, event_item. rewrite decode_rule_msg by done.
  unfold signed. rewrite cnt_cons, cnt_nil.
  destruct Ht as [-> | ->]; cbn; case_decide; lia.
Qed.

Lemma books_sendRule type flags iov r :
  wf_rule r -> type = RTM_NEWRULE \/ type = RTM_DELRULE ->
  nlmsghdr (u32 (foldl (fun n e => n + Z.of_nat (length e)) 16 iov)) type flags ++ concat iov =
    rule_msg type flags r ->
  books I (signed (type =? RTM_NEWRULE) [IRule r]) (sendNetlinkRequest type flags iov).
Proof.
  intros Hwf Ht Hmsg s tr Hs. unfold sendNetlinkRequest. rewrite Hmsg. apply wp_bind.
  unfold sys_netlink, wp. split; [done|].
  destruct (k_netlink tr _) as [e|n|e] eqn:E; intros Hr.
  - apply netlink_errno in E. lia.
  - done.
  - subst e. intros _ i. rewrite ledger_snoc. by rewrite event_delta_rule.
Qed.
End Books.

(** Conditions on the numbers of a rule that every caller meets. *)
Record rule_numbers (priority table fwmark mask : Z) : Prop := {
  rn_priority : 0 <= priority < 2 ^ 32;
  rn_table : 0 <= table < 2 ^ 32;
  rn_fwmark : 0 <= fwmark < 2 ^ 32;
  rn_mask : 0 <= mask < 2 ^ 32
}.

Definition uids_ok (uids : option (Z * Z)) : Prop :=
  match uids with
  | None => True
  | Some (us, ue) => 0 <= us < INVALID_UID /\ 0 <= ue < INVALID_UID
  end.

(** How the code passes a selector: the two arguments of [modifyIpRule]. *)
Definition uid_args (uids : option (Z * Z)) : Z * Z := default (INVALID_UID, INVALID_UID) uids.

Lemma uid_args_selector uids :
  uids_ok uids -> uid_selector (uid_args uids).1 (uid_args uids).2 = uids /\
  ((uid_args uids).1 =? INVALID_UID) = ((uid_args uids).2 =? INVALID_UID).
Proof.
  destruct uids as [[us ue]|]; cbn; [|done]. unfold uid_selector. intros [H1 H2].
  rewrite !(proj2 (Z.eqb_neq _ _)) by lia. done.
Qed.

Lemma rule_type_cases add : rule_type add = RTM_NEWRULE \/ rule_type add = RTM_DELRULE.
Proof. destruct add; cbn; auto. Qed.

Lemma rule_type_is_new add : (rule_type add =? RTM_NEWRULE) = add.
Proof. by destruct add. Qed.

Lemma padInterfaceName_err name e : padInterfaceName name = inl e -> e <> 0.
Proof. unfold padInterfaceName. intros. repeat case_match; simplify_eq. done. Qed.

Section ModifyIpRule.
Context {K : Kernel} {KL : KernelLaws K} {St : Steady} (I : RouteState -> Prop).

(** A successful [modifyIpRule] adds or removes the rule in both families. *)
Lemma books_modifyIpRule add priority table fwmark mask iif oif uids :
  rule_numbers priority table fwmark mask -> name_ok iif -> name_ok oif -> uids_ok uids ->
  books I (signed add (rule_items priority table fwmark mask iif oif uids))
    (modifyIpRule (rule_type add) priority table fwmark mask iif oif
       (uid_args uids).1 (uid_args uids).2).
Proof.
  intros [Hp Ht Hf Hm] Hi Ho Hu. destruct (uid_args_selector uids Hu) as [Hsel Heq].
  unfold modifyIpRule. apply books_if; intros Hld; [by apply books_fail|]. bool_to_prop.
  destruct (padInterfaceName iif) as [e|[[bi li] pi]] eqn:Ei;
    [apply books_fail; by eapply padInterfaceName_err|].
  destruct (padInterfaceName oif) as [e|[[bo lo] po]] eqn:Eo;
    [apply books_fail; by eapply padInterfaceName_err|].
  rewrite Heq, Bool.eqb_reflx. cbn [negb].
  eapply books_ext; [|apply (books_for_each I (fun family =>
    signed add [IRule (Rule family priority table fwmark mask iif oif uids)]))].
  { intros i. cbn beta. by rewrite (signed_concat add (fun family =>
      [IRule (Rule family priority table fwmark mask iif oif uids)])). }
  intros family Hfam. rewrite <-(rule_type_is_new add) at 1. apply books_sendRule.
  - apply padInterfaceName_spec in Ei, Eo. split; cbn; try done.
    + unfold AF_FAMILIES in Hfam. rewrite !elem_of_cons, elem_of_nil in Hfam.
      destruct Hfam as [-> | [-> | []]]; done.
    + intros ->. by rewrite Z.ldiff_0_r in Hld.
    + destruct uids as [[us ue]|]; cbn in *; [unfold INVALID_UID in *; lia|done].
    + destruct iif; [|done]. split; [done|]. by destruct Ei.
    + destruct oif; [|done]. split; [done|]. by destruct Eo.
  - apply rule_type_cases.
  - rewrite (rule_request_msg _ _ _ _ _ _ _ _ _ _ _ _ _ _ _ _ _ Ei Eo).
    by rewrite Hsel.
Qed.
End ModifyIpRule.

(** ** The rules of a network

    The declarative side: which items an interface of a network stands for. *)

Definition table_of {IX : Interfaces} (interface : string) : Z :=
  if_index interface + ROUTE_TABLE_OFFSET_FROM_INDEX.

Definition mark_items (netId : Z) (interface : string) (permission : Z) : list item :=
  iptables_items V4V6 "mangle" "INPUT"
    ["-i"; interface; "-j"; "MARK"; "--set-mark"; "0x" +:+ print_x (pack netId true true permission)].

Definition explicit_items (netId table permission : Z) (uids : option (Z * Z)) : list item :=
  rule_items RULE_PRIORITY_EXPLICIT_NETWORK table (pack netId true false permission)
    (pack 0xffff true false permission) None None uids.

Definition output_items (interface : string) (table permission : Z) (uids : option (Z * Z)) : list item :=
  rule_items RULE_PRIORITY_OUTPUT_INTERFACE table (pack 0 false false permission)
    (pack 0 false false permission) None (Some interface) uids.

Definition implicit_items (netId table permission : Z) : list item :=
  rule_items RULE_PRIORITY_IMPLICIT_NETWORK table (pack netId false false permission)
    (pack 0xffff true false permission) None None None.

Definition fallthrough_items (vpnNetId table permission : Z) : list item :=
  rule_items RULE_PRIORITY_VPN_FALLTHROUGH table (pack vpnNetId false false permission)
    (pack 0xffff true false permission) None None None.

Definition default_items (table permission : Z) : list item :=
  rule_items RULE_PRIORITY_DEFAULT_NETWORK table (pack 0 false false permission)
    (pack 0xffff false false permission) None None None.

Definition tethering_items (input : string) (table : Z) : list item :=
  rule_items RULE_PRIORITY_TETHERING table 0 0 (Some input) None None.

Definition vpn_priority (secure : bool) : Z :=
  if secure then RULE_PRIORITY_SECURE_VPN else RULE_PRIORITY_BYPASSABLE_VPN.

Definition vpn_uid_items (table : Z) (range : Z * Z) (secure : bool) : list item :=
  rule_items (vpn_priority secure) table 0 (pack 0 (negb secure) true 0) None None (Some range).

Definition vpn_system_items (netId table : Z) (secure : bool) : list item :=
  rule_items (vpn_priority secure) table (pack netId false false PERMISSION_SYSTEM)
    (pack 0xffff false false PERMISSION_SYSTEM) None None None.

Definition vpn_local_items (interface : string) : list item :=
  rule_items RULE_PRIORITY_VPN_OUTPUT_TO_LOCAL ROUTE_TABLE_LOCAL_NETWORK 0 0 (Some interface) None None.

(** An interface of the local network. *)
Definition local_items (netId : Z) (interface : string) : list item :=
  mark_items netId interface PERMISSION_NONE ++
  output_items interface ROUTE_TABLE_LOCAL_NETWORK PERMISSION_NONE None.

(** An interface of a physical network, with routing table [table]. *)
Definition physical_items (netId : Z) (interface : string) (permission table : Z) : list item :=
  mark_items netId interface permission ++ explicit_items netId table permission None ++
  output_items interface table permission None ++ implicit_items netId table permission.

(** An interface of a virtual network: the rules of each UID range, and the others. *)
Definition vpn_range_items (netId : Z) (interface : string) (secure : bool) (table : Z)
    (range : Z * Z) : list item :=
  vpn_uid_items table range secure ++ explicit_items netId table PERMISSION_NONE (Some range) ++
  output_items interface table PERMISSION_NONE (Some range).

Definition vpn_users_items (netId : Z) (interface : string) (secure : bool) (table : Z)
    (ranges : list (Z * Z)) : list item :=
  concat (map (vpn_range_items netId interface secure table) ranges).

Definition vpn_base_items (netId : Z) (interface : string) (secure : bool) (table : Z) : list item :=
  mark_items netId interface PERMISSION_NONE ++ vpn_local_items interface ++
  vpn_system_items netId table secure ++ explicit_items netId table PERMISSION_NONE (Some (0, 0)).

Definition virtual_items (netId : Z) (interface : string) (secure : bool) (table : Z)
    (ranges : list (Z * Z)) (base : bool) : list item :=
  vpn_users_items netId interface secure table ranges ++
  (if base then vpn_base_items netId interface secure table else []).

(** What [Init] installs. *)
Definition base_items (localNetId : Z) : list item :=
  rule_items RULE_PRIORITY_LEGACY_SYSTEM ROUTE_TABLE_LEGACY_SYSTEM 0 (pack 0 true false 0) None None None ++
  rule_items RULE_PRIORITY_LEGACY_NETWORK ROUTE_TABLE_LEGACY_NETWORK 0 (pack 0 true false 0) None None None ++
  rule_items RULE_PRIORITY_VPN_OVERRIDE_SYSTEM ROUTE_TABLE_LEGACY_SYSTEM
    (pack 0 false false PERMISSION_SYSTEM) (pack 0 true false PERMISSION_SYSTEM) None None None ++
  explicit_items localNetId ROUTE_TABLE_LOCAL_NETWORK PERMISSION_NONE None ++
  rule_items RULE_PRIORITY_LOCAL_NETWORK ROUTE_TABLE_LOCAL_NETWORK 0 (pack 0 true false 0) None None None ++
  rule_items RULE_PRIORITY_DIRECTLY_CONNECTED RT_TABLE_MAIN 0 (pack 0xffff false false 0) None None (Some (0, 0)) ++
  rule_items RULE_PRIORITY_UNREACHABLE RT_TABLE_UNSPEC 0 0 None None None.

#[global] Arguments mark_items : simpl never.
#[global] Arguments rule_items : simpl never.
#[global] Arguments explicit_items : simpl never.
#[global] Arguments output_items : simpl never.
#[global] Arguments implicit_items : simpl never.
#[global] Arguments fallthrough_items : simpl never.
#[global] Arguments default_items : simpl never.
#[global] Arguments tethering_items : simpl never.
#[global] Arguments local_items : simpl never.
#[global] Arguments physical_items : simpl never.
#[global] Arguments virtual_items : simpl never.

(** ** The tables *)

Definition table_fits (table : Z) : Prop := 0 < table < 2 ^ 32.

Definition cached_ok {St : Steady} {IX : Interfaces} (interfaceToTable : RouteState) : Prop :=
  forall name table, interfaceToTable !! name = Some table ->
    table_fits table /\ (steady -> table = table_of name).

(** Without saying which table it is. *)
Definition tables_fit (interfaceToTable : RouteState) : Prop :=
  forall name table, interfaceToTable !! name = Some table -> table_fits table.

(** [installs I short add l m]: a run of [m] that returns 0 adds (or removes)
    the items [l], and [m] returns 0 when every request is accepted and the
    names are [short] enough. *)
Record installs {K : Kernel} {St : Steady} {S : Type} (I : S -> Prop) (short : Prop) (add : bool)
    (l : list item) (m : M S Z) : Prop := {
  inst_books : books I (signed add l) m;
  inst_succeeds : Accepting K -> short -> succeeds I m
}.

Definition short_name (name : string) : Prop := strlen name < IFNAMSIZ.
Definition short_names (iif oif : option string) : Prop :=
  match iif with None => True | Some s => short_name s end /\
  match oif with None => True | Some s => short_name s end.

Lemma padInterfaceName_short name :
  match name with None => True | Some s => short_name s end ->
  exists bytes len pad, padInterfaceName name = inr (bytes, len, pad).
Proof.
  unfold padInterfaceName, short_name. destruct name; [|eauto].
  intros. rewrite (proj2 (Z.ltb_ge _ _)) by lia. eauto.
Qed.

Section Installs.
Context {K : Kernel} {KL : KernelLaws K} {St : Steady}.

Section Sequences.
Context {S : Type} (I : S -> Prop) (short : Prop).

Lemma installs_seq add l1 l2 (m1 m2 : M S Z) :
  installs I short add l1 m1 -> installs I short add l2 m2 ->
  installs I short add (l1 ++ l2) (try! m1 ;; m2).
Proof.
  intros [B1 S1] [B2 S2]. split; [by apply books_seq|]. intros. apply succeeds_orelse; auto.
Qed.

Lemma installs_each {A} add (f : A -> list item) (g : A -> M S Z) l :
  (forall x, x ∈ l -> installs I short add (f x) (g x)) ->
  installs I short add (concat (map f l)) (for_each l g).
Proof.
  intros H. split.
  - apply books_each. intros. by apply H.
  - intros. apply succeeds_for_each. intros. by apply H.
Qed.

Lemma installs_ret0 add : installs I short add [] (mret 0).
Proof.
  split; [|intros; apply succeeds_ret]. eapply books_ext; [|apply books_ret].
  intros i. by rewrite signed_nil.
Qed.

Lemma installs_impl (short' : Prop) add l (m : M S Z) :
  (short -> short') -> installs I short' add l m -> installs I short add l m.
Proof. intros H [B Su]. split; auto. Qed.
End Sequences.

Lemma installs_modifyIpRule (I : RouteState -> Prop) add priority table fwmark mask iif oif uids us ue :
  rule_numbers priority table fwmark mask -> name_ok iif -> name_ok oif -> uids_ok uids ->
  Z.ldiff fwmark mask = 0 -> (us, ue) = uid_args uids ->
  installs I (short_names iif oif) add (rule_items priority table fwmark mask iif oif uids)
    (modifyIpRule (rule_type add) priority table fwmark mask iif oif us ue).
Proof.
  intros Hn Hi Ho Hu Hld Huids. destruct (uid_args_selector uids Hu) as [_ Heq].
  assert (us = (uid_args uids).1 /\ ue = (uid_args uids).2) as [-> ->] by (by rewrite <-Huids).
  split; [by apply books_modifyIpRule|]. intros KA [Hsi Hso].
  unfold modifyIpRule. rewrite Hld. cbn [Z.eqb negb].
  destruct (padInterfaceName_short iif Hsi) as (bi & li & pi & ->).
  destruct (padInterfaceName_short oif Hso) as (bo & lo & po & ->).
  rewrite Heq, Bool.eqb_reflx. cbn [negb]. apply succeeds_for_each. intros family _ s tr Hs.
  unfold sendNetlinkRequest. apply wp_bind. unfold sys_netlink, wp.
  by rewrite accept_netlink.
Qed.
End Installs.

(** ** The rule builders *)

Lemma mask_fits : netId_fits 0xffff.
Proof. unfold netId_fits. lia. Qed.
Lemma none_valid : valid_permission PERMISSION_NONE.
Proof. unfold valid_permission, PERMISSION_NONE. lia. Qed.
Lemma system_valid : valid_permission PERMISSION_SYSTEM.
Proof. unfold valid_permission, PERMISSION_SYSTEM. lia. Qed.
Lemma netId_0_fits : netId_fits 0.
Proof. unfold netId_fits. lia. Qed.
Lemma zero_valid : valid_permission 0.
Proof. unfold valid_permission. lia. Qed.
#[export] Hint Resolve mask_fits none_valid system_valid netId_0_fits zero_valid : netd.

(** Numbers of a rule built from marks. *)
Lemma packed_numbers priority table n e p perm n' e' p' perm' :
  0 <= priority < 2 ^ 32 -> 0 <= table < 2 ^ 32 -> netId_fits n -> netId_fits n' ->
  valid_permission perm -> valid_permission perm' ->
  rule_numbers priority table (pack n e p perm) (pack n' e' p' perm').
Proof.
  intros ? ? Hn Hn' Hp Hp'. pose proof (pack_range n e p perm Hn Hp).
  pose proof (pack_range n' e' p' perm' Hn' Hp'). split; try done; lia.
Qed.

Lemma vpn_priority_range secure : 0 <= vpn_priority secure < 2 ^ 32.
Proof. destruct secure; cbn; unfold RULE_PRIORITY_SECURE_VPN, RULE_PRIORITY_BYPASSABLE_VPN; lia. Qed.

Ltac rule_range :=
  apply packed_numbers;
  [ (split; [by vm_compute|by vm_compute]) || apply vpn_priority_range
  | solve [lia | split; by vm_compute]
  | auto with netd.. ].

Section Builders.
Context {K : Kernel} {KL : KernelLaws K} {St : Steady} (I : RouteState -> Prop).

Lemma installs_mark netId interface permission add :
  netId_fits netId -> valid_permission permission ->
  installs I True add (mark_items netId interface permission)
    (modifyIncomingPacketMark netId interface permission add).
Proof.
  intros Hn Hp. unfold modifyIncomingPacketMark, mark_items. rewrite set_all_pack by done.
  set (spec := ["-i"; _; _; _; _; _]). split.
  - intros s tr Hs. apply wp_bind. eapply wp_mono.
    { apply (books_execIptables I V4V6 "mangle" add "INPUT" spec s tr Hs). }
    cbn. intros res s' tr' [HI Hc]. destruct (res =? 0) eqn:E; cbn; split; try done.
    bool_to_prop. auto.
  - intros KA _ s tr Hs. apply wp_bind. eapply wp_mono.
    { apply (succeeds_execIptables I V4V6 _ s tr Hs). }
    cbn. by intros res s' tr' [-> HI].
Qed.

Lemma installs_explicit netId table permission uids us ue add :
  netId_fits netId -> table_fits table -> valid_permission permission -> uids_ok uids ->
  (us, ue) = uid_args uids ->
  installs I True add (explicit_items netId table permission uids)
    (modifyExplicitNetworkRule netId table permission us ue add).
Proof.
  unfold table_fits. intros Hn Ht Hp Hu Huids. unfold modifyExplicitNetworkRule, explicit_items.
  rewrite !set_netId_pack, !set_explicit_pack, !set_permission_pack by auto with netd.
  eapply installs_impl; [|apply installs_modifyIpRule; try done; [|by apply pack_within]]; [done|].
  rule_range.
Qed.

Lemma installs_output interface table permission uids us ue add :
  table_fits table -> valid_permission permission -> no_nul interface -> uids_ok uids ->
  (us, ue) = uid_args uids ->
  installs I (short_name interface) add (output_items interface table permission uids)
    (modifyOutputInterfaceRule interface table permission us ue add).
Proof.
  unfold table_fits. intros Ht Hp Hi Hu Huids. unfold modifyOutputInterfaceRule, output_items.
  rewrite !set_permission_init by done.
  eapply installs_impl; [|apply installs_modifyIpRule; try done; [|by apply Z.ldiff_diag]]; [done|].
  rule_range.
Qed.
(** Rules without interfaces and UIDs. *)
Lemma installs_plain add priority table n e p perm n' e' p' perm' :
  0 <= priority < 2 ^ 32 -> 0 <= table < 2 ^ 32 -> netId_fits n -> netId_fits n' ->
  valid_permission perm -> valid_permission perm' ->
  Z.ldiff (pack n e p perm) (pack n' e' p' perm') = 0 ->
  installs I True add
    (rule_items priority table (pack n e p perm) (pack n' e' p' perm') None None None)
    (modifyIpRule5 (rule_type add) priority table (pack n e p perm) (pack n' e' p' perm')).
Proof.
  intros. eapply installs_impl; [|apply (installs_modifyIpRule _ _ _ _ _ _ _ _ None)]; try done.
  by apply packed_numbers.
Qed.

Lemma installs_implicit netId table permission add :
  netId_fits netId -> table_fits table -> valid_permission permission ->
  installs I True add (implicit_items netId table permission)
    (modifyImplicitNetworkRule netId table permission add).
Proof.
  unfold table_fits. intros. unfold modifyImplicitNetworkRule.
  rewrite !set_netId_pack, !set_explicit_pack, !set_permission_pack by auto with netd.
  apply installs_plain; auto with netd; [by split; vm_compute|lia|by apply pack_within].
Qed.

Lemma installs_vpn_local interface add :
  no_nul interface ->
  installs I (short_name interface) add (vpn_local_items interface)
    (modifyVpnOutputToLocalRule interface add).
Proof.
  intros. eapply installs_impl; [|apply (installs_modifyIpRule _ _ _ _ _ _ _ _ None)]; try done.
Qed.

Lemma installs_vpn_uid table range secure add :
  table_fits table -> uids_ok (Some range) ->
  installs I True add (vpn_uid_items table range secure)
    (modifyVpnUidRangeRule table range.1 range.2 secure add).
Proof.
  unfold table_fits. intros Ht Hr. unfold modifyVpnUidRangeRule, vpn_uid_items, vpn_priority.
  destruct range as [us ue].
  assert (forall priority fwmark mask, 0 <= priority < 2 ^ 32 -> 0 <= mask < 2 ^ 32 -> fwmark = 0 ->
    installs I True add (rule_items priority table 0 mask None None (Some (us, ue)))
      (modifyIpRule (rule_type add) priority table fwmark mask IIF_NONE OIF_NONE us ue)) as Hall.
  { intros priority fwmark mask Hp Hm ->.
    eapply installs_impl; [|apply (installs_modifyIpRule _ _ _ _ _ _ _ _ (Some (us, ue)))]; try done.
    split; lia. }
  destruct secure; apply Hall; by split; vm_compute.
Qed.

Lemma installs_vpn_system netId table secure add :
  netId_fits netId -> table_fits table ->
  installs I True add (vpn_system_items netId table secure)
    (modifyVpnSystemPermissionRule netId table secure add).
Proof.
  unfold table_fits. intros. unfold modifyVpnSystemPermissionRule.
  rewrite !set_netId_pack, !set_permission_pack by auto with netd.
  apply installs_plain; auto with netd; [apply vpn_priority_range|lia|].
  by apply pack_within; auto with netd.
Qed.
End Builders.

(** ** The tables of interfaces *)

Section Tables.
Context {K : Kernel} {KL : KernelLaws K} {St : Steady} {IX : Interfaces} {KI : KeepsIndices K}.

Lemma wp_getRouteTableForInterface interface s tr :
  cached_ok s ->
  wp (getRouteTableForInterface interface) (fun table s' tr' =>
    cached_ok s' /\ (table = RT_TABLE_UNSPEC \/ table_fits table /\ (steady -> table = table_of interface)) /\
    (Accepting K -> table <> RT_TABLE_UNSPEC) /\ changes tr tr' (fun _ => 0)) s tr.
Proof.
  intros Hs. apply wp_bind. unfold sys_ifindex, wp. cbn zeta.
  assert (changes tr (tr ++ [EvIfIndex interface (k_ifindex tr interface)]) (fun _ => 0)) as Hc.
  { intros _ i. rewrite ledger_snoc. done. }
  pose proof (ifindex_range tr interface) as Hr. destruct (decide (k_ifindex tr interface = 0)) as [E|E].
  - rewrite E in Hc |- *. cbn -[lookup]. split; [done|]. split_and!.
    + destruct (s !! interface) as [t|] eqn:Et; [right; by apply Hs|by left].
    + intros KA. by destruct (accept_ifindex tr interface).
    + done.
  - rewrite (u32_small (k_ifindex tr interface)) by lia.
    rewrite (proj2 (Z.eqb_neq _ _)) by lia. cbn -[Z.add].
    rewrite u32_small by (unfold ROUTE_TABLE_OFFSET_FROM_INDEX; lia).
    assert (steady -> k_ifindex tr interface + ROUTE_TABLE_OFFSET_FROM_INDEX = table_of interface) as Ht.
    { intros st. unfold table_of. by destruct (if_index_steady st tr interface) as [->|]. }
    assert (table_fits (k_ifindex tr interface + ROUTE_TABLE_OFFSET_FROM_INDEX)) as Hfit.
    { unfold table_fits, ROUTE_TABLE_OFFSET_FROM_INDEX. lia. }
    split_and!; [|by right| |done].
    + intros name table. destruct (decide (name = interface)) as [->|].
      * rewrite lookup_insert_eq. by intros [= <-].
      * rewrite lookup_insert_ne by done. apply Hs.
    + intros _. unfold table_fits in Hfit. unfold RT_TABLE_UNSPEC. lia.
Qed.

(** An operation that starts by looking the table up. *)
Lemma installs_with_table short add (l : Z -> list item) interface (k : Z -> M RouteState Z) :
  (forall table, table_fits table -> installs cached_ok short add (l table) (k table)) ->
  installs cached_ok short add (l (table_of interface))
    (table ← getRouteTableForInterface interface;
     if table =? RT_TABLE_UNSPEC then mret (- ESRCH) else k table).
Proof.
  intros Hk. split.
  - intros s tr Hs. apply wp_bind. eapply wp_mono; [by apply wp_getRouteTableForInterface|].
    cbn. intros table s' tr' (HI & [-> | [Hfit Ht]] & _ & Hc); [by apply wp_ret|].
    unfold RT_TABLE_UNSPEC. rewrite (proj2 (Z.eqb_neq table 0)) by (unfold table_fits in Hfit; lia).
    eapply wp_mono; [by apply (Hk table Hfit)|]. cbn. intros ret s2 tr2 [H2 C2]. split; [done|].
    intros Hr st i. rewrite C2, Hc, Ht by done. lia.
  - intros KA Hsh s tr Hs. apply wp_bind.
    eapply wp_mono; [by apply wp_getRouteTableForInterface|].
    cbn. intros table s' tr' (HI & Hfit & Ht & _). rewrite (proj2 (Z.eqb_neq _ _)) by auto.
    destruct Hfit as [?|[Hfit _]]; [by destruct (Ht KA)|]. by apply (Hk table Hfit).
Qed.

(** What updating the table names file and flushing routes leave alone. *)
Lemma quiet_sys_file {S} (I : S -> Prop) op : quiet I (sys_file op).
Proof. intros s tr Hs. unfold sys_file, wp. split; [done|]. intros _ i. by rewrite ledger_snoc. Qed.

Lemma quiet_updateTableNamesFile : quiet cached_ok updateTableNamesFile.
Proof.
  apply quiet_bind; [apply quiet_gets|]. intros contents.
  apply quiet_bind; [apply quiet_sys_file|]. intros fd. apply quiet_if; [apply quiet_ret|].
  apply quiet_bind; [apply quiet_sys_file|]. intros.
  apply quiet_bind; [apply quiet_sys_file|]. intros. apply quiet_ret.
Qed.

Lemma quiet_ip_command {S} (I : S -> Prop) version args :
  version <> "-w" -> quiet I (sys_exec_value (IP_PATH :: version :: args)).
Proof.
  intros Hv s tr Hs. unfold sys_exec_value, wp. split; [done|]. intros _ i. rewrite ledger_snoc.
  unfold event_delta. assert (event_item (EvExec (IP_PATH :: version :: args)
    (k_exec tr (IP_PATH :: version :: args))) = None) as ->; [|done].
  unfold event_item. repeat (case_match; try done; simplify_eq).
Qed.
End Tables.

(** ** The operations on networks *)

Section Operations.
Context {K : Kernel} {KL : KernelLaws K} {St : Steady} {IX : Interfaces} {KI : KeepsIndices K}.

Lemma installs_weaken {S} (I : S -> Prop) (short : Prop) add l (m : M S Z) :
  installs I True add l m -> installs I short add l m.
Proof. by apply installs_impl. Qed.

Lemma installs_local netId interface add :
  netId_fits netId -> no_nul interface ->
  installs cached_ok (short_name interface) add (local_items netId interface)
    (modifyLocalNetwork netId interface add).
Proof.
  intros. apply installs_seq.
  - apply installs_weaken, installs_mark; auto with netd.
  - apply installs_output; auto with netd; done.
Qed.

Lemma installs_physical netId interface permission add :
  netId_fits netId -> valid_permission permission -> no_nul interface ->
  installs cached_ok (short_name interface) add
    (physical_items netId interface permission (table_of interface))
    (modifyPhysicalNetwork netId interface permission add).
Proof.
  intros. apply (installs_with_table _ _ (physical_items netId interface permission)). intros table Htable.
  repeat apply installs_seq.
  - by apply installs_weaken, installs_mark.
  - by apply installs_weaken, installs_explicit.
  - by apply installs_output.
  - by apply installs_weaken, installs_implicit.
Qed.

Lemma installs_virtual netId interface ranges secure add base :
  netId_fits netId -> no_nul interface -> Forall (fun r => uids_ok (Some r)) ranges ->
  installs cached_ok (short_name interface) add
    (virtual_items netId interface secure (table_of interface) ranges base)
    (modifyVirtualNetwork netId interface ranges secure add base).
Proof.
  intros Hn Hi Hr. apply (installs_with_table _ _ (fun table => virtual_items netId interface secure table ranges base)).
  intros table Htable.   apply installs_seq.
  - apply installs_each. intros range Hin. rewrite Forall_forall in Hr. specialize (Hr range Hin).
    destruct range as [us ue]. apply installs_seq; [by apply installs_weaken, installs_vpn_uid|].
    apply installs_seq.
    + apply installs_weaken, installs_explicit; auto with netd; done.
    + apply installs_output; auto with netd; done.
  - destruct base; [|apply installs_ret0]. apply installs_seq.
    { apply installs_weaken, installs_mark; auto with netd. }
    apply installs_seq; [by apply installs_vpn_local|]. apply installs_weaken.
    apply installs_seq; [by apply installs_vpn_system|].
    apply installs_explicit; auto with netd; done.
Qed.

(** The four operations whose caller gives the netlink action. *)
Lemma installs_default interface permission add :
  valid_permission permission ->
  installs cached_ok True add (default_items (table_of interface) permission)
    (modifyDefaultNetwork (rule_type add) interface permission).
Proof.
  intros. apply (installs_with_table _ _ (fun table => default_items table permission)). intros table [? ?].
  rewrite !set_netId_pack, !set_permission_pack by auto with netd.
  apply installs_plain; auto with netd; [by split; vm_compute|lia|by apply pack_within].
Qed.

Lemma installs_fallthrough vpnNetId interface permission add :
  netId_fits vpnNetId -> valid_permission permission ->
  installs cached_ok True add (fallthrough_items vpnNetId (table_of interface) permission)
    (modifyVpnFallthroughRule (rule_type add) vpnNetId interface permission).
Proof.
  intros. apply (installs_with_table _ _ (fun table => fallthrough_items vpnNetId table permission)). intros table [? ?].
  rewrite !set_netId_pack, !set_explicit_pack, !set_permission_pack by auto with netd.
  apply installs_plain; auto with netd; [by split; vm_compute|lia|by apply pack_within].
Qed.

Lemma installs_tethering input output add :
  no_nul input ->
  installs cached_ok (short_name input) add (tethering_items input (table_of output))
    (modifyTetheredNetwork (rule_type add) input output).
Proof.
  intros. apply (installs_with_table _ _ (tethering_items input)). intros table [? ?].
  eapply installs_impl; [|apply (installs_modifyIpRule _ _ _ _ _ _ _ _ None)]; try done.
  split; [by split; vm_compute|lia|by split; vm_compute..].
Qed.

(** Operations that end with quiet steps. *)
Lemma installs_then_quiet short add l (m k : M RouteState Z) :
  installs cached_ok short add l m -> quiet cached_ok k ->
  (Accepting K -> succeeds cached_ok k) -> installs cached_ok short add l (try! m ;; k).
Proof.
  intros [B Su] Hq Hk. split; [by apply books_then_quiet|]. intros. apply succeeds_orelse; auto.
Qed.

Lemma quiet_update : quiet cached_ok (updateTableNamesFile;; mret 0).
Proof. apply quiet_bind; [apply quiet_updateTableNamesFile|]. intros. apply quiet_ret. Qed.

Lemma succeeds_update : succeeds cached_ok (updateTableNamesFile;; mret 0).
Proof.
  apply succeeds_quiet_bind; [apply quiet_updateTableNamesFile|]. intros. apply succeeds_ret.
Qed.

Lemma quiet_flush_attempts n version args :
  version <> "-w" -> quiet cached_ok (flush_attempts n (IP_PATH :: version :: args)).
Proof.
  intros Hv. induction n as [|n IH]; [apply quiet_ret|]. apply quiet_bind; [by apply quiet_ip_command|].
  intros r. destruct n; [apply quiet_ret|]. apply quiet_if; [apply IH|apply quiet_ret].
Qed.

Lemma quiet_flush_versions versions table ret :
  "-w" ∉ versions -> quiet cached_ok (flush_versions versions table ret).
Proof.
  revert ret. induction versions as [|v versions IH]; intros ret Hv; [apply quiet_ret|].
  apply not_elem_of_cons in Hv as [Hne Hv]. apply quiet_bind; [by apply quiet_flush_attempts|].
  intros err. by apply IH.
Qed.

Lemma ip_versions_not_w : "-w" ∉ IP_VERSIONS.
Proof. unfold IP_VERSIONS. rewrite !not_elem_of_cons. split_and!; [done..|apply not_elem_of_nil]. Qed.

Lemma quiet_flushRoutes interface : quiet cached_ok (flushRoutes interface).
Proof.
  apply quiet_bind.
  { intros s tr Hs. eapply wp_mono; [by apply wp_getRouteTableForInterface|]. cbn.
    by intros table s' tr' (HI & _ & _ & Hc). }
  intros table. apply quiet_if; [apply quiet_ret|].
  apply quiet_bind; [apply quiet_flush_versions, ip_versions_not_w|]. intros ret.
  apply quiet_if; [|apply quiet_ret]. apply quiet_bind; [|intros; apply quiet_ret].
  apply quiet_modify. intros s Hs name t. rewrite lookup_delete_Some. intros [_ H]. by apply Hs.
Qed.

Lemma succeeds_flush_attempts n argv : Accepting K -> succeeds cached_ok (flush_attempts n argv).
Proof.
  intros KA. induction n as [|n IH]; [apply succeeds_ret|]. intros s tr Hs. apply wp_bind.
  unfold sys_exec_value, wp. rewrite accept_exec_value. by destruct n.
Qed.

Lemma succeeds_flush_versions versions table :
  Accepting K -> succeeds cached_ok (flush_versions versions table 0).
Proof.
  intros KA. induction versions as [|v versions IH]; [apply succeeds_ret|]. intros s tr Hs.
  apply wp_bind. eapply wp_mono; [by apply succeeds_flush_attempts|]. cbn. intros err s' tr' [-> HI].
  by apply IH.
Qed.

Lemma succeeds_flushRoutes interface : Accepting K -> succeeds cached_ok (flushRoutes interface).
Proof.
  intros KA s tr Hs. apply wp_bind. eapply wp_mono; [by apply wp_getRouteTableForInterface|].
  intros table s' tr' (HI & _ & Ht & _). rewrite (proj2 (Z.eqb_neq _ _)) by auto.
  apply wp_bind. eapply wp_mono; [by apply succeeds_flush_versions|].
  intros ret s2 tr2 [-> H2]. cbn -[delete]. split; [done|]. intros name t.
  rewrite lookup_delete_Some. intros [_ Hl]. by apply H2.
Qed.

(** ** The public interface *)

Lemma installs_addInterfaceToPhysicalNetwork netId interface permission :
  netId_fits netId -> valid_permission permission -> no_nul interface ->
  installs cached_ok (short_name interface) true
    (physical_items netId interface permission (table_of interface))
    (addInterfaceToPhysicalNetwork netId interface permission).
Proof.
  intros. apply installs_then_quiet; [by apply installs_physical|apply quiet_update|].
  intros. apply succeeds_update.
Qed.

Lemma quiet_flush_update interface :
  quiet cached_ok (try! flushRoutes interface ;; updateTableNamesFile;; mret 0).
Proof.
  apply quiet_bind; [apply quiet_flushRoutes|]. intros. apply quiet_if; [apply quiet_update|apply quiet_ret].
Qed.

Lemma succeeds_flush_update interface :
  Accepting K -> succeeds cached_ok (try! flushRoutes interface ;; updateTableNamesFile;; mret 0).
Proof.
  intros. apply succeeds_orelse; [by apply succeeds_flushRoutes|apply succeeds_update].
Qed.

Lemma installs_removeInterfaceFromPhysicalNetwork netId interface permission :
  netId_fits netId -> valid_permission permission -> no_nul interface ->
  installs cached_ok (short_name interface) false
    (physical_items netId interface permission (table_of interface))
    (removeInterfaceFromPhysicalNetwork netId interface permission).
Proof.
  intros. apply installs_then_quiet; [by apply installs_physical|apply quiet_flush_update|].
  apply succeeds_flush_update.
Qed.

Lemma installs_addInterfaceToVirtualNetwork netId interface secure ranges :
  netId_fits netId -> no_nul interface -> Forall (fun r => uids_ok (Some r)) ranges ->
  installs cached_ok (short_name interface) true
    (virtual_items netId interface secure (table_of interface) ranges true)
    (addInterfaceToVirtualNetwork netId interface secure ranges).
Proof.
  intros. apply installs_then_quiet; [by apply installs_virtual|apply quiet_update|].
  intros. apply succeeds_update.
Qed.

Lemma installs_removeInterfaceFromVirtualNetwork netId interface secure ranges :
  netId_fits netId -> no_nul interface -> Forall (fun r => uids_ok (Some r)) ranges ->
  installs cached_ok (short_name interface) false
    (virtual_items netId interface secure (table_of interface) ranges true)
    (removeInterfaceFromVirtualNetwork netId interface secure ranges).
Proof.
  intros. apply installs_then_quiet; [by apply installs_virtual|apply quiet_flush_update|].
  apply succeeds_flush_update.
Qed.

(** The new rules are added before the old ones are removed. *)
Lemma books_modifyPhysicalNetworkPermission netId interface old new :
  netId_fits netId -> valid_permission old -> valid_permission new -> no_nul interface ->
  books cached_ok (fun i =>
    signed true (physical_items netId interface new (table_of interface)) i +
    signed false (physical_items netId interface old (table_of interface)) i)
    (modifyPhysicalNetworkPermission netId interface old new).
Proof. intros. apply books_orelse; by apply installs_physical. Qed.

Lemma installs_addLegacyRouteRules :
  installs cached_ok True true (take 6 (base_items 0)) addLegacyRouteRules.
Proof.
  unfold addLegacyRouteRules.
  change (take 6 (base_items 0)) with
    (rule_items RULE_PRIORITY_LEGACY_SYSTEM ROUTE_TABLE_LEGACY_SYSTEM
       (pack 0 false false 0) (pack 0 true false 0) None None None ++
     rule_items RULE_PRIORITY_LEGACY_NETWORK ROUTE_TABLE_LEGACY_NETWORK
       (pack 0 false false 0) (pack 0 true false 0) None None None ++
     rule_items RULE_PRIORITY_VPN_OVERRIDE_SYSTEM ROUTE_TABLE_LEGACY_SYSTEM
       (pack 0 false false PERMISSION_SYSTEM) (pack 0 true false PERMISSION_SYSTEM) None None None).
  repeat apply installs_seq; apply (installs_plain cached_ok true);
    auto with netd; try done; by split; vm_compute.
Qed.

Lemma installs_Init localNetId :
  netId_fits localNetId ->
  installs cached_ok True true (base_items localNetId) (Init localNetId).
Proof.
  intros. change (base_items localNetId) with
    ([] ++ take 6 (base_items 0) ++
     (explicit_items localNetId ROUTE_TABLE_LOCAL_NETWORK PERMISSION_NONE None ++
      rule_items RULE_PRIORITY_LOCAL_NETWORK ROUTE_TABLE_LOCAL_NETWORK
        (pack 0 false false 0) (pack 0 true false 0) None None None) ++
     rule_items RULE_PRIORITY_DIRECTLY_CONNECTED RT_TABLE_MAIN (pack 0 false false 0)
       (pack 0xffff false false 0) None None (Some (0, 0)) ++
     rule_items RULE_PRIORITY_UNREACHABLE RT_TABLE_UNSPEC (pack 0 false false 0)
       (pack 0 false false 0) None None None ++ []).
  apply installs_seq.
  { assert (forall version, version ∈ IP_VERSIONS ->
      installs cached_ok True true [] (r ← sys_exec_value [IP_PATH; version; "rule"; "flush"];
        if negb (r =? 0) then mret (- EREMOTEIO) else mret 0)) as H1.
    { intros v Hv. split.
      - eapply books_ext; [|apply (books_quiet_bind cached_ok (fun _ => 0)); [apply quiet_ip_command|]].
        + intros i. by rewrite signed_nil.
        + intros ->. by apply ip_versions_not_w.
        + intros r. apply quiet_books, quiet_if; apply quiet_ret.
      - intros KA _ s tr Hs. apply wp_bind. unfold sys_exec_value, wp. by rewrite accept_exec_value. }
    change (@nil item) with (concat (map (fun _ : string => @nil item) IP_VERSIONS)).
    by apply installs_each. }
  apply installs_seq; [apply installs_addLegacyRouteRules|].
  apply installs_seq.
  { apply installs_seq.
    - apply installs_explicit; auto with netd; try done; by split; vm_compute.
    - apply (installs_plain cached_ok true); auto with netd; try done; by split; vm_compute. }
  apply installs_seq.
  { eapply installs_impl; [|apply (installs_modifyIpRule _ true _ _ _ _ _ _ (Some (0, 0)))]; try done. }
  apply installs_seq.
  { apply (installs_plain cached_ok true); auto with netd; try done; by split; vm_compute. }
  split; [|intros; apply succeeds_update]. eapply books_ext; [|apply quiet_books, quiet_update].
  intros i. by rewrite signed_nil.
Qed.
End Operations.

(** ** Routes

    Route requests are not rule requests: the ledger does not see them. *)

Lemma decode_rule_other len type flags body :
  u16 type <> RTM_NEWRULE -> u16 type <> RTM_DELRULE ->
  decode_rule (nlmsghdr len type flags ++ body) = None.
Proof.
  intros H1 H2. unfold nlmsghdr, le16, le32. cbn [app].
  unfold decode_rule. do 12 (destruct body as [|? body]; [done|]).
  rewrite rd16_le16. rewrite (proj2 (Z.eqb_neq _ _) H1), (proj2 (Z.eqb_neq _ _) H2).
  by rewrite andb_false_r.
Qed.

Section Routes.
Context {K : Kernel} {KL : KernelLaws K} {St : Steady} {IX : Interfaces} {KI : KeepsIndices K}.

Lemma quiet_sendNetlinkRequest {S} (I : S -> Prop) action flags iov :
  u16 action <> RTM_NEWRULE -> u16 action <> RTM_DELRULE ->
  quiet I (sendNetlinkRequest action flags iov).
Proof.
  intros H1 H2. apply quiet_bind; [|intros; apply quiet_ret].
  intros s tr Hs. unfold sys_netlink, wp. split; [done|]. intros _ i. rewrite ledger_snoc.
  unfold event_delta, event_item. rewrite decode_rule_other by done. by repeat case_match.
Qed.

Lemma quiet_sys_ifindex {S} (I : S -> Prop) name : quiet I (sys_ifindex name).
Proof. intros s tr Hs. unfold sys_ifindex, wp. split; [done|]. intros _ i. by rewrite ledger_snoc. Qed.

Lemma quiet_modifyIpRoute action table interface destination nexthop :
  action = RTM_NEWROUTE \/ action = RTM_DELROUTE ->
  quiet cached_ok (modifyIpRoute action table interface destination nexthop).
Proof.
  intros Ha. unfold modifyIpRoute. destruct destination as [d|]; [|apply quiet_ret].
  destruct (parsePrefix d 16) as [e|p]; [apply quiet_ret|]. cbv zeta. apply quiet_bind.
  - repeat apply quiet_if; try apply quiet_ret. apply quiet_bind.
    { destruct interface; [apply quiet_sys_ifindex|apply quiet_ret]. }
    intros index. apply quiet_if; [apply quiet_ret|].
    destruct nexthop as [hop|]; [|apply quiet_ret].
    destruct (k_inet_pton (px_family p) hop); apply quiet_ret.
  - intros [err|[[[type ifc] index] raw]]; [apply quiet_ret|].
    apply quiet_sendNetlinkRequest; by destruct Ha as [-> | ->].
Qed.

Lemma quiet_getRouteTableForInterface interface :
  quiet cached_ok (getRouteTableForInterface interface).
Proof.
  intros s tr Hs. eapply wp_mono; [by apply wp_getRouteTableForInterface|]. cbn beta.
  by intros table s' tr' (HI & _ & _ & Hc).
Qed.

Lemma quiet_modifyRoute action interface destination nexthop tableType :
  action = RTM_NEWROUTE \/ action = RTM_DELROUTE ->
  quiet cached_ok (modifyRoute action interface destination nexthop tableType).
Proof.
  intros Ha. apply quiet_bind.
  { destruct tableType; [apply quiet_getRouteTableForInterface|apply quiet_ret..]. }
  intros table. apply quiet_if; [apply quiet_ret|].
  apply quiet_bind; [by apply quiet_modifyIpRoute|]. intros ret.
  apply quiet_if; apply quiet_ret.
Qed.
End Routes.
