(* ===== verification/SampleKernel.v ===== *)
(** * SampleKernel: one concrete kernel

    A kernel that accepts every request, and one that refuses every rule
    request: the witnesses of the theorems run the code against them. *)
From S2P Require Import Prelude Platform Cstd Children Netlink NetdConstants Ledger.
From S2P Require Import RouteController RouteSpec.

Definition sample_index (name : string) : Z :=
  if String.eqb name "wlan0" then 3 else if String.eqb name "rmnet0" then 4
  else if String.eqb name "tun0" then 7 else 9.

(** Numeric addresses the sample runs use. *)
Definition sample_getaddrinfo (host : string) : option (Z * list Z) :=
  if String.eqb host "10.0.0.0" then Some (AF_INET, [10; 0; 0; 0])
  else if String.eqb host "2001:db8::" then
    Some (AF_INET6, [32; 1; 13; 184; 0; 0; 0; 0; 0; 0; 0; 0; 0; 0; 0; 0])
  else None.
Definition sample_inet_pton (family : Z) (addr : string) : option (list Z) :=
  if (family =? AF_INET) && String.eqb addr "10.0.0.1" then Some [10; 0; 0; 1] else None.

Definition sample_inet_aton (addr : string) : option Z :=
  if String.eqb addr "192.168.42.1" then Some 0x012aa8c0
  else if String.eqb addr "192.168.42.254" then Some 0xfe2aa8c0
  else if String.eqb addr "8.8.8.8" then Some 0x08080808 else None.

Definition sample_netmask (prefixLength : Z) : Z := if prefixLength =? 24 then 0x00ffffff else 0xffffffff.

(** A pid that no child of the trace has had. *)
Definition spawn_pid (e : event) : Z := match e with EvSpawn _ pid => pid | _ => 0 end.
Definition fresh_pid (tr : trace) : Z := 1 + foldr Z.max 100 (map spawn_pid tr).

Definition good_kernel : Kernel := {|
  k_netlink := fun _ _ => NlAck 0;
  k_exec := fun _ _ => ExecRes 0 true 0;
  k_ifindex := fun _ name => sample_index name;
  k_file := fun _ _ => 3;
  k_property := fun _ _ => "";
  k_popen := fun _ _ => None;
  k_read := fun _ _ => None;
  k_readdir := fun _ _ => None;
  k_wait := fun _ _ => 0;
  k_system := fun _ _ => 0;
  k_ifc := fun _ _ => 0;
  k_ifc_get_info := fun _ _ => None;
  k_ifc_get_hwaddr := fun _ _ => None;
  k_wifi := fun _ _ => 0;
  k_qsap_reply := fun _ _ => "success channel=6";
  k_wifi_fw_path := fun _ => Some "/vendor/firmware/fw_bcmdhd.bin";
  k_pbkdf2 := fun _ _ => replicate 32 171;
  k_netmask := sample_netmask;
  k_spawn := fun tr _ => Spawned (fresh_pid tr) 7;
  k_pipe := fun _ _ data => strlen data + 1;
  k_inet_aton := sample_inet_aton;
  k_getaddrinfo := sample_getaddrinfo;
  k_inet_pton := sample_inet_pton
|}.

(** Refuses netlink requests with [EEXIST], and every command. *)
Definition bad_kernel : Kernel := {|
  k_netlink := fun _ _ => NlAck (- EEXIST);
  k_exec := fun _ _ => ExecRes 0 true 1;
  k_ifindex := fun _ name => sample_index name;
  k_file := fun _ _ => -1;
  k_property := fun _ _ => "";
  k_popen := fun _ _ => None;
  k_read := fun _ _ => None;
  k_readdir := fun _ _ => None;
  k_wait := fun _ _ => 0;
  k_system := fun _ _ => 0;
  k_ifc := fun _ _ => 0;
  k_ifc_get_info := fun _ _ => None;
  k_ifc_get_hwaddr := fun _ _ => None;
  k_wifi := fun _ _ => 0;
  k_qsap_reply := fun _ _ => "success channel=6";
  k_wifi_fw_path := fun _ => Some "/vendor/firmware/fw_bcmdhd.bin";
  k_pbkdf2 := fun _ _ => replicate 32 171;
  k_netmask := sample_netmask;
  k_spawn := fun tr _ => Spawned (fresh_pid tr) 7;
  k_pipe := fun _ _ data => strlen data + 1;
  k_inet_aton := sample_inet_aton;
  k_getaddrinfo := sample_getaddrinfo;
  k_inet_pton := sample_inet_pton
|}.

Lemma sample_index_range name : 0 < sample_index name < 2 ^ 31.
Proof. unfold sample_index. repeat case_match; lia. Qed.

#[export] Instance good_kernel_laws : KernelLaws good_kernel.
Proof. split; [done|]. intros tr name. cbn. pose proof (sample_index_range name). lia. Qed.

#[export] Instance good_kernel_accepting : Accepting good_kernel.
Proof. split; [done..|]. intros tr name. cbn. pose proof (sample_index_range name). lia. Qed.

#[export] Instance bad_kernel_laws : KernelLaws bad_kernel.
Proof. split; [done|]. intros tr name. cbn. pose proof (sample_index_range name). lia. Qed.

(** Their interfaces keep their indexes. *)
#[export] Instance sample_interfaces : Interfaces := sample_index.
#[export] Instance good_keeps {St : Steady} : KeepsIndices good_kernel.
Proof. intros _ tr name. by left. Qed.

(** Pids of the sample kernels are fresh. *)
Lemma children_spawned tr c : c ∈ children tr -> c.2 ∈ map spawn_pid tr.
Proof.
  induction tr as [|e tr IH] using rev_ind; [by intros ?%elem_of_nil|].
  rewrite children_snoc, map_app, elem_of_app.
  destruct e as [| | | |[|program argv] pid|pid|pid r| | | | | | | |]; cbn [child_step]; try by auto.
  - intros [?| ->%list_elem_of_singleton]%elem_of_app; [by auto|]. right. cbn. by left.
  - intros [_ ?]%list_elem_of_filter. by auto.
  - case_match; [by auto|]. intros [_ ?]%list_elem_of_filter. by auto.
Qed.

Lemma max_bound l n x : x ∈ l -> x <= foldr Z.max n l.
Proof. induction 1; cbn; lia. Qed.

Lemma sample_pid_laws : pid_laws good_kernel.
Proof.
  intros tr argv pid fd [= <- <-]. unfold fresh_pid. split_and!; [|done|].
  - assert (forall l, 100 <= foldr Z.max 100 l) as H by (induction l; cbn; lia).
    specialize (H (map spawn_pid tr)). lia.
  - intros ([program pid] & Heq & Hin%children_spawned)%list_elem_of_fmap. cbn in *.
    apply (max_bound _ 100) in Hin. lia.
Qed.
