(* ===== verification/FirewallController.v ===== *)
(** * FirewallController: a deny-by-default firewall

    Models [server/FirewallController.cpp].  The state is [errno], the only
    thing the controller leaves behind besides its iptables rules. *)
From S2P Require Import Prelude Platform Cstd Netlink NetdConstants Ledger Iptables SampleKernel RouteSpec.

Inductive FirewallRule := ALLOW | DENY.

Module FirewallController.
Section Operations.
Context {K : Kernel}.

Definition LOCAL_INPUT : string := "fw_INPUT".
Definition LOCAL_OUTPUT : string := "fw_OUTPUT".
Definition LOCAL_FORWARD : string := "fw_FORWARD".

(** [res |= c;] for each of the calls. *)
Definition both {S} (m1 m2 : M S Z) : M S Z := a ← m1; b ← m2; mret (Z.lor a b).

Definition setupIptablesHooks : M Z Z := mret 0.

Definition disableFirewall : M Z Z :=
  both (both (execIptables V4V6 ["-w"; "-F"; LOCAL_INPUT])
             (execIptables V4V6 ["-w"; "-F"; LOCAL_OUTPUT]))
       (execIptables V4V6 ["-w"; "-F"; LOCAL_FORWARD]).

Definition enableFirewall : M Z Z :=
  disableFirewall;;
  both (both (execIptables V4V6 ["-w"; "-A"; LOCAL_INPUT; "-j"; "DROP"])
             (execIptables V4V6 ["-w"; "-A"; LOCAL_OUTPUT; "-j"; "REJECT"]))
       (execIptables V4V6 ["-w"; "-A"; LOCAL_FORWARD; "-j"; "REJECT"]).

Definition isFirewallEnabled : M Z Z := mret (-1).

Definition rule_op (rule : FirewallRule) : string :=
  match rule with ALLOW => "-I" | DENY => "-D" end.

Definition addr_target (addr : string) : IptablesTarget :=
  match strchr addr ":" with Some _ => V6 | None => V4 end.

Definition setInterfaceRule (iface : string) (rule : FirewallRule) : M Z Z :=
  if negb (isIfaceName iface) then modify (fun _ => ENOENT);; mret (-1)
  else
    let op := rule_op rule in
    both (execIptables V4V6 ["-w"; op; LOCAL_INPUT; "-i"; iface; "-j"; "RETURN"])
         (execIptables V4V6 ["-w"; op; LOCAL_OUTPUT; "-o"; iface; "-j"; "RETURN"]).

Definition setEgressSourceRule (addr : string) (rule : FirewallRule) : M Z Z :=
  let target := addr_target addr in
  let op := rule_op rule in
  both (execIptables target ["-w"; op; LOCAL_INPUT; "-d"; addr; "-j"; "RETURN"])
       (execIptables target ["-w"; op; LOCAL_OUTPUT; "-s"; addr; "-j"; "RETURN"]).

Definition setEgressDestRule (addr : string) (protocol port : Z) (rule : FirewallRule) : M Z Z :=
  let target := addr_target addr in
  let protocolStr := print_d protocol in
  let portStr := print_d port in
  let op := rule_op rule in
  both (execIptables target ["-w"; op; LOCAL_INPUT; "-s"; addr; "-p"; protocolStr;
                             "--sport"; portStr; "-j"; "RETURN"])
       (execIptables target ["-w"; op; LOCAL_OUTPUT; "-d"; addr; "-p"; protocolStr;
                             "--dport"; portStr; "-j"; "RETURN"]).

Definition setUidRule (uid : Z) (rule : FirewallRule) : M Z Z :=
  let uidStr := print_d uid in
  let op := rule_op rule in
  both (execIptables V4V6 ["-w"; op; LOCAL_INPUT; "-m"; "owner"; "--uid-owner"; uidStr; "-j"; "RETURN"])
       (execIptables V4V6 ["-w"; op; LOCAL_OUTPUT; "-m"; "owner"; "--uid-owner"; uidStr; "-j"; "RETURN"]).

(** The rule operations, as one type. *)
Inductive rule_call :=
| InterfaceRule (iface : string)
| EgressSourceRule (addr : string)
| EgressDestRule (addr : string) (protocol port : Z)
| UidRule (uid : Z).

Definition call_rule (c : rule_call) (rule : FirewallRule) : M Z Z :=
  match c with
  | InterfaceRule iface => setInterfaceRule iface rule
  | EgressSourceRule addr => setEgressSourceRule addr rule
  | EgressDestRule addr protocol port => setEgressDestRule addr protocol port rule
  | UidRule uid => setUidRule uid rule
  end.

(** Any number of rule operations, whatever they return. *)
Fixpoint call_all (l : list (rule_call * FirewallRule)) : M Z unit :=
  match l with
  | [] => mret tt
  | (c, rule) :: l => call_rule c rule;; call_all l
  end.
End Operations.

(** ** The commands of each operation *)

(** The words that follow the operation and the chain, and the targets. *)
Definition call_spec (c : rule_call) : IptablesTarget * iprule * iprule :=
  match c with
  | InterfaceRule iface => (V4V6, ["-i"; iface; "-j"; "RETURN"], ["-o"; iface; "-j"; "RETURN"])
  | EgressSourceRule addr =>
      (addr_target addr, ["-d"; addr; "-j"; "RETURN"], ["-s"; addr; "-j"; "RETURN"])
  | EgressDestRule addr protocol port =>
      (addr_target addr, ["-s"; addr; "-p"; print_d protocol; "--sport"; print_d port; "-j"; "RETURN"],
       ["-d"; addr; "-p"; print_d protocol; "--dport"; print_d port; "-j"; "RETURN"])
  | UidRule uid =>
      let spec := ["-m"; "owner"; "--uid-owner"; print_d uid; "-j"; "RETURN"] in (V4V6, spec, spec)
  end.

Definition call_commands (c : rule_call) (rule : FirewallRule) : list (list string) :=
  let '(target, input, output) := call_spec c in
  targets target ("-w" :: rule_op rule :: LOCAL_INPUT :: input) ++
  targets target ("-w" :: rule_op rule :: LOCAL_OUTPUT :: output).

(** The last rule of each chain while the firewall is enabled. *)
Definition last_rule (chain : string) : option iprule :=
  if String.eqb chain LOCAL_INPUT then Some ["-j"; "DROP"]
  else if String.eqb chain LOCAL_OUTPUT || String.eqb chain LOCAL_FORWARD then Some ["-j"; "REJECT"]
  else None.

Section Proofs.
Context {K : Kernel}.

Lemma runs_both l1 l2 (m1 m2 : M Z Z) : runs l1 m1 -> runs l2 m2 -> runs (l1 ++ l2) (both m1 m2).
Proof. apply runs_lor. Qed.

Lemma runs_call_rule c rule : runs (call_commands c rule) (call_rule c rule).
Proof.
  destruct c; cbn [call_rule]; [|by apply runs_both; apply runs_execIptables..].
  unfold setInterfaceRule. destruct (isIfaceName iface); [by apply runs_both; apply runs_execIptables|].
  intros s tr. by apply wp_bind, wp_modify, wp_ret.
Qed.

Lemma on_chain_both ch P (m1 m2 : M Z Z) :
  on_chain ch P m1 (fun _ => P) -> on_chain ch P m2 (fun _ => P) ->
  on_chain ch P (both m1 m2) (fun _ => P).
Proof.
  intros H1 H2. eapply on_chain_bind; [done|]. intros a. eapply on_chain_bind; [done|]. intros b.
  eapply on_chain_mono; [apply on_chain_ret|]. by intros ??? [].
Qed.

(** The effect of one command of a rule operation on a chain. *)
Lemma run_rule ch path op chain spec rs :
  op = "-I" \/ op = "-D" -> is_numeral (default "" (head spec)) = false ->
  run_argv ch rs (path :: "-w" :: op :: chain :: spec) =
  if decide (ch = Chain path "filter" chain) then
    if String.eqb op "-I" then spec :: rs else remove_first spec rs
  else rs.
Proof.
  intros Hop Hnum. unfold run_argv, parse_iptables.
  assert (parse_op (op :: chain :: spec) =
    Some (chain, if String.eqb op "-I" then OpInsert 0 spec else OpDelete spec)) as Hparse.
  { destruct Hop as [-> | ->]; [|done]. cbn. destruct spec as [|w spec]; [done|]. cbn in Hnum.
    by rewrite Hnum. }
  destruct Hop as [-> | ->]; cbn -[parse_op is_numeral] in *; by rewrite Hparse.
Qed.

(** It leaves the last rule of the chain. *)
Lemma run_rule_last ch path op chain' spec x rs :
  op = "-I" \/ op = "-D" -> is_numeral (default "" (head spec)) = false -> spec <> x ->
  last rs = Some x -> last (run_argv ch rs (path :: "-w" :: op :: chain' :: spec)) = Some x.
Proof.
  intros Hop Hnum Hne Hl. rewrite run_rule by done. case_decide; [|done]. case_match.
  - by destruct rs.
  - by apply remove_first_last.
Qed.

Lemma last_rule_not_spec chain x spec :
  last_rule chain = Some x -> (2 < length spec)%nat -> spec <> x.
Proof. unfold last_rule. intros H Hl ->. repeat case_match; simplify_eq/=; lia. Qed.

(** Any rule operation, whatever the programs answer, keeps the last rules. *)
Lemma call_rule_keeps path table chain x c rule :
  last_rule chain = Some x ->
  on_chain (Chain path table chain) (fun _ rs => last rs = Some x) (call_rule c rule)
    (fun _ _ rs => last rs = Some x).
Proof.
  intros Hx.
  assert (forall target op chain' spec, op = "-I" \/ op = "-D" ->
    is_numeral (default "" (head spec)) = false -> (2 < length spec)%nat ->
    on_chain (Chain path table chain) (fun (_ : Z) rs => last rs = Some x)
      (execIptables target ("-w" :: op :: chain' :: spec)) (fun _ _ rs => last rs = Some x)) as Hexec.
  { intros target op chain' spec Hop Hnum Hlen. apply on_chain_execIptables; [done|].
    intros path' r s tr Hp Hl. rewrite chain_rules_exec. destruct (exec_ok r); [|done].
    by apply run_rule_last; [|  |eapply last_rule_not_spec|]. }
  assert (rule_op rule = "-I" \/ rule_op rule = "-D") as Hop by (destruct rule; auto).
  destruct c; cbn [call_rule]; [|apply on_chain_both; apply Hexec; cbn; (done || lia)..].
  unfold setInterfaceRule. destruct (isIfaceName iface).
  - apply on_chain_both; apply Hexec; cbn; (done || lia).
  - intros s tr Hl. by apply wp_bind, wp_modify, wp_ret.
Qed.

Lemma call_all_keeps path table chain x calls :
  last_rule chain = Some x ->
  on_chain (Chain path table chain) (fun _ rs => last rs = Some x) (call_all calls)
    (fun _ _ rs => last rs = Some x).
Proof.
  intros Hx. induction calls as [|[c rule] calls IH].
  - eapply on_chain_mono; [apply on_chain_ret|]. by intros a s rs [_ H].
  - eapply on_chain_bind; [by apply call_rule_keeps|]. intros ret. apply IH.
Qed.

(** Whatever flushing the chains did, a 0 from [enableFirewall] means that the
    default rules have been appended. *)
Lemma enableFirewall_last path chain x :
  path = IPTABLES_PATH \/ path = IP6TABLES_PATH -> last_rule chain = Some x ->
  forall s tr, wp enableFirewall (fun ret _ tr' =>
    ret = 0 -> last (chain_rules (Chain path "filter" chain) tr') = Some x) s tr.
Proof.
  intros Hp Hx s tr. unfold enableFirewall. apply wp_bind, wp_intro. intros ret0 s0 tr0 _.
  eapply wp_mono; [eapply runs_both; [eapply runs_both|]; apply runs_execIptables|]. cbn.
  intros ret s' tr' Hr Hret. unfold chain_rules. rewrite Hr, replay_app by done.
  unfold last_rule in Hx. generalize (replay (Chain path "filter" chain) [] (acked tr0)). intros rs.
  destruct (String.eqb_spec chain LOCAL_INPUT) as [->|H1];
    [|destruct (String.eqb_spec chain LOCAL_OUTPUT) as [->|H2];
      [|destruct (String.eqb_spec chain LOCAL_FORWARD) as [->|H3]; [|done]]];
    injection Hx as <-; destruct Hp as [-> | ->]; unfold replay, run_argv; cbn; try apply last_snoc.
Qed.
End Proofs.

(** ** Properties *)

(** Deny by default: once [enableFirewall] has returned 0, no sequence of
    rule operations, whatever they return, removes the DROP or REJECT that ends
    the input, output and forward chains of both programs. *)
Theorem default_deny {K : Kernel} path chain x s tr s' tr' calls :
  path = IPTABLES_PATH \/ path = IP6TABLES_PATH -> last_rule chain = Some x ->
  enableFirewall s tr = (0, s', tr') ->
  last (chain_rules (Chain path "filter" chain) (call_all calls s' tr').2) = Some x.
Proof.
  intros Hp Hx He. pose proof (enableFirewall_last path chain x Hp Hx s tr) as H.
  apply (wp_run _ _ _ _ _ _ _ He) in H. specialize (H eq_refl).
  pose proof (call_all_keeps path "filter" chain x calls Hx s' tr' H) as H2.
  unfold wp in H2. by destruct (call_all calls s' tr') as [[] ].
Qed.

Lemma default_deny_witness :
  let run := enableFirewall (K:=good_kernel) 0 [] in
  run.1.1 = 0 /\ last (chain_rules (Chain IP6TABLES_PATH "filter" LOCAL_INPUT)
    (call_all (K:=good_kernel) [(UidRule 10001, ALLOW); (InterfaceRule "wlan0", DENY)] run.1.2 run.2).2) =
  Some ["-j"; "DROP"].
Proof.
  split; [vm_compute; reflexivity|].
  apply (default_deny (K:=good_kernel) IP6TABLES_PATH LOCAL_INPUT ["-j"; "DROP"] 0 []).
  - by right.
  - vm_compute. reflexivity.
  - vm_compute. reflexivity.
Defined.

(** Denying what was just allowed restores every chain of every table, when
    both operations return 0. *)
Theorem allow_then_deny {K : Kernel} c s tr s1 tr1 s2 tr2 :
  call_rule c ALLOW s tr = (0, s1, tr1) -> call_rule c DENY s1 tr1 = (0, s2, tr2) ->
  forall ch, chain_rules ch tr2 = chain_rules ch tr.
Proof.
  intros H1 H2 ch.
  pose proof (wp_run _ _ _ _ _ _ _ H1 (runs_call_rule c ALLOW s tr) eq_refl) as E1.
  pose proof (wp_run _ _ _ _ _ _ _ H2 (runs_call_rule c DENY s1 tr1) eq_refl) as E2.
  unfold chain_rules. rewrite E2, E1, !replay_app. generalize (replay ch [] (acked tr)). intros rs.
  unfold call_commands.
  assert (is_numeral (default "" (head (call_spec c).1.2)) = false /\
          is_numeral (default "" (head (call_spec c).2)) = false) as [N1 N2] by (by destruct c).
  destruct (call_spec c) as [[target input] output]. cbn [fst snd] in *.
  assert (IPTABLES_PATH <> IP6TABLES_PATH) by done.
  destruct target; cbn [targets app rule_op]; unfold replay; cbn [foldl];
    rewrite !run_rule by auto; repeat case_decide; cbn [String.eqb Ascii.eqb Bool.eqb];
    simplify_eq; by rewrite ?remove_first_cons_eq.
Qed.

Lemma allow_then_deny_witness :
  let allow := call_rule (K:=good_kernel) (EgressDestRule "2001:db8::1" 6 443) ALLOW 0 [] in
  let deny := call_rule (K:=good_kernel) (EgressDestRule "2001:db8::1" 6 443) DENY allow.1.2 allow.2 in
  deny.1.1 = 0 /\ chain_rules (Chain IP6TABLES_PATH "filter" LOCAL_INPUT) allow.2 <> [] /\ chain_rules (Chain IP6TABLES_PATH "filter" LOCAL_INPUT) deny.2 = [].
Proof.
  split; [vm_compute; reflexivity|]. split; [vm_compute; discriminate|].
  set (allow := call_rule (K:=good_kernel) (EgressDestRule "2001:db8::1" 6 443) ALLOW 0 []).
  set (deny := call_rule (K:=good_kernel) (EgressDestRule "2001:db8::1" 6 443) DENY allow.1.2 allow.2).
  apply (allow_then_deny (K:=good_kernel) (EgressDestRule "2001:db8::1" 6 443) 0 []
    allow.1.2 allow.2 deny.1.2 deny.2); vm_compute; reflexivity.
Defined.
End FirewallController.
