(* ===== verification/NatController.v ===== *)
(** * NatController: tethering's NAT and forwarding rules

    Models [server/NatController.cpp].  The controller's members are [natCount]
    and [ifacePairList]; [errno] is the error the caller reports; the route
    cache is RouteController's state, which [enableNat] and [disableNat] reach
    through [enableTethering] and [disableTethering]. *)
From S2P Require Import Prelude Platform Cstd Netlink NetdConstants Ledger Iptables.
From S2P Require Import RouteController RouteSpec SampleKernel.

Module NatController.
Record t := State { natCount : Z; ifacePairList : list string; errno : Z; routes : RouteState }.

Definition set_natCount (n : Z) (s : t) : t := State n (ifacePairList s) (errno s) (routes s).
Definition push_pair (p : string) (s : t) : t :=
  State (natCount s) (p :: ifacePairList s) (errno s) (routes s).
Definition clear_pairs (s : t) : t := State (natCount s) [] (errno s) (routes s).
Definition set_errno (e : Z) (s : t) : t := State (natCount s) (ifacePairList s) e (routes s).
Definition set_routes (r : RouteState) (s : t) : t := State (natCount s) (ifacePairList s) (errno s) r.

Definition LOCAL_FORWARD : string := "natctrl_FORWARD".
Definition LOCAL_MANGLE_FORWARD : string := "natctrl_mangle_FORWARD".
Definition LOCAL_NAT_POSTROUTING : string := "natctrl_nat_POSTROUTING".
Definition LOCAL_TETHER_COUNTERS_CHAIN : string := "natctrl_tether_counters".

Section Operations.
Context {K : Kernel}.

Definition runCmd (argv : list string) : M t Z := sys_exec_value argv.

(** The loop over a table of commands, each with its [checkRes] flag. *)
Fixpoint run_table (l : list (list string * bool)) : M t Z :=
  match l with
  | [] => mret 0
  | (cmd, checkRes) :: l =>
      res ← runCmd cmd;
      if negb (res =? 0) && (checkRes : bool) then mret (-1) else run_table l
  end.

Definition setDefaults : M t Z :=
  try! run_table [
    ([IPTABLES_PATH; "-F"; LOCAL_FORWARD], true);
    ([IPTABLES_PATH; "-A"; LOCAL_FORWARD; "-j"; "DROP"], true);
    ([IPTABLES_PATH; "-t"; "nat"; "-F"; LOCAL_NAT_POSTROUTING], true)] ;;
  modify (set_natCount 0);; mret 0.

Definition setupIptablesHooks : M t Z :=
  res ← setDefaults;
  if res <? 0 then mret res
  else
    try! run_table [
      ([IPTABLES_PATH; "-F"; LOCAL_TETHER_COUNTERS_CHAIN], false);
      ([IPTABLES_PATH; "-X"; LOCAL_TETHER_COUNTERS_CHAIN], false);
      ([IPTABLES_PATH; "-N"; LOCAL_TETHER_COUNTERS_CHAIN], true);
      ([IPTABLES_PATH; "-t"; "mangle"; "-A"; LOCAL_MANGLE_FORWARD; "-p"; "tcp"; "--tcp-flags";
        "SYN"; "SYN"; "-j"; "TCPMSS"; "--clamp-mss-to-pmtu"], false)] ;;
    modify clear_pairs;; mret 0.

Definition checkTetherCountingRuleExist (pair_name : string) (l : list string) : bool :=
  existsb (String.eqb pair_name) l.

Definition counter_rule (inIface outIface : string) : iprule :=
  ["-i"; inIface; "-o"; outIface; "-j"; "RETURN"].

(** One half of [setTetherCountingRules]: the counter of one direction. *)
Definition add_counter (inIface outIface : string) (k : M t Z) : M t Z :=
  let pair_name := inIface +:+ "_" +:+ outIface in
  l ← gets ifacePairList;
  if checkTetherCountingRuleExist pair_name l then mret 0
  else
    res ← runCmd (IPTABLES_PATH :: "-A" :: LOCAL_TETHER_COUNTERS_CHAIN :: counter_rule inIface outIface);
    if negb (res =? 0) then mret (-1)
    else modify (push_pair pair_name);; k.

Definition setTetherCountingRules (add : bool) (intIface extIface : string) : M t Z :=
  if negb add then mret 0
  else add_counter intIface extIface (add_counter extIface intIface (mret 0)).

Definition established_rule (intIface extIface : string) : iprule :=
  ["-i"; extIface; "-o"; intIface; "-m"; "state"; "--state"; "ESTABLISHED,RELATED";
   "-g"; LOCAL_TETHER_COUNTERS_CHAIN].
Definition invalid_rule (intIface extIface : string) : iprule :=
  ["-i"; intIface; "-o"; extIface; "-m"; "state"; "--state"; "INVALID"; "-j"; "DROP"].
Definition outgoing_rule (intIface extIface : string) : iprule :=
  ["-i"; intIface; "-o"; extIface; "-g"; LOCAL_TETHER_COUNTERS_CHAIN].

(** A command on the forward chain. *)
Definition forward_cmd (op : string) (rule : iprule) : list string :=
  IPTABLES_PATH :: op :: LOCAL_FORWARD :: rule.

Definition setForwardRules (add : bool) (intIface extIface : string) : M t Z :=
  let op := if add then "-A" else "-D" in
  let cmd1 := forward_cmd op (established_rule intIface extIface) in
  let cmd2 := forward_cmd op (invalid_rule intIface extIface) in
  let cmd3 := forward_cmd op (outgoing_rule intIface extIface) in
  let err_invalid_drop := runCmd (forward_cmd "-D" (established_rule intIface extIface));; mret (-1) in
  let err_return := runCmd (forward_cmd "-D" (invalid_rule intIface extIface));; err_invalid_drop in
  r1 ← runCmd cmd1;
  if negb (r1 =? 0) && add then mret (-1)
  else
    r2 ← runCmd cmd2;
    if negb (r2 =? 0) && add then err_invalid_drop
    else
      r3 ← runCmd cmd3;
      if negb (r3 =? 0) && add then err_return
      else
        r4 ← setTetherCountingRules add intIface extIface;
        if negb (r4 =? 0) && add then err_return else mret 0.

Definition enableNat (intIface extIface : string) : M t Z :=
  if negb (isIfaceName intIface) || negb (isIfaceName extIface)
  then modify (set_errno ENODEV);; mret (-1)
  else if String.eqb intIface extIface then modify (set_errno EINVAL);; mret (-1)
  else
    count ← gets natCount;
    masquerade ← (if count =? 0
                  then runCmd [IPTABLES_PATH; "-t"; "nat"; "-A"; LOCAL_NAT_POSTROUTING;
                               "-o"; extIface; "-j"; "MASQUERADE"]
                  else mret 0);
    if negb (masquerade =? 0) then setDefaults;; mret (-1)
    else
      r ← setForwardRules true intIface extIface;
      if negb (r =? 0) then
        (if count =? 0 then setDefaults else mret 0);; modify (set_errno ENODEV);; mret (-1)
      else
        runCmd (forward_cmd "-D" ["-j"; "DROP"]);;
        runCmd (forward_cmd "-A" ["-j"; "DROP"]);;
        ret ← zoom routes set_routes (RouteController.enableTethering intIface extIface);
        if negb (ret =? 0) then
          (if count =? 0 then setDefaults else mret 0);; modify (set_errno (- ret));; mret (-1)
        else
          modify (fun s => set_natCount (natCount s + 1) s);; mret 0.

Definition disableNat (intIface extIface : string) : M t Z :=
  if negb (isIfaceName intIface) || negb (isIfaceName extIface)
  then modify (set_errno ENODEV);; mret (-1)
  else
    ret ← zoom routes set_routes (RouteController.disableTethering intIface extIface);
    if negb (ret =? 0) then modify (set_errno (- ret));; mret (-1)
    else
      setForwardRules false intIface extIface;;
      modify (fun s => set_natCount (natCount s - 1) s);;
      count ← gets natCount;
      (if count <=? 0 then setDefaults else mret 0);; mret 0.
End Operations.

(** ** Specification

    The forwarding rules of one tethered pair, the chains the controller owns,
    and the sessions it goes through. *)
Definition pair_rules (p : string * string) : list iprule :=
  [established_rule p.1 p.2; invalid_rule p.1 p.2; outgoing_rule p.1 p.2].

Definition forward_chain : chain_name := Chain IPTABLES_PATH "filter" LOCAL_FORWARD.
Definition postrouting_chain : chain_name := Chain IPTABLES_PATH "nat" LOCAL_NAT_POSTROUTING.

Definition drop_rule : iprule := ["-j"; "DROP"].
Definition masquerade_rule (extIface : string) : iprule := ["-o"; extIface; "-j"; "MASQUERADE"].

(** The chains while the pairs [active] are tethered; [upstream] is the
    external interface of the pair that was enabled when none was. *)
Definition forward_rules (active : list (string * string)) : list iprule :=
  concat (map pair_rules active) ++ [drop_rule].
Definition postrouting_rules (upstream : option string) : list iprule :=
  match upstream with Some e => [masquerade_rule e] | None => [] end.

Definition chains_ok (active : list (string * string)) (upstream : option string) (s : t) (tr : trace) : Prop :=
  natCount s = Z.of_nat (length active) /\ (active = [] -> upstream = None) /\
  chain_rules forward_chain tr = forward_rules active /\
  chain_rules postrouting_chain tr = postrouting_rules upstream.

Fixpoint remove_pair (p : string * string) (l : list (string * string)) : list (string * string) :=
  match l with
  | [] => []
  | q :: l => if decide (p = q) then l else q :: remove_pair p l
  end.

(** Sessions: set up, then pairs enabled, or disabled when they are active. *)
Inductive session {K : Kernel} : list (string * string) -> option string -> t -> trace -> Prop :=
| session_setup s0 tr0 s tr :
    setupIptablesHooks s0 tr0 = (0, s, tr) -> session [] None s tr
| session_enable active upstream i e s tr s' tr' :
    session active upstream s tr -> enableNat i e s tr = (0, s', tr') ->
    session (active ++ [(i, e)]) (match active with [] => Some e | _ => upstream end) s' tr'
| session_disable active upstream i e s tr s' tr' :
    session active upstream s tr -> (i, e) ∈ active -> disableNat i e s tr = (0, s', tr') ->
    session (remove_pair (i, e) active)
      (match remove_pair (i, e) active with [] => None | _ => upstream end) s' tr'.

(** ** Lemmas on the rules *)

Lemma pair_rules_inj p q r : r ∈ pair_rules p -> r ∈ pair_rules q -> p = q.
Proof.
  destruct p as [i e], q as [i' e']. unfold pair_rules, established_rule, invalid_rule, outgoing_rule.
  rewrite !elem_of_cons, elem_of_nil. cbn. intros [->|[->|[->|[]]]] [E|[E|[E|[]]]]; by simplify_eq.
Qed.

Lemma drop_rule_notin p : drop_rule ∉ pair_rules p.
Proof.
  unfold pair_rules, drop_rule, established_rule, invalid_rule, outgoing_rule.
  rewrite !elem_of_cons, elem_of_nil. by intros [?|[?|[?|[]]]].
Qed.

Lemma drop_rule_notin_concat l : drop_rule ∉ concat (map pair_rules l).
Proof.
  induction l as [|p l IH]; cbn [map concat]; [apply not_elem_of_nil|].
  rewrite not_elem_of_app. split; [apply drop_rule_notin|done].
Qed.

(** Deleting the three rules of an active pair. *)
Lemma remove_pair_rules i e l tl :
  (i, e) ∈ l ->
  remove_first (outgoing_rule i e) (remove_first (invalid_rule i e)
    (remove_first (established_rule i e) (concat (map pair_rules l) ++ tl))) =
  concat (map pair_rules (remove_pair (i, e) l)) ++ tl.
Proof.
  induction l as [|q l IH]; intros Hin; [by apply elem_of_nil in Hin|].
  cbn [map concat remove_pair]. case_decide as E.
  - subst q. rewrite <-(assoc_L app). unfold pair_rules at 1. cbn [fst snd app].
    by rewrite !remove_first_cons_eq.
  - apply elem_of_cons in Hin as [?|Hin]; [congruence|]. rewrite <-!(assoc_L app).
    assert (forall r, r ∈ pair_rules (i, e) -> r ∉ pair_rules q) as Hnot.
    { intros r H1 H2. by eapply E, pair_rules_inj. }
    rewrite !remove_first_app_notin, IH by (try done; apply Hnot; unfold pair_rules; cbn; set_solver).
    cbn [map concat]. by rewrite (assoc_L app).
Qed.

Lemma remove_pair_length p l : p ∈ l -> Z.of_nat (length (remove_pair p l)) = Z.of_nat (length l) - 1.
Proof.
  induction l as [|q l IH]; intros Hin; [by apply elem_of_nil in Hin|]. cbn. case_decide; [lia|].
  apply elem_of_cons in Hin as [?|Hin]; [congruence|]. cbn. rewrite Nat2Z.inj_succ, IH by done. lia.
Qed.

(** Moving the drop rule back to the end. *)
Lemma drop_rule_to_end l r :
  remove_first drop_rule (concat (map pair_rules l) ++ [drop_rule] ++ pair_rules r) ++ [drop_rule] =
  forward_rules (l ++ [r]).
Proof.
  rewrite remove_first_app_notin by apply drop_rule_notin_concat. cbn [app].
  rewrite remove_first_cons_eq. unfold forward_rules. by rewrite map_app, concat_app.
Qed.

(** ** What the operations run *)
Section Proofs.
Context {K : Kernel}.

Lemma no_exec_tether action i e : no_exec (modifyTetheredNetwork action i e).
Proof.
  unfold modifyTetheredNetwork. apply no_exec_bind.
  - unfold getRouteTableForInterface. apply no_exec_bind; [auto with netd|]. intros index.
    apply no_exec_if; [|auto with netd]. apply no_exec_bind; auto with netd.
  - intros table. apply no_exec_if; [auto with netd|]. unfold modifyIpRule.
    apply no_exec_if; [auto with netd|].
    destruct (padInterfaceName (Some i)) as [?|[[iifName iifLength] iifPadding]]; [auto with netd|].
    destruct (padInterfaceName OIF_NONE) as [?|[[oifName oifLength] oifPadding]]; [auto with netd|].
    apply no_exec_if; [auto with netd|]. apply no_exec_for_each. auto with netd.
Qed.

(** Under [Accepting], every command is run and returns 0. *)
Context {KA : Accepting K}.

Lemma wp_runCmd argv (Q : Z -> t -> trace -> Prop) s tr :
  (forall tr', acked tr' = acked tr ++ [argv] -> Q 0 s tr') -> wp (runCmd argv) Q s tr.
Proof.
  intros HQ. unfold runCmd, sys_exec_value, wp.
  pose proof (accept_exec tr argv) as Hok. rewrite (proj2 (exec_value_ok _) Hok).
  apply HQ. by rewrite acked_exec, Hok.
Qed.

Lemma wp_run_table l (Q : Z -> t -> trace -> Prop) s tr :
  (forall tr', acked tr' = acked tr ++ map fst l -> Q 0 s tr') -> wp (run_table l) Q s tr.
Proof.
  revert tr. induction l as [|[cmd check] l IH]; intros tr HQ.
  - apply HQ. by rewrite app_nil_r.
  - cbn [run_table]. apply wp_bind, wp_runCmd. intros tr1 E1. cbn [Z.eqb negb andb].
    apply IH. intros tr2 E2. apply HQ. rewrite E2, E1, <-(assoc_L app). done.
Qed.

Lemma wp_setDefaults (Q : Z -> t -> trace -> Prop) s tr :
  (forall tr', chain_rules forward_chain tr' = [drop_rule] ->
     chain_rules postrouting_chain tr' = [] -> Q 0 (set_natCount 0 s) tr') ->
  wp setDefaults Q s tr.
Proof.
  intros HQ. unfold setDefaults. apply wp_orelse, wp_run_table. intros tr' E. split; [|done]. intros _.
  apply wp_bind, wp_modify, wp_ret. apply HQ; unfold chain_rules; rewrite E, replay_app; done.
Qed.

(** The counters have their own chain. *)
Definition other_chain (ch : chain_name) : Prop :=
  ch = forward_chain \/ ch = postrouting_chain.

Lemma wp_add_counter inI outI k (Q : Z -> t -> trace -> Prop) s tr :
  (forall s' tr', natCount s' = natCount s ->
     (forall ch, other_chain ch -> chain_rules ch tr' = chain_rules ch tr) ->
     Q 0 s' tr' /\ wp k Q s' tr') ->
  wp (add_counter inI outI k) Q s tr.
Proof.
  intros HQ. unfold add_counter. apply wp_bind, wp_gets. case_match; [by apply HQ|].
  apply wp_bind, wp_runCmd. intros tr1 E1. cbn [Z.eqb negb]. apply wp_bind, wp_modify.
  apply HQ; [done|]. intros ch Hch. unfold chain_rules. rewrite E1, replay_app.
  by destruct Hch as [-> | ->].
Qed.

Lemma wp_setTetherCountingRules add i e (Q : Z -> t -> trace -> Prop) s tr :
  (forall s' tr', natCount s' = natCount s ->
     (forall ch, other_chain ch -> chain_rules ch tr' = chain_rules ch tr) -> Q 0 s' tr') ->
  wp (setTetherCountingRules add i e) Q s tr.
Proof.
  intros HQ. unfold setTetherCountingRules. destruct add; [|by apply HQ]. cbn [negb].
  apply wp_add_counter. intros s1 tr1 N1 C1. split; [by apply HQ|].
  apply wp_add_counter. intros s2 tr2 N2 C2.
  assert (natCount s2 = natCount s) by congruence.
  assert (forall ch, other_chain ch -> chain_rules ch tr2 = chain_rules ch tr)
    by (intros ch Hch; rewrite (C2 ch Hch); by apply C1).
  by split; [apply HQ|apply wp_ret, HQ].
Qed.

Lemma wp_setForwardRules add i e (Q : Z -> t -> trace -> Prop) s tr :
  (forall s' tr', natCount s' = natCount s ->
     (forall ch, other_chain ch -> chain_rules ch tr' =
        replay ch (chain_rules ch tr) (map (forward_cmd (if add : bool then "-A" else "-D")) (pair_rules (i, e)))) ->
     Q 0 s' tr') ->
  wp (setForwardRules add i e) Q s tr.
Proof.
  intros HQ. unfold setForwardRules. apply wp_bind, wp_runCmd. intros tr1 E1. cbn [Z.eqb negb andb].
  apply wp_bind, wp_runCmd. intros tr2 E2. cbn [Z.eqb negb andb].
  apply wp_bind, wp_runCmd. intros tr3 E3. cbn [Z.eqb negb andb].
  apply wp_bind, wp_setTetherCountingRules. intros s4 tr4 N4 C4. cbn [Z.eqb negb andb].
  apply wp_ret, HQ; [done|]. intros ch Hch. rewrite C4 by done. unfold chain_rules.
  rewrite E3, E2, E1, !replay_app. done.
Qed.

Lemma wp_tether action i e (Q : Z -> t -> trace -> Prop) s tr :
  (forall ret r tr', acked tr' = acked tr -> Q ret (set_routes r s) tr') ->
  wp (zoom routes set_routes (modifyTetheredNetwork action i e)) Q s tr.
Proof.
  intros HQ. apply wp_zoom. eapply wp_mono; [apply no_exec_tether|]. cbn. auto.
Qed.

(** The effect of the three commands on the two chains. *)
Lemma replay_add_forward p rs :
  replay forward_chain rs (map (forward_cmd "-A") (pair_rules p)) = rs ++ pair_rules p.
Proof. unfold replay, run_argv. cbn -[app].
  change (((rs ++ [established_rule p.1 p.2]) ++ [invalid_rule p.1 p.2]) ++ [outgoing_rule p.1 p.2] =
          rs ++ pair_rules p).
  by rewrite <-!(assoc_L app). Qed.

Lemma replay_del_forward i e rs :
  replay forward_chain rs (map (forward_cmd "-D") (pair_rules (i, e))) =
  remove_first (outgoing_rule i e) (remove_first (invalid_rule i e)
    (remove_first (established_rule i e) rs)).
Proof. done. Qed.

Lemma replay_post_forward add p rs :
  replay postrouting_chain rs (map (forward_cmd (if add : bool then "-A" else "-D")) (pair_rules p)) = rs.
Proof. by destruct add. Qed.

Lemma chains_ok_setup s tr :
  wp setupIptablesHooks (fun ret s' tr' => ret = 0 -> chains_ok [] None s' tr') s tr.
Proof.
  unfold setupIptablesHooks. apply wp_bind, wp_setDefaults. intros tr1 F1 P1. cbn [Z.ltb Z.compare].
  apply wp_orelse, wp_run_table. intros tr2 E2. split; [|done]. intros _.
  apply wp_bind, wp_modify, wp_ret. intros _. split_and!; [done..| |]; unfold chain_rules in *;
    rewrite E2, replay_app; [by rewrite F1|by rewrite P1].
Qed.

Lemma chains_ok_enable active upstream i e s tr :
  chains_ok active upstream s tr ->
  wp (enableNat i e) (fun ret s' tr' => ret = 0 ->
    chains_ok (active ++ [(i, e)]) (match active with [] => Some e | _ => upstream end) s' tr') s tr.
Proof.
  intros (HN & HU & HF & HP). unfold enableNat.
  case_match; [by apply wp_bind, wp_modify, wp_ret|].
  case_match; [by apply wp_bind, wp_modify, wp_ret|].
  apply wp_bind, wp_gets, wp_bind.
  set (up' := match active with [] => Some e | _ => upstream end).
  assert (wp (if natCount s =? 0
      then runCmd [IPTABLES_PATH; "-t"; "nat"; "-A"; LOCAL_NAT_POSTROUTING; "-o"; e; "-j"; "MASQUERADE"]
      else mret 0) (fun ret s1 tr1 => ret = 0 /\ natCount s1 = natCount s /\
        chain_rules forward_chain tr1 = forward_rules active /\
        chain_rules postrouting_chain tr1 = postrouting_rules up') s tr) as Hmasq.
  { rewrite HN. destruct active as [|p active]; cbn [length Z.of_nat].
    - apply wp_runCmd. intros tr1 E1. unfold chain_rules in *. rewrite E1, !replay_app, HF, HP.
      by rewrite (HU eq_refl).
    - by apply wp_ret. }
  eapply wp_mono; [exact Hmasq|]. cbv beta. intros ret s1 tr1 (-> & N1 & F1 & P1). cbn [Z.eqb negb].
  apply wp_bind, wp_setForwardRules. intros s2 tr2 N2 C2. cbn [Z.eqb negb].
  apply wp_bind, wp_runCmd. intros tr3 E3. apply wp_bind, wp_runCmd. intros tr4 E4.
  apply wp_bind, wp_tether. intros ret r tr5 E5. destruct (ret =? 0) eqn:Er; cbn [negb].
  - apply wp_bind, wp_modify, wp_ret. intros _.
    pose proof (C2 forward_chain (or_introl eq_refl)) as CF.
    pose proof (C2 postrouting_chain (or_intror eq_refl)) as CP.
    rewrite F1, (replay_add_forward (i, e)) in CF. rewrite P1, (replay_post_forward true) in CP.
    assert (acked tr5 = acked tr2 ++ [forward_cmd "-D" drop_rule; forward_cmd "-A" drop_rule]) as E.
    { by rewrite E5, E4, E3, <-(assoc_L app). }
    split_and!.
    + cbn. rewrite length_app. cbn. lia.
    + by intros []%app_eq_nil.
    + unfold chain_rules in *. rewrite E, replay_app, CF, <-drop_rule_to_end. unfold forward_rules.
      by rewrite <-(assoc_L app).
    + unfold chain_rules in *. by rewrite E, replay_app, CP.
  - apply wp_bind, wp_intro. intros. by apply wp_bind, wp_modify, wp_ret.
Qed.

Lemma chains_ok_disable active upstream i e s tr :
  chains_ok active upstream s tr -> (i, e) ∈ active ->
  wp (disableNat i e) (fun ret s' tr' => ret = 0 ->
    chains_ok (remove_pair (i, e) active)
      (match remove_pair (i, e) active with [] => None | _ => upstream end) s' tr') s tr.
Proof.
  intros (HN & HU & HF & HP) Hin. unfold disableNat.
  case_match; [by apply wp_bind, wp_modify, wp_ret|].
  apply wp_bind, wp_tether. intros ret r tr1 E1. destruct (ret =? 0) eqn:Er; cbn [negb];
    [|by apply wp_bind, wp_modify, wp_ret].
  apply wp_bind, wp_setForwardRules. intros s2 tr2 N2 C2. apply wp_bind, wp_modify.
  apply wp_bind, wp_gets. cbn [natCount set_natCount] in *. rewrite N2. cbn [natCount set_routes].
  pose proof (remove_pair_length _ _ Hin) as Hlen. rewrite HN.
  pose proof (C2 forward_chain (or_introl eq_refl)) as CF.
  pose proof (C2 postrouting_chain (or_intror eq_refl)) as CP.
  unfold chain_rules at 2 in CF. unfold chain_rules at 2 in CP. rewrite E1 in CF, CP.
  change (replay forward_chain [] (acked tr)) with (chain_rules forward_chain tr) in CF.
  change (replay postrouting_chain [] (acked tr)) with (chain_rules postrouting_chain tr) in CP.
  rewrite HF, replay_del_forward in CF. unfold forward_rules in CF. rewrite remove_pair_rules in CF by done.
  rewrite HP, (replay_post_forward false) in CP. apply wp_bind.
  destruct (remove_pair (i, e) active) as [|q rest] eqn:Erm; cbn [length] in Hlen.
  - rewrite (proj2 (Z.leb_le _ 0)) by lia. apply wp_setDefaults. intros tr3 F3 P3. apply wp_ret.
    by intros _.
  - rewrite (proj2 (Z.leb_gt _ 0)) by lia. apply wp_ret, wp_ret. intros _. split_and!; [|done|done|done].
    cbn. lia.
Qed.

Lemma session_ok active upstream s tr : session active upstream s tr -> chains_ok active upstream s tr.
Proof.
  induction 1 as [s0 tr0 s tr E|active upstream i e s tr s' tr' _ IH E|active upstream i e s tr s' tr' _ IH Hin E].
  - exact (wp_run _ _ _ _ _ _ _ E (chains_ok_setup s0 tr0) eq_refl).
  - exact (wp_run _ _ _ _ _ _ _ E (chains_ok_enable _ _ _ _ _ _ IH) eq_refl).
  - exact (wp_run _ _ _ _ _ _ _ E (chains_ok_disable _ _ _ _ _ _ IH Hin) eq_refl).
Qed.
End Proofs.

(** *** Unwinding *)
Section Unwind.
Context {K : Kernel}.

(** Deletions from the forward chain succeed. *)
Definition deletes_forward : Prop :=
  forall tr r, exec_ok (k_exec tr (forward_cmd "-D" r)) = true.

(** A command either succeeds and is run, or leaves no trace on the chains. *)
Lemma wp_runCmd_any argv (Q : Z -> t -> trace -> Prop) s tr :
  (forall tr', acked tr' = acked tr ++ [argv] -> Q 0 s tr') ->
  (forall r tr', r <> 0 -> acked tr' = acked tr -> Q r s tr') ->
  wp (runCmd argv) Q s tr.
Proof.
  intros H0 H1. apply wp_sys_exec_value. intros r. destruct (exec_ok r) eqn:E.
  - rewrite (proj2 (exec_value_ok _) E). apply H0. by rewrite acked_exec, E.
  - apply H1; [by intros ?%exec_value_ok; congruence|]. by rewrite acked_exec, E.
Qed.

Lemma wp_delete_forward (D : deletes_forward) r (Q : Z -> t -> trace -> Prop) s tr :
  (forall ret tr', acked tr' = acked tr ++ [forward_cmd "-D" r] -> Q ret s tr') ->
  wp (runCmd (forward_cmd "-D" r)) Q s tr.
Proof.
  intros HQ. unfold runCmd, sys_exec_value, wp. apply HQ. by rewrite acked_exec, (D tr r).
Qed.

Lemma wp_counters_any add i e (Q : Z -> t -> trace -> Prop) s tr :
  (forall ret s' tr', chain_rules forward_chain tr' = chain_rules forward_chain tr -> Q ret s' tr') ->
  wp (setTetherCountingRules add i e) Q s tr.
Proof.
  intros HQ. unfold setTetherCountingRules. destruct add; [|by apply HQ]. cbn [negb].
  assert (forall inI outI (k : M t Z) s0 tr0,
    chain_rules forward_chain tr0 = chain_rules forward_chain tr ->
    (forall s1 tr1, chain_rules forward_chain tr1 = chain_rules forward_chain tr -> wp k Q s1 tr1) ->
    wp (add_counter inI outI k) Q s0 tr0) as Hadd.
  { intros inI outI k s0 tr0 E0 Hk. unfold add_counter. apply wp_bind, wp_gets. case_match; [by apply HQ|].
    apply wp_bind, wp_runCmd_any.
    - intros tr1 E1. apply wp_bind, wp_modify, Hk. unfold chain_rules in *. by rewrite E1, replay_app, E0.
    - intros r tr1 Hr E1. rewrite (proj2 (Z.eqb_neq _ _) Hr). apply HQ. unfold chain_rules in *. by rewrite E1. }
  apply Hadd; [done|]. intros s1 tr1 E1. apply Hadd; [done|]. intros s2 tr2 E2. by apply HQ.
Qed.

(** Deleting the first two rules of a pair from the end of the chain. *)
Lemma wp_unwind (D : deletes_forward) i e rs l s tr :
  established_rule i e ∉ rs -> invalid_rule i e ∉ rs ->
  chain_rules forward_chain tr = rs ++ [established_rule i e; invalid_rule i e] ++ l ->
  wp (runCmd (forward_cmd "-D" (invalid_rule i e));; runCmd (forward_cmd "-D" (established_rule i e));; mret (-1))
    (fun _ _ tr' => chain_rules forward_chain tr' = rs ++ l) s tr.
Proof.
  intros F1 F2 E0. apply wp_bind, (wp_delete_forward D). intros ? tr4 E4.
  apply wp_bind, (wp_delete_forward D). intros ? tr5 E5. apply wp_ret. unfold chain_rules in *.
  rewrite E5, E4, !replay_app, E0.
  change (remove_first (established_rule i e) (remove_first (invalid_rule i e)
    (rs ++ [established_rule i e; invalid_rule i e] ++ l)) = rs ++ l).
  rewrite remove_first_app_notin by done. cbn [app].
  rewrite remove_first_cons_ne, remove_first_cons_eq by done.
  by rewrite remove_first_app_notin, remove_first_cons_eq by done.
Qed.
End Unwind.

(** ** Properties *)

(** C21. When every iptables command and every request to the kernel succeeds
    ([Accepting]; for failures see [setForwardRules_failure]): while pairs are tethered
    the forward chain holds the rules of exactly those pairs, in the order in which they
    were enabled, and ends with the DROP; [natCount] is their number; the postrouting
    chain masquerades the upstream of the first pair only, and nothing when no pair is
    tethered. *)
Theorem tethering_chains {K : Kernel} {KA : Accepting K} active upstream s tr :
  session active upstream s tr ->
  natCount s = Z.of_nat (length active) /\
  chain_rules forward_chain tr = concat (map pair_rules active) ++ [["-j"; "DROP"]] /\
  chain_rules postrouting_chain tr = match upstream with Some e => [masquerade_rule e] | None => [] end.
Proof. intros (HN & _ & HF & HP)%session_ok. done. Qed.

Definition sample_start : t := State 5 ["stale"] 0 ∅.

Lemma tethering_chains_witness :
  let setup := setupIptablesHooks (K:=good_kernel) sample_start [] in
  let first := enableNat (K:=good_kernel) "wlan0" "rmnet0" setup.1.2 setup.2 in
  let second := enableNat (K:=good_kernel) "usb0" "tun0" first.1.2 first.2 in
  let last := disableNat (K:=good_kernel) "wlan0" "rmnet0" second.1.2 second.2 in
  natCount last.1.2 = 1 /\
  chain_rules forward_chain last.2 = pair_rules ("usb0", "tun0") ++ [["-j"; "DROP"]] /\
  chain_rules postrouting_chain last.2 = [masquerade_rule "rmnet0"].
Proof.
  set (setup := setupIptablesHooks (K:=good_kernel) sample_start []).
  set (first := enableNat (K:=good_kernel) "wlan0" "rmnet0" setup.1.2 setup.2).
  set (second := enableNat (K:=good_kernel) "usb0" "tun0" first.1.2 first.2).
  set (last := disableNat (K:=good_kernel) "wlan0" "rmnet0" second.1.2 second.2).
  apply (tethering_chains (K:=good_kernel) [("usb0", "tun0")] (Some "rmnet0") last.1.2 last.2).
  assert (session (K:=good_kernel) [] None setup.1.2 setup.2) as H0.
  { apply (session_setup (K:=good_kernel) sample_start []). vm_compute. reflexivity. }
  assert (session (K:=good_kernel) [("wlan0", "rmnet0")] (Some "rmnet0") first.1.2 first.2) as H1.
  { apply (session_enable (K:=good_kernel) [] None "wlan0" "rmnet0" _ _ _ _ H0). vm_compute. reflexivity. }
  assert (session (K:=good_kernel) [("wlan0", "rmnet0"); ("usb0", "tun0")] (Some "rmnet0")
    second.1.2 second.2) as H2.
  { apply (session_enable (K:=good_kernel) _ _ "usb0" "tun0" _ _ _ _ H1). vm_compute. reflexivity. }
  apply (session_disable (K:=good_kernel) _ _ "wlan0" "rmnet0" _ _ _ _ H2).
  - constructor.
  - vm_compute. reflexivity.
Defined.

(** When [setForwardRules] fails to add the rules of a pair that is not in
    the forward chain, and the deletions it tries succeed, the chain is as it was,
    except that the rule for outgoing packets stays behind when it is the
    counters that could not be added. *)
Theorem setForwardRules_failure {K : Kernel} i e s tr ret s' tr' :
  deletes_forward ->
  (forall r, r ∈ pair_rules (i, e) -> r ∉ chain_rules forward_chain tr) ->
  setForwardRules true i e s tr = (ret, s', tr') -> ret <> 0 ->
  chain_rules forward_chain tr' = chain_rules forward_chain tr \/
  chain_rules forward_chain tr' = chain_rules forward_chain tr ++ [outgoing_rule i e].
Proof.
  intros D Hfresh E Hret. revert Hret. 
  apply (wp_run _ (fun ret _ tr' => ret <> 0 -> (chain_rules forward_chain tr' = _) \/ (chain_rules forward_chain tr' = _)) _ _ _ _ _ E).
  clear E. unfold setForwardRules.
  assert ((established_rule i e ∉ chain_rules forward_chain tr) /\ (invalid_rule i e ∉ chain_rules forward_chain tr))
    as [F1 F2] by (split; apply Hfresh; unfold pair_rules; cbn; set_solver).
  apply wp_bind, wp_runCmd_any; [|intros r tr1 Hr E1; rewrite (proj2 (Z.eqb_neq _ _) Hr); cbn [negb andb];
    intros _; left; unfold chain_rules; by rewrite E1].
  intros tr1 E1. cbn [Z.eqb negb andb].
  apply wp_bind, wp_runCmd_any.
  2: { intros r tr2 Hr E2. rewrite (proj2 (Z.eqb_neq _ _) Hr). cbn [negb andb].
    apply wp_bind, (wp_delete_forward D). intros ? tr3 E3 _. left.
    unfold chain_rules in *. rewrite E3, E2, E1, !replay_app.
    change (remove_first (established_rule i e) (replay forward_chain [] (acked tr) ++ [established_rule i e])
            = replay forward_chain [] (acked tr)).
    rewrite remove_first_app_notin, remove_first_cons_eq by done. by rewrite app_nil_r. }
  intros tr2 E2. cbn [Z.eqb negb andb].
  apply wp_bind, wp_runCmd_any.
  2: { intros r tr3 Hr E3. rewrite (proj2 (Z.eqb_neq _ _) Hr). cbn [negb andb].
    eapply wp_mono; [apply (wp_unwind D i e (chain_rules forward_chain tr) []); [done..|]|].
    - unfold chain_rules. rewrite E3, E2, E1, !replay_app.
      change ((replay forward_chain [] (acked tr) ++ [established_rule i e]) ++ [invalid_rule i e] =
              replay forward_chain [] (acked tr) ++ [established_rule i e; invalid_rule i e]).
      by rewrite <-(assoc_L app).
    - cbn. intros ret0 s0 tr0 H _. left. by rewrite H, app_nil_r. }
  intros tr3 E3. cbn [Z.eqb negb andb]. apply wp_bind, wp_counters_any. intros r4 s4 tr4 C4.
  destruct (r4 =? 0); cbn [negb andb]; [by apply wp_ret|].
  eapply wp_mono; [apply (wp_unwind D i e (chain_rules forward_chain tr) [outgoing_rule i e]); [done..|]|].
  - rewrite C4. unfold chain_rules. rewrite E3, E2, E1, !replay_app.
    change ((((replay forward_chain [] (acked tr) ++ [established_rule i e]) ++ [invalid_rule i e]) ++
      [outgoing_rule i e]) = (replay forward_chain [] (acked tr) ++
      [established_rule i e; invalid_rule i e] ++ [outgoing_rule i e])).
    by rewrite <-!(assoc_L app).
  - cbn. intros ret0 s0 tr0 H _. right. exact H.
Qed.

(** Refuses the commands on the counters' chain. *)
Definition no_counters_kernel : Kernel := {|
  k_netlink := fun _ _ => NlAck 0;
  k_exec := fun _ argv =>
    ExecRes 0 true (if bool_decide (LOCAL_TETHER_COUNTERS_CHAIN ∈ take 3 argv) then 1 else 0);
  k_ifindex := fun _ name => sample_index name;
  k_file := fun _ _ => 3;
  k_property := fun _ _ => "";
  k_popen := fun _ _ => None;
  k_read := fun _ _ => None;
  k_readdir := fun _ _ => None;
  k_wait := fun _ _ => 0;
  k_system := fun _ _ => 0;
  k_ifc := fun _ _ => 0;
  k_ifc_get_info := fun _ _ => None;
  k_ifc_get_hwaddr := fun _ _ => None;
  k_wifi := fun _ _ => 0;
  k_qsap_reply := fun _ command => command;
  k_wifi_fw_path := fun _ => Some "/vendor/firmware/fw_bcmdhd.bin";
  k_pbkdf2 := fun _ _ => replicate 32 171;
  k_netmask := sample_netmask;
  k_spawn := fun tr _ => Spawned (fresh_pid tr) 7;
  k_pipe := fun _ _ data => strlen data + 1;
  k_inet_aton := sample_inet_aton;
  k_getaddrinfo := sample_getaddrinfo;
  k_inet_pton := sample_inet_pton
|}.

Lemma no_counters_deletes : @deletes_forward no_counters_kernel.
Proof. intros tr r. reflexivity. Qed.

(** The rule for outgoing packets does stay behind. *)
Lemma setForwardRules_failure_witness :
  let run := setForwardRules (K:=no_counters_kernel) true "wlan0" "rmnet0" sample_start [] in
  run.1.1 = -1 /\ chain_rules forward_chain run.2 = [outgoing_rule "wlan0" "rmnet0"] /\
  (chain_rules forward_chain run.2 = [] \/
   chain_rules forward_chain run.2 = [] ++ [outgoing_rule "wlan0" "rmnet0"]).
Proof.
  split; [vm_compute; reflexivity|]. split; [vm_compute; reflexivity|].
  set (run := setForwardRules (K:=no_counters_kernel) true "wlan0" "rmnet0" sample_start []).
  apply (setForwardRules_failure (K:=no_counters_kernel) "wlan0" "rmnet0" sample_start []
    run.1.1 run.1.2 run.2).
  - apply no_counters_deletes.
  - intros r _ Hr. by apply elem_of_nil in Hr.
  - vm_compute. reflexivity.
  - vm_compute. discriminate.
Defined.

(** Two pairs whose names run together share the counters of the first: the
    second pair is tethered without a counter. *)
Lemma shared_pair_name :
  let setup := setupIptablesHooks (K:=good_kernel) sample_start [] in
  let first := enableNat (K:=good_kernel) "a_b" "c" setup.1.2 setup.2 in
  let second := enableNat (K:=good_kernel) "a" "b_c" first.1.2 first.2 in
  second.1.1 = 0 /\
  chain_rules (Chain IPTABLES_PATH "filter" LOCAL_TETHER_COUNTERS_CHAIN) second.2 =
    [counter_rule "a_b" "c"; counter_rule "c" "a_b"].
Proof. split; vm_compute; reflexivity. Qed.
End NatController.
