(* ===== verification/IdletimerController.v ===== *)
(** * IdletimerController: idle timers of interfaces

    Models [server/IdletimerController.cpp].  The state is [errno]. *)
From S2P Require Import Prelude Platform Cstd Netlink NetdConstants Ledger Iptables.
From S2P Require Import RouteSpec SampleKernel.

Module IdletimerController.
Inductive IptOp := IptOpAdd | IptOpDelete.

Definition LOCAL_RAW_PREROUTING : string := "idletimer_raw_PREROUTING".
Definition LOCAL_MANGLE_POSTROUTING : string := "idletimer_mangle_POSTROUTING".

Section Operations.
Context {K : Kernel}.

(** [args] are the arguments after the program's path, filled in here. *)
Definition runIpxtablesCmd (args : list string) : M Z Z :=
  resIpv4 ← sys_exec_value (IPTABLES_PATH :: args);
  resIpv6 ← sys_exec_value (IP6TABLES_PATH :: args);
  mret (if (resIpv4 =? 0) && (resIpv6 =? 0) then 0 else -1).

Definition setupIptablesHooks : M Z bool := mret true.

Definition setDefaults : M Z Z :=
  try! runIpxtablesCmd ["-t"; "raw"; "-F"; LOCAL_RAW_PREROUTING] ;;
  runIpxtablesCmd ["-t"; "mangle"; "-F"; LOCAL_MANGLE_POSTROUTING].

Definition enableIdletimerControl : M Z Z := setDefaults.
Definition disableIdletimerControl : M Z Z := setDefaults.

Definition modifyInterfaceIdletimer (op : IptOp) (iface : string) (timeout : Z) (classLabel : string)
    : M Z Z :=
  if negb (isIfaceName iface) then modify (fun _ => ENOENT);; mret (-1)
  else
    let timeout_str := print_u timeout in
    let flag := match op with IptOpAdd => "-A" | IptOpDelete => "-D" end in
    try! runIpxtablesCmd ["-t"; "raw"; flag; LOCAL_RAW_PREROUTING; "-i"; iface; "-j"; "IDLETIMER";
           "--timeout"; timeout_str; "--label"; classLabel; "--send_nl_msg"; "1"] ;;
    runIpxtablesCmd ["-t"; "mangle"; flag; LOCAL_MANGLE_POSTROUTING; "-o"; iface; "-j"; "IDLETIMER";
      "--timeout"; timeout_str; "--label"; classLabel; "--send_nl_msg"; "1"].

Definition addInterfaceIdletimer := modifyInterfaceIdletimer IptOpAdd.
Definition removeInterfaceIdletimer := modifyInterfaceIdletimer IptOpDelete.
End Operations.

(** ** Specification: the timers installed *)

Record timer := Timer { tm_iface : string; tm_timeout : Z; tm_label : string }.

#[export] Instance timer_eq_dec : EqDecision timer.
Proof. solve_decision. Defined.

Definition timer_rule (dir : string) (x : timer) : iprule :=
  [dir; tm_iface x; "-j"; "IDLETIMER"; "--timeout"; print_u (tm_timeout x); "--label"; tm_label x;
   "--send_nl_msg"; "1"].

(** The chains of the two programs hold the rules of [timers], in order. *)
Definition timers_installed (timers : list timer) (tr : trace) : Prop :=
  forall path, path = IPTABLES_PATH \/ path = IP6TABLES_PATH ->
    chain_rules (Chain path "raw" LOCAL_RAW_PREROUTING) tr = map (timer_rule "-i") timers /\
    chain_rules (Chain path "mangle" LOCAL_MANGLE_POSTROUTING) tr = map (timer_rule "-o") timers.

Fixpoint remove_timer (x : timer) (l : list timer) : list timer :=
  match l with
  | [] => []
  | y :: l => if decide (x = y) then l else y :: remove_timer x l
  end.

Definition valid_timer (x : timer) : Prop := 0 <= tm_timeout x < 2 ^ 32.

(** Histories of successful calls. *)
Inductive history {K : Kernel} : list timer -> Z -> trace -> Prop :=
| history_enable s tr s' tr' : enableIdletimerControl s tr = (0, s', tr') -> history [] s' tr'
| history_disable l s tr s' tr' :
    history l s tr -> disableIdletimerControl s tr = (0, s', tr') -> history [] s' tr'
| history_add l x s tr s' tr' :
    history l s tr -> valid_timer x ->
    addInterfaceIdletimer (tm_iface x) (tm_timeout x) (tm_label x) s tr = (0, s', tr') ->
    history (l ++ [x]) s' tr'
| history_remove l x s tr s' tr' :
    history l s tr -> valid_timer x ->
    removeInterfaceIdletimer (tm_iface x) (tm_timeout x) (tm_label x) s tr = (0, s', tr') ->
    history (remove_timer x l) s' tr'.

(** ** Lemmas *)

Lemma timer_rule_inj dir x y : valid_timer x -> valid_timer y -> timer_rule dir x = timer_rule dir y -> x = y.
Proof.
  destruct x as [i n l], y as [i' n' l']. unfold valid_timer, timer_rule. cbn. intros Hx Hy [= -> E ->].
  apply print_u_inj in E; [by subst|lia..].
Qed.

Lemma remove_timer_rules dir x l :
  valid_timer x -> Forall valid_timer l ->
  remove_first (timer_rule dir x) (map (timer_rule dir) l) = map (timer_rule dir) (remove_timer x l).
Proof.
  intros Hx. induction 1 as [|y l Hy _ IH]; [done|]. cbn [map remove_timer]. case_decide as E.
  - subst y. by rewrite remove_first_cons_eq.
  - rewrite remove_first_cons_ne; [by rewrite IH|]. intros H. by eapply E, timer_rule_inj.
Qed.

Lemma remove_timer_Forall (P : timer -> Prop) x l : Forall P l -> Forall P (remove_timer x l).
Proof. induction 1; cbn; [constructor|]. case_decide; [done|by constructor]. Qed.

Section Proofs.
Context {K : Kernel}.

Lemma runs_runIpxtablesCmd args : runs [IPTABLES_PATH :: args; IP6TABLES_PATH :: args] (runIpxtablesCmd args).
Proof.
  intros s tr. unfold runIpxtablesCmd. apply wp_bind, wp_sys_exec_value. intros r4.
  apply wp_bind, wp_sys_exec_value. intros r6. apply wp_ret.
  destruct (exec_value r4 =? 0) eqn:E4, (exec_value r6 =? 0) eqn:E6; cbn [andb]; try done. intros _.
  apply Z.eqb_eq, exec_value_ok in E4. apply Z.eqb_eq, exec_value_ok in E6.
  by rewrite !acked_exec, E4, E6, <-(assoc_L app).
Qed.

Lemma setDefaults_clears s tr : wp setDefaults (fun ret _ tr' => ret = 0 -> timers_installed [] tr') s tr.
Proof.
  eapply wp_mono; [apply runs_orelse; apply runs_runIpxtablesCmd|]. cbn. intros ret _ tr' H Hr path Hp.
  unfold chain_rules. rewrite H, !replay_app by done. by destruct Hp as [-> | ->].
Qed.

Definition op_flag (op : IptOp) : string := match op with IptOpAdd => "-A" | IptOpDelete => "-D" end.

Lemma modify_runs op x :
  runs [IPTABLES_PATH :: "-t" :: "raw" :: op_flag op :: LOCAL_RAW_PREROUTING :: timer_rule "-i" x;
        IP6TABLES_PATH :: "-t" :: "raw" :: op_flag op :: LOCAL_RAW_PREROUTING :: timer_rule "-i" x;
        IPTABLES_PATH :: "-t" :: "mangle" :: op_flag op :: LOCAL_MANGLE_POSTROUTING :: timer_rule "-o" x;
        IP6TABLES_PATH :: "-t" :: "mangle" :: op_flag op :: LOCAL_MANGLE_POSTROUTING :: timer_rule "-o" x]
    (modifyInterfaceIdletimer op (tm_iface x) (tm_timeout x) (tm_label x)).
Proof.
  unfold modifyInterfaceIdletimer. destruct (isIfaceName (tm_iface x)); cbn [negb].
  - apply (runs_orelse [_; _] [_; _]); apply runs_runIpxtablesCmd.
  - intros s tr. by apply wp_bind, wp_modify, wp_ret.
Qed.

Lemma history_ok l s tr : history l s tr -> Forall valid_timer l /\ timers_installed l tr.
Proof.
  induction 1 as [s tr s' tr' E|l s tr s' tr' _ _ E|l x s tr s' tr' _ [IHv IH] Hx E|l x s tr s' tr' _ [IHv IH] Hx E].
  - split; [constructor|]. exact (wp_run _ _ _ _ _ _ _ E (setDefaults_clears s tr) eq_refl).
  - split; [constructor|]. exact (wp_run _ _ _ _ _ _ _ E (setDefaults_clears s tr) eq_refl).
  - pose proof (wp_run _ _ _ _ _ _ _ E (modify_runs IptOpAdd x s tr) eq_refl) as Hc.
    split; [apply Forall_app; auto|]. intros path Hp. destruct (IH path Hp) as [H1 H2].
    unfold chain_rules in *. rewrite Hc, !replay_app, H1, H2, !map_app. by destruct Hp as [-> | ->].
  - pose proof (wp_run _ _ _ _ _ _ _ E (modify_runs IptOpDelete x s tr) eq_refl) as Hc.
    split; [by apply remove_timer_Forall|]. intros path Hp. destruct (IH path Hp) as [H1 H2].
    unfold chain_rules in *. rewrite Hc, !replay_app, H1, H2, <-!remove_timer_rules by done.
    by destruct Hp as [-> | ->].
Qed.
End Proofs.

(** ** Properties *)

(** C40. The idle timers.  After idle timers have been enabled and any calls of this
    controller that all returned 0 (timeouts are 32-bit numbers, as in the code): the
    chains of both programs hold, in order, one rule per timer added and not yet
    removed - removing takes the first one away, so a timer added twice has to be
    removed twice - for packets in by the interface in the one chain and out by it in
    the other. *)
Theorem timers_match {K : Kernel} l s tr :
  history l s tr ->
  forall path, path = IPTABLES_PATH \/ path = IP6TABLES_PATH ->
    chain_rules (Chain path "raw" LOCAL_RAW_PREROUTING) tr = map (timer_rule "-i") l /\
    chain_rules (Chain path "mangle" LOCAL_MANGLE_POSTROUTING) tr = map (timer_rule "-o") l.
Proof. intros [_ H]%history_ok. exact H. Qed.

Lemma timers_match_witness :
  let enable := enableIdletimerControl (K:=good_kernel) 0 [] in
  let add := addInterfaceIdletimer (K:=good_kernel) "wlan0" 10 "1" enable.1.2 enable.2 in
  let again := addInterfaceIdletimer (K:=good_kernel) "wlan0" 10 "1" add.1.2 add.2 in
  let remove := removeInterfaceIdletimer (K:=good_kernel) "wlan0" 10 "1" again.1.2 again.2 in
  chain_rules (Chain IP6TABLES_PATH "raw" LOCAL_RAW_PREROUTING) remove.2 =
  [timer_rule "-i" (Timer "wlan0" 10 "1")].
Proof.
  set (enable := enableIdletimerControl (K:=good_kernel) 0 []).
  set (add := addInterfaceIdletimer (K:=good_kernel) "wlan0" 10 "1" enable.1.2 enable.2).
  set (again := addInterfaceIdletimer (K:=good_kernel) "wlan0" 10 "1" add.1.2 add.2).
  set (remove := removeInterfaceIdletimer (K:=good_kernel) "wlan0" 10 "1" again.1.2 again.2).
  assert (valid_timer (Timer "wlan0" 10 "1")) as Hv by (unfold valid_timer; cbn; lia).
  apply (timers_match (K:=good_kernel) [Timer "wlan0" 10 "1"] remove.1.2 remove.2); [|by right].
  assert (history (K:=good_kernel) [] enable.1.2 enable.2) as H0.
  { apply (history_enable (K:=good_kernel) 0 []). vm_compute. reflexivity. }
  assert (history (K:=good_kernel) [Timer "wlan0" 10 "1"] add.1.2 add.2) as H1.
  { apply (history_add (K:=good_kernel) [] _ _ _ _ _ H0 Hv). vm_compute. reflexivity. }
  assert (history (K:=good_kernel) [Timer "wlan0" 10 "1"; Timer "wlan0" 10 "1"] again.1.2 again.2) as H2.
  { apply (history_add (K:=good_kernel) [_] _ _ _ _ _ H1 Hv). vm_compute. reflexivity. }
  apply (history_remove (K:=good_kernel) _ (Timer "wlan0" 10 "1") _ _ _ _ H2 Hv). vm_compute. reflexivity.
Defined.
End IdletimerController.
