(* ===== verification/BandwidthController.v ===== *)
(** * BandwidthController: quotas, alerts and restricted applications

    Models [server/BandwidthController.cpp] except the tether statistics (see
    TetherStats.v).  The controller's members are the record [t]; commands are
    strings that [runIptablesCmd] splits at spaces, as in the code.  What is only
    logged is left out. *)
From S2P Require Import Prelude Platform Cstd Netlink NetdConstants Ledger Iptables.
From S2P Require Import RouteSpec SampleKernel.

Module BandwidthController.

(** ** Data *)

Record QuotaInfo := Quota { ifaceName : string; quota : Z; alert : Z }.

Record t := State {
  sharedQuotaIfaces : list string;
  sharedQuotaBytes : Z;
  sharedAlertBytes : Z;
  globalAlertBytes : Z;
  globalAlertTetherCount : Z;
  quotaIfaces : list QuotaInfo;
  naughtyAppUids : list Z;
  niceAppUids : list Z
}.

Inductive IptIpVer := IptIpV4 | IptIpV6.
Inductive IptOp := IptOpInsert | IptOpReplace | IptOpDelete | IptOpAppend.
Inductive IptJumpOp := IptJumpReject | IptJumpReturn | IptJumpNoAdd.
Inductive SpecialAppOp := SpecialAppOpAdd | SpecialAppOpRemove.
Inductive QuotaType := QuotaUnique | QuotaShared.
Inductive RunCmdErrHandling := RunCmdFailureBad | RunCmdFailureOk.

(** Assignments to one member. *)
Definition set_sharedQuotaIfaces v (s : t) : t :=
  State v (sharedQuotaBytes s) (sharedAlertBytes s) (globalAlertBytes s)
    (globalAlertTetherCount s) (quotaIfaces s) (naughtyAppUids s) (niceAppUids s).
Definition set_sharedQuotaBytes v (s : t) : t :=
  State (sharedQuotaIfaces s) v (sharedAlertBytes s) (globalAlertBytes s)
    (globalAlertTetherCount s) (quotaIfaces s) (naughtyAppUids s) (niceAppUids s).
Definition set_sharedAlertBytes v (s : t) : t :=
  State (sharedQuotaIfaces s) (sharedQuotaBytes s) v (globalAlertBytes s)
    (globalAlertTetherCount s) (quotaIfaces s) (naughtyAppUids s) (niceAppUids s).
Definition set_globalAlertBytes v (s : t) : t :=
  State (sharedQuotaIfaces s) (sharedQuotaBytes s) (sharedAlertBytes s) v
    (globalAlertTetherCount s) (quotaIfaces s) (naughtyAppUids s) (niceAppUids s).
Definition set_globalAlertTetherCount v (s : t) : t :=
  State (sharedQuotaIfaces s) (sharedQuotaBytes s) (sharedAlertBytes s) (globalAlertBytes s)
    v (quotaIfaces s) (naughtyAppUids s) (niceAppUids s).
Definition set_quotaIfaces v (s : t) : t :=
  State (sharedQuotaIfaces s) (sharedQuotaBytes s) (sharedAlertBytes s) (globalAlertBytes s)
    (globalAlertTetherCount s) v (naughtyAppUids s) (niceAppUids s).
Definition set_naughtyAppUids v (s : t) : t :=
  State (sharedQuotaIfaces s) (sharedQuotaBytes s) (sharedAlertBytes s) (globalAlertBytes s)
    (globalAlertTetherCount s) (quotaIfaces s) v (niceAppUids s).
Definition set_niceAppUids v (s : t) : t :=
  State (sharedQuotaIfaces s) (sharedQuotaBytes s) (sharedAlertBytes s) (globalAlertBytes s)
    (globalAlertTetherCount s) (quotaIfaces s) (naughtyAppUids s) v.

Definition ALERT_GLOBAL_NAME : string := "globalAlert".
Definition MAX_CMD_ARGS : Z := 32.
Definition MAX_CMD_LEN : Z := 1024.
Definition MAX_IFACENAME_LEN : Z := 64.
Definition MAX_IPT_OUTPUT_LINE_LEN : Z := 256.

Definition IPT_FLUSH_COMMANDS : list string :=
  ["-F bw_INPUT"; "-F bw_OUTPUT"; "-F bw_FORWARD"; "-F bw_happy_box"; "-F bw_penalty_box";
   "-F bw_costly_shared"; "-t raw -F bw_raw_PREROUTING"; "-t mangle -F bw_mangle_POSTROUTING"].

Definition IPT_CLEANUP_COMMANDS : list string :=
  ["-X bw_happy_box"; "-X bw_penalty_box"; "-X bw_costly_shared"].

Definition IPT_SETUP_COMMANDS : list string :=
  ["-w -N bw_happy_box"; "-w -N bw_penalty_box"; "-w -N bw_costly_shared"].

Definition IPT_BASIC_ACCOUNTING_COMMANDS : list string :=
  ["-w -A bw_INPUT -m owner --socket-exists"; "-w -A bw_OUTPUT -m owner --socket-exists";
   "-w -A bw_costly_shared --jump bw_penalty_box";
   "-w -t raw -A bw_raw_PREROUTING -m owner --socket-exists";
   "-w -t mangle -A bw_mangle_POSTROUTING -m owner --socket-exists"].

(** ** Running commands *)
Section Operations.
Context {K : Kernel}.

(** The last byte of a zero-filled buffer of [buffSize] bytes after [strncpy]:
    not 0 when [src] and its terminator do not fit. *)
Definition StrncpyAndCheck (src : string) (buffSize : Z) : Z :=
  match String.get (Z.to_nat (buffSize - 1)) src with Some c => code c | None => 0 end.

(** [snprintf] of the string [s] in a buffer of [MAX_CMD_LEN] bytes. *)
Definition snprintf_cmd (s : string) : string := String.substring 0 (Z.to_nat (MAX_CMD_LEN - 1)) s.

(** The pieces that [strsep] with a space finds; [w] is the piece being read. *)
Fixpoint strsep_loop (w s : string) : list string :=
  match s with
  | EmptyString => [w]
  | String c s => if Ascii.eqb c " " then w :: strsep_loop "" s else strsep_loop (w +:+ String c "") s
  end.
Definition strsep_all (s : string) : list string := strsep_loop "" s.

Definition full_cmd (cmd : string) (jumpHandling : IptJumpOp) (iptVer : IptIpVer) : string :=
  (match iptVer with IptIpV4 => IPTABLES_PATH | IptIpV6 => IP6TABLES_PATH end) +:+ " " +:+ cmd +:+
  match jumpHandling with
  | IptJumpReject => " --jump REJECT"
  | IptJumpReturn => " --jump RETURN"
  | IptJumpNoAdd => ""
  end.

Definition runIptablesCmd (cmd : string) (jumpHandling : IptJumpOp) (iptVer : IptIpVer) : M t Z :=
  let fullCmd := full_cmd cmd jumpHandling iptVer in
  if negb (StrncpyAndCheck fullCmd MAX_CMD_LEN =? 0) then mret (-1)
  else
    let argv := strsep_all fullCmd in
    if MAX_CMD_ARGS <=? Z.of_nat (length argv) then mret (-1)
    else
      r ← sys_exec argv;
      mret (if negb (ex_ret r =? 0) || negb (ex_exited r) || negb (ex_status r =? 0) then 1 else 0).

Definition runIpxtablesCmd (cmd : string) (jumpHandling : IptJumpOp) : M t Z :=
  res4 ← runIptablesCmd cmd jumpHandling IptIpV4;
  res6 ← runIptablesCmd cmd jumpHandling IptIpV6;
  mret (Z.lor res4 res6).

Fixpoint runCommands (commands : list string) (cmdErrHandling : RunCmdErrHandling) : M t Z :=
  match commands with
  | [] => mret 0
  | cmd :: commands =>
      res ← runIpxtablesCmd cmd IptJumpNoAdd;
      if negb (res =? 0) && (match cmdErrHandling with RunCmdFailureOk => false | RunCmdFailureBad => true end)
      then mret res else runCommands commands cmdErrHandling
  end.

(** ** Setting up *)

(** The loop of [parseAndFlushCostlyTables] over the lines it reads. *)
Fixpoint flush_costly_lines (doRemove : bool) (lines : list string) : M t unit :=
  match lines with
  | [] => mret tt
  | line :: lines =>
      match sscanf line "-N bw_costly_%s" with
      | [VStr costlyIfaceName] =>
          if String.eqb costlyIfaceName "shared" then flush_costly_lines doRemove lines
          else
            runIpxtablesCmd (snprintf_cmd ("-F bw_costly_" +:+ costlyIfaceName)) IptJumpNoAdd;;
            (if doRemove : bool
             then runIpxtablesCmd (snprintf_cmd ("-X bw_costly_" +:+ costlyIfaceName)) IptJumpNoAdd
             else mret 0);;
            flush_costly_lines doRemove lines
      | _ => flush_costly_lines doRemove lines
      end
  end.

Definition parseAndFlushCostlyTables (output : string) (doRemove : bool) : M t unit :=
  flush_costly_lines doRemove (fgets_all MAX_IPT_OUTPUT_LINE_LEN output).

Definition flushExistingCostlyTables (doClean : bool) : M t unit :=
  iptOutput ← sys_popen (IPTABLES_PATH +:+ " -S");
  match iptOutput with
  | None => mret tt
  | Some output => parseAndFlushCostlyTables output doClean
  end.

Definition flushCleanTables (doClean : bool) : M t unit :=
  flushExistingCostlyTables doClean;;
  runCommands IPT_FLUSH_COMMANDS RunCmdFailureOk;;
  if doClean then runCommands IPT_CLEANUP_COMMANDS RunCmdFailureOk;; mret tt else mret tt.

Definition setupIptablesHooks : M t Z :=
  flushCleanTables true;;
  runCommands IPT_SETUP_COMMANDS RunCmdFailureBad;;
  mret 0.

Definition enableBandwidthControl (force : bool) : M t Z :=
  value ← (if force then mret "1" else sys_property "persist.bandwidth.enable");
  if negb force && String.eqb (if String.eqb value "" then "1" else value) "0" then mret 0
  else
    modify (fun _ => State [] 0 0 0 0 [] [] []);;
    flushCleanTables false;;
    runCommands IPT_BASIC_ACCOUNTING_COMMANDS RunCmdFailureBad.

Definition disableBandwidthControl : M t Z :=
  flushCleanTables false;; mret 0.

(** ** Restricted applications *)

Definition ipt_op_flag (op : IptOp) : string :=
  match op with
  | IptOpInsert => "-I" | IptOpAppend => "-A" | IptOpReplace => "-R" | IptOpDelete => "-D"
  end.

Definition makeIptablesSpecialAppCmd (op : IptOp) (uid : Z) (chain : string) : string :=
  match op with
  | IptOpAppend => ""
  | _ => ipt_op_flag op +:+ " " +:+ chain +:+ " -m owner --uid-owner " +:+ print_d uid
  end.

Definition enableHappyBox : M t Z :=
  runIpxtablesCmd "-N bw_happy_box" IptJumpNoAdd;;
  modify (set_niceAppUids []);;
  r1 ← runIpxtablesCmd "-F bw_happy_box" IptJumpNoAdd;
  runIpxtablesCmd "-D bw_penalty_box -j bw_happy_box" IptJumpNoAdd;;
  r2 ← runIpxtablesCmd "-A bw_penalty_box -j bw_happy_box" IptJumpNoAdd;
  runIpxtablesCmd "-D bw_happy_box -j REJECT" IptJumpNoAdd;;
  r3 ← runIpxtablesCmd "-A bw_happy_box -j REJECT" IptJumpNoAdd;
  mret (Z.lor (Z.lor r1 r2) r3).

Definition disableHappyBox : M t Z :=
  runIpxtablesCmd "-D bw_penalty_box -j bw_happy_box" IptJumpNoAdd;;
  modify (set_niceAppUids []);;
  runIpxtablesCmd "-F bw_happy_box" IptJumpNoAdd;;
  runIpxtablesCmd "-X bw_happy_box" IptJumpNoAdd;;
  mret 0.

(** The first loop of [manipulateSpecialApps]; [None] is [goto fail_parse]. *)
Fixpoint parse_uids (appStrUids : list string) : option (list Z) :=
  match appStrUids with
  | [] => Some []
  | str :: appStrUids =>
      let '(v, endptr) := strtoul str 0 in
      if negb (String.eqb endptr "") || String.eqb str "" then None
      else uids ← parse_uids appStrUids; Some (s32 v :: uids)
  end.

(** [std::list::erase] of the first occurrence. *)
Fixpoint erase_uid (uid : Z) (l : list Z) : list Z :=
  match l with
  | [] => []
  | x :: l => if x =? uid then l else x :: erase_uid uid l
  end.

Definition has_uid (uid : Z) (l : list Z) : bool := existsb (Z.eqb uid) l.

(** The second loop, on the list of the controller that [get] and [put] select. *)
Fixpoint manipulate_uids (appUids : list Z) (chain : string) (get : t -> list Z)
    (put : list Z -> t -> t) (jumpHandling : IptJumpOp) (appOp : SpecialAppOp) : M t Z :=
  match appUids with
  | [] => mret 0
  | uid :: appUids =>
      specialAppUids ← gets get;
      let found := has_uid uid specialAppUids in
      let '(op, refused, changed) :=
        match appOp with
        | SpecialAppOpRemove => (IptOpDelete, negb found, erase_uid uid specialAppUids)
        | SpecialAppOpAdd => (IptOpInsert, found, uid :: specialAppUids)
        end in
      if refused : bool then mret (-1)
      else
        modify (put changed);;
        res ← runIpxtablesCmd (makeIptablesSpecialAppCmd op uid chain) jumpHandling;
        if negb (res =? 0) then
          runIpxtablesCmd (makeIptablesSpecialAppCmd IptOpDelete uid chain) jumpHandling;;
          mret (-1)
        else manipulate_uids appUids chain get put jumpHandling appOp
  end.

Definition manipulateSpecialApps (appStrUids : list string) (chain : string) (get : t -> list Z)
    (put : list Z -> t -> t) (jumpHandling : IptJumpOp) (appOp : SpecialAppOp) : M t Z :=
  match parse_uids appStrUids with
  | None => mret (-1)
  | Some appUids => manipulate_uids appUids chain get put jumpHandling appOp
  end.

Definition manipulateNaughtyApps (appStrUids : list string) (appOp : SpecialAppOp) : M t Z :=
  manipulateSpecialApps appStrUids "bw_penalty_box" naughtyAppUids set_naughtyAppUids IptJumpReject appOp.

Definition manipulateNiceApps (appStrUids : list string) (appOp : SpecialAppOp) : M t Z :=
  manipulateSpecialApps appStrUids "bw_happy_box" niceAppUids set_niceAppUids IptJumpReturn appOp.

Definition addNaughtyApps (appUids : list string) : M t Z := manipulateNaughtyApps appUids SpecialAppOpAdd.
Definition removeNaughtyApps (appUids : list string) : M t Z := manipulateNaughtyApps appUids SpecialAppOpRemove.
Definition addNiceApps (appUids : list string) : M t Z := manipulateNiceApps appUids SpecialAppOpAdd.
Definition removeNiceApps (appUids : list string) : M t Z := manipulateNiceApps appUids SpecialAppOpRemove.

(** ** Alerts *)

Definition updateQuota (quotaName : string) (bytes : Z) : M t Z :=
  if negb (isIfaceName quotaName) then mret (-1)
  else
    let fname := "/proc/net/xt_quota/" +:+ quotaName in
    fp ← sys_file (FOpen fname);
    if fp <? 0 then mret (-1)
    else sys_file (FWrite fname (print_d bytes +:+ String newline ""));; mret 0.

(** ALERT_IPT_TEMPLATE *)
Definition alert_cmd (opFlag chain : string) (bytes : Z) (alertName : string) : string :=
  opFlag +:+ " " +:+ chain +:+ " -m quota2 ! --quota " +:+ print_d bytes +:+ " --name " +:+ alertName.

Definition runIptablesAlertCmd (op : IptOp) (alertName : string) (bytes : Z) : M t Z :=
  r1 ← runIpxtablesCmd (alert_cmd (ipt_op_flag op) "bw_INPUT" bytes alertName) IptJumpNoAdd;
  r2 ← runIpxtablesCmd (alert_cmd (ipt_op_flag op) "bw_OUTPUT" bytes alertName) IptJumpNoAdd;
  mret (Z.lor r1 r2).

Definition runIptablesAlertFwdCmd (op : IptOp) (alertName : string) (bytes : Z) : M t Z :=
  runIpxtablesCmd (alert_cmd (ipt_op_flag op) "bw_FORWARD" bytes alertName) IptJumpNoAdd.

Definition setGlobalAlert (bytes : Z) : M t Z :=
  if bytes =? 0 then mret (-1)
  else
    s ← gets (fun s => s);
    res ← (if negb (globalAlertBytes s =? 0) then updateQuota ALERT_GLOBAL_NAME bytes
           else
             r1 ← runIptablesAlertCmd IptOpInsert ALERT_GLOBAL_NAME bytes;
             if negb (globalAlertTetherCount s =? 0) then
               r2 ← runIptablesAlertFwdCmd IptOpInsert ALERT_GLOBAL_NAME bytes; mret (Z.lor r1 r2)
             else mret r1);
    modify (set_globalAlertBytes bytes);; mret res.

Definition setGlobalAlertInForwardChain : M t Z :=
  modify (fun s => set_globalAlertTetherCount (s32 (globalAlertTetherCount s + 1)) s);;
  s ← gets (fun s => s);
  if (globalAlertBytes s =? 0) || negb (globalAlertTetherCount s =? 1) then mret 0
  else runIptablesAlertFwdCmd IptOpInsert ALERT_GLOBAL_NAME (globalAlertBytes s).

Definition removeGlobalAlert : M t Z :=
  s ← gets (fun s => s);
  if globalAlertBytes s =? 0 then mret (-1)
  else
    r1 ← runIptablesAlertCmd IptOpDelete ALERT_GLOBAL_NAME (globalAlertBytes s);
    r2 ← (if negb (globalAlertTetherCount s =? 0)
          then runIptablesAlertFwdCmd IptOpDelete ALERT_GLOBAL_NAME (globalAlertBytes s)
          else mret 0);
    modify (set_globalAlertBytes 0);; mret (Z.lor r1 r2).

Definition removeGlobalAlertInForwardChain : M t Z :=
  s ← gets (fun s => s);
  if globalAlertTetherCount s =? 0 then mret (-1)
  else
    modify (set_globalAlertTetherCount (s32 (globalAlertTetherCount s - 1)));;
    if (globalAlertBytes s =? 0) || (1 <=? s32 (globalAlertTetherCount s - 1)) then mret 0
    else runIptablesAlertFwdCmd IptOpDelete ALERT_GLOBAL_NAME (globalAlertBytes s).

(** [setCostlyAlert] and [removeCostlyAlert] write through [alertBytes]: [get]
    and [put] are the object it points to. *)
Definition setCostlyAlert (costName : string) (bytes : Z) (get : t -> Z) (put : Z -> t -> t) : M t Z :=
  if negb (isIfaceName costName) then mret (-1)
  else if bytes =? 0 then mret (-1)
  else
    let alertName := costName +:+ "Alert" in
    alertBytes ← gets get;
    res ← (if negb (alertBytes =? 0) then updateQuota alertName alertBytes
           else runIpxtablesCmd (alert_cmd "-A" ("bw_costly_" +:+ costName) bytes alertName) IptJumpNoAdd);
    modify (put bytes);; mret res.

Definition removeCostlyAlert (costName : string) (get : t -> Z) (put : Z -> t -> t) : M t Z :=
  if negb (isIfaceName costName) then mret (-1)
  else
    let alertName := costName +:+ "Alert" in
    alertBytes ← gets get;
    if alertBytes =? 0 then mret (-1)
    else
      res ← runIpxtablesCmd (alert_cmd "-D" ("bw_costly_" +:+ costName) alertBytes alertName) IptJumpNoAdd;
      modify (put 0);; mret res.

Definition setSharedAlert (bytes : Z) : M t Z :=
  s ← gets (fun s => s);
  if sharedQuotaBytes s =? 0 then mret (-1)
  else if bytes =? 0 then mret (-1)
  else setCostlyAlert "shared" bytes sharedAlertBytes set_sharedAlertBytes.

Definition removeSharedAlert : M t Z :=
  removeCostlyAlert "shared" sharedAlertBytes set_sharedAlertBytes.

(** The first entry of [quotaIfaces] for an interface, and assignments to it. *)
Fixpoint find_quota (iface : string) (l : list QuotaInfo) : option QuotaInfo :=
  match l with
  | [] => None
  | q :: l => if String.eqb (ifaceName q) iface then Some q else find_quota iface l
  end.
Fixpoint update_quota (iface : string) (f : QuotaInfo -> QuotaInfo) (l : list QuotaInfo) : list QuotaInfo :=
  match l with
  | [] => []
  | q :: l => if String.eqb (ifaceName q) iface then f q :: l else q :: update_quota iface f l
  end.
Fixpoint erase_quota (iface : string) (l : list QuotaInfo) : list QuotaInfo :=
  match l with
  | [] => []
  | q :: l => if String.eqb (ifaceName q) iface then l else q :: erase_quota iface l
  end.

Definition get_alert (iface : string) (s : t) : Z :=
  match find_quota iface (quotaIfaces s) with Some q => alert q | None => 0 end.
Definition put_alert (iface : string) (v : Z) (s : t) : t :=
  set_quotaIfaces (update_quota iface (fun q => Quota (ifaceName q) (quota q) v) (quotaIfaces s)) s.

Definition setInterfaceAlert (iface : string) (bytes : Z) : M t Z :=
  if negb (isIfaceName iface) then mret (-1)
  else if bytes =? 0 then mret (-1)
  else
    l ← gets quotaIfaces;
    match find_quota iface l with
    | None => mret (-1)
    | Some _ => setCostlyAlert iface bytes (get_alert iface) (put_alert iface)
    end.

Definition removeInterfaceAlert (iface : string) : M t Z :=
  if negb (isIfaceName iface) then mret (-1)
  else
    l ← gets quotaIfaces;
    match find_quota iface l with
    | None => mret (-1)
    | Some _ => removeCostlyAlert iface (get_alert iface) (put_alert iface)
    end.

(** ** Quotas *)

Definition makeIptablesQuotaCmd (op : IptOp) (costName : string) (quota : Z) : string :=
  ipt_op_flag op +:+ " bw_costly_" +:+ costName +:+ " -m quota2 ! --quota " +:+ print_d quota +:+
  " --name " +:+ costName.

Definition costly_chain (ifn : string) (quotaType : QuotaType) : string :=
  match quotaType with QuotaUnique => "bw_costly_" +:+ ifn | QuotaShared => "bw_costly_shared" end.

Definition prepCostlyIface (ifn : string) (quotaType : QuotaType) : M t Z :=
  let costString := costly_chain ifn quotaType in
  res0 ← match quotaType with
         | QuotaUnique =>
             res1 ← runIpxtablesCmd (snprintf_cmd ("-F " +:+ costString)) IptJumpNoAdd;
             res2 ← runIpxtablesCmd (snprintf_cmd ("-N " +:+ costString)) IptJumpNoAdd;
             let res := if Bool.eqb (negb (res1 =? 0)) (negb (res2 =? 0)) then 1 else 0 in
             r ← runIpxtablesCmd (snprintf_cmd ("-A " +:+ costString +:+ " -j bw_penalty_box")) IptJumpNoAdd;
             mret (Z.lor res r)
         | QuotaShared => mret 0
         end;
  s ← gets (fun s => s);
  let ruleInsertPos := if negb (globalAlertBytes s =? 0) then 2 else 1 in
  runIpxtablesCmd (snprintf_cmd ("-D bw_INPUT -i " +:+ ifn +:+ " --jump " +:+ costString)) IptJumpNoAdd;;
  r1 ← runIpxtablesCmd (snprintf_cmd ("-I bw_INPUT " +:+ print_d ruleInsertPos +:+ " -i " +:+ ifn +:+
                                      " --jump " +:+ costString)) IptJumpNoAdd;
  runIpxtablesCmd (snprintf_cmd ("-D bw_OUTPUT -o " +:+ ifn +:+ " --jump " +:+ costString)) IptJumpNoAdd;;
  r2 ← runIpxtablesCmd (snprintf_cmd ("-I bw_OUTPUT " +:+ print_d ruleInsertPos +:+ " -o " +:+ ifn +:+
                                      " --jump " +:+ costString)) IptJumpNoAdd;
  mret (Z.lor (Z.lor res0 r1) r2).

Definition cleanupCostlyIface (ifn : string) (quotaType : QuotaType) : M t Z :=
  let costString := costly_chain ifn quotaType in
  r1 ← runIpxtablesCmd (snprintf_cmd ("-D bw_INPUT -i " +:+ ifn +:+ " --jump " +:+ costString)) IptJumpNoAdd;
  r2 ← runIpxtablesCmd (snprintf_cmd ("-D bw_OUTPUT -o " +:+ ifn +:+ " --jump " +:+ costString)) IptJumpNoAdd;
  let res := Z.lor r1 r2 in
  match quotaType with
  | QuotaUnique =>
      r3 ← runIpxtablesCmd (snprintf_cmd ("-F " +:+ costString)) IptJumpNoAdd;
      r4 ← runIpxtablesCmd (snprintf_cmd ("-X " +:+ costString)) IptJumpNoAdd;
      mret (Z.lor (Z.lor res r3) r4)
  | QuotaShared => mret res
  end.

(** The list without the first occurrence of a name. *)
Fixpoint erase_name (name : string) (l : list string) : list string :=
  match l with
  | [] => []
  | x :: l => if String.eqb x name then l else x :: erase_name name l
  end.
Definition has_name (name : string) (l : list string) : bool := existsb (String.eqb name) l.

Definition removeInterfaceSharedQuota (iface : string) : M t Z :=
  if negb (isIfaceName iface) then mret (-1)
  else if negb (StrncpyAndCheck iface MAX_IFACENAME_LEN =? 0) then mret (-1)
  else
    l ← gets sharedQuotaIfaces;
    if negb (has_name iface l) then mret (-1)
    else
      res ← cleanupCostlyIface iface QuotaShared;
      modify (fun s => set_sharedQuotaIfaces (erase_name iface (sharedQuotaIfaces s)) s);;
      s ← gets (fun s => s);
      match sharedQuotaIfaces s with
      | [] =>
          r ← runIpxtablesCmd (makeIptablesQuotaCmd IptOpDelete "shared" (sharedQuotaBytes s)) IptJumpReject;
          modify (set_sharedQuotaBytes 0);;
          (if negb (sharedAlertBytes s =? 0) then removeSharedAlert;; modify (set_sharedAlertBytes 0)
           else mret tt);;
          mret (Z.lor res r)
      | _ :: _ => mret res
      end.

(** The part of [setInterfaceSharedQuota] from the comparison with
    [sharedQuotaBytes]; [res] is what has been accumulated. *)
Definition shared_quota_update (ifn : string) (maxBytes res : Z) : M t Z :=
  s ← gets (fun s => s);
  if maxBytes =? sharedQuotaBytes s then mret 0
  else
    r ← updateQuota "shared" maxBytes;
    if negb (Z.lor res r =? 0) then removeInterfaceSharedQuota ifn;; mret (-1)
    else modify (set_sharedQuotaBytes maxBytes);; mret 0.

Definition setInterfaceSharedQuota (iface : string) (maxBytes : Z) : M t Z :=
  if maxBytes =? 0 then mret (-1)
  else if negb (isIfaceName iface) then mret (-1)
  else if negb (StrncpyAndCheck iface MAX_IFACENAME_LEN =? 0) then mret (-1)
  else if maxBytes =? -1 then removeInterfaceSharedQuota iface
  else
    l ← gets sharedQuotaIfaces;
    if has_name iface l then shared_quota_update iface maxBytes 0
    else
      res ← prepCostlyIface iface QuotaShared;
      match l with
      | [] =>
          r ← runIpxtablesCmd (makeIptablesQuotaCmd IptOpInsert "shared" maxBytes) IptJumpReject;
          if negb (Z.lor res r =? 0) then removeInterfaceSharedQuota iface;; mret (-1)
          else
            modify (set_sharedQuotaBytes maxBytes);;
            modify (fun s => set_sharedQuotaIfaces (iface :: sharedQuotaIfaces s) s);;
            shared_quota_update iface maxBytes (Z.lor res r)
      | _ :: _ =>
          modify (fun s => set_sharedQuotaIfaces (iface :: sharedQuotaIfaces s) s);;
          shared_quota_update iface maxBytes res
      end.

Definition removeInterfaceQuota (iface : string) : M t Z :=
  if negb (isIfaceName iface) then mret (-1)
  else if negb (StrncpyAndCheck iface MAX_IFACENAME_LEN =? 0) then mret (-1)
  else
    l ← gets quotaIfaces;
    match find_quota iface l with
    | None => mret (-1)
    | Some _ =>
        res ← cleanupCostlyIface iface QuotaUnique;
        modify (fun s => set_quotaIfaces (erase_quota iface (quotaIfaces s)) s);;
        mret res
    end.

Definition setInterfaceQuota (iface : string) (maxBytes : Z) : M t Z :=
  if negb (isIfaceName iface) then mret (-1)
  else if maxBytes =? 0 then mret (-1)
  else if maxBytes =? -1 then removeInterfaceQuota iface
  else if negb (StrncpyAndCheck iface MAX_IFACENAME_LEN =? 0) then mret (-1)
  else
    l ← gets quotaIfaces;
    match find_quota iface l with
    | None =>
        res ← prepCostlyIface iface QuotaUnique;
        r ← runIpxtablesCmd (makeIptablesQuotaCmd IptOpAppend iface maxBytes) IptJumpReject;
        if negb (Z.lor res r =? 0) then removeInterfaceSharedQuota iface;; mret (-1)
        else modify (fun s => set_quotaIfaces (Quota iface maxBytes 0 :: quotaIfaces s) s);; mret 0
    | Some _ =>
        r ← updateQuota iface maxBytes;
        if negb (r =? 0) then removeInterfaceSharedQuota iface;; mret (-1)
        else
          modify (fun s => set_quotaIfaces
            (update_quota iface (fun q => Quota (ifaceName q) maxBytes (alert q)) (quotaIfaces s)) s);;
          mret 0
    end.

(** The bytes left, [None] when -1 is returned. *)
Definition getInterfaceQuota (costName : string) : M t (option Z) :=
  if negb (isIfaceName costName) then mret None
  else
    fp ← sys_read ("/proc/net/xt_quota/" +:+ costName);
    mret match fp with
         | None => None
         | Some contents => match sscanf contents "%lld" with [VInt bytes] => Some bytes | _ => None end
         end.

Definition getInterfaceSharedQuota : M t (option Z) := getInterfaceQuota "shared".
End Operations.
End BandwidthController.
