(* ===== verification/BandwidthSpec.v ===== *)
(** * BandwidthSpec: what BandwidthController keeps true

    First the commands: [runIptablesCmd] splits the string it is given back into
    the words it was built from.  Then an invariant of the controller's members
    that holds whatever the programs answer, the chains of the restricted
    applications, and the interfaces under the shared quota. *)
From S2P Require Import Prelude Platform Cstd Netlink NetdConstants Ledger Iptables.
From S2P Require Import RouteSpec SampleKernel BandwidthController.

Module BandwidthSpec.
Import BandwidthController.BandwidthController.

(** ** Words and commands *)

Fixpoint unwords (ws : list string) : string :=
  match ws with
  | [] => ""
  | [w] => w
  | w :: ws => w +:+ " " +:+ unwords ws
  end.

Lemma strsep_loop_word w x r :
  no_space x = true -> strsep_loop w (x +:+ " " +:+ r) = (w +:+ x) :: strsep_loop "" r.
Proof.
  revert w. induction x as [|c x IH]; intros w Hx.
  - cbn. by rewrite append_empty_r.
  - cbn in Hx. apply andb_true_iff in Hx as [Hc Hx]. apply negb_true_iff in Hc.
    change (strsep_loop w (String c (x +:+ " " +:+ r)) = (w +:+ String c x) :: strsep_loop "" r).
    cbn [strsep_loop]. rewrite Hc, IH, append_assoc by done. done.
Qed.

Lemma strsep_loop_last w x : no_space x = true -> strsep_loop w x = [w +:+ x].
Proof.
  revert w. induction x as [|c x IH]; intros w Hx.
  - cbn. by rewrite append_empty_r.
  - cbn in Hx. apply andb_true_iff in Hx as [Hc Hx]. apply negb_true_iff in Hc.
    cbn [strsep_loop]. rewrite Hc, IH, append_assoc by done. done.
Qed.

Lemma strsep_unwords ws :
  ws <> [] -> Forall (fun w => no_space w = true) ws -> strsep_all (unwords ws) = ws.
Proof.
  unfold strsep_all. intros Hne Hws. induction Hws as [|w ws Hw Hws IH]; [done|].
  destruct ws as [|w' ws]; [by apply strsep_loop_last|].
  change (strsep_loop "" (w +:+ " " +:+ unwords (w' :: ws)) = w :: w' :: ws).
  rewrite strsep_loop_word by done. by rewrite IH.
Qed.

(** The first piece starts with what has been read of it. *)
Lemma strsep_loop_head w s : exists x rest, strsep_loop w s = (w +:+ x) :: rest.
Proof.
  revert w. induction s as [|c s IH]; intros w; cbn.
  - exists "", []. by rewrite append_empty_r.
  - case_match.
    + exists "", (strsep_loop "" s). by rewrite append_empty_r.
    + destruct (IH (w +:+ String c "")) as (x & rest & ->). exists (String c x), rest.
      by rewrite append_assoc.
Qed.

Lemma get_None_length n s : (String.length s <= n)%nat -> String.get n s = None.
Proof.
  revert n. induction s as [|c s IH]; intros n Hn; [by destruct n|].
  destruct n as [|n]; cbn in *; [lia|]. apply IH. lia.
Qed.

Lemma StrncpyAndCheck_fits src size : strlen src < size -> StrncpyAndCheck src size = 0.
Proof.
  intros H. unfold StrncpyAndCheck. rewrite get_None_length; [done|]. unfold strlen in H. lia.
Qed.

(** What is appended for the jump. *)
Definition jump_words (j : IptJumpOp) : list string :=
  match j with
  | IptJumpReject => ["--jump"; "REJECT"]
  | IptJumpReturn => ["--jump"; "RETURN"]
  | IptJumpNoAdd => []
  end.

(** [cmd] is the command made of the words [ws]. *)
Definition is_command (cmd : string) (ws : list string) : Prop :=
  cmd = unwords ws /\ ws <> [] /\ Forall (fun w => no_space w = true) ws /\
  strlen cmd < 900 /\ (length ws < 28)%nat.

Lemma unwords_app ws1 ws2 :
  ws1 <> [] -> ws2 <> [] -> unwords (ws1 ++ ws2) = unwords ws1 +:+ " " +:+ unwords ws2.
Proof.
  intros H1 H2. induction ws1 as [|w ws1 IH]; [done|]. destruct ws1 as [|w' ws1].
  - by destruct ws2.
  - change (w +:+ " " +:+ unwords ((w' :: ws1) ++ ws2) = (w +:+ " " +:+ unwords (w' :: ws1)) +:+ " " +:+ unwords ws2).
    rewrite IH by done. by rewrite !append_assoc.
Qed.

Definition ver_path (v : IptIpVer) : string :=
  match v with IptIpV4 => IPTABLES_PATH | IptIpV6 => IP6TABLES_PATH end.

Lemma full_cmd_eq ws j v :
  ws <> [] -> full_cmd (unwords ws) j v = unwords (ver_path v :: ws ++ jump_words j).
Proof.
  intros Hne. unfold full_cmd.
  assert (exists w l, ws ++ jump_words j = w :: l) as (w & l & E).
  { destruct ws as [|w l]; [done|]. by eexists _, _. }
  change (unwords (ver_path v :: ws ++ jump_words j)) with
    (match ws ++ jump_words j with [] => ver_path v | _ :: _ => ver_path v +:+ " " +:+ unwords (ws ++ jump_words j) end).
  rewrite E. rewrite <-E. do 2 f_equal.
  destruct j; cbn [jump_words]; rewrite ?app_nil_r, ?append_empty_r; try done; by rewrite unwords_app.
Qed.

Lemma full_cmd_words cmd ws j v :
  is_command cmd ws -> full_cmd cmd j v = unwords (ver_path v :: ws ++ jump_words j).
Proof. intros (-> & Hne & _). by apply full_cmd_eq. Qed.

Section Commands.
Context {K : Kernel}.

(** A command of the controller changes no member. *)
Lemma wp_runIptablesCmd_any cmd j v (Q : Z -> t -> trace -> Prop) s tr :
  (forall r tr', Q r s tr') -> wp (runIptablesCmd cmd j v) Q s tr.
Proof.
  intros HQ. unfold runIptablesCmd. case_match; [apply wp_ret, HQ|]. case_match; [apply wp_ret, HQ|].
  apply wp_bind. unfold sys_exec, wp. apply HQ.
Qed.

Lemma wp_runIpxtablesCmd_any cmd j (Q : Z -> t -> trace -> Prop) s tr :
  (forall r tr', Q r s tr') -> wp (runIpxtablesCmd cmd j) Q s tr.
Proof.
  intros HQ. apply wp_bind, wp_runIptablesCmd_any. intros r4 tr4.
  apply wp_bind, wp_runIptablesCmd_any. intros r6 tr6. apply wp_ret, HQ.
Qed.

(** The words reach the program unchanged. *)
Lemma wp_runIptablesCmd cmd ws j v (Q : Z -> t -> trace -> Prop) s tr :
  is_command cmd ws ->
  (let argv := ver_path v :: ws ++ jump_words j in
   Q (if exec_ok (k_exec tr argv) then 0 else 1) s (tr ++ [EvExec argv (k_exec tr argv)])) ->
  wp (runIptablesCmd cmd j v) Q s tr.
Proof.
  intros Hc HQ. pose proof (full_cmd_words cmd ws j v Hc) as E. destruct Hc as (Hcmd & Hne & Hsp & Hlen & Hn).
  assert (strlen (full_cmd cmd j v) < MAX_CMD_LEN) as Hfit.
  { unfold full_cmd, MAX_CMD_LEN. rewrite !strlen_app. destruct v, j; unfold strlen in *; cbn; lia. }
  unfold runIptablesCmd. rewrite StrncpyAndCheck_fits by done. cbn [Z.eqb negb]. rewrite E, strsep_unwords.
  - rewrite (proj2 (Z.leb_gt MAX_CMD_ARGS _)).
    + apply wp_bind. unfold sys_exec, wp. cbv zeta in HQ.
      destruct (k_exec _ _) as [ret ex st]. unfold exec_ok in HQ. cbn in *.
      by destruct (ret =? 0), ex, (st =? 0).
    + unfold MAX_CMD_ARGS. cbn. rewrite length_app. destruct j; cbn; lia.
  - done.
  - constructor; [by destruct v|]. apply Forall_app. split; [done|]. destruct j; repeat constructor.
Qed.

(** A command run with success for both programs. *)
Lemma wp_runIpxtablesCmd {KA : Accepting K} cmd ws j (Q : Z -> t -> trace -> Prop) s tr :
  is_command cmd ws ->
  (forall tr', acked tr' = acked tr ++ [IPTABLES_PATH :: ws ++ jump_words j; IP6TABLES_PATH :: ws ++ jump_words j] ->
     Q 0 s tr') ->
  wp (runIpxtablesCmd cmd j) Q s tr.
Proof.
  intros Hc HQ. apply wp_bind, (wp_runIptablesCmd cmd ws); [done|]. cbv zeta. rewrite accept_exec.
  apply wp_bind, (wp_runIptablesCmd cmd ws); [done|]. cbv zeta. rewrite accept_exec.
  apply wp_ret, HQ. rewrite !acked_exec, !accept_exec. by rewrite <-(assoc_L app).
Qed.
End Commands.

(** ** Computations that change no member *)
Create HintDb frame.

Section Frame.
Context {K : Kernel}.

Definition frame {A} (m : M t A) : Prop :=
  forall Q s tr, (forall a tr', Q a s tr') -> wp m Q s tr.

Lemma frame_ret {A} (a : A) : frame (mret a).
Proof. intros Q s tr HQ. apply wp_ret, HQ. Qed.

Lemma frame_bind {A B} (m : M t A) (k : A -> M t B) : frame m -> (forall a, frame (k a)) -> frame (m ≫= k).
Proof. intros Hm Hk Q s tr HQ. apply wp_bind, Hm. intros a tr'. by apply Hk. Qed.

Lemma frame_gets {A} (f : t -> A) : frame (gets f).
Proof. intros Q s tr HQ. apply wp_gets, HQ. Qed.

Lemma frame_run cmd j : frame (runIpxtablesCmd cmd j).
Proof. intros Q s tr HQ. by apply wp_runIpxtablesCmd_any. Qed.

Lemma frame_file op : frame (sys_file op).
Proof. intros Q s tr HQ. apply HQ. Qed.

Lemma frame_popen cmd : frame (sys_popen cmd).
Proof. intros Q s tr HQ. apply HQ. Qed.

Lemma frame_property key : frame (sys_property key).
Proof. intros Q s tr HQ. apply HQ. Qed.
Hint Resolve frame_ret frame_gets frame_run frame_file frame_popen frame_property : frame.

Ltac frames := repeat first [progress auto with frame | apply frame_bind; [|intros ?] | case_match].

Lemma frame_runCommands l h : frame (runCommands l h).
Proof. induction l; cbn [runCommands]; frames. Qed.
Hint Resolve frame_runCommands : frame.

Lemma frame_flush_costly_lines b l : frame (flush_costly_lines b l).
Proof. induction l; cbn [flush_costly_lines]; frames. Qed.
Hint Resolve frame_flush_costly_lines : frame.

Lemma frame_flushCleanTables b : frame (flushCleanTables b).
Proof. unfold flushCleanTables, flushExistingCostlyTables, parseAndFlushCostlyTables. frames. Qed.

Lemma frame_updateQuota n b : frame (updateQuota n b).
Proof. unfold updateQuota. frames. Qed.

Lemma frame_alert op n b : frame (runIptablesAlertCmd op n b).
Proof. unfold runIptablesAlertCmd. frames. Qed.

Lemma frame_alert_fwd op n b : frame (runIptablesAlertFwdCmd op n b).
Proof. unfold runIptablesAlertFwdCmd. frames. Qed.

Lemma frame_prepCostlyIface ifn q : frame (prepCostlyIface ifn q).
Proof. unfold prepCostlyIface. frames. Qed.

Lemma frame_cleanupCostlyIface ifn q : frame (cleanupCostlyIface ifn q).
Proof. unfold cleanupCostlyIface. frames. Qed.
End Frame.
#[export] Hint Resolve frame_ret frame_gets frame_run frame_file frame_popen frame_property
  frame_runCommands frame_flushCleanTables frame_updateQuota frame_alert frame_alert_fwd
  frame_prepCostlyIface frame_cleanupCostlyIface : frame.

Ltac frames := repeat first [solve [auto with frame] | apply frame_bind; [|intros ?] | case_match].

(** Step over a computation that changes no member. *)
Ltac step_frame :=
  apply wp_bind;
  match goal with |- wp ?m ?Q ?s ?tr => let H := fresh in assert (frame m) as H by auto with frame; apply H; clear H end;
  intros ? ?.

(** ** The invariant *)

Record invariant (s : t) : Prop := {
  inv_shared_nodup : NoDup (sharedQuotaIfaces s);
  inv_shared_names : Forall (fun n => isIfaceName n = true) (sharedQuotaIfaces s);
  inv_shared_bytes : sharedQuotaIfaces s = [] <-> sharedQuotaBytes s = 0;
  inv_shared_alert : sharedAlertBytes s <> 0 -> sharedQuotaBytes s <> 0;
  inv_quota_nodup : NoDup (map ifaceName (quotaIfaces s));
  inv_quota_entries : Forall (fun q => isIfaceName (ifaceName q) = true /\ quota q <> 0) (quotaIfaces s);
  inv_tethers : is_int (globalAlertTetherCount s);
  inv_naughty : NoDup (naughtyAppUids s);
  inv_nice : NoDup (niceAppUids s)
}.

(** The operations as one type. *)
Inductive call :=
| SetupIptablesHooks | EnableBandwidthControl (force : bool) | DisableBandwidthControl
| SetInterfaceSharedQuota (iface : string) (bytes : Z) | RemoveInterfaceSharedQuota (iface : string)
| SetInterfaceQuota (iface : string) (bytes : Z) | RemoveInterfaceQuota (iface : string)
| EnableHappyBox | DisableHappyBox
| NaughtyApps (uids : list string) (op : SpecialAppOp) | NiceApps (uids : list string) (op : SpecialAppOp)
| SetGlobalAlert (bytes : Z) | RemoveGlobalAlert
| SetGlobalAlertInForwardChain | RemoveGlobalAlertInForwardChain
| SetSharedAlert (bytes : Z) | RemoveSharedAlert
| SetInterfaceAlert (iface : string) (bytes : Z) | RemoveInterfaceAlert (iface : string).

Definition run_call {K : Kernel} (c : call) : M t Z :=
  match c with
  | SetupIptablesHooks => setupIptablesHooks
  | EnableBandwidthControl force => enableBandwidthControl force
  | DisableBandwidthControl => disableBandwidthControl
  | SetInterfaceSharedQuota iface bytes => setInterfaceSharedQuota iface bytes
  | RemoveInterfaceSharedQuota iface => removeInterfaceSharedQuota iface
  | SetInterfaceQuota iface bytes => setInterfaceQuota iface bytes
  | RemoveInterfaceQuota iface => removeInterfaceQuota iface
  | EnableHappyBox => enableHappyBox
  | DisableHappyBox => disableHappyBox
  | NaughtyApps uids op => manipulateNaughtyApps uids op
  | NiceApps uids op => manipulateNiceApps uids op
  | SetGlobalAlert bytes => setGlobalAlert bytes
  | RemoveGlobalAlert => removeGlobalAlert
  | SetGlobalAlertInForwardChain => setGlobalAlertInForwardChain
  | RemoveGlobalAlertInForwardChain => removeGlobalAlertInForwardChain
  | SetSharedAlert bytes => setSharedAlert bytes
  | RemoveSharedAlert => removeSharedAlert
  | SetInterfaceAlert iface bytes => setInterfaceAlert iface bytes
  | RemoveInterfaceAlert iface => removeInterfaceAlert iface
  end.

(** States reached from [enableBandwidthControl], whatever the calls return. *)
Inductive reached {K : Kernel} : t -> trace -> Prop :=
| reached_enable s tr ret s' tr' :
    enableBandwidthControl true s tr = (ret, s', tr') -> reached s' tr'
| reached_call c s tr ret s' tr' :
    reached s tr -> run_call c s tr = (ret, s', tr') -> reached s' tr'.

(** *** Lemmas on the lists *)

Lemma has_name_elem name l : has_name name l = true <-> name ∈ l.
Proof.
  unfold has_name. rewrite existsb_exists. split.
  - intros (x & Hx & ->%String.eqb_eq). by apply list_elem_of_In.
  - intros Hx. exists name. split; [by apply list_elem_of_In|apply String.eqb_refl].
Qed.

Lemma has_uid_elem uid l : has_uid uid l = true <-> uid ∈ l.
Proof.
  unfold has_uid. rewrite existsb_exists. split.
  - intros (x & Hx & ->%Z.eqb_eq). by apply list_elem_of_In.
  - intros Hx. exists uid. split; [by apply list_elem_of_In|apply Z.eqb_refl].
Qed.

Lemma elem_of_erase_name x name l : x ∈ erase_name name l -> x ∈ l.
Proof.
  induction l as [|y l IH]; cbn; [done|]. case_match; [by constructor|].
  intros [->|?]%elem_of_cons; constructor; auto.
Qed.

Lemma elem_of_erase_uid x uid l : x ∈ erase_uid uid l -> x ∈ l.
Proof.
  induction l as [|y l IH]; cbn; [done|]. case_match; [by constructor|].
  intros [->|?]%elem_of_cons; constructor; auto.
Qed.

Lemma NoDup_erase_name name l : NoDup l -> NoDup (erase_name name l).
Proof.
  induction 1 as [|y l Hy Hl IH]; cbn; [constructor|]. case_match; [done|].
  constructor; [|done]. by intros ?%elem_of_erase_name.
Qed.

Lemma NoDup_erase_uid uid l : NoDup l -> NoDup (erase_uid uid l).
Proof.
  induction 1 as [|y l Hy Hl IH]; cbn; [constructor|]. case_match; [done|].
  constructor; [|done]. by intros ?%elem_of_erase_uid.
Qed.

Lemma map_update_quota iface f l :
  (forall q, ifaceName (f q) = ifaceName q) -> map ifaceName (update_quota iface f l) = map ifaceName l.
Proof. intros Hf. induction l as [|q l IH]; cbn; [done|]. case_match; cbn; by rewrite ?Hf, ?IH. Qed.

Lemma Forall_update_quota (P : QuotaInfo -> Prop) iface f l :
  Forall P l -> (forall q, P q -> P (f q)) -> Forall P (update_quota iface f l).
Proof. intros Hl Hf. induction Hl; cbn; [constructor|]. case_match; constructor; auto. Qed.

Lemma Forall_erase_quota (P : QuotaInfo -> Prop) iface l : Forall P l -> Forall P (erase_quota iface l).
Proof. induction 1; cbn; [constructor|]. case_match; [done|by constructor]. Qed.

Lemma elem_of_erase_quota x iface l : x ∈ map ifaceName (erase_quota iface l) -> x ∈ map ifaceName l.
Proof.
  induction l as [|q l IH]; cbn; [done|]. case_match; [by constructor|].
  intros [->|?]%elem_of_cons; constructor; auto.
Qed.

Lemma NoDup_erase_quota iface l : NoDup (map ifaceName l) -> NoDup (map ifaceName (erase_quota iface l)).
Proof.
  induction l as [|q l IH]; cbn in *; [done|]. intros [Hq Hl]%NoDup_cons. case_match; [done|].
  constructor; [|by apply IH]. by intros ?%elem_of_erase_quota.
Qed.

Lemma find_quota_None iface l : find_quota iface l = None -> iface ∉ map ifaceName l.
Proof.
  induction l as [|q l IH]; cbn; [intros _; apply not_elem_of_nil|]. case_match eqn:E; [done|].
  intros H. apply not_elem_of_cons. split; [|by apply IH]. intros ->. by rewrite String.eqb_refl in E.
Qed.

(** *** Every operation keeps the invariant *)
Section Keeps.
Context {K : Kernel}.

Definition keeps {A} (m : M t A) : Prop :=
  forall s tr, invariant s -> wp m (fun _ s' _ => invariant s') s tr.

Lemma keeps_frame {A} (m : M t A) : frame m -> keeps m.
Proof. intros Hm s tr Hs. by apply Hm. Qed.

Lemma keeps_ret {A} (a : A) : keeps (mret a).
Proof. intros s tr Hs. by apply wp_ret. Qed.

Lemma keeps_bind {A B} (m : M t A) (k : A -> M t B) : keeps m -> (forall a, keeps (k a)) -> keeps (m ≫= k).
Proof.
  intros Hm Hk s tr Hs. apply wp_bind. eapply wp_mono; [by apply Hm|]. cbn. intros a s' tr' Hs'.
  by apply Hk.
Qed.

Lemma keeps_modify f : (forall s, invariant s -> invariant (f s)) -> keeps (modify f).
Proof. intros Hf s tr Hs. by apply wp_modify, Hf. Qed.

Lemma keeps_setup : keeps setupIptablesHooks.
Proof. apply keeps_frame. unfold setupIptablesHooks. frames. Qed.

Lemma fresh_invariant : invariant (State [] 0 0 0 0 [] [] []).
Proof. split; cbn; try constructor; done || lia. Qed.

Lemma enable_fresh s tr : wp (enableBandwidthControl true) (fun _ s' _ => invariant s') s tr.
Proof.
  unfold enableBandwidthControl. apply wp_bind, wp_ret. cbn [negb andb]. apply wp_bind, wp_modify.
  step_frame. assert (frame (runCommands IPT_BASIC_ACCOUNTING_COMMANDS RunCmdFailureBad)) as H by auto with frame.
  apply H. intros. apply fresh_invariant.
Qed.

Lemma keeps_enable force : keeps (enableBandwidthControl force).
Proof.
  intros s tr Hs. unfold enableBandwidthControl. apply wp_bind.
  assert (frame (if force then mret "1" else sys_property "persist.bandwidth.enable")) as Hf
    by (destruct force; auto with frame).
  apply Hf. intros value tr1. destruct (negb force && _); [by apply wp_ret|].
  apply wp_bind, wp_modify. step_frame.
  assert (frame (runCommands IPT_BASIC_ACCOUNTING_COMMANDS RunCmdFailureBad)) as H1 by auto with frame.
  apply H1. intros. apply fresh_invariant.
Qed.

Lemma keeps_disable : keeps disableBandwidthControl.
Proof. apply keeps_frame. unfold disableBandwidthControl. frames. Qed.

(** Changing one member. *)
Ltac inv_update := intros []; split; cbn in *; try done.

Lemma inv_set_nice l s : NoDup l -> invariant s -> invariant (set_niceAppUids l s).
Proof. intros Hl. by inv_update. Qed.
Lemma inv_set_naughty l s : NoDup l -> invariant s -> invariant (set_naughtyAppUids l s).
Proof. intros Hl. by inv_update. Qed.
Lemma inv_set_global v s : invariant s -> invariant (set_globalAlertBytes v s).
Proof. by inv_update. Qed.
Lemma inv_set_tethers v s : is_int v -> invariant s -> invariant (set_globalAlertTetherCount v s).
Proof. intros Hv. by inv_update. Qed.
Lemma inv_put_alert iface v s : invariant s -> invariant (put_alert iface v s).
Proof.
  inv_update; [by rewrite map_update_quota|]. apply Forall_update_quota; [done|]. by intros q.
Qed.
Lemma inv_set_shared_alert v s : sharedQuotaBytes s <> 0 -> invariant s -> invariant (set_sharedAlertBytes v s).
Proof. intros Hv. by inv_update. Qed.

Lemma keeps_happy_on : keeps enableHappyBox.
Proof.
  unfold enableHappyBox.
  repeat first [apply keeps_frame; solve [auto with frame] | apply keeps_bind; [|intros ?]
               | apply keeps_modify; intros s Hs].
  apply inv_set_nice; [constructor|done].
Qed.

Lemma keeps_happy_off : keeps disableHappyBox.
Proof.
  unfold disableHappyBox.
  repeat first [apply keeps_frame; solve [auto with frame] | apply keeps_bind; [|intros ?]
               | apply keeps_modify; intros s Hs].
  apply inv_set_nice; [constructor|done].
Qed.

Lemma keeps_uids uids chain get put j op :
  (forall s, invariant s -> NoDup (get s)) ->
  (forall l s, NoDup l -> invariant s -> invariant (put l s)) ->
  keeps (manipulate_uids uids chain get put j op).
Proof.
  intros Hget Hput. induction uids as [|uid uids IH]; [apply keeps_ret|]. intros s tr Hs.
  cbn [manipulate_uids]. apply wp_bind, wp_gets.
  assert (forall cmd changed, invariant (put changed s) ->
    wp (modify (put changed);; res ← runIpxtablesCmd cmd j;
        if negb (res =? 0) then runIpxtablesCmd (makeIptablesSpecialAppCmd IptOpDelete uid chain) j;; mret (-1)
        else manipulate_uids uids chain get put j op) (fun _ s' _ => invariant s') s tr) as Hrest.
  { intros cmd changed Hc. apply wp_bind, wp_modify. step_frame. case_match; [|by apply IH].
    step_frame. by apply wp_ret. }
  destruct op.
  - destruct (has_uid uid (get s)) eqn:E; [by apply wp_ret|]. apply Hrest, Hput; [|done].
    constructor; [|by apply Hget]. intros ?%has_uid_elem. congruence.
  - destruct (negb (has_uid uid (get s))); [by apply wp_ret|]. apply Hrest, Hput; [|done].
    apply NoDup_erase_uid. by apply Hget.
Qed.

Lemma keeps_apps uids chain get put j op :
  (forall s, invariant s -> NoDup (get s)) ->
  (forall l s, NoDup l -> invariant s -> invariant (put l s)) ->
  keeps (manipulateSpecialApps uids chain get put j op).
Proof.
  intros. unfold manipulateSpecialApps. case_match; [by apply keeps_uids|apply keeps_ret].
Qed.

Lemma keeps_global : forall bytes, keeps (setGlobalAlert bytes).
Proof.
  intros bytes. unfold setGlobalAlert. case_match; [apply keeps_ret|].
  apply keeps_bind; [apply keeps_frame; auto with frame|]. intros s0. apply keeps_bind.
  - apply keeps_frame. frames.
  - intros res. apply keeps_bind; [|intros; apply keeps_ret]. apply keeps_modify. intros. by apply inv_set_global.
Qed.

Lemma keeps_global_off : keeps removeGlobalAlert.
Proof.
  unfold removeGlobalAlert. apply keeps_bind; [apply keeps_frame; auto with frame|]. intros s0.
  case_match; [apply keeps_ret|].
  repeat (apply keeps_bind; [apply keeps_frame; solve [frames]|intros ?]).
  apply keeps_bind; [|intros; apply keeps_ret]. apply keeps_modify. intros. by apply inv_set_global.
Qed.

Lemma keeps_tether_on : keeps setGlobalAlertInForwardChain.
Proof.
  unfold setGlobalAlertInForwardChain. apply keeps_bind.
  - apply keeps_modify. intros s Hs. apply inv_set_tethers; [apply s32_int|done].
  - intros _. apply keeps_frame. frames.
Qed.

Lemma keeps_tether_off : keeps removeGlobalAlertInForwardChain.
Proof.
  intros s tr Hs. unfold removeGlobalAlertInForwardChain. apply wp_bind, wp_gets.
  case_match; [by apply wp_ret|]. bool_to_prop. apply wp_bind, wp_modify.
  assert (invariant (set_globalAlertTetherCount (s32 (globalAlertTetherCount s - 1)) s)) as Hs'.
  { apply inv_set_tethers; [apply s32_int|done]. }
  revert Hs'. apply keeps_frame. frames.
Qed.

Lemma keeps_costly_alert costName bytes get put :
  (forall v s, invariant s -> get s <> 0 \/ v = bytes -> invariant (put v s)) ->
  keeps (setCostlyAlert costName bytes get put).
Proof.
  intros Hput. unfold setCostlyAlert. do 2 (case_match; [apply keeps_ret|]).
  repeat (apply keeps_bind; [apply keeps_frame; solve [frames]|intros ?]).
  apply keeps_bind; [|intros; apply keeps_ret]. apply keeps_modify. intros. apply Hput; auto.
Qed.

Lemma keeps_costly_alert_off costName get put :
  (forall s, invariant s -> invariant (put 0 s)) -> keeps (removeCostlyAlert costName get put).
Proof.
  intros Hput. unfold removeCostlyAlert. case_match; [apply keeps_ret|].
  apply keeps_bind; [apply keeps_frame; solve [frames]|intros ?]. case_match; [apply keeps_ret|].
  apply keeps_bind; [apply keeps_frame; solve [frames]|intros ?].
  apply keeps_bind; [|intros; apply keeps_ret]. by apply keeps_modify.
Qed.

Lemma keeps_iface_alert iface bytes : keeps (setInterfaceAlert iface bytes).
Proof.
  unfold setInterfaceAlert. do 2 (case_match; [apply keeps_ret|]).
  apply keeps_bind; [apply keeps_frame; solve [frames]|intros l]. case_match; [|apply keeps_ret].
  apply keeps_costly_alert. intros. by apply inv_put_alert.
Qed.

Lemma keeps_iface_alert_off iface : keeps (removeInterfaceAlert iface).
Proof.
  unfold removeInterfaceAlert. case_match; [apply keeps_ret|].
  apply keeps_bind; [apply keeps_frame; solve [frames]|intros l]. case_match; [|apply keeps_ret].
  apply keeps_costly_alert_off. intros. by apply inv_put_alert.
Qed.

Lemma keeps_shared_alert_off : keeps removeSharedAlert.
Proof. apply keeps_costly_alert_off. intros s []. by split. Qed.

(** The effect of a costly alert on the members: at most the alert changes. *)
Lemma wp_shared_alert bytes (Q : Z -> t -> trace -> Prop) s tr :
  (forall r tr', Q r s tr') -> (forall r tr', Q r (set_sharedAlertBytes bytes s) tr') ->
  wp (setCostlyAlert "shared" bytes sharedAlertBytes set_sharedAlertBytes) Q s tr.
Proof.
  intros H1 H2. unfold setCostlyAlert. do 2 (case_match; [by apply wp_ret|]).
  apply wp_bind, wp_gets. apply wp_bind.
  match goal with |- wp ?m _ _ _ => assert (frame m) as Hm by frames end. apply Hm. intros r tr'.
  by apply wp_bind, wp_modify, wp_ret.
Qed.

Lemma keeps_shared_alert bytes : keeps (setSharedAlert bytes).
Proof.
  intros s tr Hs. unfold setSharedAlert. apply wp_bind, wp_gets. case_match eqn:E; [by apply wp_ret|].
  case_match; [by apply wp_ret|]. apply wp_shared_alert; [done|]. intros _ _.
  apply inv_set_shared_alert; [|done]. by apply Z.eqb_neq.
Qed.

Lemma inv_erase_shared iface s :
  invariant s -> sharedQuotaBytes s <> 0 ->
  erase_name iface (sharedQuotaIfaces s) <> [] ->
  invariant (set_sharedQuotaIfaces (erase_name iface (sharedQuotaIfaces s)) s).
Proof.
  intros [] Hb Hne. split; cbn; try done.
  - by apply NoDup_erase_name.
  - rewrite Forall_forall in *. intros x Hx. apply inv_shared_names0. by eapply elem_of_erase_name.
Qed.

Lemma inv_no_shared s :
  invariant s -> invariant (set_sharedAlertBytes 0 (set_sharedQuotaBytes 0 (set_sharedQuotaIfaces [] s))).
Proof. intros []. split; cbn; done || constructor. Qed.

Lemma keeps_remove_shared iface : keeps (removeInterfaceSharedQuota iface).
Proof.
  intros s tr Hs. unfold removeInterfaceSharedQuota. do 2 (case_match; [by apply wp_ret|]).
  apply wp_bind, wp_gets. case_match eqn:E; [by apply wp_ret|]. apply negb_false_iff, has_name_elem in E.
  step_frame. apply wp_bind, wp_modify. apply wp_bind, wp_gets. cbn [sharedQuotaIfaces set_sharedQuotaIfaces].
  assert (sharedQuotaBytes s <> 0) as Hb.
  { rewrite <-(inv_shared_bytes s Hs). intros Hnil. rewrite Hnil in E. by apply elem_of_nil in E. }
  destruct (erase_name iface (sharedQuotaIfaces s)) as [|x l] eqn:El.
  - step_frame. apply wp_bind, wp_modify. apply wp_bind. cbn [sharedAlertBytes set_sharedQuotaIfaces].
    pose proof (inv_no_shared s Hs) as Hend.
    destruct (sharedAlertBytes s =? 0) eqn:Ea; cbn [negb].
    + apply wp_ret, wp_ret. destruct s. cbn in *. apply Z.eqb_eq in Ea as ->. exact Hend.
    + apply wp_bind. unfold removeSharedAlert, removeCostlyAlert. cbn [isIfaceName].
      case_match; [by apply wp_ret, wp_modify, wp_ret|].
      apply wp_bind, wp_gets. case_match; [by apply wp_ret, wp_modify, wp_ret|].
      step_frame. apply wp_bind, wp_modify, wp_ret, wp_modify, wp_ret. exact Hend.
  - apply wp_ret. rewrite <-El. apply inv_erase_shared; [done..|]. by rewrite El.
Qed.

Lemma keeps_shared_update ifn maxBytes res s tr :
  maxBytes <> 0 -> invariant s -> sharedQuotaBytes s <> 0 ->
  wp (shared_quota_update ifn maxBytes res) (fun _ s' _ => invariant s') s tr.
Proof.
  intros Hmax Hs Hb. unfold shared_quota_update. apply wp_bind, wp_gets. case_match; [by apply wp_ret|].
  step_frame. case_match.
  - apply wp_bind. eapply wp_mono; [by apply keeps_remove_shared|]. by intros.
  - apply wp_bind, wp_modify, wp_ret. destruct Hs. split; cbn; try done. rewrite inv_shared_bytes0. tauto.
Qed.

Lemma inv_push_shared iface bytes s :
  isIfaceName iface = true -> iface ∉ sharedQuotaIfaces s -> bytes <> 0 ->
  invariant s -> invariant (set_sharedQuotaIfaces (iface :: sharedQuotaIfaces s) (set_sharedQuotaBytes bytes s)).
Proof.
  intros Hi Hnot Hb []. split; cbn; try done; [by constructor|by constructor].
Qed.

Lemma keeps_set_shared iface maxBytes : keeps (setInterfaceSharedQuota iface maxBytes).
Proof.
  intros s tr Hs. unfold setInterfaceSharedQuota. case_match eqn:Hmax; [by apply wp_ret|].
  case_match eqn:Hi; [by apply wp_ret|]. case_match; [by apply wp_ret|].
  case_match; [by apply keeps_remove_shared|]. bool_to_prop. apply wp_bind, wp_gets.
  destruct (has_name iface (sharedQuotaIfaces s)) eqn:E.
  - apply has_name_elem in E. apply keeps_shared_update; [done..|].
    rewrite <-(inv_shared_bytes s Hs). intros Hnil. rewrite Hnil in E. by apply elem_of_nil in E.
  - assert (iface ∉ sharedQuotaIfaces s) as Hnot by (intros ?%has_name_elem; congruence).
    step_frame. destruct (sharedQuotaIfaces s) as [|x l] eqn:El.
    + step_frame. case_match.
      * apply wp_bind. eapply wp_mono; [by apply keeps_remove_shared|]. by intros.
      * apply wp_bind, wp_modify, wp_bind, wp_modify. apply keeps_shared_update; [done| |done].
        apply (inv_push_shared iface maxBytes s); [done|by rewrite El|done..].
    + apply wp_bind, wp_modify.
      assert (sharedQuotaBytes s <> 0) as Hb by (rewrite <-(inv_shared_bytes s Hs), El; done).
      apply keeps_shared_update; [done| |done].
      pose proof (inv_push_shared iface (sharedQuotaBytes s) s Hi) as Hpush. rewrite <-El in Hnot.
      specialize (Hpush Hnot Hb Hs). destruct s. exact Hpush.
Qed.

Lemma keeps_remove_quota iface : keeps (removeInterfaceQuota iface).
Proof.
  intros s tr Hs. unfold removeInterfaceQuota. do 2 (case_match; [by apply wp_ret|]).
  apply wp_bind, wp_gets. case_match; [|by apply wp_ret]. step_frame. apply wp_bind, wp_modify, wp_ret.
  destruct Hs. split; cbn; try done; [by apply NoDup_erase_quota|by apply Forall_erase_quota].
Qed.

Lemma keeps_set_quota iface maxBytes : keeps (setInterfaceQuota iface maxBytes).
Proof.
  intros s tr Hs. unfold setInterfaceQuota. case_match eqn:Hi; [by apply wp_ret|].
  case_match eqn:Hmax; [by apply wp_ret|]. case_match; [by apply keeps_remove_quota|].
  case_match; [by apply wp_ret|]. bool_to_prop. apply wp_bind, wp_gets.
  assert (forall tr', wp (removeInterfaceSharedQuota iface;; mret (-1)) (fun _ s' _ => invariant s') s tr') as Hfail.
  { intros tr'. apply wp_bind. eapply wp_mono; [by apply keeps_remove_shared|]. by intros. }
  case_match eqn:E.
  - step_frame. case_match; [apply Hfail|]. apply wp_bind, wp_modify, wp_ret.
    destruct Hs. split; cbn; try done; [by rewrite map_update_quota|].
    apply Forall_update_quota; [done|]. by intros q0 [].
  - step_frame. step_frame. case_match; [apply Hfail|]. apply wp_bind, wp_modify, wp_ret.
    apply find_quota_None in E. destruct Hs. split; cbn; try done; by constructor.
Qed.

Lemma keeps_call c : keeps (run_call c).
Proof.
  destruct c; cbn [run_call].
  - apply keeps_setup.
  - apply keeps_enable.
  - apply keeps_disable.
  - apply keeps_set_shared.
  - apply keeps_remove_shared.
  - apply keeps_set_quota.
  - apply keeps_remove_quota.
  - apply keeps_happy_on.
  - apply keeps_happy_off.
  - apply keeps_apps; [by intros s []|by apply inv_set_naughty].
  - apply keeps_apps; [by intros s []|by apply inv_set_nice].
  - apply keeps_global.
  - apply keeps_global_off.
  - apply keeps_tether_on.
  - apply keeps_tether_off.
  - apply keeps_shared_alert.
  - apply keeps_shared_alert_off.
  - apply keeps_iface_alert.
  - apply keeps_iface_alert_off.
Qed.

Lemma reached_invariant s tr : reached s tr -> invariant s.
Proof.
  induction 1 as [s tr ret s' tr' E|c s tr ret s' tr' _ IH E].
  - exact (wp_run _ _ _ _ _ _ _ E (enable_fresh s tr)).
  - exact (wp_run _ _ _ _ _ _ _ E (keeps_call c s tr IH)).
Qed.
End Keeps.

(** ** Properties *)

Lemma bytes_of_app s1 s2 : bytes_of (s1 +:+ s2) = bytes_of s1 ++ bytes_of s2.
Proof.
  induction s1 as [|c s1 IH]; [done|]. change (code c :: bytes_of (s1 +:+ s2) = code c :: bytes_of s1 ++ bytes_of s2).
  by rewrite IH.
Qed.

Lemma no_nul_app s1 s2 : no_nul s1 -> no_nul s2 -> no_nul (s1 +:+ s2).
Proof. unfold no_nul. intros. rewrite bytes_of_app. by apply Forall_app. Qed.

Lemma no_nul_unwords ws : Forall no_nul ws -> no_nul (unwords ws).
Proof.
  induction 1 as [|w ws Hw Hws IH]; [constructor|]. destruct ws as [|w' ws]; [done|].
  change (no_nul (w +:+ " " +:+ unwords (w' :: ws))). apply no_nul_app; [done|]. apply no_nul_app; [|done].
  by repeat constructor.
Qed.

Lemma StrncpyAndCheck_long src size : no_nul src -> 0 < size <= strlen src -> StrncpyAndCheck src size <> 0.
Proof.
  unfold StrncpyAndCheck, strlen. intros Hn Hsize.
  assert (Z.to_nat (size - 1) < String.length src)%nat as Hlt by lia. clear Hsize. revert Hlt.
  generalize (Z.to_nat (size - 1)). intros n. revert n. induction src as [|c src IH]; intros n Hlt; cbn in Hlt; [lia|].
  unfold no_nul in Hn. cbn in Hn. apply Forall_cons in Hn as [Hc Hn].
  destruct n as [|n]; cbn; [done|]. apply IH; [exact Hn|lia].
Qed.

(** C38. A command made of words without spaces reaches the program as exactly
    those words, followed by the jump; but a command line of 1024 bytes or more,
    or of 32 words or more, is refused with -1 and runs nothing. *)
Theorem runIptablesCmd_words {K : Kernel} ws j v s tr :
  ws <> [] -> Forall (fun w => no_space w = true /\ no_nul w) ws ->
  let argv := ver_path v :: ws ++ jump_words j in
  runIptablesCmd (unwords ws) j v s tr =
  if (1024 <=? strlen (unwords argv)) || (32 <=? Z.of_nat (length argv)) then (-1, s, tr)
  else (if exec_ok (k_exec tr argv) then 0 else 1, s, tr ++ [EvExec argv (k_exec tr argv)]).
Proof.
  intros Hne Hws. cbv zeta.
  assert (Forall (fun w => no_space w = true /\ no_nul w) (ver_path v :: ws ++ jump_words j)) as Hall.
  { constructor; [by destruct v; split; repeat constructor|]. apply Forall_app. split; [done|].
    by destruct j; repeat constructor. }
  assert (full_cmd (unwords ws) j v = unwords (ver_path v :: ws ++ jump_words j)) as E by by apply full_cmd_eq.
  unfold runIptablesCmd. rewrite E.
  rewrite strsep_unwords by (done || (eapply Forall_impl; [exact Hall|]; by intros ? [])).
  destruct (1024 <=? strlen (unwords (ver_path v :: ws ++ jump_words j))) eqn:El; cbn [orb]; bool_to_prop.
  - rewrite (proj2 (Z.eqb_neq _ _)); [done|]. apply StrncpyAndCheck_long; [|unfold MAX_CMD_LEN; lia].
    apply no_nul_unwords. eapply Forall_impl; [exact Hall|]. by intros ? [].
  - rewrite StrncpyAndCheck_fits by done. cbn [Z.eqb negb]. unfold MAX_CMD_ARGS.
    destruct (32 <=? _); [done|]. unfold mbind, M_bind, sys_exec, exec_ok.
    destruct (k_exec tr _) as [ret ex st]. cbn [ex_ret ex_exited ex_status].
    by destruct (ret =? 0), ex, (st =? 0).
Qed.

Lemma runIptablesCmd_words_witness :
  runIptablesCmd (K:=good_kernel) (unwords ["-I"; "bw_penalty_box"; "-m"; "owner"; "--uid-owner"; "10001"])
    IptJumpReject IptIpV6 (State [] 0 0 0 0 [] [] []) [] =
  (0, State [] 0 0 0 0 [] [] [],
   [EvExec [IP6TABLES_PATH; "-I"; "bw_penalty_box"; "-m"; "owner"; "--uid-owner"; "10001"; "--jump"; "REJECT"]
      (ExecRes 0 true 0)]).
Proof.
  rewrite (runIptablesCmd_words (K:=good_kernel) ["-I"; "bw_penalty_box"; "-m"; "owner"; "--uid-owner"; "10001"]
    IptJumpReject IptIpV6).
  - vm_compute. reflexivity.
  - discriminate.
  - repeat (apply Forall_cons_2; [split; [reflexivity|repeat (apply Forall_cons_2; [vm_compute; discriminate|]); apply Forall_nil_2]|]).
    apply Forall_nil_2.
Defined.

(** Whatever the programs and files answer, and whatever the calls return:
    the shared quota has interfaces exactly when it has a number of bytes, an alert
    on it only exists with it, no interface and no application is listed twice,
    every interface listed has a valid name, no quota is 0, and the number of tethers
    is an int. *)
Theorem bandwidth_invariant {K : Kernel} s tr :
  reached s tr ->
  (sharedQuotaIfaces s = [] <-> sharedQuotaBytes s = 0) /\
  (sharedAlertBytes s <> 0 -> sharedQuotaBytes s <> 0) /\
  NoDup (sharedQuotaIfaces s) /\ NoDup (map ifaceName (quotaIfaces s)) /\
  NoDup (naughtyAppUids s) /\ NoDup (niceAppUids s) /\
  Forall (fun n => isIfaceName n = true) (sharedQuotaIfaces s) /\
  Forall (fun q => isIfaceName (ifaceName q) = true /\ quota q <> 0) (quotaIfaces s) /\
  is_int (globalAlertTetherCount s).
Proof. by intros []%reached_invariant. Qed.

Lemma bandwidth_invariant_witness :
  let start := enableBandwidthControl (K:=bad_kernel) true (State ["x"; "x"] 0 1 0 (-3) [] [1; 1] []) [] in
  let set := run_call (K:=bad_kernel) (SetInterfaceSharedQuota "wlan0" 1000) start.1.2 start.2 in
  let add := run_call (K:=bad_kernel) (NaughtyApps ["10001"] SpecialAppOpAdd) set.1.2 set.2 in
  set.1.1 = -1 /\ naughtyAppUids add.1.2 = [10001] /\ NoDup (naughtyAppUids add.1.2).
Proof.
  split; [vm_compute; reflexivity|]. split; [vm_compute; reflexivity|].
  set (start := enableBandwidthControl (K:=bad_kernel) true (State ["x"; "x"] 0 1 0 (-3) [] [1; 1] []) []).
  set (set := run_call (K:=bad_kernel) (SetInterfaceSharedQuota "wlan0" 1000) start.1.2 start.2).
  set (add := run_call (K:=bad_kernel) (NaughtyApps ["10001"] SpecialAppOpAdd) set.1.2 set.2).
  apply (bandwidth_invariant (K:=bad_kernel) add.1.2 add.2).
  apply (reached_call (K:=bad_kernel) (NaughtyApps ["10001"] SpecialAppOpAdd) set.1.2 set.2 add.1.1).
  - apply (reached_call (K:=bad_kernel) (SetInterfaceSharedQuota "wlan0" 1000) start.1.2 start.2 set.1.1).
    + apply (reached_enable (K:=bad_kernel) (State ["x"; "x"] 0 1 0 (-3) [] [1; 1] []) [] start.1.1).
      vm_compute. reflexivity.
    + vm_compute. reflexivity.
  - vm_compute. reflexivity.
Defined.

(** ** What the code does not mean to do *)

(** The second interface of a shared quota: 0 is returned although no command for
    it succeeded. *)
Lemma second_interface_ignored :
  setInterfaceSharedQuota (K:=bad_kernel) "wlan0" 1000 (State ["rmnet0"] 1000 0 0 0 [] [] []) [] =
  (0, State ["wlan0"; "rmnet0"] 1000 0 0 0 [] [] [],
   (setInterfaceSharedQuota (K:=bad_kernel) "wlan0" 1000 (State ["rmnet0"] 1000 0 0 0 [] [] []) []).2).
Proof. vm_compute. reflexivity. Qed.

(** Failing to update the quota of one interface takes that interface out of the
    shared quota. *)
Lemma failed_quota_leaves_shared :
  (setInterfaceQuota (K:=bad_kernel) "wlan0" 5 (State ["wlan0"; "rmnet0"] 1000 0 0 0 [Quota "wlan0" 3 0] [] []) []).1 =
  (-1, State ["rmnet0"] 1000 0 0 0 [Quota "wlan0" 3 0] [] []).
Proof. vm_compute. reflexivity. Qed.

(** Changing an alert writes the old number of bytes to the file. *)
Lemma changed_alert_keeps_old :
  (setSharedAlert (K:=good_kernel) 9 (State ["wlan0"] 1000 4 0 0 [] [] []) []).2 =
  [EvFile (FOpen "/proc/net/xt_quota/sharedAlert") 3;
   EvFile (FWrite "/proc/net/xt_quota/sharedAlert" ("4" +:+ String newline "")) 3].
Proof. vm_compute. reflexivity. Qed.
End BandwidthSpec.
