(* ===== verification/BandwidthChains.v ===== *)
(** * BandwidthChains: the iptables chains of BandwidthController

    Under an environment that accepts every command: the penalty box and the
    happy box hold one rule per restricted application, in the order of the
    controller's lists; an interface is jumped to the shared costly chain exactly
    when it is under the shared quota. *)
From S2P Require Import Prelude Platform Cstd Netlink NetdConstants Ledger Iptables.
From S2P Require Import RouteSpec SampleKernel BandwidthController BandwidthSpec.

Module BandwidthChains.
Import BandwidthController.BandwidthController.
Import BandwidthSpec.BandwidthSpec.

(** ** Commands and chains *)

(** A chain of one of the two programs. *)
Definition our_chain (c : chain_name) : Prop := cn_path c = IPTABLES_PATH \/ cn_path c = IP6TABLES_PATH.

Lemma replay_two_paths c rs ws :
  our_chain c ->
  replay c rs [IPTABLES_PATH :: ws; IP6TABLES_PATH :: ws] = run_argv c rs (cn_path c :: ws).
Proof.
  unfold replay. cbn [foldl]. intros [E|E]; rewrite E.
  - by rewrite (run_argv_other_path c _ IP6TABLES_PATH) by (rewrite E; done).
  - by rewrite (run_argv_other_path c _ IPTABLES_PATH) by (rewrite E; done).
Qed.

(** A closed command is checked by computation. *)
Definition check_command (cmd : string) : bool :=
  let ws := strsep_all cmd in
  String.eqb cmd (unwords ws) && bool_decide (ws <> []) && forallb no_space ws &&
  (strlen cmd <? 900) && (length ws <? 28)%nat.

Lemma closed_command cmd ws : check_command cmd = true -> strsep_all cmd = ws -> is_command cmd ws.
Proof.
  unfold check_command. cbv zeta. intros H <-. rewrite !andb_true_iff in H.
  destruct H as [[[[H1 H2] H3] H4] H5]. split_and!.
  - by apply String.eqb_eq.
  - by apply bool_decide_eq_true in H2.
  - apply Forall_forall. intros w Hw. rewrite forallb_forall in H3. apply H3. by apply list_elem_of_In.
  - lia.
  - by apply Nat.ltb_lt.
Qed.

Lemma closed_commands cmds :
  forallb check_command cmds = true -> Forall2 is_command cmds (map strsep_all cmds).
Proof.
  induction cmds as [|cmd cmds IH]; cbn; [constructor|]. intros [H1 H2]%andb_true_iff.
  constructor; [by apply closed_command|by apply IH].
Qed.

Section Chains.
Context {K : Kernel} {KA : Accepting K}.

Lemma wp_run_chain cmd ws j (Q : Z -> t -> trace -> Prop) s tr :
  is_command cmd ws ->
  (forall tr', (forall c, our_chain c ->
     chain_rules c tr' = run_argv c (chain_rules c tr) (cn_path c :: ws ++ jump_words j)) -> Q 0 s tr') ->
  wp (runIpxtablesCmd cmd j) Q s tr.
Proof.
  intros Hc HQ. apply (wp_runIpxtablesCmd cmd ws); [done|]. intros tr' E. apply HQ. intros c Hc'.
  unfold chain_rules. rewrite E, replay_app. by apply replay_two_paths.
Qed.

(** A table of closed commands. *)
Definition run_words (c : chain_name) (rs : list iprule) (wss : list (list string)) : list iprule :=
  foldl (fun rs ws => run_argv c rs (cn_path c :: ws)) rs wss.

Lemma wp_runCommands_chain cmds wss h (Q : Z -> t -> trace -> Prop) s tr :
  Forall2 is_command cmds wss ->
  (forall tr', (forall c, our_chain c -> chain_rules c tr' = run_words c (chain_rules c tr) wss) -> Q 0 s tr') ->
  wp (runCommands cmds h) Q s tr.
Proof.
  intros HF. revert tr. induction HF as [|cmd ws cmds wss Hc _ IH]; intros tr HQ.
  - by apply HQ.
  - cbn [runCommands]. apply wp_bind, (wp_run_chain cmd ws); [done|]. intros tr1 E1. cbn [Z.eqb negb andb].
    apply IH. intros tr2 E2. apply HQ. intros c Hc'. rewrite E2, E1 by done. by rewrite app_nil_r.
Qed.
End Chains.

(** *** The per-interface chains left by a previous run *)
Section Flush.
Context {K : Kernel}.

(** A chain whose name is not that of a per-interface chain. *)
Definition not_costly (c : chain_name) : Prop := forall x, cn_name c <> "bw_costly_" +:+ x.

Lemma substring_prefix p n s :
  (String.length p <= n)%nat -> String.substring 0 n (p +:+ s) = p +:+ String.substring 0 (n - String.length p) s.
Proof.
  revert n. induction p as [|c p IH]; intros n Hn; cbn in Hn; [by rewrite Nat.sub_0_r|].
  destruct n as [|n]; [lia|]. change (String c (String.substring 0 n (p +:+ s)) = String c (p +:+ String.substring 0 (n - String.length p) s)).
  by rewrite IH by lia.
Qed.

Lemma run_costly_op c rs path op x :
  not_costly c -> op = "-F" \/ op = "-X" -> no_space path = true ->
  run_argv c rs (strsep_all (path +:+ " " +:+ op +:+ " bw_costly_" +:+ x)) = rs.
Proof.
  intros Hc Hop Hp. unfold strsep_all.
  rewrite strsep_loop_word by done. cbn [String.app].
  assert (exists y rest, strsep_loop "" (op +:+ " bw_costly_" +:+ x) = op :: ("bw_costly_" +:+ y) :: rest) as (y & rest & ->).
  { change (op +:+ " bw_costly_" +:+ x) with (op +:+ " " +:+ "bw_costly_" +:+ x).
    rewrite strsep_loop_word by (by destruct Hop as [-> | ->]).
    change (strsep_loop "" ("bw_costly_" +:+ x)) with (strsep_loop "bw_costly_" x).
    destruct (strsep_loop_head "bw_costly_" x) as (y & rest & ->). by exists y, rest. }
  unfold run_argv, parse_iptables.
  destruct Hop as [-> | ->]; cbn -[String.app]; rewrite decide_False; try done; intros ->; by apply (Hc y).
Qed.

(** The chains other than the per-interface ones are the same. *)
Definition same_chains (tr tr' : trace) : Prop :=
  forall c, not_costly c -> chain_rules c tr' = chain_rules c tr.

Lemma wp_costly_cmd op x (Q : Z -> t -> trace -> Prop) s tr :
  op = "-F" \/ op = "-X" -> (forall r tr', same_chains tr tr' -> Q r s tr') ->
  wp (runIpxtablesCmd (snprintf_cmd (op +:+ " bw_costly_" +:+ x)) IptJumpNoAdd) Q s tr.
Proof.
  intros Hop HQ.
  assert (forall v (Q : Z -> t -> trace -> Prop) tr, (forall r tr', same_chains tr tr' -> Q r s tr') ->
    wp (runIptablesCmd (snprintf_cmd (op +:+ " bw_costly_" +:+ x)) IptJumpNoAdd v) Q s tr) as H1.
  { clear Q tr HQ. intros v Q tr HQ. unfold runIptablesCmd. case_match; [by apply wp_ret, HQ|].
    case_match; [by apply wp_ret, HQ|]. apply wp_bind. unfold sys_exec, wp. apply HQ. intros c Hc.
    rewrite chain_rules_exec. case_match; [|done].
    assert (exists y, snprintf_cmd (op +:+ " bw_costly_" +:+ x) = op +:+ " bw_costly_" +:+ y) as [y Hy].
    { unfold snprintf_cmd. rewrite <-append_assoc, substring_prefix
        by (destruct Hop as [-> | ->]; apply Nat.leb_le; vm_compute; reflexivity).
      eexists. by rewrite append_assoc. }
    rewrite Hy. unfold full_cmd. rewrite append_empty_r.
    destruct v; by apply (run_costly_op c (chain_rules c tr)). }
  apply wp_bind, H1. intros r4 tr4 E4. apply wp_bind, H1. intros r6 tr6 E6. apply wp_ret, HQ.
  intros c Hc. by rewrite E6, E4.
Qed.

Lemma wp_flush_costly b (Q : unit -> t -> trace -> Prop) s tr :
  (forall tr', same_chains tr tr' -> Q tt s tr') -> wp (flushExistingCostlyTables b) Q s tr.
Proof.
  intros HQ. unfold flushExistingCostlyTables. apply wp_bind. unfold sys_popen at 1, wp at 1.
  case_match; [|by apply wp_ret, HQ]. unfold parseAndFlushCostlyTables.
  assert (forall tr1, same_chains tr tr1 ->
    wp (flush_costly_lines b (fgets_all MAX_IPT_OUTPUT_LINE_LEN s0)) Q s tr1) as H1; [|by apply H1].
  induction (fgets_all MAX_IPT_OUTPUT_LINE_LEN s0) as [|line lines IH]; intros tr1 E1; [by apply wp_ret, HQ|].
  cbn [flush_costly_lines].
  destruct (sscanf line "-N bw_costly_%s") as [|[w|n] [|v l]]; [by apply IH| |by apply IH..].
  case_match; [by apply IH|].
  apply wp_bind, (wp_costly_cmd "-F"); [by left|]. intros r tr2 E2. apply wp_bind.
  assert (same_chains tr tr2) as E12 by (intros c Hc; by rewrite E2, E1). destruct b.
  - apply (wp_costly_cmd "-X"); [by right|]. intros r3 tr3 E3. apply IH. intros c Hc. by rewrite E3, E12.
  - by apply wp_ret, IH.
Qed.
End Flush.

(** ** Restricted applications *)

Definition box (path name : string) : chain_name := Chain path "filter" name.

Definition uid_rule (target : string) (uid : Z) : iprule :=
  ["-m"; "owner"; "--uid-owner"; print_d uid; "--jump"; target].

(** The two boxes of the program [path]; [happy] tells whether the happy box is on. *)
Definition boxes_ok (happy : bool) (s : t) (tr : trace) : Prop :=
  forall path, path = IPTABLES_PATH \/ path = IP6TABLES_PATH ->
    chain_rules (box path "bw_penalty_box") tr =
      map (uid_rule "REJECT") (naughtyAppUids s) ++ (if happy then [["-j"; "bw_happy_box"]] else []) /\
    chain_rules (box path "bw_happy_box") tr =
      map (uid_rule "RETURN") (niceAppUids s) ++ (if happy then [["-j"; "REJECT"]] else []).

(** Histories of calls on the boxes, whatever they return. *)
Inductive app_history {K : Kernel} : bool -> t -> trace -> Prop :=
| app_start s tr ret s' tr' :
    enableBandwidthControl true s tr = (ret, s', tr') -> app_history false s' tr'
| app_happy_on happy s tr ret s' tr' :
    app_history happy s tr -> enableHappyBox s tr = (ret, s', tr') -> app_history true s' tr'
| app_happy_off happy s tr ret s' tr' :
    app_history happy s tr -> disableHappyBox s tr = (ret, s', tr') -> app_history false s' tr'
| app_naughty happy uids op s tr ret s' tr' :
    app_history happy s tr -> manipulateNaughtyApps uids op s tr = (ret, s', tr') ->
    app_history happy s' tr'
| app_nice happy uids op s tr ret s' tr' :
    app_history happy s tr -> manipulateNiceApps uids op s tr = (ret, s', tr') ->
    app_history happy s' tr'.

Lemma uid_rule_inj target x y : is_int x -> is_int y -> uid_rule target x = uid_rule target y -> x = y.
Proof. unfold is_int. intros Hx Hy [= E]. apply print_d_inj in E; lia. Qed.

Lemma remove_uid_rule target uid l tl :
  is_int uid -> Forall is_int l -> uid ∈ l ->
  remove_first (uid_rule target uid) (map (uid_rule target) l ++ tl) = map (uid_rule target) (erase_uid uid l) ++ tl.
Proof.
  intros Hu Hl. induction Hl as [|x l Hx Hl IH]; intros Hin; [by apply elem_of_nil in Hin|].
  cbn [map app erase_uid]. destruct (x =? uid) eqn:E; bool_to_prop.
  - subst x. by rewrite remove_first_cons_eq.
  - apply elem_of_cons in Hin as [?|Hin]; [congruence|].
    rewrite remove_first_cons_ne by (intros H; by apply uid_rule_inj in H). cbn [map app]. by rewrite IH.
Qed.

Lemma uid_rules_other (r : iprule) target l : (length r < 6)%nat -> r ∉ map (uid_rule target) l.
Proof. intros Hr (uid & -> & _)%list_elem_of_fmap. cbn in Hr. lia. Qed.

Lemma Forall_erase_uid (P : Z -> Prop) uid l : Forall P l -> Forall P (erase_uid uid l).
Proof. induction 1; cbn; [constructor|]. case_match; [done|by constructor]. Qed.

Lemma parse_uids_range l uids : parse_uids l = Some uids -> Forall is_int uids.
Proof.
  revert uids. induction l as [|str l IH]; intros uids; cbn [parse_uids]; [intros [= <-]; constructor|].
  destruct (strtoul str 0) as [v endptr]. case_match; [done|]. destruct (parse_uids l) as [us|]; [|done].
  intros [= <-]. constructor; [apply s32_int|by apply IH].
Qed.

(** The command for one application. *)
Lemma uid_command op uid chain :
  op <> IptOpAppend -> no_space chain = true -> strlen chain < 100 ->
  is_command (makeIptablesSpecialAppCmd op uid chain)
    [ipt_op_flag op; chain; "-m"; "owner"; "--uid-owner"; print_d uid].
Proof.
  intros Hop Hc Hl. assert (makeIptablesSpecialAppCmd op uid chain =
    unwords [ipt_op_flag op; chain; "-m"; "owner"; "--uid-owner"; print_d uid]) as E by (by destruct op).
  split_and!; [done|done| | |cbn; lia].
  - repeat first [apply Forall_cons_2 | apply Forall_nil_2]; try done; [by destruct op|apply print_d_no_space].
  - rewrite E. cbn [unwords]. rewrite !strlen_app. pose proof (print_d_length uid).
    destruct op; unfold strlen in *; cbn; lia.
Qed.

Section Apps.
Context {K : Kernel} {KA : Accepting K}.

Lemma enable_chains s tr (Q : Z -> t -> trace -> Prop) :
  (forall tr', (forall c, our_chain c -> not_costly c -> chain_rules c tr' =
      run_words c (chain_rules c tr) (map strsep_all (IPT_FLUSH_COMMANDS ++ IPT_BASIC_ACCOUNTING_COMMANDS))) ->
    Q 0 (State [] 0 0 0 0 [] [] []) tr') ->
  wp (enableBandwidthControl true) Q s tr.
Proof.
  intros HQ. unfold enableBandwidthControl. apply wp_bind, wp_ret. cbn [negb andb].
  apply wp_bind, wp_modify, wp_bind. unfold flushCleanTables. apply wp_bind, wp_flush_costly.
  intros tr1 E1. apply wp_bind, (wp_runCommands_chain _ (map strsep_all IPT_FLUSH_COMMANDS)).
  { apply closed_commands. vm_compute. reflexivity. }
  intros tr2 E2. apply wp_ret, (wp_runCommands_chain _ (map strsep_all IPT_BASIC_ACCOUNTING_COMMANDS)).
  { apply closed_commands. vm_compute. reflexivity. }
  intros tr3 E3. apply HQ. intros c Hc Hn. rewrite E3, E2, E1 by done. unfold run_words.
  by rewrite map_app, foldl_app.
Qed.

(** The boxes of one program, and what the commands of the boxes do to them. *)
Lemma box_our_chain path name : path = IPTABLES_PATH \/ path = IP6TABLES_PATH -> our_chain (box path name).
Proof. done. Qed.

Lemma box_not_costly path : not_costly (box path "bw_penalty_box") /\ not_costly (box path "bw_happy_box").
Proof. by split; intros x. Qed.

Definition apps_ok (happy : bool) (s : t) (tr : trace) : Prop :=
  Forall is_int (naughtyAppUids s) /\ Forall is_int (niceAppUids s) /\ boxes_ok happy s tr.

Lemma apps_start s tr : wp (enableBandwidthControl true) (fun _ s' tr' => apps_ok false s' tr') s tr.
Proof.
  apply enable_chains. intros tr' E. split; [constructor|]. split; [constructor|]. intros path Hp.
  destruct (box_not_costly path) as [N1 N2]. rewrite !E by done. by destruct Hp as [-> | ->].
Qed.

(** The jump to the happy box, and the end of the happy box. *)
Lemma remove_tail (r : iprule) target l happy :
  (length r < 6)%nat ->
  remove_first r (map (uid_rule target) l ++ (if happy : bool then [r] else [])) = map (uid_rule target) l.
Proof.
  intros Hr. rewrite remove_first_app_notin by by apply uid_rules_other.
  destruct happy; [by rewrite remove_first_cons_eq, app_nil_r|by rewrite app_nil_r].
Qed.

Lemma run_box path name rs op name' spec :
  is_numeral (default "" (head spec)) = false -> op = "-I" \/ op = "-A" \/ op = "-D" ->
  run_argv (box path name) rs (path :: op :: name' :: spec) =
  if String.eqb name name' then
    if String.eqb op "-I" then spec :: rs else if String.eqb op "-A" then rs ++ [spec] else remove_first spec rs
  else rs.
Proof.
  intros Hn Hop. unfold run_argv, parse_iptables, box.
  assert (parse_op (op :: name' :: spec) =
    Some (name', if String.eqb op "-I" then OpInsert 0 spec else if String.eqb op "-A" then OpAppend spec
                 else OpDelete spec)) as E.
  { destruct Hop as [-> |[-> | ->]]; [|done..]. cbn. destruct spec as [|w spec]; [done|]. cbn in Hn. by rewrite Hn. }
  destruct (String.eqb_spec name name') as [->|Hne];
    destruct Hop as [-> |[-> | ->]]; cbn -[parse_op] in *; rewrite E; cbn;
    first [rewrite decide_True by done | rewrite decide_False by congruence]; try done.
Qed.

Lemma run_box_clear path name rs op name' :
  op = "-F" \/ op = "-N" \/ op = "-X" ->
  run_argv (box path name) rs [path; op; name'] = if String.eqb name name' then [] else rs.
Proof.
  intros Hop. unfold run_argv, parse_iptables, box.
  destruct (String.eqb_spec name name') as [->|Hne]; destruct Hop as [-> |[-> | ->]]; cbn;
    first [rewrite decide_True by done | rewrite decide_False by congruence]; done.
Qed.

(** Evaluate commands on a box. *)
Ltac run_boxes :=
  cbn [app jump_words cn_path box];
  repeat (first [rewrite run_box by (reflexivity || auto) | rewrite run_box_clear by auto];
          cbn [String.eqb Ascii.eqb Bool.eqb]).

(** Run a command given by its words. *)
Ltac run_words_as ws E :=
  apply wp_bind, (wp_run_chain _ ws); [by apply closed_command|]; intros ? E.

Lemma apps_happy_on happy s tr :
  apps_ok happy s tr -> wp enableHappyBox (fun _ s' tr' => apps_ok true s' tr') s tr.
Proof.
  intros (U1 & U2 & H). unfold enableHappyBox.
  run_words_as ["-N"; "bw_happy_box"] E1. apply wp_bind, wp_modify.
  run_words_as ["-F"; "bw_happy_box"] E2.
  run_words_as ["-D"; "bw_penalty_box"; "-j"; "bw_happy_box"] E3.
  run_words_as ["-A"; "bw_penalty_box"; "-j"; "bw_happy_box"] E4.
  run_words_as ["-D"; "bw_happy_box"; "-j"; "REJECT"] E5.
  run_words_as ["-A"; "bw_happy_box"; "-j"; "REJECT"] E6.
  apply wp_ret. split; [done|]. split; [constructor|]. intros path Hp. destruct (H path Hp) as [Hpen Hhap].
  split; rewrite E6, E5, E4, E3, E2, E1 by done; run_boxes; [|done].
  rewrite Hpen, remove_tail; [done|cbn; lia].
Qed.

Lemma apps_happy_off happy s tr :
  apps_ok happy s tr -> wp disableHappyBox (fun _ s' tr' => apps_ok false s' tr') s tr.
Proof.
  intros (U1 & U2 & H). unfold disableHappyBox.
  run_words_as ["-D"; "bw_penalty_box"; "-j"; "bw_happy_box"] E1. apply wp_bind, wp_modify.
  run_words_as ["-F"; "bw_happy_box"] E2.
  run_words_as ["-X"; "bw_happy_box"] E3.
  apply wp_ret. split; [done|]. split; [constructor|]. intros path Hp. destruct (H path Hp) as [Hpen Hhap].
  split; rewrite E3, E2, E1 by done; run_boxes; [|done].
  rewrite Hpen, remove_tail; [by rewrite app_nil_r|cbn; lia].
Qed.

(** What the loop over the applications does to the boxes: [chain] is the box
    whose list is [get], and [tl] the end of the box. *)
Definition uids_post (chain target : string) (get : t -> list Z) (put : list Z -> t -> t)
    (tl : string -> list iprule) (s : t) (tr : trace) (s' : t) (tr' : trace) : Prop :=
  exists l, s' = put l s /\ Forall is_int l /\
    forall path, path = IPTABLES_PATH \/ path = IP6TABLES_PATH ->
      (forall name, name <> chain -> chain_rules (box path name) tr' = chain_rules (box path name) tr) /\
      (chain_rules (box path chain) tr = map (uid_rule target) (get s) ++ tl path ->
       chain_rules (box path chain) tr' = map (uid_rule target) l ++ tl path).

Lemma wp_manipulate_uids chain target j get put op uids tl s tr :
  chain = "bw_penalty_box" \/ chain = "bw_happy_box" -> jump_words j = ["--jump"; target] ->
  (forall l s, get (put l s) = l) -> (forall l l' s, put l (put l' s) = put l s) -> (forall s, put (get s) s = s) ->
  Forall is_int uids -> Forall is_int (get s) ->
  wp (manipulate_uids uids chain get put j op) (fun _ => uids_post chain target get put tl s tr) s tr.
Proof.
  intros Hchain Hj Hgp Hpp Hpg Hu. revert s tr.
  induction Hu as [|uid uids Hui Hu IH]; intros s tr Hl.
  { apply wp_ret. exists (get s). by rewrite Hpg. }
  cbn [manipulate_uids]. apply wp_bind, wp_gets.
  assert (wp (mret (-1)) (fun (_ : Z) => uids_post chain target get put tl s tr) s tr) as Hrefused.
  { apply wp_ret. exists (get s). by rewrite Hpg. }
  assert (no_space chain = true /\ strlen chain < 100) as [Hcs Hcl] by (by destruct Hchain as [-> | ->]).
  assert (forall o changed, o = IptOpInsert \/ o = IptOpDelete -> Forall is_int changed ->
    (forall rest, let rs := map (uid_rule target) (get s) ++ rest in
       (if String.eqb (ipt_op_flag o) "-I" then uid_rule target uid :: rs else remove_first (uid_rule target uid) rs) =
       map (uid_rule target) changed ++ rest) ->
    wp (modify (put changed);; res ← runIpxtablesCmd (makeIptablesSpecialAppCmd o uid chain) j;
        if negb (res =? 0) then runIpxtablesCmd (makeIptablesSpecialAppCmd IptOpDelete uid chain) j;; mret (-1)
        else manipulate_uids uids chain get put j op)
      (fun _ => uids_post chain target get put tl s tr) s tr) as Hstep.
  { intros o changed Ho Hc Heff. apply wp_bind, wp_modify.
    apply wp_bind, (wp_run_chain _ [ipt_op_flag o; chain; "-m"; "owner"; "--uid-owner"; print_d uid]);
      [apply uid_command; [by destruct Ho as [-> | ->]|done..]|]. intros tr1 E1. cbn [Z.eqb negb].
    eapply wp_mono; [apply IH; by rewrite Hgp|]. cbv beta.
    intros _ s' tr' (l & -> & Hl' & H). exists l. rewrite Hpp. split; [done|]. split; [done|].
    intros path Hp. destruct (H path Hp) as [H1 H2]. rewrite Hj in E1.
    assert (ipt_op_flag o = "-I" \/ ipt_op_flag o = "-A" \/ ipt_op_flag o = "-D") by (destruct Ho as [-> | ->]; auto).
    assert (String.eqb (ipt_op_flag o) "-A" = false) as Hna by (by destruct Ho as [-> | ->]). split.
    - intros name Hne. rewrite H1, E1 by done. cbn [app cn_path box]. rewrite run_box by done.
      by rewrite (proj2 (String.eqb_neq _ _)).
    - intros Hr. apply H2. rewrite E1, Hgp by done. cbn [app cn_path box].
      rewrite run_box, String.eqb_refl, Hna, Hr by done. apply Heff. }
  destruct op; cbv beta iota zeta.
  - destruct (has_uid uid (get s)) eqn:Ef; [exact Hrefused|].
    apply Hstep; [by left|by constructor|done].
  - destruct (has_uid uid (get s)) eqn:Ef; [|exact Hrefused]. apply has_uid_elem in Ef.
    apply Hstep; [by right|by apply Forall_erase_uid|]. intros rest. by apply remove_uid_rule.
Qed.

Lemma apps_naughty happy uids op s tr :
  apps_ok happy s tr -> wp (manipulateNaughtyApps uids op) (fun _ s' tr' => apps_ok happy s' tr') s tr.
Proof.
  intros (U1 & U2 & H). unfold manipulateNaughtyApps, manipulateSpecialApps.
  destruct (parse_uids uids) as [us|] eqn:E; [|by apply wp_ret].
  eapply wp_mono; [apply (wp_manipulate_uids "bw_penalty_box" "REJECT" IptJumpReject naughtyAppUids set_naughtyAppUids op us
    (fun _ => if happy then [["-j"; "bw_happy_box"]] else [])); try done;
    [by left|by intros []|by eapply parse_uids_range]|]. cbv beta.
  intros _ s' tr' (l & -> & Hl & Hc). split; [done|]. split; [done|]. intros path Hp.
  destruct (H path Hp) as [Hpen Hhap], (Hc path Hp) as [H1 H2]. split; [by apply H2|]. by rewrite H1.
Qed.

Lemma apps_nice happy uids op s tr :
  apps_ok happy s tr -> wp (manipulateNiceApps uids op) (fun _ s' tr' => apps_ok happy s' tr') s tr.
Proof.
  intros (U1 & U2 & H). unfold manipulateNiceApps, manipulateSpecialApps.
  destruct (parse_uids uids) as [us|] eqn:E; [|by apply wp_ret].
  eapply wp_mono; [apply (wp_manipulate_uids "bw_happy_box" "RETURN" IptJumpReturn niceAppUids set_niceAppUids op us
    (fun _ => if happy then [["-j"; "REJECT"]] else [])); try done;
    [by right|by intros []|by eapply parse_uids_range]|]. cbv beta.
  intros _ s' tr' (l & -> & Hl & Hc). split; [done|]. split; [done|]. intros path Hp.
  destruct (H path Hp) as [Hpen Hhap], (Hc path Hp) as [H1 H2]. split; [by rewrite H1|by apply H2].
Qed.

Lemma app_history_ok happy s tr : app_history happy s tr -> apps_ok happy s tr.
Proof.
  induction 1 as [s tr ret s' tr' E|happy s tr ret s' tr' _ IH E|happy s tr ret s' tr' _ IH E
    |happy uids op s tr ret s' tr' _ IH E|happy uids op s tr ret s' tr' _ IH E].
  - exact (wp_run _ _ _ _ _ _ _ E (apps_start s tr)).
  - exact (wp_run _ _ _ _ _ _ _ E (apps_happy_on _ _ _ IH)).
  - exact (wp_run _ _ _ _ _ _ _ E (apps_happy_off _ _ _ IH)).
  - exact (wp_run _ _ _ _ _ _ _ E (apps_naughty _ _ _ _ _ IH)).
  - exact (wp_run _ _ _ _ _ _ _ E (apps_nice _ _ _ _ _ IH)).
Qed.
End Apps.

(** ** Interfaces under the shared quota *)

(** The two directions: the chain and the option that names the interface. *)
Inductive direction := Incoming | Outgoing.
Definition dir_chain (d : direction) : string := match d with Incoming => "bw_INPUT" | Outgoing => "bw_OUTPUT" end.
Definition dir_flag (d : direction) : string := match d with Incoming => "-i" | Outgoing => "-o" end.

Definition jump_rule (d : direction) (iface : string) : iprule :=
  [dir_flag d; iface; "--jump"; "bw_costly_shared"].

(** In both programs and directions, [f x] rules send the packets of the
    interface [x] to the shared costly chain. *)
Definition jumps (tr : trace) (f : string -> Z) : Prop :=
  forall path, path = IPTABLES_PATH \/ path = IP6TABLES_PATH -> forall d x,
    cnt (jump_rule d x) (chain_rules (box path (dir_chain d)) tr) = f x.

(** The number of jumps the controller's list calls for. *)
Definition wanted (l : list string) (x : string) : Z := if has_name x l then 1 else 0.

(** Histories of calls on the shared quota, whatever they return. *)
Inductive shared_history {K : Kernel} : t -> trace -> Prop :=
| shared_start s tr ret s' tr' :
    enableBandwidthControl true s tr = (ret, s', tr') -> shared_history s' tr'
| shared_set iface bytes s tr ret s' tr' :
    shared_history s tr -> setInterfaceSharedQuota iface bytes s tr = (ret, s', tr') -> shared_history s' tr'
| shared_remove iface s tr ret s' tr' :
    shared_history s tr -> removeInterfaceSharedQuota iface s tr = (ret, s', tr') -> shared_history s' tr'.

Lemma jump_rule_inj d x y : jump_rule d x = jump_rule d y <-> x = y.
Proof. split; [by intros [= ->]|by intros ->]. Qed.

Lemma iface_no_space iface : isIfaceName iface = true -> no_space iface = true.
Proof.
  unfold isIfaceName. destruct (_ || _); [done|]. destruct iface as [|c rest]; [done|]. case_match eqn:Hc; [done|].
  assert (forall c, isalnum c = true -> Ascii.eqb c " " = false) as Hal.
  { intros c' H. apply Ascii.eqb_neq. intros ->. by cbv in H. }
  intros Hr. cbn [no_space]. rewrite Hal by (by apply negb_false_iff in Hc). cbn [negb andb].
  induction rest as [|c' rest IH]; [done|]. cbn in Hr |- *. apply andb_true_iff in Hr as [Hc' Hr].
  rewrite IH, andb_true_r by done. apply negb_true_iff.
  apply Ascii.eqb_neq. intros ->. by cbv in Hc'.
Qed.

Lemma snprintf_cmd_fits cmd : strlen cmd < 1000 -> snprintf_cmd cmd = cmd.
Proof.
  intros H. unfold snprintf_cmd. rewrite <-(append_empty_r cmd) at 1.
  rewrite substring_prefix by (unfold strlen, MAX_CMD_LEN in *; lia).
  destruct (Z.to_nat (MAX_CMD_LEN - 1) - String.length cmd)%nat; apply append_empty_r.
Qed.

Lemma jump_command op pos d iface :
  isIfaceName iface = true -> op = "-D" \/ op = "-I" -> pos = "" \/ pos = "1 " \/ pos = "2 " ->
  let cmd := op +:+ " " +:+ dir_chain d +:+ " " +:+ pos +:+ dir_flag d +:+ " " +:+ iface +:+ " --jump bw_costly_shared" in
  is_command cmd (op :: dir_chain d :: (match pos with String c _ => [String c ""] | "" => [] end) ++ jump_rule d iface)
  /\ snprintf_cmd cmd = cmd.
Proof.
  intros Hi Hop Hpos. cbv zeta. pose proof (iface_no_space _ Hi) as Hs. pose proof (isIfaceName_length _ Hi) as Hl.
  assert (forall cmd ws, cmd = unwords ws -> ws <> [] -> Forall (fun w => no_space w = true) ws ->
    strlen cmd < 900 -> (length ws < 28)%nat -> is_command cmd ws /\ snprintf_cmd cmd = cmd) as Hmk.
  { intros cmd ws H1 H2 H3 H4 H5. split; [done|]. apply snprintf_cmd_fits. lia. }
  destruct Hop as [-> | ->], Hpos as [-> |[-> | ->]], d; apply Hmk; try reflexivity; try done;
    try (repeat first [apply Forall_cons_2 | apply Forall_nil_2]; done);
    try (rewrite !strlen_app; unfold strlen in *; cbn; lia); cbn; lia.
Qed.

#[export] Instance direction_eq_dec : EqDecision direction.
Proof. solve_decision. Defined.

Lemma dir_chain_inj d d' : dir_chain d = dir_chain d' -> d = d'.
Proof. by destruct d, d'. Qed.

(** The effect of one command about a jump on the number of jumps. *)
Lemma cnt_delete_jump path d d' x iface rs :
  cnt (jump_rule d' x) (run_argv (box path (dir_chain d')) rs (path :: "-D" :: dir_chain d :: jump_rule d iface)) =
  cnt (jump_rule d' x) rs - (if decide (d = d' /\ x = iface /\ jump_rule d iface ∈ rs) then 1 else 0).
Proof.
  rewrite run_box by first [by destruct d | by auto]. cbn [String.eqb Ascii.eqb Bool.eqb].
  destruct (decide (d = d')) as [->|Hne].
  - rewrite String.eqb_refl, cnt_remove_first.
    destruct (decide (x = iface)) as [->|Hx].
    + destruct (decide (jump_rule d' iface ∈ rs)); [rewrite !decide_True by done; done|].
      rewrite !decide_False by tauto. lia.
    + rewrite !decide_False by (rewrite ?jump_rule_inj; tauto). lia.
  - rewrite (proj2 (String.eqb_neq _ _)) by (intros E; by apply dir_chain_inj in E).
    rewrite decide_False by tauto. lia.
Qed.

Lemma cnt_insert_jump path d d' x iface pos rs :
  pos = "1" \/ pos = "2" ->
  cnt (jump_rule d' x) (run_argv (box path (dir_chain d')) rs (path :: "-I" :: dir_chain d :: pos :: jump_rule d iface)) =
  cnt (jump_rule d' x) rs + (if decide (d = d' /\ x = iface) then 1 else 0).
Proof.
  intros Hpos. unfold run_argv.
  assert (exists n, parse_iptables (path :: "-I" :: dir_chain d :: pos :: jump_rule d iface) =
    Some (box path (dir_chain d), OpInsert n (jump_rule d iface))) as [n ->].
  { destruct Hpos as [-> | ->]; by eexists. }
  destruct (decide (d = d')) as [->|Hne].
  - rewrite decide_True by done. cbn [run_op]. rewrite cnt_insert_at. f_equal.
    destruct (decide (x = iface)) as [->|Hx]; [by rewrite !decide_True|].
    rewrite !decide_False by (rewrite ?jump_rule_inj; tauto). done.
  - rewrite decide_False by (intros E; injection E as E; by apply dir_chain_inj in E).
    rewrite decide_False by tauto. lia.
Qed.

Section Shared.
Context {K : Kernel} {KA : Accepting K}.

(** Counts of jumps of one direction. *)
Definition jumps_in (d : direction) (tr : trace) (f : string -> Z) : Prop :=
  forall path, path = IPTABLES_PATH \/ path = IP6TABLES_PATH -> forall x,
    cnt (jump_rule d x) (chain_rules (box path (dir_chain d)) tr) = f x.

Definition set_at (f : string -> Z) (iface : string) (n : Z) (x : string) : Z :=
  if decide (x = iface) then n else f x.

(** Deleting a jump that is there at most once. *)
Lemma wp_delete_jump cmd d iface f g (Q : Z -> t -> trace -> Prop) s tr :
  isIfaceName iface = true -> 0 <= f d iface <= 1 ->
  cmd = snprintf_cmd ("-D " +:+ dir_chain d +:+ " " +:+ dir_flag d +:+ " " +:+ iface +:+ " --jump bw_costly_shared") ->
  (forall d', jumps_in d' tr (f d')) -> (forall d' x, g d' x = if decide (d' = d) then set_at (f d) iface 0 x else f d' x) ->
  (forall tr', (forall d', jumps_in d' tr' (g d')) -> Q 0 s tr') ->
  wp (runIpxtablesCmd cmd IptJumpNoAdd) Q s tr.
Proof.
  intros Hi Hf -> Hj Hg HQ.
  destruct (jump_command "-D" "" d iface Hi) as [Hc Hs]; [by left|by left|].
  assert ("-D " +:+ dir_chain d +:+ " " +:+ dir_flag d +:+ " " +:+ iface +:+ " --jump bw_costly_shared" =
    "-D" +:+ " " +:+ dir_chain d +:+ " " +:+ "" +:+ dir_flag d +:+ " " +:+ iface +:+ " --jump bw_costly_shared") as -> by done.
  rewrite Hs. apply (wp_run_chain _ _ _ _ _ _ Hc). intros tr' E. apply HQ. intros d' path Hp x.
  rewrite E, app_nil_r by done. cbn [app cn_path box]. rewrite cnt_delete_jump, (Hj d' path Hp x), Hg.
  destruct (decide (d' = d)) as [->|Hne]; [|rewrite decide_False by naive_solver; lia].
  unfold set_at. destruct (decide (x = iface)) as [->|Hx]; [|rewrite decide_False by tauto; lia].
  pose proof (Hj d path Hp iface) as Hcnt. pose proof (cnt_elem_of (jump_rule d iface) (chain_rules (box path (dir_chain d)) tr)).
  destruct (decide (jump_rule d iface ∈ chain_rules (box path (dir_chain d)) tr)).
  - rewrite decide_True by done. rewrite Hcnt in *. assert (0 < f d iface) by tauto. lia.
  - rewrite decide_False by tauto. rewrite Hcnt in *. assert (~ 0 < f d iface) by tauto. lia.
Qed.
Lemma wp_insert_jump cmd d iface pos f g (Q : Z -> t -> trace -> Prop) s tr :
  isIfaceName iface = true -> pos = 1 \/ pos = 2 ->
  cmd = snprintf_cmd ("-I " +:+ dir_chain d +:+ " " +:+ print_d pos +:+ " " +:+ dir_flag d +:+ " " +:+ iface +:+
          " --jump bw_costly_shared") ->
  (forall d', jumps_in d' tr (f d')) ->
  (forall d' x, g d' x = if decide (d' = d) then set_at (f d) iface (f d iface + 1) x else f d' x) ->
  (forall tr', (forall d', jumps_in d' tr' (g d')) -> Q 0 s tr') ->
  wp (runIpxtablesCmd cmd IptJumpNoAdd) Q s tr.
Proof.
  intros Hi Hpos -> Hj Hg HQ.
  assert (exists w, print_d pos = w /\ (w = "1" \/ w = "2")) as (w & -> & Hw).
  { destruct Hpos as [-> | ->]; eexists; (split; [vm_compute; reflexivity|auto]). }
  destruct (jump_command "-I" (w +:+ " ") d iface Hi) as [Hc Hs]; [by right|destruct Hw as [-> | ->]; auto|].
  assert ("-I " +:+ dir_chain d +:+ " " +:+ w +:+ " " +:+ dir_flag d +:+ " " +:+ iface +:+ " --jump bw_costly_shared" =
    "-I" +:+ " " +:+ dir_chain d +:+ " " +:+ (w +:+ " ") +:+ dir_flag d +:+ " " +:+ iface +:+ " --jump bw_costly_shared")
    as -> by (by destruct Hw as [-> | ->]).
  rewrite Hs. apply (wp_run_chain _ _ _ _ _ _ Hc). intros tr' E. apply HQ. intros d' path Hp x.
  rewrite E, app_nil_r by done. cbn [cn_path box].
  assert (match w +:+ " " with "" => [] | String c _ => [String c ""] end = [w]) as -> by (by destruct Hw as [-> | ->]).
  cbn [app]. rewrite cnt_insert_jump, (Hj d' path Hp x), Hg by done.
  destruct (decide (d' = d)) as [->|Hne]; [|rewrite decide_False by naive_solver; lia].
  unfold set_at. destruct (decide (x = iface)) as [->|Hx]; [rewrite decide_True by done; lia|].
  rewrite decide_False by tauto. lia.
Qed.

(** Commands on other chains than the two of the jumps. *)
Lemma wp_other_command cmd ws j f (Q : Z -> t -> trace -> Prop) s tr :
  is_command cmd ws -> (forall d path rs, run_argv (box path (dir_chain d)) rs (path :: ws ++ jump_words j) = rs) ->
  (forall d, jumps_in d tr (f d)) -> (forall tr', (forall d, jumps_in d tr' (f d)) -> Q 0 s tr') ->
  wp (runIpxtablesCmd cmd j) Q s tr.
Proof.
  intros Hc Hother Hj HQ. apply (wp_run_chain _ _ _ _ _ _ Hc). intros tr' E. apply HQ. intros d path Hp x.
  rewrite E by done. cbn [cn_path box]. rewrite Hother. by apply Hj.
Qed.

Definition same_jumps (l : list string) (tr : trace) : Prop := forall d, jumps_in d tr (wanted l).

Lemma wanted_cons iface l x : wanted (iface :: l) x = set_at (wanted l) iface 1 x.
Proof.
  unfold wanted, set_at, has_name. cbn. case_decide as E.
  - subst. by rewrite String.eqb_refl.
  - by rewrite (proj2 (String.eqb_neq _ _)).
Qed.

Lemma wanted_erase iface l x : NoDup l -> wanted (erase_name iface l) x = set_at (wanted l) iface 0 x.
Proof.
  intros Hl. unfold wanted, set_at.
  assert (x ∈ erase_name iface l <-> x ∈ l /\ x <> iface) as Hiff.
  { induction Hl as [|y l Hy Hl IH]; cbn; [by rewrite elem_of_nil; tauto|].
    destruct (String.eqb_spec y iface) as [->|Hne]; rewrite ?elem_of_cons, ?IH; [|naive_solver].
    split; [intros H; split; [by right|by intros ->]|]. by intros [[->|H] ?]. }
  destruct (has_name x (erase_name iface l)) eqn:E1, (has_name x l) eqn:E2; case_decide as Hx; try done;
    rewrite <-?not_true_iff_false, has_name_elem in *; naive_solver.
Qed.

Lemma wanted_bounds l x : 0 <= wanted l x <= 1.
Proof. unfold wanted. case_match; lia. Qed.

Lemma wp_prep_shared iface l (Q : Z -> t -> trace -> Prop) s tr :
  isIfaceName iface = true -> has_name iface l = false -> same_jumps l tr ->
  (forall tr', same_jumps (iface :: l) tr' -> Q 0 s tr') ->
  wp (prepCostlyIface iface QuotaShared) Q s tr.
Proof.
  intros Hi Hnot Hj HQ. unfold prepCostlyIface. cbv zeta. apply wp_bind, wp_ret, wp_bind, wp_gets.
  set (pos := if negb (globalAlertBytes s =? 0) then 2 else 1).
  assert (pos = 1 \/ pos = 2) as Hpos by (unfold pos; case_match; auto).
  assert (wanted l iface = 0) as H0 by (unfold wanted; by rewrite Hnot).
  set (f1 := fun d : direction => if decide (d = Incoming) then set_at (wanted l) iface 1 else wanted l).
  apply wp_bind, (wp_delete_jump _ Incoming iface (fun _ => wanted l) (fun _ => wanted l)); [done|lia|done|exact Hj| |].
  { intros d x. case_decide; [|done]. unfold set_at. case_decide; congruence. }
  intros tr1 J1. apply wp_bind, (wp_insert_jump _ Incoming iface pos (fun _ => wanted l) f1); [done|done|done|exact J1| |].
  { intros d x. unfold f1. rewrite H0. by repeat case_decide. }
  intros tr2 J2. apply wp_bind, (wp_delete_jump _ Outgoing iface f1 f1); [done|apply wanted_bounds|done|exact J2| |].
  { intros []; [done|]. intros x. change (wanted l x = set_at (wanted l) iface 0 x). unfold set_at. case_decide; congruence. }
  intros tr3 J3. apply wp_bind, (wp_insert_jump _ Outgoing iface pos f1 (fun _ => wanted (iface :: l)));
    [done|done|done|exact J3| |].
  { intros d x. rewrite wanted_cons. destruct d; [done|].
    change (set_at (wanted l) iface 1 x = set_at (wanted l) iface (wanted l iface + 1) x). by rewrite H0. }
  intros tr4 J4. apply wp_ret, HQ. exact J4.
Qed.

Lemma wp_cleanup_shared iface l (Q : Z -> t -> trace -> Prop) s tr :
  isIfaceName iface = true -> NoDup l -> same_jumps l tr ->
  (forall tr', same_jumps (erase_name iface l) tr' -> Q 0 s tr') ->
  wp (cleanupCostlyIface iface QuotaShared) Q s tr.
Proof.
  intros Hi Hl Hj HQ. unfold cleanupCostlyIface. cbv zeta.
  set (f1 := fun d : direction => if decide (d = Incoming) then set_at (wanted l) iface 0 else wanted l).
  apply wp_bind, (wp_delete_jump _ Incoming iface (fun _ => wanted l) f1); [done|apply wanted_bounds|done|exact Hj| |].
  { intros d x. unfold f1. by repeat case_decide. }
  intros tr1 J1. apply wp_bind, (wp_delete_jump _ Outgoing iface f1 (fun _ => wanted (erase_name iface l)));
    [done|apply wanted_bounds|done|exact J1| |].
  { intros d x. rewrite wanted_erase by done. unfold f1. by destruct d. }
  intros tr2 J2. apply wp_ret, HQ. exact J2.
Qed.
Lemma same_jumps_acked l tr tr' : acked tr' = acked tr -> same_jumps l tr -> same_jumps l tr'.
Proof. intros E Hj d path Hp x. unfold chain_rules. rewrite E. by apply Hj. Qed.

Lemma wp_updateQuota name bytes (Q : Z -> t -> trace -> Prop) s tr :
  (forall r tr', acked tr' = acked tr -> Q r s tr') -> wp (updateQuota name bytes) Q s tr.
Proof.
  intros HQ. unfold updateQuota. case_match; [by apply wp_ret, HQ|]. apply wp_bind.
  unfold sys_file at 1, wp at 1. case_match; [by apply wp_ret, HQ, acked_quiet|]. apply wp_bind.
  unfold sys_file, wp. apply HQ. by rewrite !acked_quiet.
Qed.

(** The quota command works on the shared costly chain. *)
Lemma wp_quota_command op bytes l (Q : Z -> t -> trace -> Prop) s tr :
  op = IptOpInsert \/ op = IptOpDelete -> same_jumps l tr -> (forall tr', same_jumps l tr' -> Q 0 s tr') ->
  wp (runIpxtablesCmd (makeIptablesQuotaCmd op "shared" bytes) IptJumpReject) Q s tr.
Proof.
  intros Hop Hj HQ.
  apply (wp_other_command _ [ipt_op_flag op; "bw_costly_shared"; "-m"; "quota2"; "!"; "--quota"; print_d bytes;
    "--name"; "shared"] _ (fun _ => wanted l)); [| |exact Hj|exact HQ].
  2: { intros d path rs. cbn [app]. destruct Hop as [-> | ->]; rewrite run_box by auto; by destruct d. }
  assert (makeIptablesQuotaCmd op "shared" bytes =
    unwords [ipt_op_flag op; "bw_costly_shared"; "-m"; "quota2"; "!"; "--quota"; print_d bytes; "--name"; "shared"])
    as E by (by destruct op).
  split_and!; [done|done| | |cbn; lia].
  - repeat first [apply Forall_cons_2 | apply Forall_nil_2]; try done; [by destruct op|apply print_d_no_space].
  - rewrite E. cbn [unwords]. rewrite !strlen_app. pose proof (print_d_length bytes).
    destruct op; unfold strlen in *; cbn; lia.
Qed.

Definition shared_ok (s : t) (tr : trace) : Prop :=
  invariant s /\ sharedAlertBytes s = 0 /\ same_jumps (sharedQuotaIfaces s) tr.

Lemma shared_ok_start s tr : wp (enableBandwidthControl true) (fun _ => shared_ok) s tr.
Proof.
  apply enable_chains. intros tr' E. split; [apply fresh_invariant|]. split; [done|]. intros d path Hp x.
  rewrite E; [|done|by intros y; destruct d].
  set (rs := run_words _ _ _). assert (rs = [["-m"; "owner"; "--socket-exists"]]) as ->.
  { by destruct d, Hp as [-> | ->]. }
  rewrite cnt_cons, decide_False, cnt_nil; [done|by destruct d].
Qed.

(** The part of [shared_ok] that is not in the invariant. *)
Definition jumps_ok (s : t) (tr : trace) : Prop :=
  sharedAlertBytes s = 0 /\ same_jumps (sharedQuotaIfaces s) tr.

Lemma jumps_ok_acked s tr tr' : acked tr' = acked tr -> jumps_ok s tr -> jumps_ok s tr'.
Proof. intros E [? H]. split; [done|]. by eapply same_jumps_acked. Qed.

Lemma jumps_remove iface s tr :
  NoDup (sharedQuotaIfaces s) -> jumps_ok s tr ->
  wp (removeInterfaceSharedQuota iface) (fun _ => jumps_ok) s tr.
Proof.
  intros Hnd [Ha Hj]. unfold removeInterfaceSharedQuota. destruct (isIfaceName iface) eqn:Hi; cbn [negb]; [|done].
  case_match; [done|]. apply wp_bind, wp_gets. case_match; [done|].
  apply wp_bind, (wp_cleanup_shared iface (sharedQuotaIfaces s)); [done..|]. intros tr1 J1.
  apply wp_bind, wp_modify, wp_bind, wp_gets. cbn [sharedQuotaIfaces set_sharedQuotaIfaces].
  destruct (erase_name iface (sharedQuotaIfaces s)) as [|x l] eqn:El.
  - apply wp_bind, (wp_quota_command IptOpDelete _ []); [by right|done|]. intros tr2 J2.
    apply wp_bind, wp_modify, wp_bind. cbn [sharedAlertBytes set_sharedQuotaIfaces]. rewrite Ha.
    apply wp_ret, wp_ret. done.
  - apply wp_ret. done.
Qed.

Lemma jumps_update ifn maxBytes res s tr :
  NoDup (sharedQuotaIfaces s) -> jumps_ok s tr ->
  wp (shared_quota_update ifn maxBytes res) (fun _ => jumps_ok) s tr.
Proof.
  intros Hnd Hj. unfold shared_quota_update. apply wp_bind, wp_gets. case_match; [done|].
  apply wp_bind, wp_updateQuota. intros r tr1 E1. pose proof (jumps_ok_acked _ _ _ E1 Hj) as [? ?].
  case_match.
  - apply wp_bind. eapply wp_mono; [by apply jumps_remove|]. by intros.
  - by apply wp_bind, wp_modify, wp_ret.
Qed.

Lemma jumps_set iface maxBytes s tr :
  NoDup (sharedQuotaIfaces s) -> jumps_ok s tr ->
  wp (setInterfaceSharedQuota iface maxBytes) (fun _ => jumps_ok) s tr.
Proof.
  intros Hnd [Ha Hj]. unfold setInterfaceSharedQuota. case_match; [done|].
  destruct (isIfaceName iface) eqn:Hi; cbn [negb]; [|done]. case_match; [done|].
  case_match; [by apply jumps_remove|]. apply wp_bind, wp_gets.
  destruct (has_name iface (sharedQuotaIfaces s)) eqn:E; [by apply jumps_update|].
  assert (NoDup (iface :: sharedQuotaIfaces s)) as Hnd'.
  { constructor; [|done]. intros ?%has_name_elem. congruence. }
  apply wp_bind, (wp_prep_shared iface (sharedQuotaIfaces s)); [done..|]. intros tr1 J1.
  destruct (sharedQuotaIfaces s) as [|x l] eqn:El.
  - apply wp_bind, (wp_quota_command IptOpInsert _ [iface]); [by left|done|]. intros tr2 J2. cbn [Z.lor Z.eqb negb].
    apply wp_bind, wp_modify, wp_bind, wp_modify, jumps_update; cbn; rewrite El; done.
  - apply wp_bind, wp_modify, jumps_update; cbn; rewrite El; done.
Qed.

Lemma shared_history_ok s tr : shared_history s tr -> shared_ok s tr.
Proof.
  induction 1 as [s tr ret s' tr' E|iface bytes s tr ret s' tr' _ (Hs & Hj) E|iface s tr ret s' tr' _ (Hs & Hj) E].
  - exact (wp_run _ _ _ _ _ _ _ E (shared_ok_start s tr)).
  - exact (wp_run _ _ _ _ _ _ _ E (wp_and _ _ _ _ _ (keeps_set_shared iface bytes s tr Hs)
      (jumps_set iface bytes s tr (inv_shared_nodup s Hs) Hj))).
  - exact (wp_run _ _ _ _ _ _ _ E (wp_and _ _ _ _ _ (keeps_remove_shared iface s tr Hs)
      (jumps_remove iface s tr (inv_shared_nodup s Hs) Hj))).
Qed.
End Shared.

(** ** Properties *)


Definition sample_members : t := State ["old"] 7 7 7 7 [] [1] [2].


(** In the accepting environment, and whatever happens to the files of
    /proc/net/xt_quota, an interface has one jump to the shared costly chain, in
    each direction and for both programs, when it is in [sharedQuotaIfaces], and
    none otherwise. *)
Theorem shared_jumps_match {K : Kernel} {KA : Accepting K} s tr :
  shared_history s tr ->
  forall path, path = IPTABLES_PATH \/ path = IP6TABLES_PATH -> forall d iface,
    cnt (jump_rule d iface) (chain_rules (box path (dir_chain d)) tr) =
    if has_name iface (sharedQuotaIfaces s) then 1 else 0.
Proof. intros (_ & _ & H)%shared_history_ok path Hp d iface. by apply H. Qed.

Lemma shared_jumps_match_witness :
  let start := enableBandwidthControl (K:=good_kernel) true sample_members [] in
  let first := setInterfaceSharedQuota (K:=good_kernel) "rmnet0" 1000 start.1.2 start.2 in
  let second := setInterfaceSharedQuota (K:=good_kernel) "wlan0" 2000 first.1.2 first.2 in
  let removed := removeInterfaceSharedQuota (K:=good_kernel) "rmnet0" second.1.2 second.2 in
  removed.1.1 = 0 /\
  cnt (jump_rule Outgoing "wlan0") (chain_rules (box IPTABLES_PATH "bw_OUTPUT") removed.2) = 1.
Proof.
  split; [vm_compute; reflexivity|].
  set (start := enableBandwidthControl (K:=good_kernel) true sample_members []).
  set (first := setInterfaceSharedQuota (K:=good_kernel) "rmnet0" 1000 start.1.2 start.2).
  set (second := setInterfaceSharedQuota (K:=good_kernel) "wlan0" 2000 first.1.2 first.2).
  set (removed := removeInterfaceSharedQuota (K:=good_kernel) "rmnet0" second.1.2 second.2).
  assert (shared_history (K:=good_kernel) start.1.2 start.2) as H0.
  { apply (shared_start (K:=good_kernel) sample_members [] start.1.1). vm_compute. reflexivity. }
  assert (shared_history (K:=good_kernel) first.1.2 first.2) as H1.
  { apply (shared_set (K:=good_kernel) "rmnet0" 1000 _ _ first.1.1 _ _ H0). vm_compute. reflexivity. }
  assert (shared_history (K:=good_kernel) second.1.2 second.2) as H2.
  { apply (shared_set (K:=good_kernel) "wlan0" 2000 _ _ second.1.1 _ _ H1). vm_compute. reflexivity. }
  assert (shared_history (K:=good_kernel) removed.1.2 removed.2) as H3.
  { apply (shared_remove (K:=good_kernel) "rmnet0" _ _ removed.1.1 _ _ H2). vm_compute. reflexivity. }
  pose proof (shared_jumps_match (K:=good_kernel) removed.1.2 removed.2 H3 IPTABLES_PATH (or_introl eq_refl)
    Outgoing "wlan0") as H.
  assert (has_name "wlan0" (sharedQuotaIfaces removed.1.2) = true) as E by (vm_compute; reflexivity).
  rewrite E in H. exact H.
Defined.
End BandwidthChains.
