(* ===== verification/TetherStats.v ===== *)
(** * TetherStats: the tethering counters read back from iptables

    Models [getTetherStats], [parseForwardChainStats] and
    [parseForwardChainStatsv6] of [server/BandwidthController.cpp].  The messages
    sent to the client are a list of codes and texts. *)
From S2P Require Import Prelude Platform Cstd Netlink NetdConstants SampleKernel.
From S2P Require Import BandwidthController.

Module TetherStats.

Definition TetheringStatsListResult : Z := 114.
Definition TetheringStatsResult : Z := 221.
Definition CommandOkay : Z := 200.

Record TetherStats := Stats {
  intIface : string; extIface : string;
  rxBytes : Z; rxPackets : Z; txBytes : Z; txPackets : Z
}.

Definition message : Type := Z * string.

(** ** Operations *)

Definition getStatsLine (s : TetherStats) : string :=
  intIface s +:+ " " +:+ extIface s +:+ " " +:+ print_d (rxBytes s) +:+ " " +:+ print_d (rxPackets s) +:+ " " +:+
  print_d (txBytes s) +:+ " " +:+ print_d (txPackets s).

(** [str[0]] as a condition. *)
Definition is_set (s : string) : bool := negb (String.eqb s "").

Definition set_rx (packets bytes : Z) (s : TetherStats) : TetherStats :=
  Stats (intIface s) (extIface s) bytes packets (txBytes s) (txPackets s).
Definition set_tx (packets bytes : Z) (s : TetherStats) : TetherStats :=
  Stats (intIface s) (extIface s) (rxBytes s) (rxPackets s) bytes packets.
Definition set_ifaces (i e : string) (s : TetherStats) : TetherStats :=
  Stats i e (rxBytes s) (rxPackets s) (txBytes s) (txPackets s).

(** The cascade of cases for one counter, the same in the two parsers. *)
Definition count_line (filter stats : TetherStats) (packets bytes : Z) (iface0 iface1 : string) : TetherStats :=
  if is_set (intIface filter) && is_set (extIface filter) then
    if String.eqb (intIface filter) iface0 && String.eqb (extIface filter) iface1 then set_rx packets bytes stats
    else if String.eqb (intIface filter) iface1 && String.eqb (extIface filter) iface0 then set_tx packets bytes stats
    else stats
  else if is_set (intIface filter) || is_set (extIface filter) then
    if String.eqb (intIface filter) iface0 || String.eqb (extIface filter) iface1
    then set_rx packets bytes (set_ifaces iface0 iface1 stats)
    else if String.eqb (intIface filter) iface1 || String.eqb (extIface filter) iface0
    then set_tx packets bytes (set_ifaces iface1 iface0 stats)
    else stats
  else
    if negb (is_set (intIface stats)) then set_rx packets bytes (set_ifaces iface0 iface1 stats)
    else if String.eqb (intIface stats) iface1 && String.eqb (extIface stats) iface0
    then set_tx packets bytes stats
    else stats.

Definition format4 : string := "%lld %lld RETURN all -- %s %s 0.%s".
Definition format6 : string := "%lld %lld RETURN all  %s %s ::%s".

Definition filterPair (filter : TetherStats) : bool := is_set (intIface filter) && is_set (extIface filter).

(** What the loop over the lines leaves: [inl] is the early return of 0, [inr]
    the values of [stats] and [statsFound] at the end; with the messages sent and
    the lines added to [extraProcessingInfo]. *)
Record outcome := Outcome {
  oc_end : unit + TetherStats * Z; oc_messages : list message; oc_info : string
}.
Definition send (msg : message) (r : outcome) : outcome :=
  Outcome (oc_end r) (msg :: oc_messages r) (oc_info r).
Definition note (line : string) (r : outcome) : outcome :=
  Outcome (oc_end r) (oc_messages r) (line +:+ oc_info r).

Fixpoint parse_lines (format : string) (filter stats : TetherStats) (statsFound : Z) (lines : list string)
    : outcome :=
  match lines with
  | [] => Outcome (inr (stats, statsFound)) [] ""
  | line :: lines =>
      note line
      match sscanf line format with
      | [VInt packets; VInt bytes; VStr iface0; VStr iface1; VStr _] =>
          let stats := count_line filter stats packets bytes iface0 iface1 in
          if negb (rxBytes stats =? -1) && negb (txBytes stats =? -1) then
            if filterPair filter
            then send (TetheringStatsResult, getStatsLine stats) (Outcome (inl tt) [] "")
            else send (TetheringStatsListResult, getStatsLine stats)
                   (parse_lines format filter filter (statsFound + 1) lines)
          else parse_lines format filter stats statsFound lines
      | _ => parse_lines format filter stats statsFound lines
      end
  end.

Definition stat_lines (output : string) : list string :=
  fgets_all BandwidthController.MAX_IPT_OUTPUT_LINE_LEN output.

(** The value returned, the messages and the addition to [extraProcessingInfo]. *)
Definition parseForwardChainStats (filter : TetherStats) (output : string) : Z * list message * string :=
  let r := parse_lines format4 filter filter 0 (stat_lines output) in
  match oc_end r with
  | inl _ => (0, oc_messages r, oc_info r)
  | inr (stats, statsFound) =>
      (if negb (Bool.eqb (rxBytes stats =? -1) (txBytes stats =? -1)) ||
          ((statsFound =? 0) && negb (filterPair filter)) then -1 else 0, oc_messages r, oc_info r)
  end.

Definition parseForwardChainStatsv6 (filter : TetherStats) (output : string) : Z * list message * string :=
  let r := parse_lines format6 filter filter 0 (stat_lines output) in
  match oc_end r with
  | inl _ => (0, oc_messages r, oc_info r)
  | inr (stats, _) =>
      if Bool.eqb (rxBytes stats =? -1) (txBytes stats =? -1)
      then (0, oc_messages r ++ [(CommandOkay, "Tethering stats list completed")], oc_info r)
      else (-1, oc_messages r, oc_info r)
  end.

Definition getTetherStats {K : Kernel} {S} (stats : TetherStats) : M S (Z * list message * string) :=
  iptOutput ← sys_popen (IPTABLES_PATH +:+ " -nvx -L natctrl_tether_counters");
  match iptOutput with
  | None => mret (-1, [], "Failed to run iptables.")
  | Some output =>
      let '(res, msgs, info) := parseForwardChainStats stats output in
      iptOutput6 ← sys_popen (IP6TABLES_PATH +:+ " -nvx -L natctrl_tether_counters");
      match iptOutput6 with
      | None => mret (res, msgs, info +:+ "Failed to run ip6tables.")
      | Some output6 =>
          let '(res6, msgs6, info6) := parseForwardChainStatsv6 stats output6 in
          mret (res + res6, msgs ++ msgs6, info +:+ info6)
      end
  end.

(** ** What iptables prints

    The counters NatController sets up: for each pair, packets and bytes from the
    internal to the external interface, then back. *)
Record pair_counters := Counters {
  pc_int : string; pc_ext : string; pc_rxB : Z; pc_rxP : Z; pc_txB : Z; pc_txP : Z
}.

Definition no_filter : TetherStats := Stats "" "" (-1) (-1) (-1) (-1).

Fixpoint spaces (n : nat) : string := match n with O => "" | S n => String " " (spaces n) end.

(** The blanks in front of the columns of one line, and the text from the end of the
    source address on: iptables aligns its columns with them. *)
Record columns := Columns {
  col_pkts : nat; col_bytes : nat; col_target : nat; col_prot : nat; col_opt : nat;
  col_in : nat; col_out : nat; col_source : nat; col_rest : string
}.

(** A line of the output; neighbouring columns are at least one blank apart. *)
Definition counter_line (c : columns) (packets bytes : Z) (i e : string) : string :=
  spaces (col_pkts c) +:+ print_u packets +:+ spaces (S (col_bytes c)) +:+ print_u bytes +:+
  spaces (S (col_target c)) +:+ "RETURN" +:+ spaces (S (col_prot c)) +:+ "all" +:+ spaces (S (col_opt c)) +:+ "--" +:+
  spaces (S (col_in c)) +:+ i +:+ spaces (S (col_out c)) +:+ e +:+
  spaces (S (col_source c)) +:+ "0.0.0.0/0" +:+ col_rest c +:+ String newline "".

(** The lines of a pair, each with its own columns. *)
Definition pair_lines (t : columns * columns * pair_counters) : list string :=
  let '(c1, c2, c) := t in
  [counter_line c1 (pc_rxP c) (pc_rxB c) (pc_int c) (pc_ext c);
   counter_line c2 (pc_txP c) (pc_txB c) (pc_ext c) (pc_int c)].

Fixpoint concat_strings (l : list string) : string :=
  match l with [] => "" | s :: l => s +:+ concat_strings l end.

(** The columns of iptables: numbers end at column 8 or later, the names of the
    interfaces take 6, the addresses 19. *)
Definition blanks_to (width : nat) (s : string) : nat := (width - String.length s)%nat.
Definition iptables_columns (packets bytes : Z) (i e : string) : columns :=
  Columns (blanks_to 8 (print_u packets)) (blanks_to 8 (print_u bytes)) 0 4 1 1 (blanks_to 6 i) (S (blanks_to 6 e))
    (spaces 12 +:+ "0.0.0.0/0" +:+ spaces 12).

Definition in_columns (c : pair_counters) : columns * columns * pair_counters :=
  (iptables_columns (pc_rxP c) (pc_rxB c) (pc_int c) (pc_ext c),
   iptables_columns (pc_txP c) (pc_txB c) (pc_ext c) (pc_int c), c).

Definition stats_header : list string :=
  ["Chain natctrl_tether_counters (4 references)" +:+ String newline "";
   "    pkts      bytes target     prot opt in     out     source               destination         "
     +:+ String newline ""].

(** The output as iptables formats it. *)
Definition print_stats (l : list pair_counters) : string :=
  concat_strings (stats_header ++ concat (map pair_lines (map in_columns l))).

(** The sample above [parseForwardChainStats], line by line (the blanks at the ends
    of the lines are not in the comment). *)
Definition sample_counters : list pair_counters :=
  [Counters "wlan0" "rmnet0" 2373 26 2002 27; Counters "bt-pan" "rmnet0" 107471 1040 1708806 1450].
Definition sample_lines : list string :=
  ["      26     2373 RETURN     all  --  wlan0  rmnet0  0.0.0.0/0            0.0.0.0/0";
   "      27     2002 RETURN     all  --  rmnet0 wlan0   0.0.0.0/0            0.0.0.0/0";
   "    1040   107471 RETURN     all  --  bt-pan rmnet0  0.0.0.0/0            0.0.0.0/0";
   "    1450  1708806 RETURN     all  --  rmnet0 bt-pan  0.0.0.0/0            0.0.0.0/0"].
Definition pair_stats (c : pair_counters) : TetherStats :=
  Stats (pc_int c) (pc_ext c) (pc_rxB c) (pc_rxP c) (pc_txB c) (pc_txP c).

(** ** Lemmas: reading back a counter line *)

Definition no_white (s : string) : Prop := Forall (fun c => isspace c = false) (String.list_ascii_of_string s).

Lemma span_word_app w rest :
  no_white w -> (match rest with String c _ => isspace c = true | EmptyString => True end) ->
  span_word (w +:+ rest) = (w, rest).
Proof.
  intros Hw Hr. induction w as [|c w IH].
  - destruct rest as [|c rest]; [done|].
    change (span_word (String c rest) = ("", String c rest)). cbn [span_word]. by rewrite Hr.
  - unfold no_white in Hw. cbn in Hw. apply Forall_cons in Hw as [Hc Hw].
    change (span_word (String c (w +:+ rest)) = (String c w, rest)). cbn [span_word]. rewrite Hc.
    by rewrite IH.
Qed.

Lemma skip_spaces_word w rest : w <> "" -> no_white w -> skip_spaces (w +:+ rest) = w +:+ rest.
Proof.
  intros Hne Hw. destruct w as [|c w]; [done|]. unfold no_white in Hw. cbn in Hw.
  apply Forall_cons in Hw as [Hc _]. change (skip_spaces (String c (w +:+ rest)) = String c (w +:+ rest)).
  cbn [skip_spaces]. by rewrite Hc.
Qed.

Lemma scan_word ds w rest :
  w <> "" -> no_white w -> (match rest with String c _ => isspace c = true | EmptyString => True end) ->
  scan_run (SStr :: ds) (w +:+ rest) = VStr w :: scan_run ds rest.
Proof.
  intros Hne Hw Hr. cbn [scan_run]. rewrite skip_spaces_word, span_word_app by done.
  by rewrite (proj2 (String.eqb_neq _ _)).
Qed.

Lemma print_u_app n rest : print_u n +:+ rest = print_digits 64 10 n rest.
Proof. unfold print_u. by rewrite <-print_digits_app. Qed.

Lemma scan_int ds n rest :
  0 <= n < 2 ^ 63 -> ends_numeral 36 rest = true ->
  scan_run (SInt64 :: ds) (print_u n +:+ rest) = VInt n :: scan_run ds rest.
Proof.
  intros Hn Hr. cbn [scan_run]. rewrite print_u_app, read_integer_print_u by (lia || auto).
  do 2 f_equal. unfold LONG_MAX. lia.
Qed.

(** White space before a conversion does not matter. *)
Lemma skip_spaces_idem s : skip_spaces (skip_spaces s) = skip_spaces s.
Proof.
  induction s as [|c s IH]; [done|]. cbn [skip_spaces]. destruct (isspace c) eqn:E; [done|].
  cbn [skip_spaces]. by rewrite E.
Qed.

Lemma read_integer_skip b s : read_integer b (skip_spaces s) = read_integer b s.
Proof. unfold read_integer. by rewrite skip_spaces_idem. Qed.

Lemma scan_space_int ds s : scan_run (SSpace :: SInt64 :: ds) s = scan_run (SInt64 :: ds) s.
Proof. cbn [scan_run]. by rewrite read_integer_skip. Qed.

Lemma scan_space_word ds s : scan_run (SSpace :: SStr :: ds) s = scan_run (SStr :: ds) s.
Proof. cbn [scan_run]. by rewrite skip_spaces_idem. Qed.

Definition count_ok (n : Z) : Prop := 0 <= n < 2 ^ 63.
Definition name_ok (s : string) : Prop := s <> "" /\ no_white s /\ strlen s <= 16.
Definition counters_ok (c : pair_counters) : Prop :=
  name_ok (pc_int c) /\ name_ok (pc_ext c) /\
  count_ok (pc_rxB c) /\ count_ok (pc_rxP c) /\ count_ok (pc_txB c) /\ count_ok (pc_txP c).

(** Blanks between the columns. *)
Lemma spaces_isspace n rest : match spaces (S n) +:+ rest with String c _ => isspace c = true | EmptyString => True end.
Proof. done. Qed.
Lemma spaces_ends n rest : ends_numeral 36 (spaces (S n) +:+ rest) = true.
Proof. reflexivity. Qed.
Lemma skip_spaces_spaces n rest : skip_spaces (spaces n +:+ rest) = skip_spaces rest.
Proof. induction n as [|n IH]; [done|]. change (spaces (S n) +:+ rest) with (String " " (spaces n +:+ rest)). exact IH. Qed.

Lemma scan_int_spaces ds n s : scan_run (SInt64 :: ds) (spaces n +:+ s) = scan_run (SInt64 :: ds) s.
Proof. cbn [scan_run]. by rewrite <-read_integer_skip, skip_spaces_spaces, read_integer_skip. Qed.
Lemma scan_word_spaces ds n s : scan_run (SStr :: ds) (spaces n +:+ s) = scan_run (SStr :: ds) s.
Proof. cbn [scan_run]. by rewrite skip_spaces_spaces. Qed.

(** A word of the format that is not a conversion, after white space. *)
Fixpoint literal (w : string) : list scan := match w with EmptyString => [] | String c w => SLit c :: literal w end.
Lemma scan_literal ds w rest : scan_run (literal w ++ ds) (w +:+ rest) = scan_run ds rest.
Proof.
  induction w as [|c w IH]; [done|]. change (String c w +:+ rest) with (String c (w +:+ rest)).
  cbn [literal app scan_run]. by rewrite Ascii.eqb_refl.
Qed.
Lemma scan_space_literal ds n c w rest : isspace c = false ->
  scan_run (SSpace :: literal (String c w) ++ ds) (spaces n +:+ String c w +:+ rest) = scan_run ds rest.
Proof.
  intros Hc. change (scan_run (SSpace :: ?x) ?y) with (scan_run x (skip_spaces y)). rewrite skip_spaces_spaces.
  change (String c w +:+ rest) with (String c (w +:+ rest)). cbn [skip_spaces]. rewrite Hc.
  exact (scan_literal ds (String c w) rest).
Qed.

Lemma format4_directives :
  scan_format format4 = SInt64 :: SSpace :: SInt64 :: SSpace :: literal "RETURN" ++ SSpace :: literal "all" ++
    SSpace :: literal "--" ++ SSpace :: SStr :: SSpace :: SStr :: SSpace :: literal "0." ++ [SStr].
Proof. reflexivity. Qed.

Lemma scan_address c s : isspace c = false -> exists rest, scan_run [SStr] (String c s) = [VStr rest].
Proof.
  intros Hc. cbn [scan_run skip_spaces span_word]. rewrite Hc. cbn [span_word]. rewrite Hc.
  destruct (span_word s) as [w rest]. by exists (String c w).
Qed.

Lemma scan_counter c packets bytes i e :
  count_ok packets -> count_ok bytes -> name_ok i -> name_ok e ->
  exists rest, sscanf (counter_line c packets bytes i e) format4 =
    [VInt packets; VInt bytes; VStr i; VStr e; VStr rest].
Proof.
  intros Hp Hb (Hi1 & Hi2 & _) (He1 & He2 & _).
  destruct (scan_address "0" (".0.0/0" +:+ col_rest c +:+ String newline "") eq_refl) as [rest Hrest]. exists rest.
  unfold sscanf, counter_line. rewrite format4_directives.
  rewrite scan_int_spaces, scan_int by (done || apply spaces_ends).
  rewrite scan_space_int, scan_int_spaces, scan_int by (done || apply spaces_ends).
  rewrite !scan_space_literal by done.
  rewrite scan_space_word, scan_word_spaces, scan_word by (done || apply spaces_isspace).
  rewrite scan_space_word, scan_word_spaces, scan_word by (done || apply spaces_isspace).
  change ("0.0.0.0/0" +:+ ?x) with ("0." +:+ ("0.0.0/0" +:+ x)). rewrite scan_space_literal by done.
  change ("0.0.0/0" +:+ ?x) with (String "0" (".0.0/0" +:+ x)). by rewrite Hrest.
Qed.

(** ** Lemmas: reading the lines back *)

Definition no_newline (s : string) : Prop :=
  Forall (fun c => Ascii.eqb c newline = false) (String.list_ascii_of_string s).

Lemma fgets_line size room buf body rest :
  no_newline body -> (String.length body < room)%nat ->
  fgets_loop size room buf (body +:+ String newline "" +:+ rest) =
  (buf +:+ body +:+ String newline "") :: fgets_loop size size "" rest.
Proof.
  revert room buf. induction body as [|c body IH]; intros room buf Hn Hl.
  - change (fgets_loop size room buf (String newline rest) = (buf +:+ String newline "") :: fgets_loop size size "" rest).
    cbn [fgets_loop]. by rewrite Ascii.eqb_refl.
  - unfold no_newline in Hn. cbn [String.list_ascii_of_string] in Hn. cbn in Hl. apply Forall_cons in Hn as [Hc Hn].
    change (fgets_loop size room buf (String c (body +:+ String newline "" +:+ rest)) =
      (buf +:+ String c (body +:+ String newline "")) :: fgets_loop size size "" rest).
    cbn [fgets_loop]. rewrite Hc. destruct room as [|[|room]]; [lia|lia|]. cbn [orb Nat.eqb].
    rewrite IH by (done || (cbn; lia)). by rewrite append_assoc.
Qed.

(** A line that [fgets] reads whole. *)
Definition whole_line (line : string) : Prop :=
  exists body, line = body +:+ String newline "" /\ no_newline body /\ (String.length body < 255)%nat.

Lemma stat_lines_whole lines : Forall whole_line lines -> stat_lines (concat_strings lines) = lines.
Proof.
  unfold stat_lines, fgets_all. change (Z.to_nat (BandwidthController.MAX_IPT_OUTPUT_LINE_LEN - 1)) with 255%nat.
  induction 1 as [|line lines (body & -> & Hn & Hl) _ IH]; [done|].
  change (concat_strings ((body +:+ String newline "") :: lines)) with ((body +:+ String newline "") +:+ concat_strings lines).
  rewrite append_assoc, fgets_line by done. by rewrite IH.
Qed.

Lemma no_newline_app s1 s2 : no_newline (s1 +:+ s2) <-> no_newline s1 /\ no_newline s2.
Proof.
  unfold no_newline. induction s1 as [|c s1 IH].
  - cbn. rewrite Forall_nil. tauto.
  - change (String.list_ascii_of_string (String c s1 +:+ s2)) with (c :: String.list_ascii_of_string (s1 +:+ s2)).
    cbn [String.list_ascii_of_string]. rewrite !Forall_cons, IH. tauto.
Qed.

Lemma no_white_no_newline s : no_white s -> no_newline s.
Proof.
  unfold no_white, no_newline. intros H. eapply Forall_impl; [exact H|]. cbn. intros c Hc.
  apply Ascii.eqb_neq. by intros ->.
Qed.

Lemma print_digits_Forall (P : ascii -> Prop) fuel base n tl :
  2 <= base <= 36 -> (forall d, 0 <= d < 36 -> P (digit_char d)) -> Forall P (String.list_ascii_of_string tl) ->
  Forall P (String.list_ascii_of_string (print_digits fuel base n tl)).
Proof.
  intros Hb HP. revert n tl. induction fuel as [|fuel IH]; intros n tl Htl; [done|].
  change (print_digits (S fuel) base n tl) with
    (let acc := String (digit_char (n mod base)) tl in
     if n / base =? 0 then acc else print_digits fuel base (n / base) acc). cbv zeta.
  assert (Forall P (String.list_ascii_of_string (String (digit_char (n mod base)) tl))).
  { constructor; [|done]. apply HP. pose proof (Z.mod_pos_bound n base). lia. }
  case_match; [done|by apply IH].
Qed.

Lemma print_u_no_newline n : no_newline (print_u n).
Proof.
  apply print_digits_Forall; [lia| |constructor]. intros d Hd. apply Ascii.eqb_neq. intros E.
  pose proof (digit_val_char d Hd) as H. by rewrite E in H.
Qed.

Lemma print_u_length n : strlen (print_u n) <= 64.
Proof. pose proof (print_digits_length 64 10 n "") as H. unfold print_u. assert (strlen "" = 0) by done. lia. Qed.

Lemma spaces_no_newline n : no_newline (spaces n).
Proof. induction n as [|n IH]; [constructor|]. by constructor. Qed.
Lemma strlen_spaces n : strlen (spaces n) = Z.of_nat n.
Proof. unfold strlen. induction n as [|n IH]; [done|]. cbn [spaces String.length]. lia. Qed.

(** What follows the source address stays on the line, and the line fits the buffer. *)
Definition columns_ok (c : columns) : Prop :=
  no_newline (col_rest c) /\
  Z.of_nat (col_pkts c + col_bytes c + col_target c + col_prot c + col_opt c + col_in c + col_out c + col_source c) +
    strlen (col_rest c) < 64.
Definition lines_ok (t : columns * columns * pair_counters) : Prop :=
  let '(c1, c2, c) := t in columns_ok c1 /\ columns_ok c2 /\ counters_ok c.

Lemma counter_whole_line c packets bytes i e :
  columns_ok c -> name_ok i -> name_ok e -> whole_line (counter_line c packets bytes i e).
Proof.
  intros [Hn Hl] (_ & Hi & Li) (_ & He & Le).
  exists (spaces (col_pkts c) +:+ print_u packets +:+ spaces (S (col_bytes c)) +:+ print_u bytes +:+
  spaces (S (col_target c)) +:+ "RETURN" +:+ spaces (S (col_prot c)) +:+ "all" +:+ spaces (S (col_opt c)) +:+ "--" +:+
  spaces (S (col_in c)) +:+ i +:+ spaces (S (col_out c)) +:+ e +:+
  spaces (S (col_source c)) +:+ "0.0.0.0/0" +:+ col_rest c).
  split; [unfold counter_line; by rewrite !append_assoc|]. split.
  - rewrite !no_newline_app. split_and!; try apply print_u_no_newline; try apply spaces_no_newline;
      try (by apply no_white_no_newline); try done; repeat constructor.
  - pose proof (print_u_length packets). pose proof (print_u_length bytes).
    match goal with |- (String.length ?s < _)%nat => assert (strlen s < 255); [|unfold strlen in *; lia] end.
    rewrite !strlen_app, !strlen_spaces. change (strlen "RETURN") with 6. change (strlen "all") with 3.
    change (strlen "--") with 2. change (strlen "0.0.0.0/0") with 9. lia.
Qed.

Lemma pairs_whole_lines l : Forall lines_ok l -> Forall whole_line (concat (map pair_lines l)).
Proof.
  induction 1 as [|[[c1 c2] c] l (H1 & H2 & Hi & He & _) _ IH]; cbn [map concat pair_lines]; [constructor|].
  repeat (apply Forall_cons_2; [by apply counter_whole_line|]). exact IH.
Qed.

(** A line in front of the counters: it has no counter in it. *)
Definition is_header (line : string) : Prop := whole_line line /\ sscanf line format4 = [].
Lemma stats_header_ok : Forall is_header stats_header.
Proof.
  unfold stats_header. repeat (apply Forall_cons_2; [split; [eexists; split; [reflexivity|split; [repeat constructor|cbn; lia]]|vm_compute; reflexivity]|]).
  apply Forall_nil_2.
Qed.

(** ** Lemmas: the loop *)

Lemma name_is_set s : name_ok s -> is_set s = true.
Proof. intros (H & _). unfold is_set. by rewrite (proj2 (String.eqb_neq _ _)). Qed.

Lemma count_ok_known n : count_ok n -> (n =? -1) = false.
Proof. unfold count_ok. lia. Qed.

(** The two counters of a pair when nothing is filtered. *)
Lemma count_first packets bytes i e :
  count_line no_filter no_filter packets bytes i e = Stats i e bytes packets (-1) (-1).
Proof. reflexivity. Qed.

Lemma count_second packets bytes packets' bytes' i e :
  name_ok i ->
  count_line no_filter (Stats i e bytes packets (-1) (-1)) packets' bytes' e i =
  Stats i e bytes packets bytes' packets'.
Proof.
  intros Hi. unfold count_line. cbn [intIface extIface no_filter]. change (is_set "") with false. cbn [andb orb].
  rewrite name_is_set, !String.eqb_refl by done. reflexivity.
Qed.

Definition pair_message (c : pair_counters) : message := (TetheringStatsListResult, getStatsLine (pair_stats c)).

Lemma parse_pairs l found :
  Forall lines_ok l ->
  parse_lines format4 no_filter no_filter found (concat (map pair_lines l)) =
  Outcome (inr (no_filter, found + Z.of_nat (length l))) (map (fun t => pair_message t.2) l) (concat_strings (concat (map pair_lines l))).
Proof.
  intros Hl. revert found. induction Hl as [|[[c1 c2] c] l (_ & _ & Hi & He & H1 & H2 & H3 & H4) _ IH]; intros found.
  - cbn. do 3 f_equal. lia.
  - cbn [map concat pair_lines app parse_lines snd].
    destruct (scan_counter c1 (pc_rxP c) (pc_rxB c) (pc_int c) (pc_ext c)) as [rest1 ->]; [done..|].
    destruct (scan_counter c2 (pc_txP c) (pc_txB c) (pc_ext c) (pc_int c)) as [rest2 ->]; [done..|].
    cbv zeta. rewrite count_first. cbn [rxBytes txBytes]. rewrite (count_ok_known _ H1), Z.eqb_refl. cbn [negb andb].
    rewrite count_second by done. cbn [rxBytes txBytes]. rewrite (count_ok_known _ H1), (count_ok_known _ H3).
    cbn [negb andb]. change (filterPair no_filter) with false. rewrite IH.
    unfold send, note. cbn [oc_end oc_messages oc_info concat_strings length]. do 3 f_equal; lia || done.
Qed.

Lemma parse_header hdr l found :
  Forall is_header hdr ->
  parse_lines format4 no_filter no_filter found (hdr ++ l) =
  let r := parse_lines format4 no_filter no_filter found l in
  Outcome (oc_end r) (oc_messages r) (concat_strings hdr +:+ oc_info r).
Proof.
  cbv zeta. induction 1 as [|h hdr [_ Hh] _ IH]; cbn [app parse_lines concat_strings].
  - by destruct (parse_lines _ _ _ _ l).
  - rewrite Hh, IH. unfold note. cbn [oc_end oc_messages oc_info]. by rewrite append_assoc.
Qed.

Lemma concat_strings_app l1 l2 : concat_strings (l1 ++ l2) = concat_strings l1 +:+ concat_strings l2.
Proof. induction l1 as [|x l1 IH]; [done|]. cbn [app concat_strings]. by rewrite IH, append_assoc. Qed.

(** ** Properties *)


(** What iptables prints is among it, and its lines are those of the sample in the code. *)
Lemma sample_is_printed :
  concat (map pair_lines (map in_columns sample_counters)) = map (fun line => line +:+ spaces 12 +:+ String newline "") sample_lines.
Proof. vm_compute. reflexivity. Qed.

Lemma no_newline_bool s : forallb (fun c => negb (Ascii.eqb c newline)) (String.list_ascii_of_string s) = true -> no_newline s.
Proof. intros H. apply Forall_forall. intros c Hc%list_elem_of_In. rewrite List.forallb_forall in H. by apply negb_true_iff, H. Qed.
Lemma no_white_bool s : forallb (fun c => negb (isspace c)) (String.list_ascii_of_string s) = true -> no_white s.
Proof. intros H. apply Forall_forall. intros c Hc%list_elem_of_In. rewrite List.forallb_forall in H. by apply negb_true_iff, H. Qed.

Lemma sample_counters_ok : Forall lines_ok (map in_columns sample_counters).
Proof.
  repeat (apply Forall_cons_2 || apply Forall_nil_2);
    (split_and!; [split; [apply no_newline_bool; reflexivity|reflexivity]..|]);
    unfold counters_ok, name_ok, count_ok;
    (split_and!; try discriminate; try (apply no_white_bool; reflexivity); cbn; lia).
Qed.


(** Every statistics message that is sent, by either parser and with any
    filter, reports the bytes of both directions, under the code that the filter
    calls for. *)
Theorem messages_complete format filter stats found lines :
  Forall (fun m => exists s, m.2 = getStatsLine s /\ rxBytes s <> -1 /\ txBytes s <> -1 /\
            m.1 = if filterPair filter then TetheringStatsResult else TetheringStatsListResult)
    (oc_messages (parse_lines format filter stats found lines)).
Proof.
  revert found stats. induction lines as [|line lines IH]; intros found stats; [constructor|]. cbn [parse_lines].
  repeat (case_match; try apply IH). all: cbn [oc_messages note send].
  all: bool_to_prop; repeat constructor; try apply IH.
  all: eexists; split; [reflexivity|done].
Qed.
End TetherStats.
