(* ===== verification/Networks.v ===== *)
(** * Networks: the interfaces, users and permissions of one network

    Models [server/Network.cpp], [LocalNetwork.cpp], [PhysicalNetwork.cpp] and
    [VirtualNetwork.cpp].  A method runs on the object and the state of
    [RouteController]; the object a physical network reports its interfaces to
    ([PhysicalNetwork::Delegate]) is an interface that [NetworkController]
    implements. *)
From S2P Require Import Prelude Platform UidRanges Fwmark NetdConstants Ledger.
From S2P Require Import RouteController.

(** [Network]: the members of the base class. *)
Record base := Base { mNetId : Z; mInterfaces : gset string }.

Definition hasInterface (interface : string) (n : base) : bool :=
  bool_decide (interface ∈ mInterfaces n).
Definition insert_interface (interface : string) (n : base) : base :=
  Base (mNetId n) ({[interface]} ∪ mInterfaces n).
Definition erase_interface (interface : string) (n : base) : base :=
  Base (mNetId n) (mInterfaces n ∖ {[interface]}).

(** [PhysicalNetwork::Delegate] *)
Record Delegate := {
  addFallthrough : string -> Z -> M RouteState Z;
  removeFallthrough : string -> Z -> M RouteState Z
}.

(** ** LocalNetwork *)

Module LocalNetwork.
Section LocalNetwork.
Context `{K : Kernel}.

Definition addInterface (interface : string) : M (base * RouteState) Z :=
  n ← gets fst;
  if hasInterface interface n then mret 0
  else
    try! on_snd (addInterfaceToLocalNetwork (mNetId n) interface) ;;
    on_fst (modify (insert_interface interface));; mret 0.

Definition removeInterface (interface : string) : M (base * RouteState) Z :=
  n ← gets fst;
  if negb (hasInterface interface n) then mret 0
  else
    try! on_snd (removeInterfaceFromLocalNetwork (mNetId n) interface) ;;
    on_fst (modify (erase_interface interface));; mret 0.
End LocalNetwork.
End LocalNetwork.

(** ** PhysicalNetwork *)

Module PhysicalNetwork.
Record t := Make { network : base; mPermission : Z; mIsDefault : bool }.

Definition set_network (f : base -> base) (n : t) : t :=
  Make (f (network n)) (mPermission n) (mIsDefault n).
Definition set_mPermission (permission : Z) (n : t) : t :=
  Make (network n) permission (mIsDefault n).
Definition set_mIsDefault (b : bool) (n : t) : t := Make (network n) (mPermission n) b.

Definition new (netId : Z) : t := Make (Base netId ∅) PERMISSION_NONE false.

Section PhysicalNetwork.
Context `{K : Kernel} (mDelegate : Delegate).

Definition addToDefault (interface : string) (permission : Z) : M RouteState Z :=
  try! addInterfaceToDefaultNetwork interface permission ;;
  try! addFallthrough mDelegate interface permission ;;
  mret 0.

Definition removeFromDefault (interface : string) (permission : Z) : M RouteState Z :=
  try! removeInterfaceFromDefaultNetwork interface permission ;;
  try! removeFallthrough mDelegate interface permission ;;
  mret 0.

Definition setPermission (permission : Z) : M (t * RouteState) Z :=
  n ← gets fst;
  if permission =? mPermission n then mret 0
  else
    let interfaces := string_set_elements (mInterfaces (network n)) in
    try! on_snd (for_each interfaces (fun interface =>
           modifyPhysicalNetworkPermission (mNetId (network n)) interface
             (mPermission n) permission)) ;;
    try! (if mIsDefault n then
            on_snd (for_each interfaces (fun interface =>
              try! addToDefault interface permission ;;
              removeFromDefault interface (mPermission n)))
          else mret 0) ;;
    on_fst (modify (set_mPermission permission));; mret 0.

Definition addAsDefault : M (t * RouteState) Z :=
  n ← gets fst;
  if mIsDefault n then mret 0
  else
    try! on_snd (for_each (string_set_elements (mInterfaces (network n))) (fun interface =>
           addToDefault interface (mPermission n))) ;;
    on_fst (modify (set_mIsDefault true));; mret 0.

Definition removeAsDefault : M (t * RouteState) Z :=
  n ← gets fst;
  if negb (mIsDefault n) then mret 0
  else
    try! on_snd (for_each (string_set_elements (mInterfaces (network n))) (fun interface =>
           removeFromDefault interface (mPermission n))) ;;
    on_fst (modify (set_mIsDefault false));; mret 0.

Definition addInterface (interface : string) : M (t * RouteState) Z :=
  n ← gets fst;
  if hasInterface interface (network n) then mret 0
  else
    try! on_snd (addInterfaceToPhysicalNetwork (mNetId (network n)) interface (mPermission n)) ;;
    try! (if mIsDefault n then on_snd (addToDefault interface (mPermission n)) else mret 0) ;;
    on_fst (modify (set_network (insert_interface interface)));; mret 0.

Definition removeInterface (interface : string) : M (t * RouteState) Z :=
  n ← gets fst;
  if negb (hasInterface interface (network n)) then mret 0
  else
    try! (if mIsDefault n then on_snd (removeFromDefault interface (mPermission n)) else mret 0) ;;
    try! on_snd (removeInterfaceFromPhysicalNetwork (mNetId (network n)) interface
                   (mPermission n)) ;;
    on_fst (modify (set_network (erase_interface interface)));; mret 0.
End PhysicalNetwork.
End PhysicalNetwork.

(** ** VirtualNetwork *)

Module VirtualNetwork.
Record t := Make { network : base; mHasDns : bool; mSecure : bool; mUidRanges : list (Z * Z) }.

Definition set_network (f : base -> base) (n : t) : t :=
  Make (f (network n)) (mHasDns n) (mSecure n) (mUidRanges n).
Definition set_mUidRanges (f : list (Z * Z) -> list (Z * Z)) (n : t) : t :=
  Make (network n) (mHasDns n) (mSecure n) (f (mUidRanges n)).

Definition new (netId : Z) (hasDns secure : bool) : t := Make (Base netId ∅) hasDns secure [].

Definition appliesToUser (n : t) (uid : Z) : bool := UidRanges.hasUid (mUidRanges n) uid.

Section VirtualNetwork.
Context `{K : Kernel}.

Definition addUsers (uidRanges : list (Z * Z)) : M (t * RouteState) Z :=
  n ← gets fst;
  try! on_snd (for_each (string_set_elements (mInterfaces (network n))) (fun interface =>
         addUsersToVirtualNetwork (mNetId (network n)) interface (mSecure n) uidRanges)) ;;
  on_fst (modify (set_mUidRanges (fun l => UidRanges.add l uidRanges)));; mret 0.

Definition removeUsers (uidRanges : list (Z * Z)) : M (t * RouteState) Z :=
  n ← gets fst;
  try! on_snd (for_each (string_set_elements (mInterfaces (network n))) (fun interface =>
         removeUsersFromVirtualNetwork (mNetId (network n)) interface (mSecure n) uidRanges)) ;;
  on_fst (modify (set_mUidRanges (fun l => UidRanges.remove l uidRanges)));; mret 0.

Definition addInterface (interface : string) : M (t * RouteState) Z :=
  n ← gets fst;
  if hasInterface interface (network n) then mret 0
  else
    try! on_snd (addInterfaceToVirtualNetwork (mNetId (network n)) interface (mSecure n)
                   (mUidRanges n)) ;;
    on_fst (modify (set_network (insert_interface interface)));; mret 0.

Definition removeInterface (interface : string) : M (t * RouteState) Z :=
  n ← gets fst;
  if negb (hasInterface interface (network n)) then mret 0
  else
    try! on_snd (removeInterfaceFromVirtualNetwork (mNetId (network n)) interface (mSecure n)
                   (mUidRanges n)) ;;
    on_fst (modify (set_network (erase_interface interface)));; mret 0.
End VirtualNetwork.
End VirtualNetwork.

(** ** Network: the virtual methods and what the base class builds on them *)

Inductive Network :=
| Local (n : base)
| Physical (n : PhysicalNetwork.t)
| Virtual (n : VirtualNetwork.t).

(** [getType] *)
Inductive NetworkType := LOCAL | PHYSICAL | VIRTUAL.
#[export] Instance NetworkType_eq_dec : EqDecision NetworkType.
Proof. solve_decision. Defined.

Definition getType (n : Network) : NetworkType :=
  match n with Local _ => LOCAL | Physical _ => PHYSICAL | Virtual _ => VIRTUAL end.

Definition network_base (n : Network) : base :=
  match n with
  | Local n => n
  | Physical n => PhysicalNetwork.network n
  | Virtual n => VirtualNetwork.network n
  end.

Definition getNetId (n : Network) : Z := mNetId (network_base n).
Definition getInterfaces (n : Network) : gset string := mInterfaces (network_base n).

(** Run the method of the object's class. *)
Definition dispatch {A} (l : M (base * RouteState) A) (p : M (PhysicalNetwork.t * RouteState) A)
    (v : M (VirtualNetwork.t * RouteState) A) : M (Network * RouteState) A :=
  fun s tr =>
    match s.1 with
    | Local n => let '(a, s', tr') := l (n, s.2) tr in (a, (Local s'.1, s'.2), tr')
    | Physical n => let '(a, s', tr') := p (n, s.2) tr in (a, (Physical s'.1, s'.2), tr')
    | Virtual n => let '(a, s', tr') := v (n, s.2) tr in (a, (Virtual s'.1, s'.2), tr')
    end.

Section Network.
Context `{K : Kernel} (D : Delegate).

Definition addInterface (interface : string) : M (Network * RouteState) Z :=
  dispatch (LocalNetwork.addInterface interface) (PhysicalNetwork.addInterface D interface)
    (VirtualNetwork.addInterface interface).

Definition removeInterface (interface : string) : M (Network * RouteState) Z :=
  dispatch (LocalNetwork.removeInterface interface) (PhysicalNetwork.removeInterface D interface)
    (VirtualNetwork.removeInterface interface).

(** The [while] loop; the set shrinks at every iteration that does not
    return, so its size is enough fuel. *)
Fixpoint clear_loop (fuel : nat) : M (Network * RouteState) Z :=
  match fuel with
  | O => mret 0
  | S fuel =>
      n ← gets fst;
      match string_set_elements (getInterfaces n) with
      | [] => mret 0
      | interface :: _ => try! removeInterface interface ;; clear_loop fuel
      end
  end.

Definition clearInterfaces : M (Network * RouteState) Z :=
  n ← gets fst; clear_loop (size (getInterfaces n)).
End Network.
