(* ===== verification/NetworkSpec.v ===== *)
(** * NetworkSpec: what the methods of a network do

    Every method of a network object has a specification [method]: the object
    is replaced by the one a pure function gives when the method returns 0 and
    is left alone otherwise, the ledger changes by exactly the items the new
    object stands for and the old one did not, and the method succeeds when
    the kernel accepts the requests. *)
From S2P Require Import Prelude Platform Cstd Fwmark UidRanges Netlink.
From S2P Require Import NetdConstants Ledger RouteController RouteSpec Networks.

(** ** Specifications of computations on the routes, and of methods *)

Section Method.
Context {K : Kernel} {KL : KernelLaws K} {St : Steady} {IX : Interfaces} {KI : KeepsIndices K}.

(** [installs] for an arbitrary change of the ledger. *)
Record performs (short : Prop) (d : item -> Z) (m : M RouteState Z) : Prop := {
  perf_books : books cached_ok d m;
  perf_succeeds : Accepting K -> short -> succeeds cached_ok m
}.

Lemma installs_performs short add l m :
  installs cached_ok short add l m -> performs short (signed add l) m.
Proof. by intros [B Su]. Qed.

Lemma performs_ext short (short' : Prop) d d' m :
  (short' -> short) -> (forall i, d i = d' i) -> performs short d m -> performs short' d' m.
Proof. intros Hs Hd [B Su]. split; [by eapply books_ext|]. auto. Qed.

Lemma performs_ret0 short : performs short (fun _ => 0) (mret 0).
Proof. split; [apply books_ret|]. intros. apply succeeds_ret. Qed.

Lemma performs_orelse short d1 d2 m1 m2 :
  performs short d1 m1 -> performs short d2 m2 ->
  performs short (fun i => d1 i + d2 i) (try! m1 ;; m2).
Proof.
  intros [B1 S1] [B2 S2]. split; [by apply books_orelse|]. intros. apply succeeds_orelse; auto.
Qed.

Lemma performs_for_each {A} short (d : A -> item -> Z) (f : A -> M RouteState Z) l :
  (forall x, x ∈ l -> performs short (d x) (f x)) ->
  performs short (fun i => foldr (fun x n => d x i + n) 0 l) (for_each l f).
Proof.
  intros H. split.
  - apply books_for_each. intros. by apply H.
  - intros. apply succeeds_for_each. intros. by apply H.
Qed.

(** A method of an object of type [N]. *)
Definition method {N} (short : Prop) (n n' : N) (d : item -> Z) (m : M (N * RouteState) Z) : Prop :=
  forall r tr, cached_ok r ->
    wp m (fun ret s' tr' =>
      cached_ok s'.2 /\ s'.1 = (if ret =? 0 then n' else n) /\
      (ret = 0 -> changes tr tr' d) /\ (Accepting K -> short -> ret = 0)) (n, r) tr.

Lemma method_ext {N} short (short' : Prop) (n n1 n2 : N) d1 d2 m :
  (short' -> short) -> n1 = n2 -> (forall i, d1 i = d2 i) ->
  method short n n1 d1 m -> method short' n n2 d2 m.
Proof.
  intros Hs <- Hd H r tr Hr. eapply wp_mono; [by apply H|]. cbn.
  intros ret s' tr' (H1 & H2 & H3 & H4). split_and!; [done..| |auto]. intros E st i. rewrite <-Hd. by apply H3.
Qed.

Lemma method_gets {N} short (n n' : N) d (k : N -> M (N * RouteState) Z) :
  method short n n' d (k n) -> method short n n' d (n ← gets fst; k n).
Proof. intros H r tr Hr. apply wp_bind, wp_gets. by apply H. Qed.

Lemma method_nop {N} short (n : N) : method short n n (fun _ => 0) (mret 0).
Proof. intros r tr Hr. split_and!; try done. intros _ _ i. lia. Qed.

Lemma method_commit {N} short (n : N) (f : N -> N) :
  method short n (f n) (fun _ => 0) (on_fst (modify f);; mret 0).
Proof. intros r tr Hr. split_and!; try done. intros _ _ i. cbn. lia. Qed.

(** Requests to the kernel, then the rest of the method. *)
Lemma method_step {N} short (n n' : N) d1 d2 (m : M RouteState Z) (k : M (N * RouteState) Z) :
  performs short d1 m -> method short n n' d2 k ->
  method short n n' (fun i => d1 i + d2 i) (try! on_snd m ;; k).
Proof.
  intros [B Su] Hk r tr Hr. apply wp_orelse, wp_zoom. cbn.
  apply wp_intro. intros ret r' tr' Hrun.
  destruct (wp_run _ _ _ _ _ _ _ Hrun (B r tr Hr)) as [Hr' Hc]. split.
  - intros ->. eapply wp_mono; [by apply Hk|]. cbn. intros ret s2 tr2 (H1 & H2 & H3 & H4).
    split_and!; try done. intros E st i. rewrite H3, Hc by done. lia.
  - intros Hne. cbn. rewrite (proj2 (Z.eqb_neq _ _)) by done. split_and!; try done.
    intros KA Hs. by destruct (wp_run _ _ _ _ _ _ _ Hrun (Su KA Hs r tr Hr)).
Qed.

Lemma method_step_if {N} (b : bool) short (n n' : N) d1 d2 (m : M RouteState Z)
    (k : M (N * RouteState) Z) :
  (b = true -> performs short d1 m) -> method short n n' d2 k ->
  method short n n' (fun i => (if b then d1 i else 0) + d2 i)
    (try! (if b then on_snd m else mret 0) ;; k).
Proof.
  intros Hm Hk. destruct b; [by apply method_step; auto|]. intros r tr Hr. by apply Hk.
Qed.
End Method.

(** ** The delegate of physical networks *)

(** What a physical network expects of its delegate: it adds and removes the
    fallthrough rules [fall interface permission]. *)
Class DelegateLaws {K : Kernel} {St : Steady} {IX : Interfaces} (D : Delegate)
    (fall : string -> Z -> list item) := {
  addFallthrough_spec : forall interface permission, valid_permission permission ->
    installs cached_ok True true (fall interface permission) (addFallthrough D interface permission);
  removeFallthrough_spec : forall interface permission, valid_permission permission ->
    installs cached_ok True false (fall interface permission) (removeFallthrough D interface permission)
}.

(** ** What a network stands for *)

Definition base_ok (n : base) : Prop :=
  netId_fits (mNetId n) /\ forall interface, interface ∈ mInterfaces n -> no_nul interface.

Definition base_short (n : base) : Prop :=
  forall interface, interface ∈ mInterfaces n -> short_name interface.

(** The items of every interface. *)
Definition each_interface (f : string -> list item) (n : base) : list item :=
  concat (map f (string_set_elements (mInterfaces n))).

Section Items.
Context {K : Kernel} {KL : KernelLaws K} {St : Steady} {IX : Interfaces} {KI : KeepsIndices K}.

Definition local_network_items (n : base) : list item :=
  each_interface (local_items (mNetId n)) n.

(** An interface of the default network: its default rule and fallthrough rules. *)
Definition default_interface_items (fall : string -> Z -> list item) (permission : Z)
    (interface : string) : list item :=
  default_items (table_of interface) permission ++ fall interface permission.

Definition physical_interface_items (fall : string -> Z -> list item) (n : PhysicalNetwork.t)
    (interface : string) : list item :=
  physical_items (mNetId (PhysicalNetwork.network n)) interface (PhysicalNetwork.mPermission n)
    (table_of interface) ++
  (if PhysicalNetwork.mIsDefault n
   then default_interface_items fall (PhysicalNetwork.mPermission n) interface else []).

Definition physical_network_items (fall : string -> Z -> list item) (n : PhysicalNetwork.t) : list item :=
  each_interface (physical_interface_items fall n) (PhysicalNetwork.network n).

Definition virtual_network_items (n : VirtualNetwork.t) : list item :=
  each_interface (fun interface =>
    virtual_items (mNetId (VirtualNetwork.network n)) interface (VirtualNetwork.mSecure n)
      (table_of interface) (VirtualNetwork.mUidRanges n) true) (VirtualNetwork.network n).

Definition network_items (fall : string -> Z -> list item) (n : Network) : list item :=
  match n with
  | Local n => local_network_items n
  | Physical n => physical_network_items fall n
  | Virtual n => virtual_network_items n
  end.
End Items.

#[global] Arguments default_interface_items : simpl never.

Lemma each_interface_insert f interface n i :
  interface ∉ mInterfaces n ->
  cnt i (each_interface f (insert_interface interface n)) = cnt i (f interface) + cnt i (each_interface f n).
Proof.
  intros H. unfold each_interface. cbn [mInterfaces insert_interface].
  rewrite (cnt_concat_map_Permutation f i _ _ (string_set_elements_insert _ _ H)). cbn.
  by rewrite cnt_app.
Qed.

Lemma each_interface_erase f interface n i :
  interface ∈ mInterfaces n ->
  cnt i (each_interface f n) = cnt i (f interface) + cnt i (each_interface f (erase_interface interface n)).
Proof.
  intros H. unfold each_interface. cbn [mInterfaces erase_interface].
  rewrite (cnt_concat_map_Permutation f i _ _ (string_set_elements_delete _ _ H)). cbn.
  by rewrite cnt_app.
Qed.

(** The change from one object to another. *)
Definition diff {N} (items : N -> list item) (n n' : N) (i : item) : Z :=
  cnt i (items n') - cnt i (items n).

Lemma hasInterface_true interface n : hasInterface interface n = true <-> interface ∈ mInterfaces n.
Proof. apply bool_decide_eq_true. Qed.
Lemma hasInterface_false interface n : hasInterface interface n = false <-> interface ∉ mInterfaces n.
Proof. apply bool_decide_eq_false. Qed.

Lemma insert_interface_same interface n : interface ∈ mInterfaces n -> insert_interface interface n = n.
Proof.
  intros H. unfold insert_interface. destruct n as [id ifs]. cbn in H |- *. f_equal.
  by apply subseteq_union_1_L, singleton_subseteq_l.
Qed.
Lemma erase_interface_same interface n : interface ∉ mInterfaces n -> erase_interface interface n = n.
Proof.
  intros H. unfold erase_interface. destruct n as [id ifs]. cbn in H |- *. f_equal.
  apply difference_disjoint_L, disjoint_singleton_r. done.
Qed.

(** ** Methods of the three classes *)

Section Local.
Context {K : Kernel} {KL : KernelLaws K} {St : Steady} {IX : Interfaces} {KI : KeepsIndices K}.

Lemma local_addInterface_spec n interface :
  base_ok n -> no_nul interface ->
  method (short_name interface) n (insert_interface interface n)
    (diff local_network_items n (insert_interface interface n))
    (LocalNetwork.addInterface interface).
Proof.
  intros [Hid _] Hi. apply method_gets. destruct (hasInterface interface n) eqn:E.
  - apply hasInterface_true in E. rewrite insert_interface_same by done.
    eapply method_ext; [done|done| |apply method_nop]. intros i. unfold diff. lia.
  - apply hasInterface_false in E. eapply method_ext; [done|done| |].
    2: { apply method_step; [|apply method_commit]. apply installs_performs.
         by apply installs_local. }
    intros i. unfold diff, local_network_items. rewrite each_interface_insert by done. cbn. lia.
Qed.

Lemma local_removeInterface_spec n interface :
  base_ok n ->
  method (base_short n) n (erase_interface interface n)
    (diff local_network_items n (erase_interface interface n))
    (LocalNetwork.removeInterface interface).
Proof.
  intros [Hid Hn]. apply method_gets. destruct (hasInterface interface n) eqn:E; cbn [negb].
  - apply hasInterface_true in E. eapply method_ext; [|done| |].
    3: { apply method_step; [|apply method_commit]. apply installs_performs.
         apply installs_local; auto. }
    + intros Hs. by apply Hs.
    + intros i. unfold diff, local_network_items. rewrite (each_interface_erase _ interface n) by done.
      cbn. lia.
  - apply hasInterface_false in E. rewrite erase_interface_same by done.
    eapply method_ext; [done|done| |apply method_nop]. intros i. unfold diff. lia.
Qed.
End Local.

(** Counting over a list of interfaces. *)
Lemma cnt_concat_split {A} (f g h : A -> list item) l i :
  (forall x, cnt i (f x) = cnt i (g x) + cnt i (h x)) ->
  cnt i (concat (map f l)) = cnt i (concat (map g l)) + cnt i (concat (map h l)).
Proof.
  intros H. induction l as [|x l IH]; cbn; [done|]. rewrite !cnt_app, IH, H. lia.
Qed.

Definition physical_ok (n : PhysicalNetwork.t) : Prop :=
  base_ok (PhysicalNetwork.network n) /\ valid_permission (PhysicalNetwork.mPermission n).

Section Physical.
Context {K : Kernel} {KL : KernelLaws K} {St : Steady} {IX : Interfaces} {KI : KeepsIndices K} (D : Delegate) (fall : string -> Z -> list item)
  {DL : DelegateLaws D fall}.
Implicit Types n : PhysicalNetwork.t.

Lemma addToDefault_spec interface permission :
  valid_permission permission ->
  performs True (signed true (default_interface_items fall permission interface))
    (PhysicalNetwork.addToDefault D interface permission).
Proof.
  intros. apply installs_performs, installs_seq; [by apply (installs_default interface permission true)|].
  rewrite <-(app_nil_r (fall _ _)). apply installs_seq; [by apply addFallthrough_spec|apply installs_ret0].
Qed.

Lemma removeFromDefault_spec interface permission :
  valid_permission permission ->
  performs True (signed false (default_interface_items fall permission interface))
    (PhysicalNetwork.removeFromDefault D interface permission).
Proof.
  intros. apply installs_performs, installs_seq; [by apply (installs_default interface permission false)|].
  rewrite <-(app_nil_r (fall _ _)). apply installs_seq; [by apply removeFallthrough_spec|apply installs_ret0].
Qed.

Lemma performs_weaken short d m : performs True d m -> performs short d m.
Proof. by apply performs_ext. Qed.

(** Being the default adds the default items of every interface. *)
Lemma default_physical_items n i :
  cnt i (physical_network_items fall (PhysicalNetwork.set_mIsDefault true n)) =
  cnt i (physical_network_items fall (PhysicalNetwork.set_mIsDefault false n)) +
  cnt i (each_interface (default_interface_items fall (PhysicalNetwork.mPermission n))
           (PhysicalNetwork.network n)).
Proof.
  apply cnt_concat_split. intros x. unfold physical_interface_items. cbn. by rewrite app_nil_r, cnt_app.
Qed.

Lemma set_mIsDefault_same n b : PhysicalNetwork.mIsDefault n = b -> PhysicalNetwork.set_mIsDefault b n = n.
Proof. intros <-. by destruct n. Qed.

(** Adding to or removing from the default network, for every interface. *)
Lemma addAsDefault_spec n :
  physical_ok n ->
  method True n (PhysicalNetwork.set_mIsDefault true n)
    (diff (physical_network_items fall) n (PhysicalNetwork.set_mIsDefault true n))
    (PhysicalNetwork.addAsDefault D).
Proof.
  intros [Hb Hp]. apply method_gets. destruct (PhysicalNetwork.mIsDefault n) eqn:E.
  - rewrite set_mIsDefault_same by done.
    eapply method_ext; [done|done| |apply method_nop]. intros i. unfold diff. lia.
  - eapply method_ext; [done|done| |].
    2: { apply method_step; [|apply method_commit].
         apply (performs_for_each _ (fun interface => signed true
           (default_interface_items fall (PhysicalNetwork.mPermission n) interface))).
         intros. by apply addToDefault_spec. }
    intros i. cbn beta. rewrite (signed_concat true (default_interface_items fall _)).
    unfold diff. rewrite default_physical_items, (set_mIsDefault_same n false) by done.
    unfold each_interface, signed. lia.
Qed.

Lemma removeAsDefault_spec n :
  physical_ok n ->
  method True n (PhysicalNetwork.set_mIsDefault false n)
    (diff (physical_network_items fall) n (PhysicalNetwork.set_mIsDefault false n))
    (PhysicalNetwork.removeAsDefault D).
Proof.
  intros [Hb Hp]. apply method_gets. destruct (PhysicalNetwork.mIsDefault n) eqn:E; cbn [negb].
  - eapply method_ext; [done|done| |].
    2: { apply method_step; [|apply method_commit].
         apply (performs_for_each _ (fun interface => signed false
           (default_interface_items fall (PhysicalNetwork.mPermission n) interface))).
         intros. by apply removeFromDefault_spec. }
    intros i. cbn beta. rewrite (signed_concat false (default_interface_items fall _)).
    pose proof (default_physical_items n i) as Hd. rewrite (set_mIsDefault_same n true) in Hd by done.
    unfold diff. rewrite Hd. unfold each_interface, signed. lia.
  - rewrite set_mIsDefault_same by done.
    eapply method_ext; [done|done| |apply method_nop]. intros i. unfold diff. lia.
Qed.

Lemma physical_addInterface_spec n interface :
  physical_ok n -> no_nul interface ->
  let n' := PhysicalNetwork.set_network (insert_interface interface) n in
  method (short_name interface) n n' (diff (physical_network_items fall) n n')
    (PhysicalNetwork.addInterface D interface).
Proof.
  intros [Hb Hp] Hi n'. destruct Hb as [Hid _]. apply method_gets.
  destruct (hasInterface interface (PhysicalNetwork.network n)) eqn:E.
  - apply hasInterface_true in E. assert (n' = n) as ->.
    { unfold n', PhysicalNetwork.set_network. rewrite insert_interface_same by done. by destruct n. }
    eapply method_ext; [done|done| |apply method_nop]. intros i. unfold diff. lia.
  - apply hasInterface_false in E. eapply method_ext; [done|done| |].
    2: { apply method_step.
         { apply installs_performs. by apply installs_addInterfaceToPhysicalNetwork. }
         apply method_step_if; [|apply method_commit]. intros _.
         by apply performs_weaken, addToDefault_spec. }
    intros i. unfold diff, physical_network_items. cbn.
    rewrite each_interface_insert by done. unfold physical_interface_items at 1. cbn.
    change (each_interface (physical_interface_items fall n') (PhysicalNetwork.network n))
      with (each_interface (physical_interface_items fall n) (PhysicalNetwork.network n)).
    rewrite cnt_app. destruct (PhysicalNetwork.mIsDefault n); cbn; rewrite ?cnt_nil; lia.
Qed.

Lemma physical_removeInterface_spec n interface :
  physical_ok n ->
  let n' := PhysicalNetwork.set_network (erase_interface interface) n in
  method (base_short (PhysicalNetwork.network n)) n n' (diff (physical_network_items fall) n n')
    (PhysicalNetwork.removeInterface D interface).
Proof.
  intros [Hb Hp] n'. destruct Hb as [Hid Hn]. apply method_gets.
  destruct (hasInterface interface (PhysicalNetwork.network n)) eqn:E; cbn [negb].
  - apply hasInterface_true in E. eapply method_ext; [|done| |].
    3: { apply method_step_if.
         { intros _. by apply performs_weaken, removeFromDefault_spec. }
         apply method_step; [|apply method_commit].
         apply installs_performs. apply installs_removeInterfaceFromPhysicalNetwork; auto. }
    + intros Hs. by apply Hs.
    + intros i. unfold diff, physical_network_items. cbn.
      rewrite (each_interface_erase _ interface (PhysicalNetwork.network n)) by done.
      unfold physical_interface_items at 2. cbn.
      change (each_interface (physical_interface_items fall n') ?b)
        with (each_interface (physical_interface_items fall n) b).
      rewrite cnt_app. destruct (PhysicalNetwork.mIsDefault n); cbn; rewrite ?cnt_nil; lia.
  - apply hasInterface_false in E. assert (n' = n) as ->.
    { unfold n', PhysicalNetwork.set_network. rewrite erase_interface_same by done. by destruct n. }
    eapply method_ext; [done|done| |apply method_nop]. intros i. unfold diff. lia.
Qed.

Lemma modifyPhysicalNetworkPermission_spec netId interface old new :
  netId_fits netId -> valid_permission old -> valid_permission new -> no_nul interface ->
  performs (short_name interface) (fun i =>
    signed true (physical_items netId interface new (table_of interface)) i +
    signed false (physical_items netId interface old (table_of interface)) i)
    (modifyPhysicalNetworkPermission netId interface old new).
Proof. intros. apply performs_orelse; by apply installs_performs, installs_physical. Qed.

Lemma foldr_replace {A} (f g : A -> list item) l i :
  foldr (fun x acc => signed true (f x) i + signed false (g x) i + acc) 0 l =
  cnt i (concat (map f l)) - cnt i (concat (map g l)).
Proof. induction l as [|x l IH]; cbn -[signed]; [done|]. rewrite !cnt_app, IH. unfold signed. lia. Qed.

(** With a new permission, the rules of every interface are replaced. *)
Lemma permission_physical_items n permission i :
  let ifs := string_set_elements (mInterfaces (PhysicalNetwork.network n)) in
  cnt i (physical_network_items fall (PhysicalNetwork.set_mPermission permission n)) =
  cnt i (concat (map (fun x => physical_items (mNetId (PhysicalNetwork.network n)) x permission
                                 (table_of x)) ifs)) +
  (if PhysicalNetwork.mIsDefault n
   then cnt i (concat (map (default_interface_items fall permission) ifs)) else 0).
Proof.
  intros ifs. destruct (PhysicalNetwork.mIsDefault n) eqn:E.
  - apply cnt_concat_split. intros x. unfold physical_interface_items. cbn. by rewrite E, cnt_app.
  - rewrite Z.add_0_r. unfold physical_network_items, each_interface, physical_interface_items.
    cbn. by rewrite E.
Qed.

Lemma setPermission_spec n permission :
  physical_ok n -> valid_permission permission ->
  let n' := PhysicalNetwork.set_mPermission permission n in
  method (base_short (PhysicalNetwork.network n)) n n' (diff (physical_network_items fall) n n')
    (PhysicalNetwork.setPermission D permission).
Proof.
  intros [[Hid Hn] Hp] Hnew n'. apply method_gets.
  assert (PhysicalNetwork.set_mPermission (PhysicalNetwork.mPermission n) n = n) as Hsame
    by (by destruct n).
  destruct (permission =? PhysicalNetwork.mPermission n) eqn:E.
  { apply Z.eqb_eq in E as ->. subst n'. rewrite Hsame.
    eapply method_ext; [done|reflexivity| |apply method_nop]. intros i. unfold diff. lia. }
  eapply method_ext; [done|done| |].
  2: { apply method_step; [|apply method_step_if; [|apply method_commit]].
       - apply performs_for_each. intros x Hx%elem_of_string_set_elements.
         eapply performs_ext; [|done|apply modifyPhysicalNetworkPermission_spec; auto].
         intros Hs. by apply Hs.
       - intros _. apply performs_for_each. intros x _. apply performs_weaken, performs_orelse.
         + by apply addToDefault_spec.
         + by apply removeFromDefault_spec. }
  intros i. cbn beta. rewrite foldr_replace.
  rewrite (foldr_replace (default_interface_items fall permission)
    (default_interface_items fall (PhysicalNetwork.mPermission n))).
  pose proof (permission_physical_items n (PhysicalNetwork.mPermission n) i) as Hold.
  rewrite Hsame in Hold. unfold diff, n'. rewrite Hold, permission_physical_items. destruct (PhysicalNetwork.mIsDefault n); lia.
Qed.
End Physical.

Definition virtual_ok (n : VirtualNetwork.t) : Prop :=
  base_ok (VirtualNetwork.network n) /\ UidRanges.sorted_ranges (VirtualNetwork.mUidRanges n) /\
  Forall (fun r => uids_ok (Some r)) (VirtualNetwork.mUidRanges n).

Section Virtual.
Context {K : Kernel} {KL : KernelLaws K} {St : Steady} {IX : Interfaces} {KI : KeepsIndices K}.
Implicit Types n : VirtualNetwork.t.

(** The rules of [ranges] on every interface. *)
Definition users_items n (ranges : list (Z * Z)) : list item :=
  each_interface (fun interface =>
    virtual_items (mNetId (VirtualNetwork.network n)) interface (VirtualNetwork.mSecure n)
      (table_of interface) ranges false) (VirtualNetwork.network n).

Lemma vpn_users_items_app netId interface secure table l1 l2 i :
  cnt i (vpn_users_items netId interface secure table (l1 ++ l2)) =
  cnt i (vpn_users_items netId interface secure table l1) +
  cnt i (vpn_users_items netId interface secure table l2).
Proof. unfold vpn_users_items. by rewrite map_app, concat_app, cnt_app. Qed.

(** With more ranges, a network stands for their rules as well. *)
Lemma ranges_virtual_items n l1 l2 l i :
  l ≡ₚ l1 ++ l2 ->
  cnt i (virtual_network_items (VirtualNetwork.set_mUidRanges (fun _ => l) n)) =
  cnt i (virtual_network_items (VirtualNetwork.set_mUidRanges (fun _ => l1) n)) +
  cnt i (users_items n l2).
Proof.
  intros Hl. apply cnt_concat_split. intros x. unfold virtual_items. cbn.
  unfold vpn_users_items at 1. rewrite !cnt_app, (cnt_concat_map_Permutation _ _ _ _ Hl).
  pose proof (vpn_users_items_app (mNetId (VirtualNetwork.network n)) x (VirtualNetwork.mSecure n)
    (table_of x) l1 l2 i) as Ha. unfold vpn_users_items in *. rewrite cnt_nil. lia.
Qed.

Lemma modify_users_spec n add ranges :
  virtual_ok n -> Forall (fun r => uids_ok (Some r)) ranges ->
  performs (base_short (VirtualNetwork.network n)) (signed add (users_items n ranges))
    (for_each (string_set_elements (mInterfaces (VirtualNetwork.network n))) (fun interface =>
       modifyVirtualNetwork (mNetId (VirtualNetwork.network n)) interface ranges
         (VirtualNetwork.mSecure n) add (negb MODIFY_NON_UID_BASED_RULES))).
Proof.
  intros ([Hid Hn] & _) Hr. apply installs_performs, installs_each.
  intros x Hx%elem_of_string_set_elements. eapply installs_impl; [|apply installs_virtual; auto].
  intros Hs. by apply Hs.
Qed.

Lemma addUsers_spec n ranges :
  virtual_ok n -> Forall (fun r => uids_ok (Some r)) ranges ->
  let n' := VirtualNetwork.set_mUidRanges (fun l => UidRanges.add l ranges) n in
  method (base_short (VirtualNetwork.network n)) n n' (diff virtual_network_items n n')
    (VirtualNetwork.addUsers ranges).
Proof.
  intros Hok Hr n'. apply method_gets. eapply method_ext; [done|done| |].
  2: { apply method_step; [|apply method_commit]. by apply (modify_users_spec n true). }
  intros i. unfold diff.
  pose proof (ranges_virtual_items n (VirtualNetwork.mUidRanges n) ranges
    (UidRanges.add (VirtualNetwork.mUidRanges n) ranges) i (UidRanges.add_Permutation _ _)) as H.
  assert (VirtualNetwork.set_mUidRanges (fun _ => VirtualNetwork.mUidRanges n) n = n) as Hsame
    by (by destruct n). rewrite Hsame in H.
  change n' with (VirtualNetwork.set_mUidRanges (fun _ =>
    UidRanges.add (VirtualNetwork.mUidRanges n) ranges) n). rewrite H. unfold signed. lia.
Qed.

(** The ranges to remove must be among the network's ranges. *)
Lemma removeUsers_spec n ranges :
  virtual_ok n -> UidRanges.sorted_ranges ranges -> Forall (fun r => uids_ok (Some r)) ranges ->
  let n' := VirtualNetwork.set_mUidRanges (fun l => UidRanges.remove l ranges) n in
  method (base_short (VirtualNetwork.network n)) n n' (signed false (users_items n ranges))
    (VirtualNetwork.removeUsers ranges).
Proof.
  intros Hok Hs Hr n'. apply method_gets. eapply method_ext; [done|done| |].
  2: { apply method_step; [|apply method_commit]. by apply (modify_users_spec n false). }
  intros i. cbn beta. lia.
Qed.

Lemma removeUsers_diff n ranges i :
  virtual_ok n -> UidRanges.sorted_ranges ranges -> ranges ⊆+ VirtualNetwork.mUidRanges n ->
  diff virtual_network_items n (VirtualNetwork.set_mUidRanges (fun l => UidRanges.remove l ranges) n) i =
  signed false (users_items n ranges) i.
Proof.
  intros (_ & Hsort & _) Hs Hsub. pose proof (UidRanges.remove_Permutation _ _ Hsort Hs Hsub) as Hp.
  symmetry in Hp. pose proof (ranges_virtual_items n _ _ _ i Hp) as H.
  assert (VirtualNetwork.set_mUidRanges (fun _ => VirtualNetwork.mUidRanges n) n = n) as Hsame
    by (by destruct n). rewrite Hsame in H. unfold diff, signed.
  change (VirtualNetwork.set_mUidRanges (fun l => UidRanges.remove l ranges) n)
    with (VirtualNetwork.set_mUidRanges (fun _ =>
      UidRanges.remove (VirtualNetwork.mUidRanges n) ranges) n). lia.
Qed.

Lemma virtual_addInterface_spec n interface :
  virtual_ok n -> no_nul interface ->
  let n' := VirtualNetwork.set_network (insert_interface interface) n in
  method (short_name interface) n n' (diff virtual_network_items n n')
    (VirtualNetwork.addInterface interface).
Proof.
  intros ([Hid _] & _ & Hr) Hi n'. apply method_gets.
  destruct (hasInterface interface (VirtualNetwork.network n)) eqn:E.
  - apply hasInterface_true in E. assert (n' = n) as ->.
    { unfold n', VirtualNetwork.set_network. rewrite insert_interface_same by done. by destruct n. }
    eapply method_ext; [done|reflexivity| |apply method_nop]. intros i. unfold diff. lia.
  - apply hasInterface_false in E. eapply method_ext; [done|done| |].
    2: { apply method_step; [|apply method_commit].
         apply installs_performs. by apply installs_addInterfaceToVirtualNetwork. }
    intros i. unfold diff, virtual_network_items. cbn. rewrite each_interface_insert by done. lia.
Qed.

Lemma virtual_removeInterface_spec n interface :
  virtual_ok n ->
  let n' := VirtualNetwork.set_network (erase_interface interface) n in
  method (base_short (VirtualNetwork.network n)) n n' (diff virtual_network_items n n')
    (VirtualNetwork.removeInterface interface).
Proof.
  intros ([Hid Hn] & _ & Hr) n'. apply method_gets.
  destruct (hasInterface interface (VirtualNetwork.network n)) eqn:E; cbn [negb].
  - apply hasInterface_true in E. eapply method_ext; [|done| |].
    3: { apply method_step; [|apply method_commit].
         apply installs_performs. apply installs_removeInterfaceFromVirtualNetwork; auto. }
    + intros Hs. by apply Hs.
    + intros i. unfold diff, virtual_network_items. cbn.
      rewrite (each_interface_erase _ interface (VirtualNetwork.network n)) by done. lia.
  - apply hasInterface_false in E. assert (n' = n) as ->.
    { unfold n', VirtualNetwork.set_network. rewrite erase_interface_same by done. by destruct n. }
    eapply method_ext; [done|reflexivity| |apply method_nop]. intros i. unfold diff. lia.
Qed.
End Virtual.

(** ** Networks of any class *)

Definition network_ok (n : Network) : Prop :=
  match n with
  | Local n => base_ok n
  | Physical n => physical_ok n
  | Virtual n => virtual_ok n
  end.

Definition network_short (n : Network) : Prop := base_short (network_base n).

(** The network with other interfaces. *)
Definition map_base (f : base -> base) (n : Network) : Network :=
  match n with
  | Local n => Local (f n)
  | Physical n => Physical (PhysicalNetwork.set_network f n)
  | Virtual n => Virtual (VirtualNetwork.set_network f n)
  end.

Lemma network_base_map f n : network_base (map_base f n) = f (network_base n).
Proof. by destruct n. Qed.

Lemma network_ok_base n : network_ok n -> base_ok (network_base n).
Proof. destruct n; cbn; [done|by intros []|by intros []]. Qed.

Lemma network_ok_map f n :
  network_ok n -> base_ok (f (network_base n)) -> network_ok (map_base f n).
Proof. destruct n; cbn; [done|intros [_ ?]; done|intros [_ ?]; done]. Qed.

Lemma base_ok_insert interface n : base_ok n -> no_nul interface -> base_ok (insert_interface interface n).
Proof. intros [Hid Hn] Hi. split; [done|]. cbn. intros x [->%elem_of_singleton|Hx]%elem_of_union; auto. Qed.

Lemma base_ok_erase interface n : base_ok n -> base_ok (erase_interface interface n).
Proof. intros [Hid Hn]. split; [done|]. cbn. intros x [Hx _]%elem_of_difference. auto. Qed.

Section Networks.
Context {K : Kernel} {KL : KernelLaws K} {St : Steady} {IX : Interfaces} {KI : KeepsIndices K} (D : Delegate) (fall : string -> Z -> list item)
  {DL : DelegateLaws D fall}.
Implicit Types n : Network.

Lemma method_local short b b' d d' m p v :
  method short b b' d m -> (forall i, d i = d' i) ->
  method short (Local b) (Local b') d' (dispatch m p v).
Proof.
  intros H Hd r tr Hr. specialize (H r tr Hr). unfold wp, dispatch in *. cbn [fst snd].
  destruct (m (b, r) tr) as [[ret s'] tr']. cbn. destruct H as (H1 & H2 & H3 & H4).
  split_and!; [done| |intros E st i; rewrite <-Hd; by apply H3|done].
  rewrite H2. by destruct (ret =? 0).
Qed.

Lemma method_physical short b b' d d' l m v :
  method short b b' d m -> (forall i, d i = d' i) ->
  method short (Physical b) (Physical b') d' (dispatch l m v).
Proof.
  intros H Hd r tr Hr. specialize (H r tr Hr). unfold wp, dispatch in *. cbn [fst snd].
  destruct (m (b, r) tr) as [[ret s'] tr']. cbn. destruct H as (H1 & H2 & H3 & H4).
  split_and!; [done| |intros E st i; rewrite <-Hd; by apply H3|done].
  rewrite H2. by destruct (ret =? 0).
Qed.

Lemma method_virtual short b b' d d' l p m :
  method short b b' d m -> (forall i, d i = d' i) ->
  method short (Virtual b) (Virtual b') d' (dispatch l p m).
Proof.
  intros H Hd r tr Hr. specialize (H r tr Hr). unfold wp, dispatch in *. cbn [fst snd].
  destruct (m (b, r) tr) as [[ret s'] tr']. cbn. destruct H as (H1 & H2 & H3 & H4).
  split_and!; [done| |intros E st i; rewrite <-Hd; by apply H3|done].
  rewrite H2. by destruct (ret =? 0).
Qed.

Lemma addInterface_spec n interface :
  network_ok n -> no_nul interface ->
  let n' := map_base (insert_interface interface) n in
  method (short_name interface) n n' (diff (network_items fall) n n') (addInterface D interface).
Proof.
  intros Hok Hi n'. destruct n as [b|b|b].
  - eapply method_local; [by apply local_addInterface_spec|done].
  - eapply method_physical; [by apply (physical_addInterface_spec D fall)|done].
  - eapply method_virtual; [by apply virtual_addInterface_spec|done].
Qed.

Lemma removeInterface_spec n interface :
  network_ok n ->
  let n' := map_base (erase_interface interface) n in
  method (network_short n) n n' (diff (network_items fall) n n') (removeInterface D interface).
Proof.
  intros Hok n'. destruct n as [b|b|b].
  - eapply method_local; [by apply local_removeInterface_spec|done].
  - eapply method_physical; [by apply (physical_removeInterface_spec D fall)|done].
  - eapply method_virtual; [by apply virtual_removeInterface_spec|done].
Qed.

(** What is left of a network whose interfaces were removed one by one. *)
Definition shrunk n n' : Prop :=
  exists ifs, ifs ⊆ getInterfaces n /\ n' = map_base (fun b => Base (mNetId b) ifs) n.

Lemma shrunk_refl n : shrunk n n.
Proof. exists (getInterfaces n). split; [done|]. by destruct n as [[]|[[]]|[[]]]. Qed.

Lemma shrunk_erase n interface : shrunk n (map_base (erase_interface interface) n).
Proof.
  exists (getInterfaces n ∖ {[interface]}). split; [apply subseteq_difference_l; reflexivity|].
  by destruct n as [[]|[[]]|[[]]].
Qed.

Lemma shrunk_trans n1 n2 n3 : shrunk n1 n2 -> shrunk n2 n3 -> shrunk n1 n3.
Proof.
  intros (i1 & H1 & ->) (i2 & H2 & ->). exists i2. split.
  - etrans; [exact H2|]. etrans; [|exact H1]. by destruct n1 as [[]|[[]]|[[]]].
  - by destruct n1 as [[]|[[]]|[[]]].
Qed.

Lemma network_short_erase n interface :
  network_short n -> network_short (map_base (erase_interface interface) n).
Proof. unfold network_short. rewrite network_base_map. intros H x. cbn.
  intros [Hx _]%elem_of_difference. by apply H. Qed.

Lemma network_ok_erase n interface : network_ok n -> network_ok (map_base (erase_interface interface) n).
Proof. intros. apply network_ok_map; [done|]. by apply base_ok_erase, network_ok_base. Qed.

Lemma getInterfaces_erase n interface :
  getInterfaces (map_base (erase_interface interface) n) = getInterfaces n ∖ {[interface]}.
Proof. unfold getInterfaces. by rewrite network_base_map. Qed.

(** The interface at the beginning of a non-empty set. *)
Lemma first_interface n interface rest :
  string_set_elements (getInterfaces n) = interface :: rest ->
  interface ∈ getInterfaces n /\
  size (getInterfaces (map_base (erase_interface interface) n)) = pred (size (getInterfaces n)).
Proof.
  intros E. assert (interface ∈ getInterfaces n) as Hin.
  { apply elem_of_string_set_elements. rewrite E. constructor. }
  split; [done|]. rewrite getInterfaces_erase, size_difference, size_singleton; [lia|set_solver].
Qed.

Lemma no_interfaces n : string_set_elements (getInterfaces n) = [] -> getInterfaces n = ∅.
Proof.
  intros E. apply set_eq. intros x. rewrite <-elem_of_string_set_elements, E. set_solver.
Qed.

Lemma clear_loop_spec fuel n r tr :
  network_ok n -> cached_ok r -> (size (getInterfaces n) <= fuel)%nat ->
  wp (clear_loop D fuel) (fun ret s' tr' =>
    cached_ok s'.2 /\ shrunk n s'.1 /\
    (ret = 0 -> getInterfaces s'.1 = ∅ /\ changes tr tr' (diff (network_items fall) n s'.1)) /\
    (Accepting K -> network_short n -> ret = 0)) (n, r) tr.
Proof.
  revert n r tr. induction fuel as [|fuel IH]; intros n r tr Hok Hr Hf.
  { apply wp_ret. split_and!; [done|apply shrunk_refl| |done]. intros _. split.
    - apply leibniz_equiv, size_empty_iff. cbn. lia.
    - intros _ i. unfold diff. cbn. lia. }
  cbn [clear_loop]. apply wp_bind, wp_gets.
  destruct (string_set_elements (getInterfaces (n, r).1)) as [|interface rest] eqn:E.
  { apply wp_ret. split_and!; [done|apply shrunk_refl| |done]. intros _. split.
    - by apply no_interfaces.
    - intros _ i. unfold diff. cbn. lia. }
  apply first_interface in E as [Hin Hsize]. cbn [fst] in *. apply wp_orelse.
  eapply wp_mono; [by apply removeInterface_spec|].
  cbn beta. intros ret [n1 r1] tr1 (Hr1 & Hn1 & Hc1 & Ha1). cbn [fst snd] in *. split.
  - intros ->. cbn in Hn1. subst n1. eapply wp_mono.
    { apply IH; [by apply network_ok_erase|done|lia]. }
    cbn beta. intros ret [n2 r2] tr2 (Hr2 & Hsh & Hc2 & Ha2). cbn [fst snd] in *. split_and!.
    + done.
    + eapply shrunk_trans; [apply shrunk_erase|done].
    + intros E. destruct (Hc2 E) as [He Hd]. split; [done|]. intros st i. rewrite Hd, Hc1 by done.
      unfold diff. lia.
    + intros KA Hs. apply Ha2; [done|]. by apply network_short_erase.
  - intros Hne. rewrite (proj2 (Z.eqb_neq _ _)) in Hn1 by done. subst n1.
    split_and!; [done|apply shrunk_refl|by intros|]. intros KA Hs. by destruct Hne; apply Ha1.
Qed.

(** More fuel does not change what the loop does: it is the [while] loop. *)
Lemma clear_loop_fuel fuel1 fuel2 n r tr :
  network_ok n -> cached_ok r ->
  (size (getInterfaces n) <= fuel1)%nat -> (size (getInterfaces n) <= fuel2)%nat ->
  clear_loop D fuel1 (n, r) tr = clear_loop D fuel2 (n, r) tr.
Proof.
  revert fuel2 n r tr. induction fuel1 as [|fuel1 IH]; intros fuel2 n r tr Hok Hr H1 H2.
  - destruct fuel2 as [|fuel2]; [done|]. cbn. unfold mbind, M_bind, gets. cbn.
    assert (getInterfaces n = ∅) as -> by (apply leibniz_equiv, size_empty_iff; lia). done.
  - destruct fuel2 as [|fuel2].
    { cbn. unfold mbind, M_bind, gets. cbn.
      assert (getInterfaces n = ∅) as -> by (apply leibniz_equiv, size_empty_iff; lia). done. }
    cbn [clear_loop]. unfold orelse, mbind, M_bind, gets. cbn [fst].
    destruct (string_set_elements (getInterfaces n)) as [|interface rest] eqn:E; [done|].
    apply first_interface in E as [Hin Hsize].
    pose proof (removeInterface_spec n interface Hok r tr Hr) as Hrm. unfold wp in Hrm.
    destruct (removeInterface D interface (n, r) tr) as [[ret [n1 r1]] tr1].
    cbn in Hrm. destruct Hrm as (Hr1 & Hn1 & _). destruct (ret =? 0); [|done]. subst n1.
    apply IH; [by apply network_ok_erase|done|lia|lia].
Qed.
End Networks.
