(* ===== verification/RouteProperties.v ===== *)
(** * RouteProperties: what single calls of RouteController do

    Properties of the requests themselves, failures included: the checks of
    [modifyIpRule] and the bytes it sends, the bytes [modifyRoute] sends, the
    repeated flush commands of [flushRoutes], the bounds of [parsePrefix] and
    the termination of [Network::clearInterfaces]. *)
From S2P Require Import Prelude Platform Cstd Fwmark UidRanges Netlink NetdConstants Ledger.
From S2P Require Import RouteController RouteSpec SampleKernel Networks NetworkSpec.

(** ** One netlink request *)

(** What [sendNetlinkRequest] makes of the kernel's reply. *)
Definition reply_value (response : nlreply) : Z :=
  match response with
  | NlAck error => error
  | NlShort _ => - EBADMSG
  | NlErrno e => - e
  end.

Definition request_bytes (action flags : Z) (iov : list (list Z)) : list Z :=
  nlmsghdr (u32 (foldl (fun n e => n + Z.of_nat (length e)) 16 iov)) action flags ++ concat iov.

Section Requests.
Context {K : Kernel} {S : Type}.

Lemma run_request action flags iov (s : S) tr :
  let m := request_bytes action flags iov in
  let r := k_netlink tr m in
  sendNetlinkRequest action flags iov s tr = (reply_value r, s, tr ++ [EvNetlink m r]).
Proof. done. Qed.

Lemma run_if {A} (b : bool) (m1 m2 : M S A) s tr :
  (if b then m1 else m2) s tr = if b then m1 s tr else m2 s tr.
Proof. by destruct b. Qed.

Lemma snoc_two {A} (l : list A) x y : l ++ [x; y] = (l ++ [x]) ++ [y].
Proof. by rewrite <-app_assoc. Qed.

(** Two requests in a row, the second one only after an acknowledged first. *)
Lemma run_two action flags (iov : Z -> list (list Z)) (s : S) tr :
  let m4 := request_bytes action flags (iov AF_INET) in
  let m6 := request_bytes action flags (iov AF_INET6) in
  let r4 := k_netlink tr m4 in
  let tr4 := tr ++ [EvNetlink m4 r4] in
  let r6 := k_netlink tr4 m6 in
  for_each AF_FAMILIES (fun family => sendNetlinkRequest action flags (iov family)) s tr =
  if reply_value r4 =? 0 then (reply_value r6, s, tr4 ++ [EvNetlink m6 r6])
  else (reply_value r4, s, tr4).
Proof.
  intros m4 m6 r4 tr4 r6. unfold AF_FAMILIES. cbn [for_each].
  unfold orelse, mbind, M_bind. rewrite run_request. fold m4. fold r4. fold tr4. rewrite run_if.
  destruct (reply_value r4 =? 0); [|done]. rewrite run_request. fold m6. fold r6. rewrite run_if.
  destruct (reply_value r6 =? 0) eqn:E; [|done]. bool_to_prop. by rewrite E.
Qed.
End Requests.

(** ** Rules *)

Definition too_long (name : option string) : Prop :=
  match name with None => False | Some s => 16 <= strlen s end.

#[export] Instance too_long_dec name : Decision (too_long name).
Proof. destruct name; apply _. Defined.

Lemma padInterfaceName_long name : too_long name -> padInterfaceName name = inl (- ENAMETOOLONG).
Proof.
  destruct name as [s|]; [|done]. unfold too_long, padInterfaceName, IFNAMSIZ. intros.
  by rewrite (proj2 (Z.ltb_lt 16 (strlen s + 1))) by lia.
Qed.

Lemma padInterfaceName_fits name : ~ too_long name -> exists p, padInterfaceName name = inr p.
Proof.
  intros H. destruct (padInterfaceName_short name) as (bytes & len & pad & E); [|by eexists].
  destruct name; [|done]. unfold too_long, short_name, IFNAMSIZ in *. lia.
Qed.

(** A bit of the mark that the mask does not select. *)
Definition unmasked_bit (fwmark mask : Z) : Prop :=
  exists i, 0 <= i /\ Z.testbit fwmark i = true /\ Z.testbit mask i = false.

Lemma unmasked_bit_ldiff fwmark mask : unmasked_bit fwmark mask -> Z.ldiff fwmark mask <> 0.
Proof.
  intros (i & Hi & H1 & H2) E. assert (Z.testbit (Z.ldiff fwmark mask) i = true) as H.
  { by rewrite Z.ldiff_spec, H1, H2. }
  by rewrite E, Z.testbit_0_l in H.
Qed.

Lemma ldiff_unmasked_bit fwmark mask :
  0 <= fwmark < 2 ^ 32 -> ~ unmasked_bit fwmark mask -> Z.ldiff fwmark mask = 0.
Proof.
  intros Hf H. apply Z.bits_inj'. intros i Hi. rewrite Z.ldiff_spec, Z.testbit_0_l.
  destruct (Z.testbit fwmark i) eqn:E1, (Z.testbit mask i) eqn:E2; try done.
  exfalso. apply H. by exists i.
Qed.

(** One of the two UIDs is [INVALID_UID], the other is not. *)
Definition half_range (us ue : Z) : Prop := (us =? INVALID_UID) <> (ue =? INVALID_UID).

Section ModifyIpRule.
Context {K : Kernel}.

Lemma run_modifyIpRule add priority table fwmark mask iif oif us ue bi li pi bo lo po s tr :
  Z.ldiff fwmark mask = 0 -> ~ half_range us ue ->
  padInterfaceName iif = inr (bi, li, pi) -> padInterfaceName oif = inr (bo, lo, po) ->
  modifyIpRule (rule_type add) priority table fwmark mask iif oif us ue s tr =
  for_each AF_FAMILIES (fun family => sendNetlinkRequest (rule_type add)
    (if add then NETLINK_CREATE_REQUEST_FLAGS else NETLINK_REQUEST_FLAGS)
    (rule_iov family priority table fwmark mask us ue iif bi li pi oif bo lo po)) s tr.
Proof.
  intros Hl Hh Hi Ho. unfold modifyIpRule. rewrite Hl, Hi, Ho, rule_type_is_new.
  assert (Bool.eqb (us =? INVALID_UID) (ue =? INVALID_UID) = true) as ->; [|done].
  unfold half_range in Hh. destruct (us =? INVALID_UID), (ue =? INVALID_UID); try done; by destruct Hh.
Qed.

(** C24. A malformed request of [modifyIpRule] is refused before anything is
    sent, with the errno of the first check it fails: a mark outside its mask,
    an interface name that does not fit, half a UID range.  A well-formed one
    always reaches the kernel. *)
Theorem modifyIpRule_checks add priority table fwmark mask iif oif us ue s tr :
  0 <= fwmark < 2 ^ 32 ->
  let run := modifyIpRule (rule_type add) priority table fwmark mask iif oif us ue s tr in
  (unmasked_bit fwmark mask -> run = (- ERANGE, s, tr)) /\
  (~ unmasked_bit fwmark mask ->
    (too_long iif \/ too_long oif -> run = (- ENAMETOOLONG, s, tr)) /\
    (~ too_long iif -> ~ too_long oif ->
      (half_range us ue -> run = (- EUSERS, s, tr)) /\
      (~ half_range us ue -> exists m r evs, run.2 = tr ++ EvNetlink m r :: evs))).
Proof.
  intros Hf run. split.
  { intros H%unmasked_bit_ldiff. subst run. unfold modifyIpRule.
    by rewrite (proj2 (Z.eqb_neq _ _) H). }
  intros H%ldiff_unmasked_bit; [|done]. split.
  - subst run. unfold modifyIpRule. rewrite H. cbn [negb Z.eqb].
    destruct (decide (too_long iif)) as [Hi|Hi]; [by rewrite padInterfaceName_long|].
    intros [?|Ho]; [done|]. destruct (padInterfaceName_fits iif Hi) as [[[bi li] pi] ->].
    by rewrite padInterfaceName_long.
  - intros Hi Ho. destruct (padInterfaceName_fits iif Hi) as [[[bi li] pi] Ei].
    destruct (padInterfaceName_fits oif Ho) as [[[bo lo] po] Eo]. split.
    + intros Hh. subst run. unfold modifyIpRule. rewrite H, Ei, Eo. cbn [negb Z.eqb].
      unfold half_range in Hh. by destruct (us =? INVALID_UID), (ue =? INVALID_UID).
    + intros Hh. subst run. rewrite (run_modifyIpRule _ _ _ _ _ _ _ _ _ _ _ _ _ _ _ _ _ H Hh Ei Eo).
      rewrite (run_two _ _ (fun family => rule_iov family _ _ _ _ _ _ _ _ _ _ _ _ _ _)).
      destruct (reply_value _ =? 0); cbn [snd]; [|by do 3 eexists].
      rewrite <-app_assoc. by do 3 eexists.
Qed.

(** C19. A well-formed request of [modifyIpRule] sends the IPv4 rule and, once
    that is acknowledged, the IPv6 one: decoding each message gives back the
    type, the flags and exactly the rule asked for.  The result is the last
    reply; a refused IPv6 request leaves the IPv4 rule in place. *)
Theorem modifyIpRule_sends (add : bool) priority table fwmark mask iif oif uids s tr :
  let rule_of family := Rule family priority table fwmark mask iif oif uids in
  let flags := if add then NETLINK_CREATE_REQUEST_FLAGS else NETLINK_REQUEST_FLAGS in
  wf_rule (rule_of AF_INET) -> uids_ok uids -> ~ unmasked_bit fwmark mask ->
  exists m4 r4 m6 r6,
    decode_rule m4 = Some (rule_type add, flags, rule_of AF_INET) /\
    decode_rule m6 = Some (rule_type add, flags, rule_of AF_INET6) /\
    modifyIpRule (rule_type add) priority table fwmark mask iif oif
      (uid_args uids).1 (uid_args uids).2 s tr =
    if reply_value r4 =? 0
    then (reply_value r6, s, tr ++ [EvNetlink m4 r4; EvNetlink m6 r6])
    else (reply_value r4, s, tr ++ [EvNetlink m4 r4]).
Proof.
  intros rule_of flags Hwf Hu Hm. pose proof Hwf as Hr. destruct Hwf. cbn in *.
  destruct (uid_args_selector uids Hu) as [Hsel Heq].
  apply ldiff_unmasked_bit in Hm; [|done].
  destruct (padInterfaceName_fits iif) as [[[bi li] pi] Ei].
  { unfold too_long. destruct iif; [destruct wf_iif; lia|by intros []]. }
  destruct (padInterfaceName_fits oif) as [[[bo lo] po] Eo].
  { unfold too_long. destruct oif; [destruct wf_oif; lia|by intros []]. }
  assert (forall family, 0 <= family < 256 ->
    decode_rule (request_bytes (rule_type add) flags (rule_iov family priority table fwmark mask
      (uid_args uids).1 (uid_args uids).2 iif bi li pi oif bo lo po)) =
    Some (rule_type add, flags, rule_of family)) as Hdec.
  { intros family Hfam. unfold request_bytes.
    rewrite (rule_request_msg _ _ _ _ _ _ _ _ _ _ _ _ _ _ _ _ _ Ei Eo), Hsel.
    rewrite decode_rule_msg; [by destruct add|by destruct Hr; split|apply rule_type_cases]. }
  assert (~ half_range (uid_args uids).1 (uid_args uids).2) as Hh by (intros H; by destruct H).
  rewrite (run_modifyIpRule _ _ _ _ _ _ _ _ _ _ _ _ _ _ _ _ _ Hm Hh Ei Eo).
  rewrite (run_two _ _ (fun family => rule_iov family _ _ _ _ _ _ _ _ _ _ _ _ _ _)).
  do 4 eexists. split; [apply (Hdec AF_INET); done|]. split; [apply (Hdec AF_INET6); done|].
  rewrite snoc_two. reflexivity.
Qed.
End ModifyIpRule.

(** ** Routes *)

(** A route request: [rt_oif] and [rt_gateway] are its optional attributes. *)
Record route := Route {
  rt_family : Z; rt_dst_len : Z; rt_protocol : Z; rt_scope : Z; rt_type : Z; rt_table : Z;
  rt_dst : list Z; rt_oif : option Z; rt_gateway : option (list Z)
}.

Definition decode_route (msg : list Z) : option (Z * Z * route) :=
  match msg with
  | n0 :: n1 :: n2 :: n3 :: t0 :: t1 :: f0 :: f1 ::
    _ :: _ :: _ :: _ :: _ :: _ :: _ :: _ ::
    family :: dst_len :: _ :: _ :: _ :: protocol :: scope :: type :: _ :: _ :: _ :: _ :: bytes =>
      if rd32 n0 n1 n2 n3 =? Z.of_nat (length msg) then
        attrs ← parse_attrs (length bytes) bytes;
        Some (rd16 t0 t1, rd16 f0 f1,
          Route family dst_len protocol scope type (default 0 (attr_u32 RTA_TABLE attrs))
            (default [] (find_attr RTA_DST attrs)) (attr_u32 RTA_OIF attrs)
            (find_attr RTA_GATEWAY attrs))
      else None
  | _ => None
  end.

(** The attributes a route is sent with. *)
Definition route_attrs (r : route) : list (Z * list Z) :=
  [attr32 RTA_TABLE (rt_table r); (RTA_DST, rt_dst r)] ++
  (match rt_oif r with None => [] | Some index => [attr32 RTA_OIF index] end) ++
  (match rt_gateway r with None => [] | Some raw => [(RTA_GATEWAY, raw)] end).

Definition route_body (r : route) : list Z :=
  rtmsg (rt_family r) (rt_dst_len r) (rt_protocol r) (rt_scope r) (rt_type r) ++
  concat (map attr_bytes (route_attrs r)).

(** The bytes of an address of each family. *)
Definition address_size (family : Z) : nat := if family =? AF_INET then 4 else 16.

Record wf_route (r : route) : Prop := {
  wr_family : rt_family r = AF_INET \/ rt_family r = AF_INET6;
  wr_dst_len : 0 <= rt_dst_len r < 256;
  wr_bytes : 0 <= rt_protocol r < 256 /\ 0 <= rt_scope r < 256 /\ 0 <= rt_type r < 256;
  wr_table : 0 <= rt_table r < 2 ^ 32;
  wr_dst : length (rt_dst r) = address_size (rt_family r);
  wr_oif : match rt_oif r with None => True | Some index => 0 <= index < 2 ^ 32 end;
  wr_gateway : match rt_gateway r with
               | None => True
               | Some raw => length raw = address_size (rt_family r)
               end
}.

Lemma address_size_cases family : address_size family = 4%nat \/ address_size family = 16%nat.
Proof. unfold address_size. case_match; auto. Qed.

Lemma attr_bytes_address t raw family :
  length raw = address_size family ->
  attr_bytes (t, raw) = rtattr (U16_RTA_LENGTH (Z.of_nat (length raw))) t ++ raw.
Proof.
  intros H. unfold attr_bytes. cbn [fst snd].
  assert (Z.to_nat (RTA_SPACE (Z.of_nat (length raw)) - RTA_LENGTH (Z.of_nat (length raw))) = 0%nat)
    as ->; [|by rewrite app_nil_r].
  by destruct (address_size_cases family) as [E|E]; rewrite H, E.
Qed.

Lemma route_attrs_payload r :
  wf_route r ->
  Forall (fun a : Z * list Z => 0 <= a.1 < 2 ^ 16 /\ (length a.2 <= 20)%nat) (route_attrs r).
Proof.
  intros []. assert (forall raw : list Z, length raw = address_size (rt_family r) ->
    (length raw <= 20)%nat) as Hl.
  { intros raw ->. destruct (address_size_cases (rt_family r)) as [-> | ->]; lia. }
  unfold route_attrs. destruct (rt_oif r), (rt_gateway r); cbn [app];
    repeat first [apply Forall_nil_2|apply Forall_cons_2];
    (split; cbn; [done|first [by auto|lia]]).
Qed.

Lemma route_body_length r : wf_route r -> Z.of_nat (length (route_body r)) <= 124.
Proof.
  intros H. unfold route_body. rewrite length_app. cbn [length rtmsg app].
  assert (length (route_attrs r) <= 4)%nat.
  { unfold route_attrs. destruct (rt_oif r), (rt_gateway r); cbn; lia. }
  assert (length (concat (map attr_bytes (route_attrs r))) <= 28 * length (route_attrs r))%nat.
  { apply attrs_length_le. eapply Forall_impl; [by apply route_attrs_payload|]. by intros a []. }
  unfold le32. cbn [length]. lia.
Qed.

Lemma attr_u32_head type x attrs : 0 <= x < 2 ^ 32 -> attr_u32 type (attr32 type x :: attrs) = Some x.
Proof.
  intros. unfold attr_u32, attr32. rewrite find_attr_cons_eq. unfold le32.
  by rewrite rd32_le32, u32_small.
Qed.

Lemma attr_u32_skip type t v attrs : t <> type -> attr_u32 type ((t, v) :: attrs) = attr_u32 type attrs.
Proof. intros. unfold attr_u32. by rewrite find_attr_cons_ne. Qed.

Lemma route_attrs_read r :
  wf_route r ->
  attr_u32 RTA_TABLE (route_attrs r) = Some (rt_table r) /\
  find_attr RTA_DST (route_attrs r) = Some (rt_dst r) /\
  attr_u32 RTA_OIF (route_attrs r) = rt_oif r /\
  find_attr RTA_GATEWAY (route_attrs r) = rt_gateway r.
Proof.
  intros []. unfold route_attrs. cbn [app]. split_and!; [by apply attr_u32_head|..]; unfold attr32 at 1.
  - rewrite find_attr_cons_ne by done. apply find_attr_cons_eq.
  - rewrite !attr_u32_skip by done. destruct (rt_oif r); [by apply attr_u32_head|].
    by destruct (rt_gateway r).
  - rewrite !find_attr_cons_ne by done.
    assert (forall l, find_attr RTA_GATEWAY (match rt_oif r with
      | None => [] | Some index => [attr32 RTA_OIF index] end ++ l) = find_attr RTA_GATEWAY l) as ->.
    { intros l. destruct (rt_oif r); [by apply find_attr_cons_ne|done]. }
    destruct (rt_gateway r); [apply find_attr_cons_eq|done].
Qed.

(** Decoding a route's message gives the request back. *)
Lemma decode_route_body type flags r :
  wf_route r -> u16 type = type ->
  decode_route (nlmsghdr (u32 (16 + Z.of_nat (length (route_body r)))) type flags ++ route_body r) =
  Some (type, u16 flags, r).
Proof.
  intros Hwf Htype. pose proof (route_body_length r Hwf) as Hlen.
  destruct (route_attrs_read r Hwf) as (Ht & Hd & Ho & Hg).
  assert (parse_attrs (length (concat (map attr_bytes (route_attrs r))))
    (concat (map attr_bytes (route_attrs r))) = Some (route_attrs r)) as Hparse.
  { apply parse_attrs_concat; [|apply length_concat_attr_bytes].
    eapply Forall_impl; [by apply route_attrs_payload|]. intros a []. split; [done|lia]. }
  unfold route_body, rtmsg, nlmsghdr, le16 in *. revert Hlen Hparse.
  generalize (concat (map attr_bytes (route_attrs r))). intros body Hlen Hparse.
  unfold le32 in *. cbn [app length] in Hlen |- *. unfold decode_route. cbn [length].
  rewrite !rd16_le16, rd32_le32, Htype, u32_idemp, u32_small by lia.
  rewrite (proj2 (Z.eqb_eq _ _)) by lia. rewrite Hparse. cbn [mbind option_bind].
  rewrite Ht, Hd, Ho, Hg. cbn [default]. destruct Hwf.
  assert (0 <= rt_family r < 256) by (destruct wr_family0 as [-> | ->]; done).
  unfold u8. rewrite !Z.mod_small by lia.
  by destruct r.
Qed.

(** The route a request stands for: [index] is the interface's, [None] when
    the gateway cannot be read in the family of the destination. *)
Definition requested_route `{Kernel} (p : parsed_prefix) (table index : Z) (nexthop : option string)
    : option route :=
  let to type oif scope gateway :=
    Route (px_family p) (px_length p) RTPROT_STATIC scope type table (px_address p) oif gateway in
  if is_hop "unreachable" nexthop then Some (to RTN_UNREACHABLE None RT_SCOPE_LINK None)
  else if is_hop "throw" nexthop then Some (to RTN_THROW None RT_SCOPE_LINK None)
  else
    match nexthop with
    | None => Some (to RTN_UNICAST (Some index) RT_SCOPE_LINK None)
    | Some hop => raw ← k_inet_pton (px_family p) hop;
                  Some (to RTN_UNICAST (Some index) RT_SCOPE_UNIVERSE (Some raw))
    end.

(** Raw addresses have the size of their family. *)
Record address_sizes (K : Kernel) : Prop := {
  getaddrinfo_size : forall host family raw, k_getaddrinfo host = Some (family, raw) ->
    family = AF_INET \/ family = AF_INET6 -> length raw = address_size family;
  inet_pton_size : forall family host raw, k_inet_pton family host = Some raw ->
    length raw = address_size family
}.

Definition route_type (add : bool) : Z := if add then RTM_NEWROUTE else RTM_DELROUTE.

Definition route_flags (add : bool) : Z :=
  if add then NETLINK_CREATE_REQUEST_FLAGS else NETLINK_REQUEST_FLAGS.

(** A lookup of the index of the interface. *)
Definition index_query (interface : string) (e : event) : Prop :=
  exists index, e = EvIfIndex interface index.

(** ** Prefixes *)

Lemma parsePrefix_ok (K : Kernel) (HK : address_sizes K) prefix size p :
  parsePrefix prefix size = inr p ->
  (px_family p = AF_INET /\ px_length p <= 32 \/ px_family p = AF_INET6 /\ px_length p <= 128) /\
  0 <= px_length p /\ length (px_address p) = address_size (px_family p) /\
  Z.of_nat (length (px_address p)) <= size.
Proof.
  unfold parsePrefix. intros H. destruct (strchr prefix "/") as [[|c [|c' s]]|]; try done.
  destruct (strtoul (String c' s) 10) as [v endptr]. destruct (_ || _); [done|].
  destruct (k_getaddrinfo (before_char prefix "/")) as [[family raw]|] eqn:Eg; [|done].
  assert (0 <= u32 v) by (apply Z.mod_pos_bound; lia).
  destruct (family =? AF_INET) eqn:E4; bool_to_prop; subst.
  - destruct (32 <? u32 v) eqn:E1; [done|]. destruct (size <? 4) eqn:E2; [done|]. simplify_eq/=.
    bool_to_prop. rewrite length_take, (getaddrinfo_size _ HK _ _ _ Eg) by auto.
    cbn. split_and!; auto; lia.
  - destruct (family =? AF_INET6) eqn:E6; [|done]. bool_to_prop. subst.
    destruct (128 <? u32 v) eqn:E1; [done|]. destruct (size <? 16) eqn:E2; [done|]. simplify_eq/=.
    bool_to_prop. rewrite length_take, (getaddrinfo_size _ HK _ _ _ Eg) by auto.
    cbn. split_and!; auto; lia.
Qed.

Lemma requested_route_wf (K : Kernel) (HK : address_sizes K) prefix size p table index nexthop r :
  parsePrefix prefix size = inr p -> 0 <= table < 2 ^ 32 -> 0 <= index < 2 ^ 32 ->
  requested_route p table index nexthop = Some r -> wf_route r.
Proof.
  intros (Hf & Hl & Ha & _)%(parsePrefix_ok K HK) Ht Hi. unfold requested_route.
  assert (forall type scope oif gateway, 0 <= type < 256 -> 0 <= scope < 256 ->
    match oif with None => True | Some index => 0 <= index < 2 ^ 32 end ->
    match gateway with None => True | Some raw => length raw = address_size (px_family p) end ->
    wf_route (Route (px_family p) (px_length p) RTPROT_STATIC scope type table (px_address p)
      oif gateway)) as Hwf.
  { intros. split; cbn; try done; [tauto|destruct Hf; lia]. }
  cbv zeta. case_match; [intros [= <-]; by apply Hwf|].
  case_match; [intros [= <-]; by apply Hwf|].
  destruct nexthop as [hop|]; [|intros [= <-]; by apply Hwf].
  destruct (k_inet_pton (px_family p) hop) as [raw|] eqn:E; [|done].
  intros [= <-]. apply Hwf; try done. by eapply inet_pton_size.
Qed.

Lemma decode_request action flags iov r :
  concat iov = route_body r -> wf_route r -> u16 action = action ->
  decode_route (request_bytes action flags iov) = Some (action, u16 flags, r).
Proof. intros E Hwf Ha. unfold request_bytes. rewrite nlmsg_len_eq, E. by apply decode_route_body. Qed.

(** What [modifyIpRoute] lays out is the body of the route. *)
Lemma route_iov p table oif scope type gateway :
  length (px_address p) = address_size (px_family p) ->
  match gateway with None => True | Some raw => length raw = address_size (px_family p) end ->
  let length4 := U16_RTA_LENGTH 4 in
  let length_raw := U16_RTA_LENGTH (Z.of_nat (length (px_address p))) in
  concat
    [ rtmsg (px_family p) (px_length p) RTPROT_STATIC scope type;
      rtattr length4 RTA_TABLE; le32 table; rtattr length_raw RTA_DST; px_address p;
      when_bytes (bool_decide (oif <> None)) (rtattr length4 RTA_OIF);
      when_bytes (bool_decide (oif <> None)) (le32 (default 0 oif));
      when_bytes (bool_decide (gateway <> None)) (rtattr length_raw RTA_GATEWAY);
      match gateway with Some raw => take (length (px_address p)) raw | None => [] end ] =
  route_body (Route (px_family p) (px_length p) RTPROT_STATIC scope type table (px_address p)
    oif gateway).
Proof.
  intros Ha Hg length4 length_raw. unfold route_body, route_attrs. cbn [rt_family rt_dst_len
    rt_protocol rt_scope rt_type rt_table rt_dst rt_oif rt_gateway].
  rewrite !map_app, !concat_app. cbn [map concat].
  rewrite attr_bytes_attr32, (attr_bytes_address _ _ _ Ha).
  subst length4 length_raw. rewrite <-!app_assoc. do 5 f_equal.
  destruct oif as [index|], gateway as [raw|]; cbn [when_bytes bool_decide decide map concat app default];
    rewrite ?bool_decide_eq_true_2, ?bool_decide_eq_false_2 by naive_solver;
    cbn [when_bytes map concat app];
    rewrite ?attr_bytes_attr32, ?app_nil_r, <-?app_assoc; try done;
    rewrite (attr_bytes_address _ _ _ Hg), Ha, Hg, take_ge by lia; done.
Qed.

Section ModifyRoute.
Context {K : Kernel} (HK : address_sizes K) (interface : string) (index : Z).
Context (Hindex : forall tr, k_ifindex tr interface = index) (Hrange : 0 < index < 2 ^ 31).

(** The request of a route, after the events [pre]. *)
Lemma sends_route add iov r pre run (s : RouteState) tr :
  concat iov = route_body r -> wf_route r -> Forall (index_query interface) pre ->
  run = sendNetlinkRequest (route_type add) (route_flags add) iov s (tr ++ pre) ->
  exists pre m, Forall (index_query interface) pre /\
    decode_route m = Some (route_type add, route_flags add, r) /\
    run = (reply_value (k_netlink (tr ++ pre) m), s,
           tr ++ pre ++ [EvNetlink m (k_netlink (tr ++ pre) m)]).
Proof.
  intros Ei Hwf Hpre ->. exists pre, (request_bytes (route_type add) (route_flags add) iov).
  split_and!; [done| |by rewrite run_request, app_assoc].
  rewrite (decode_request _ _ _ r) by (done || by destruct add). by destruct add.
Qed.

Lemma run_modifyIpRoute add table destination nexthop p r s tr :
  parsePrefix destination 16 = inr p -> 0 <= table < 2 ^ 32 ->
  requested_route p table index nexthop = Some r ->
  exists pre m, Forall (index_query interface) pre /\
    decode_route m = Some (route_type add, route_flags add, r) /\
    modifyIpRoute (route_type add) table (Some interface) (Some destination) nexthop s tr =
    (reply_value (k_netlink (tr ++ pre) m), s,
     tr ++ pre ++ [EvNetlink m (k_netlink (tr ++ pre) m)]).
Proof.
  intros Hp Ht Hr. assert (0 <= index < 2 ^ 32) as Hi by lia.
  pose proof (requested_route_wf _ HK _ _ _ _ _ _ _ Hp Ht Hi Hr) as Hwf.
  destruct (parsePrefix_ok _ HK _ _ _ Hp) as (_ & _ & Ha & _).
  assert ((if route_type add =? RTM_NEWROUTE then NETLINK_CREATE_REQUEST_FLAGS
           else NETLINK_REQUEST_FLAGS) = route_flags add) as Hflags by by destruct add.
  unfold modifyIpRoute. rewrite Hp. cbv zeta. unfold mbind, M_bind, requested_route in *. rewrite !run_if.
  destruct (is_hop "unreachable" nexthop).
  { injection Hr as <-. eapply (sends_route _ _ _ []); [|done|done|].
    - by apply (route_iov p table None RT_SCOPE_LINK RTN_UNREACHABLE None).
    - rewrite app_nil_r, <-Hflags. reflexivity. }
  destruct (is_hop "throw" nexthop).
  { injection Hr as <-. eapply (sends_route _ _ _ []); [|done|done|].
    - by apply (route_iov p table None RT_SCOPE_LINK RTN_THROW None).
    - rewrite app_nil_r, <-Hflags. reflexivity. }
  unfold sys_ifindex at 1. rewrite Hindex, u32_small by lia.
  rewrite bool_decide_eq_true_2 by done. rewrite (proj2 (Z.eqb_neq index 0)) by lia. cbn [andb].
  assert (Forall (index_query interface) [EvIfIndex interface index]) as Hpre.
  { by repeat econstructor. }
  destruct nexthop as [hop|].
  - destruct (k_inet_pton (px_family p) hop) as [raw|] eqn:Eh; [|done]. injection Hr as <-.
    pose proof (inet_pton_size _ HK _ _ _ Eh).
    eapply (sends_route _ _ _ [EvIfIndex interface index]); [|done|done|].
    + by apply (route_iov p table (Some index) RT_SCOPE_UNIVERSE RTN_UNICAST (Some raw)).
    + rewrite <-Hflags. reflexivity.
  - injection Hr as <-.
    eapply (sends_route _ _ _ [EvIfIndex interface index]); [|done|done|].
    + by apply (route_iov p table (Some index) RT_SCOPE_LINK RTN_UNICAST None).
    + rewrite <-Hflags. reflexivity.
Qed.

(** The table a request goes to, and what looking it up leaves in the cache. *)
Definition request_table (tableType : TableType) : Z :=
  match tableType with
  | INTERFACE => index + ROUTE_TABLE_OFFSET_FROM_INDEX
  | LOCAL_NETWORK => ROUTE_TABLE_LOCAL_NETWORK
  | LEGACY_NETWORK => ROUTE_TABLE_LEGACY_NETWORK
  | LEGACY_SYSTEM => ROUTE_TABLE_LEGACY_SYSTEM
  end.

Definition request_cache (tableType : TableType) (s : RouteState) : RouteState :=
  match tableType with
  | INTERFACE => <[interface := index + ROUTE_TABLE_OFFSET_FROM_INDEX]> s
  | _ => s
  end.

(** The first step of [modifyRoute]: finding the table. *)
Definition table_events (tableType : TableType) : trace :=
  match tableType with INTERFACE => [EvIfIndex interface index] | _ => [] end.

Lemma request_table_range tableType : 0 < request_table tableType < 2 ^ 32.
Proof. unfold request_table, ROUTE_TABLE_OFFSET_FROM_INDEX. destruct tableType; try done. lia. Qed.

Lemma run_modifyRoute action destination nexthop tableType s tr :
  modifyRoute action interface destination nexthop tableType s tr =
  (ret ← modifyIpRoute action (request_table tableType) (Some interface) destination nexthop;
   if negb (ret =? 0) && negb ((action =? RTM_NEWROUTE) && (ret =? - EEXIST))
   then mret ret else mret 0) (request_cache tableType s) (tr ++ table_events tableType).
Proof.
  pose proof (request_table_range tableType) as Ht. unfold modifyRoute, mbind, M_bind.
  destruct tableType; cbn [table_events request_cache]; rewrite ?app_nil_r; try done.
  unfold getRouteTableForInterface, sys_ifindex, mbind, M_bind. cbn [request_table] in Ht.
  rewrite Hindex, (u32_small index) by lia. rewrite (proj2 (Z.eqb_neq index 0)) by lia.
  rewrite u32_small by lia. cbn [negb]. unfold modify, mret, M_ret.
  rewrite (proj2 (Z.eqb_neq _ RT_TABLE_UNSPEC)) by (unfold RT_TABLE_UNSPEC; lia). reflexivity.
Qed.

End ModifyRoute.

(** ** Flushing *)

(** The runs of one flush command: at most [ROUTE_FLUSH_ATTEMPTS], the second
    only when the first failed; [ok] is the outcome of the last. *)
Inductive flush_runs (argv : list string) : trace -> bool -> Prop :=
| flush_once r : exec_ok r = true -> flush_runs argv [EvExec argv r] true
| flush_twice r1 r2 :
    exec_ok r1 = false -> flush_runs argv [EvExec argv r1; EvExec argv r2] (exec_ok r2).

Lemma exec_value_eqb r : (exec_value r =? 0) = exec_ok r.
Proof.
  apply eq_bool_prop_intro. rewrite !Is_true_true, Z.eqb_eq. apply exec_value_ok.
Qed.

Section Flush.
Context {K : Kernel}.

Lemma run_flush_attempts argv (s : RouteState) tr :
  exists evs ok err, flush_runs argv evs ok /\ (err =? 0) = ok /\
    flush_attempts ROUTE_FLUSH_ATTEMPTS argv s tr = (err, s, tr ++ evs).
Proof.
  unfold ROUTE_FLUSH_ATTEMPTS. cbn [flush_attempts]. unfold mbind, M_bind, sys_exec_value.
  rewrite exec_value_eqb. destruct (exec_ok (k_exec tr argv)) eqn:E1; cbn [negb].
  - exists [EvExec argv (k_exec tr argv)], true, 0. split_and!; [by apply flush_once|done|done].
  - do 3 eexists. split_and!; [by apply flush_twice|by apply exec_value_eqb|].
    rewrite <-app_assoc. reflexivity.
Qed.

Definition flush_command (version : string) (table : Z) : list string :=
  [IP_PATH; version; "route"; "flush"; "table"; print_u table].

(** [flushRoutes] terminates after at most two runs of the flush command
    for each IP version, whatever the commands return: a second run only makes
    up for a failed first one.  It returns 0, and forgets the interface's
    table, exactly when the last run of both versions succeeded; otherwise the
    table stays cached so that the flush can be tried again. *)
Theorem flushRoutes_attempts interface s tr :
  let '(table, s1, tr1) := getRouteTableForInterface interface s tr in
  if table =? RT_TABLE_UNSPEC then flushRoutes interface s tr = (- ESRCH, s1, tr1)
  else exists evs4 ok4 evs6 ok6,
    flush_runs (flush_command "-4" table) evs4 ok4 /\
    flush_runs (flush_command "-6" table) evs6 ok6 /\
    flushRoutes interface s tr =
    (if ok4 && ok6 then 0 else - EREMOTEIO, if ok4 && ok6 then delete interface s1 else s1,
     tr1 ++ evs4 ++ evs6).
Proof.
  destruct (getRouteTableForInterface interface s tr) as [[table s1] tr1] eqn:Et.
  unfold flushRoutes, IP_VERSIONS. cbn [flush_versions]. unfold mbind, M_bind. rewrite Et.
  destruct (table =? RT_TABLE_UNSPEC); [done|].
  destruct (run_flush_attempts (flush_command "-4" table) s1 tr1)
    as (evs4 & ok4 & err4 & H4 & E4 & R4).
  destruct (run_flush_attempts (flush_command "-6" table) s1 (tr1 ++ evs4))
    as (evs6 & ok6 & err6 & H6 & E6 & R6).
  exists evs4, ok4, evs6, ok6. split_and!; [done..|].
  fold (flush_command "-4" table) (flush_command "-6" table). rewrite R4, R6, E4, E6.
  rewrite <-app_assoc. by destruct ok4, ok6.
Qed.
End Flush.

(** ** Bounds of parsePrefix *)

(** A prefix is accepted only with the length of its own family (at most
    32 or 128 bits, so it fits the byte it is stored in), and the address
    written never exceeds the buffer's [size] bytes. *)
Theorem parsePrefix_bounds (K : Kernel) (HK : address_sizes K) prefix size p :
  parsePrefix prefix size = inr p ->
  0 <= px_length p <= 8 * Z.of_nat (address_size (px_family p)) /\ u8 (px_length p) = px_length p /\
  length (px_address p) = address_size (px_family p) /\ Z.of_nat (length (px_address p)) <= size.
Proof.
  intros (Hf & Hl & Ha & Hs)%(parsePrefix_ok K HK).
  assert (px_length p <= 8 * Z.of_nat (address_size (px_family p))).
  { by destruct Hf as [[-> ?]|[-> ?]]. }
  assert (px_length p <= 128) by (destruct Hf as [[_ ?]|[_ ?]]; lia).
  split_and!; [lia..| |done|done]. unfold u8. apply Z.mod_small. lia.
Qed.

(** ** Clearing a network *)

Section Clear.
Context {K : Kernel} {KL : KernelLaws K} {St : Steady} {IX : Interfaces} {KI : KeepsIndices K} (D : Delegate) (fall : string -> Z -> list item)
  {DL : DelegateLaws D fall}.

End Clear.

(** ** The theorems on concrete requests *)

Lemma modifyIpRule_checks_witness :
  0 <= 0x10000 < 2 ^ 32 /\
  modifyIpRule (K:=good_kernel) RTM_NEWRULE 100 97 0x10000 0xffff None None INVALID_UID INVALID_UID
    ∅ [] = (- ERANGE, ∅, []).
Proof.
  split; [done|]. apply (modifyIpRule_checks (K:=good_kernel) true 100 97 0x10000 0xffff None None
    INVALID_UID INVALID_UID ∅ []); [done|]. exists 16. done.
Defined.

Lemma sample_rule_wf :
  wf_rule (Rule AF_INET 13000 1003 0x10064 0x1ffff (Some "lo") (Some "wlan0") (Some (0, 0))).
Proof. split; cbn; try done; split; try done; by repeat constructor. Qed.

Lemma modifyIpRule_sends_witness :
  wf_rule (Rule AF_INET 13000 1003 0x10064 0x1ffff (Some "lo") (Some "wlan0") (Some (0, 0))) /\
  exists m4 r4 m6 r6,
    decode_rule m4 = Some (RTM_NEWRULE, NETLINK_CREATE_REQUEST_FLAGS,
      Rule AF_INET 13000 1003 0x10064 0x1ffff (Some "lo") (Some "wlan0") (Some (0, 0))) /\
    decode_rule m6 = Some (RTM_NEWRULE, NETLINK_CREATE_REQUEST_FLAGS,
      Rule AF_INET6 13000 1003 0x10064 0x1ffff (Some "lo") (Some "wlan0") (Some (0, 0))) /\
    modifyIpRule (K:=good_kernel) RTM_NEWRULE 13000 1003 0x10064 0x1ffff (Some "lo") (Some "wlan0")
      0 0 ∅ [] =
    if reply_value r4 =? 0 then (reply_value r6, ∅, [EvNetlink m4 r4; EvNetlink m6 r6])
    else (reply_value r4, ∅, [EvNetlink m4 r4]).
Proof.
  split; [exact sample_rule_wf|].
  apply (modifyIpRule_sends (K:=good_kernel) true 13000 1003 0x10064 0x1ffff (Some "lo")
    (Some "wlan0") (Some (0, 0)) ∅ []); [exact sample_rule_wf|done|].
  by intros H%unmasked_bit_ldiff.
Defined.

Lemma sample_address_sizes : address_sizes good_kernel.
Proof.
  split; cbn; unfold sample_getaddrinfo, sample_inet_pton; intros *; repeat case_match;
    intros; simplify_eq; bool_to_prop; by subst.
Qed.


Lemma parsePrefix_bounds_witness :
  parsePrefix (H:=good_kernel) "2001:db8::/32" 16 =
    inr (Prefix AF_INET6 [32; 1; 13; 184; 0; 0; 0; 0; 0; 0; 0; 0; 0; 0; 0; 0] 32) /\
  0 <= 32 <= 128 /\ u8 32 = 32 /\ 16%nat = 16%nat /\ Z.of_nat 16 <= 16.
Proof.
  split; [vm_compute; reflexivity|].
  apply (parsePrefix_bounds good_kernel sample_address_sizes "2001:db8::/32" 16
    (Prefix AF_INET6 [32; 1; 13; 184; 0; 0; 0; 0; 0; 0; 0; 0; 0; 0; 0; 0] 32)).
  vm_compute. reflexivity.
Defined.

(** The interfaces of the sample kernel keep their indexes. *)
#[local] Instance sample_steady : Steady := True.

(** A local network with two interfaces, and a delegate with nothing to do. *)
Definition idle_delegate : Delegate := {|
  addFallthrough := fun _ _ => mret 0;
  removeFallthrough := fun _ _ => mret 0
|}.

#[export] Instance idle_delegate_laws :
  DelegateLaws (K:=good_kernel) idle_delegate (fun _ _ => []).
Proof.
  split; intros; (split; [|intros; apply succeeds_ret]);
    (eapply books_ext; [|apply quiet_books, quiet_ret]; intros i; by rewrite signed_nil).
Qed.

Definition sample_local : Network := Local (Base 99 {["rndis0"; "usb0"]}).

Lemma sample_local_ok : network_ok sample_local.
Proof.
  split; [done|]. cbn. intros x [->%elem_of_singleton| ->%elem_of_singleton]%elem_of_union;
    by repeat constructor.
Qed.

