(* ===== verification/NetworkController.v ===== *)
(** * NetworkController: networks, users and permissions

    Models [server/NetworkController.cpp].  The state is the four guarded
    members of the class; [mRWLock] makes every method atomic with respect to
    the threads that only read, and the methods that write are called from one
    thread (the file's THREAD-SAFETY comment), so a run is a sequence of whole
    methods.  Methods that only read are pure functions of the state.  Threads.v says
    what the threads see. *)
From S2P Require Import Prelude Platform UidRanges Fwmark NetdConstants Ledger.
From S2P Require Import RouteController Networks.

Definition MIN_NET_ID : Z := 100.
Definition MAX_NET_ID : Z := 65535.
Definition MIN_OEM_ID : Z := 1.
Definition MAX_OEM_ID : Z := 50.
Definition LOCAL_NET_ID : Z := 99.
(** private/android_filesystem_config.h: AID_APP *)
Definition FIRST_APPLICATION_UID : Z := 10000.

Record NC := MakeNC {
  mDefaultNetId : Z;
  mNetworks : gmap Z Network;
  mUsers : gmap Z Z;
  mProtectableUsers : gset Z
}.

Definition set_mDefaultNetId (netId : Z) (s : NC) : NC :=
  MakeNC netId (mNetworks s) (mUsers s) (mProtectableUsers s).
Definition set_mNetworks (f : gmap Z Network -> gmap Z Network) (s : NC) : NC :=
  MakeNC (mDefaultNetId s) (f (mNetworks s)) (mUsers s) (mProtectableUsers s).
Definition set_mUsers (f : gmap Z Z -> gmap Z Z) (s : NC) : NC :=
  MakeNC (mDefaultNetId s) (mNetworks s) (f (mUsers s)) (mProtectableUsers s).
Definition set_mProtectableUsers (f : gset Z -> gset Z) (s : NC) : NC :=
  MakeNC (mDefaultNetId s) (mNetworks s) (mUsers s) (f (mProtectableUsers s)).

(** The constructor. *)
Definition NC_init : NC :=
  MakeNC NETID_UNSET {[ LOCAL_NET_ID := Local (Base LOCAL_NET_ID ∅) ]} ∅ ∅.

(** ** Methods that only read *)

Definition getNetworkLocked (s : NC) (netId : Z) : option Network := mNetworks s !! netId.
Definition isValidNetwork (s : NC) (netId : Z) : bool :=
  match getNetworkLocked s netId with Some _ => true | None => false end.
Definition getDefaultNetwork (s : NC) : Z := mDefaultNetId s.

Definition isVirtualNetwork (s : NC) (netId : Z) : bool :=
  match getNetworkLocked s netId with
  | Some network => bool_decide (getType network = VIRTUAL)
  | None => false
  end.

(** The loop over [mNetworks] for the first VPN that applies to the user. *)
Fixpoint first_virtual (entries : list (Z * Network)) (uid : Z) : option VirtualNetwork.t :=
  match entries with
  | [] => None
  | (_, Virtual n) :: entries =>
      if VirtualNetwork.appliesToUser n uid then Some n else first_virtual entries uid
  | _ :: entries => first_virtual entries uid
  end.

Definition getVirtualNetworkForUserLocked (s : NC) (uid : Z) : option VirtualNetwork.t :=
  first_virtual (map_entries (mNetworks s)) uid.

Definition virtual_netId (n : VirtualNetwork.t) : Z := mNetId (VirtualNetwork.network n).

Definition getNetworkForUser (s : NC) (uid : Z) : Z :=
  match getVirtualNetworkForUserLocked s uid with
  | Some n => virtual_netId n
  | None => mDefaultNetId s
  end.

Definition getNetworkForConnect (s : NC) (uid : Z) : Z :=
  match getVirtualNetworkForUserLocked s uid with
  | Some n => if negb (VirtualNetwork.mSecure n) then virtual_netId n else mDefaultNetId s
  | None => mDefaultNetId s
  end.

Fixpoint first_with_interface (entries : list (Z * Network)) (interface : string) : Z :=
  match entries with
  | [] => NETID_UNSET
  | (netId, n) :: entries =>
      if hasInterface interface (network_base n) then netId
      else first_with_interface entries interface
  end.

Definition getNetworkForInterface (s : NC) (interface : string) : Z :=
  first_with_interface (map_entries (mNetworks s)) interface.

Definition getPermissionForUserLocked (s : NC) (uid : Z) : Z :=
  match mUsers s !! uid with
  | Some permission => permission
  | None => if uid <? FIRST_APPLICATION_UID then PERMISSION_SYSTEM else PERMISSION_NONE
  end.
Definition getPermissionForUser : NC -> Z -> Z := getPermissionForUserLocked.

Definition canProtect (s : NC) (uid : Z) : bool :=
  has_permission (getPermissionForUserLocked s uid) PERMISSION_SYSTEM ||
  bool_decide (uid ∈ mProtectableUsers s).

Section Access.
(** [static_cast<PhysicalNetwork*>(network)->getPermission()] of a network of
    another class reads memory outside the object; what it reads is [stray]. *)
Variable stray : Network -> Z.

Definition cast_permission (network : Network) : Z :=
  match network with
  | Physical n => PhysicalNetwork.mPermission n
  | _ => stray network
  end.

Definition checkUserNetworkAccessLocked (s : NC) (uid netId : Z) : Z :=
  match getNetworkLocked s netId with
  | None => - ENONET
  | Some network =>
      if uid =? INVALID_UID then - EREMOTEIO
      else
        let userPermission := getPermissionForUserLocked s uid in
        if has_permission userPermission PERMISSION_SYSTEM then 0
        else
          match network with
          | Virtual n => if VirtualNetwork.appliesToUser n uid then 0 else - EPERM
          | _ =>
              let denied :=
                match getVirtualNetworkForUserLocked s uid with
                | Some n => VirtualNetwork.mSecure n && negb (bool_decide (uid ∈ mProtectableUsers s))
                | None => false
                end in
              if denied then - EPERM
              else if has_permission userPermission (cast_permission network) then 0
              else - EACCES
          end
  end.

Definition checkUserNetworkAccess : NC -> Z -> Z -> Z := checkUserNetworkAccessLocked.

(** The netId chosen (the code's [*netId] on return) and the mark. *)
Definition getNetworkForDns (s : NC) (netId uid : Z) : Z * Z :=
  let fwmark := set_protectedFromVpn true Fwmark_init in
  let fwmark := set_permission PERMISSION_SYSTEM fwmark in
  let '(netId, fwmark) :=
    if checkUserNetworkAccessLocked s uid netId =? 0
    then (netId, set_explicitlySelected true fwmark)
    else
      match getVirtualNetworkForUserLocked s uid with
      | Some n => if VirtualNetwork.mHasDns n then (virtual_netId n, fwmark)
                  else (mDefaultNetId s, fwmark)
      | None => (mDefaultNetId s, fwmark)
      end in
  (netId, set_netId netId fwmark).
End Access.

(** ** Methods that write *)

Abbreviation NCState := (NC * RouteState)%type.

(** Run a method of [network], the object registered under [netId]. *)
Definition on_network {A} (netId : Z) (network : Network) (m : M (Network * RouteState) A)
    : M NCState A :=
  fun s tr =>
    let '(a, (network', r'), tr') := m (network, s.2) tr in
    (a, (set_mNetworks (fun nets => <[netId := network']> nets) s.1, r'), tr').

(** Methods of the derived classes, after the code has checked the type. *)
Definition on_physical {A} (default : A) (m : M (PhysicalNetwork.t * RouteState) A)
    : M (Network * RouteState) A := dispatch (mret default) m (mret default).
Definition on_virtual {A} (default : A) (m : M (VirtualNetwork.t * RouteState) A)
    : M (Network * RouteState) A := dispatch (mret default) (mret default) m.

(** Run a method of an object that is not registered yet. *)
Definition on_new {N A} (n : N) (m : M (N * RouteState) A) : M NCState (A * N) :=
  fun s tr =>
    let '(a, (n', r'), tr') := m (n, s.2) tr in ((a, n'), (s.1, r'), tr').

Section NetworkController.
Context `{K : Kernel}.

(** *** DelegateImpl *)

Definition modifyFallthrough1 (vpnNetId : Z) (physicalInterface : string) (permission : Z)
    (add : bool) : M RouteState Z :=
  if add then
    try! addVirtualNetworkFallthrough vpnNetId physicalInterface permission ;; mret 0
  else
    try! removeVirtualNetworkFallthrough vpnNetId physicalInterface permission ;; mret 0.

Definition modifyFallthrough (networks : gmap Z Network) (physicalInterface : string)
    (permission : Z) (add : bool) : M RouteState Z :=
  for_each (map_entries networks) (fun entry =>
    if bool_decide (getType entry.2 = VIRTUAL)
    then modifyFallthrough1 entry.1 physicalInterface permission add
    else mret 0).

(** [mDelegateImpl]: the delegate reads the keys and the types of
    [mNetworks], which no method of a network changes. *)
Definition DelegateImpl (networks : gmap Z Network) : Delegate := {|
  addFallthrough := fun physicalInterface permission =>
    modifyFallthrough networks physicalInterface permission true;
  removeFallthrough := fun physicalInterface permission =>
    modifyFallthrough networks physicalInterface permission false
|}.

Definition modifyFallthroughLocked (vpnNetId : Z) (add : bool) : M NCState Z :=
  s ← gets fst;
  if mDefaultNetId s =? NETID_UNSET then mret 0
  else
    match getNetworkLocked s (mDefaultNetId s) with
    | None => mret (- ESRCH)
    | Some (Physical n) =>
        on_snd (for_each (string_set_elements (mInterfaces (PhysicalNetwork.network n)))
          (fun physicalInterface =>
             modifyFallthrough1 vpnNetId physicalInterface (PhysicalNetwork.mPermission n) add))
    | Some _ => mret (- EINVAL)
    end.

(** *** The default network *)

Definition setDefaultNetwork (netId : Z) : M NCState Z :=
  s ← gets fst;
  if netId =? mDefaultNetId s then mret 0
  else
    try! (if negb (netId =? NETID_UNSET) then
            match getNetworkLocked s netId with
            | None => mret (- ENONET)
            | Some network =>
                if negb (bool_decide (getType network = PHYSICAL)) then mret (- EINVAL)
                else on_network netId network (on_physical 0 (PhysicalNetwork.addAsDefault (DelegateImpl (mNetworks s))))
            end
          else mret 0) ;;
    s ← gets fst;
    try! (if negb (mDefaultNetId s =? NETID_UNSET) then
            match getNetworkLocked s (mDefaultNetId s) with
            | None => mret (- ESRCH)
            | Some network =>
                if negb (bool_decide (getType network = PHYSICAL)) then mret (- ESRCH)
                else on_network (mDefaultNetId s) network
                       (on_physical 0 (PhysicalNetwork.removeAsDefault (DelegateImpl (mNetworks s))))
            end
          else mret 0) ;;
    on_fst (modify (set_mDefaultNetId netId));; mret 0.

(** *** Creating and destroying networks *)

Definition createPhysicalNetwork (netId permission : Z) : M NCState Z :=
  s ← gets fst;
  if negb ((MIN_NET_ID <=? netId) && (netId <=? MAX_NET_ID) ||
           (MIN_OEM_ID <=? netId) && (netId <=? MAX_OEM_ID)) then mret (- EINVAL)
  else if isValidNetwork s netId then mret (- EEXIST)
  else
    r ← on_new (PhysicalNetwork.new netId)
          (PhysicalNetwork.setPermission (DelegateImpl (mNetworks s)) permission);
    let '(ret, physicalNetwork) := r in
    if negb (ret =? 0) then mret ret
    else
      on_fst (modify (set_mNetworks (fun nets => <[netId := Physical physicalNetwork]> nets)));;
      mret 0.

Definition createVirtualNetwork (netId : Z) (hasDns secure : bool) : M NCState Z :=
  s ← gets fst;
  if negb ((MIN_NET_ID <=? netId) && (netId <=? MAX_NET_ID)) then mret (- EINVAL)
  else if isValidNetwork s netId then mret (- EEXIST)
  else
    try! modifyFallthroughLocked netId true ;;
    on_fst (modify (set_mNetworks (fun nets =>
      <[netId := Virtual (VirtualNetwork.new netId hasDns secure)]> nets)));;
    mret 0.

Definition destroyNetwork (netId : Z) : M NCState Z :=
  s ← gets fst;
  if netId =? LOCAL_NET_ID then mret (- EINVAL)
  else
    match getNetworkLocked s netId with
    | None => mret (- ENONET)
    | Some network =>
        ret ← on_network netId network (clearInterfaces (DelegateImpl (mNetworks s)));
        s ← gets fst;
        ret ← (if mDefaultNetId s =? netId then
                 err ← on_network netId (default network (getNetworkLocked s netId))
                         (on_physical 0 (PhysicalNetwork.removeAsDefault (DelegateImpl (mNetworks s))));
                 on_fst (modify (set_mDefaultNetId NETID_UNSET));;
                 mret (if ret =? 0 then err else ret)
               else if bool_decide (getType network = VIRTUAL) then
                 err ← modifyFallthroughLocked netId false;
                 mret (if ret =? 0 then err else ret)
               else mret ret);
        on_fst (modify (set_mNetworks (fun nets => delete netId nets)));;
        sys_resolv_delete netId;;
        mret ret
    end.

(** *** Interfaces *)

Definition addInterfaceToNetwork (netId : Z) (interface : string) : M NCState Z :=
  s ← gets fst;
  match getNetworkLocked s netId with
  | None => mret (- ENONET)
  | Some network =>
      let existingNetId := getNetworkForInterface s interface in
      if negb (existingNetId =? NETID_UNSET) && negb (existingNetId =? netId) then mret (- EBUSY)
      else on_network netId network (addInterface (DelegateImpl (mNetworks s)) interface)
  end.

Definition removeInterfaceFromNetwork (netId : Z) (interface : string) : M NCState Z :=
  s ← gets fst;
  match getNetworkLocked s netId with
  | None => mret (- ENONET)
  | Some network =>
      on_network netId network (removeInterface (DelegateImpl (mNetworks s)) interface)
  end.

(** *** Users and permissions *)

Definition setPermissionForUsers (permission : Z) (uids : list Z) : M NCState unit :=
  on_fst (modify (set_mUsers (fun users => foldl (fun m uid => <[uid := permission]> m) users uids))).

Definition setPermissionForNetworks (permission : Z) (netIds : list Z) : M NCState Z :=
  for_each netIds (fun netId =>
    s ← gets fst;
    match getNetworkLocked s netId with
    | None => mret (- ENONET)
    | Some network =>
        if negb (bool_decide (getType network = PHYSICAL)) then mret (- EINVAL)
        else on_network netId network
               (on_physical 0 (PhysicalNetwork.setPermission (DelegateImpl (mNetworks s)) permission))
    end).

Definition addUsersToNetwork (netId : Z) (uidRanges : list (Z * Z)) : M NCState Z :=
  s ← gets fst;
  match getNetworkLocked s netId with
  | None => mret (- ENONET)
  | Some network =>
      if negb (bool_decide (getType network = VIRTUAL)) then mret (- EINVAL)
      else
        try! on_network netId network (on_virtual 0 (VirtualNetwork.addUsers uidRanges)) ;; mret 0
  end.

Definition removeUsersFromNetwork (netId : Z) (uidRanges : list (Z * Z)) : M NCState Z :=
  s ← gets fst;
  match getNetworkLocked s netId with
  | None => mret (- ENONET)
  | Some network =>
      if negb (bool_decide (getType network = VIRTUAL)) then mret (- EINVAL)
      else
        try! on_network netId network (on_virtual 0 (VirtualNetwork.removeUsers uidRanges)) ;; mret 0
  end.

Definition allowProtect (uids : list Z) : M NCState unit :=
  on_fst (modify (set_mProtectableUsers (fun users => users ∪ list_to_set uids))).

Definition denyProtect (uids : list Z) : M NCState unit :=
  on_fst (modify (set_mProtectableUsers (fun users =>
    foldl (fun users uid => users ∖ {[uid]}) users uids))).

(** *** Routes *)

Definition modifyNetworkRoute (netId : Z) (interface : string) (destination nexthop : option string)
    (add legacy : bool) (uid : Z) : M NCState Z :=
  s ← gets fst;
  if negb (isValidNetwork s netId) then mret (- ENONET)
  else
    let existingNetId := getNetworkForInterface s interface in
    if existingNetId =? NETID_UNSET then mret (- ENODEV)
    else if negb (existingNetId =? netId) then mret (- ENOENT)
    else
      let tableType :=
        if netId =? LOCAL_NET_ID then LOCAL_NETWORK
        else if legacy then
          if has_permission (getPermissionForUser s uid) PERMISSION_SYSTEM then LEGACY_SYSTEM
          else LEGACY_NETWORK
        else INTERFACE in
      on_snd (if add then RouteController.addRoute interface destination nexthop tableType
              else RouteController.removeRoute interface destination nexthop tableType).

Definition addNetworkRoute (netId : Z) (interface : string) (destination nexthop : option string)
    (legacy : bool) (uid : Z) : M NCState Z :=
  modifyNetworkRoute netId interface destination nexthop true legacy uid.

Definition removeNetworkRoute (netId : Z) (interface : string) (destination nexthop : option string)
    (legacy : bool) (uid : Z) : M NCState Z :=
  modifyNetworkRoute netId interface destination nexthop false legacy uid.
End NetworkController.
