(* ===== verification/ControllerSpec.v ===== *)
(** * ControllerSpec: the rules of all networks

    What the state of [NetworkController] stands for ([nc_items]), its
    invariants, and that every method keeps both: the items the ledger holds
    are always those of the current networks. *)
From S2P Require Import Prelude Platform Cstd Fwmark UidRanges Netlink.
From S2P Require Import NetdConstants Ledger RouteController RouteSpec Networks NetworkSpec.
From S2P Require Import NetworkController.

(** ** Items *)

Definition is_virtual (n : Network) : bool := bool_decide (getType n = VIRTUAL).

Section Items.
Context {K : Kernel} {KL : KernelLaws K} {St : Steady} {IX : Interfaces} {KI : KeepsIndices K}.

(** The fallthrough rules of a default interface: one set for every VPN. *)
Definition entry_fall (interface : string) (permission : Z) (entry : Z * Network) : list item :=
  if is_virtual entry.2 then fallthrough_items entry.1 (table_of interface) permission else [].

Definition fall_of (networks : gmap Z Network) (interface : string) (permission : Z) : list item :=
  concat (map (entry_fall interface permission) (map_entries networks)).

Definition nets_items (networks : gmap Z Network) : list item :=
  concat (map (fun entry => network_items (fall_of networks) entry.2) (map_entries networks)).

Definition nc_items (s : NC) : list item := nets_items (mNetworks s).
End Items.

(** ** Invariants *)

Definition valid_netId (netId : Z) : Prop := 0 < netId <= MAX_NET_ID.

(** Kept by every method, whatever the kernel answers. *)
Record nc_ok (s : NC) : Prop := {
  ok_entry : forall netId n, mNetworks s !! netId = Some n ->
    getNetId n = netId /\ valid_netId netId /\ network_ok n /\
    (netId = LOCAL_NET_ID <-> getType n = LOCAL);
  ok_local : exists n, mNetworks s !! LOCAL_NET_ID = Some (Local n);
  ok_default : mDefaultNetId s = NETID_UNSET \/
    exists n, mNetworks s !! mDefaultNetId s = Some (Physical n);
  ok_disjoint : forall id1 id2 n1 n2 interface,
    mNetworks s !! id1 = Some n1 -> mNetworks s !! id2 = Some n2 ->
    interface ∈ getInterfaces n1 -> interface ∈ getInterfaces n2 -> id1 = id2;
  ok_users : forall uid permission, mUsers s !! uid = Some permission -> valid_permission permission
}.

(** Kept by methods that succeed: exactly the default network is marked. *)
Definition nc_sync (s : NC) : Prop :=
  forall netId n, mNetworks s !! netId = Some (Physical n) ->
    (PhysicalNetwork.mIsDefault n = true <-> netId = mDefaultNetId s).

Lemma valid_netId_fits netId : valid_netId netId -> netId_fits netId.
Proof. unfold valid_netId, netId_fits, MAX_NET_ID. lia. Qed.

(** ** The delegate *)

Section Delegate.
Context {K : Kernel} {KL : KernelLaws K} {St : Steady} {IX : Interfaces} {KI : KeepsIndices K}.

Lemma installs_modifyFallthrough1 vpnNetId interface permission add :
  netId_fits vpnNetId -> valid_permission permission ->
  installs cached_ok True add (fallthrough_items vpnNetId (table_of interface) permission)
    (modifyFallthrough1 vpnNetId interface permission add).
Proof.
  intros. rewrite <-(app_nil_r (fallthrough_items _ _ _)).
  destruct add; (apply installs_seq; [|apply installs_ret0]).
  - by apply (installs_fallthrough _ _ _ true).
  - by apply (installs_fallthrough _ _ _ false).
Qed.

Lemma installs_modifyFallthrough networks interface permission add :
  (forall netId n, networks !! netId = Some n -> valid_netId netId) -> valid_permission permission ->
  installs cached_ok True add (fall_of networks interface permission)
    (modifyFallthrough networks interface permission add).
Proof.
  intros Hnets Hp. apply installs_each. intros [netId n] Hin%elem_of_map_entries. cbn [fst snd].
  unfold entry_fall, is_virtual. cbn [fst snd]. case_bool_decide; [|apply installs_ret0].
  apply installs_modifyFallthrough1; [|done]. by eapply valid_netId_fits, Hnets.
Qed.

(** [NetworkController::DelegateImpl] is the delegate physical networks expect. *)
Lemma DelegateImpl_laws networks :
  (forall netId n, networks !! netId = Some n -> valid_netId netId) ->
  DelegateLaws (DelegateImpl networks) (fall_of networks).
Proof. intros Hnets. split; intros; by apply installs_modifyFallthrough. Qed.

Lemma nc_ok_delegate s : nc_ok s -> DelegateLaws (DelegateImpl (mNetworks s)) (fall_of (mNetworks s)).
Proof. intros Hok. apply DelegateImpl_laws. intros. by eapply ok_entry. Qed.
End Delegate.

(** ** Counting the items of the networks *)

Section Counting.
Context {K : Kernel} {KL : KernelLaws K} {St : Steady} {IX : Interfaces} {KI : KeepsIndices K}.
Implicit Types (networks : gmap Z Network) (fall : string -> Z -> list item).

(** The items of networks only depend on the counts of the fallthrough rules. *)
Lemma network_items_add fall fall' extra n i :
  (forall x p, cnt i (fall' x p) = cnt i (fall x p) + cnt i (extra x p)) ->
  cnt i (network_items fall' n) = cnt i (network_items fall n) +
    match n with
    | Physical p =>
        if PhysicalNetwork.mIsDefault p then
          cnt i (each_interface (fun x => extra x (PhysicalNetwork.mPermission p))
                   (PhysicalNetwork.network p))
        else 0
    | _ => 0
    end.
Proof.
  intros Hf. destruct n as [b|p|v]; cbn; [lia| |lia].
  unfold physical_network_items, each_interface, physical_interface_items.
  destruct (PhysicalNetwork.mIsDefault p); [|lia].
  apply cnt_concat_split. intros x. unfold default_interface_items. rewrite !cnt_app, Hf. lia.
Qed.

Lemma network_items_same fall fall' n i :
  (forall x p, cnt i (fall' x p) = cnt i (fall x p)) ->
  cnt i (network_items fall' n) = cnt i (network_items fall n).
Proof.
  intros Hf. rewrite (network_items_add fall fall' (fun _ _ => [])).
  - destruct n as [b|p|v]; try lia. destruct (PhysicalNetwork.mIsDefault p); [|lia].
    unfold each_interface. assert (forall l : list string, cnt i (concat (map (fun _ => []) l)) = 0) as H.
    { intros l. induction l; cbn; done. }
    rewrite H. lia.
  - intros x p. rewrite Hf, cnt_nil. lia.
Qed.

Lemma map_entries_replace networks netId n n' :
  networks !! netId = Some n ->
  map_entries (<[netId := n']> networks) ≡ₚ (netId, n') :: map_entries (delete netId networks).
Proof.
  intros. rewrite (map_entries_delete _ netId n') by apply lookup_insert_eq.
  by rewrite delete_insert_eq.
Qed.

Lemma cnt_entries_replace (f f' : Z * Network -> list item) networks netId n n' i :
  networks !! netId = Some n -> (forall e, cnt i (f' e) = cnt i (f e)) ->
  cnt i (concat (map f' (map_entries (<[netId := n']> networks)))) =
  cnt i (concat (map f (map_entries networks))) - cnt i (f (netId, n)) + cnt i (f (netId, n')).
Proof.
  intros Hn Hf. rewrite (cnt_concat_map_Permutation f' _ _ _ (map_entries_replace _ _ _ n' Hn)).
  rewrite (cnt_concat_map_Permutation f _ _ _ (map_entries_delete _ _ _ Hn)). cbn.
  rewrite !cnt_app, Hf. assert (forall l, cnt i (concat (map f' l)) = cnt i (concat (map f l))) as ->.
  { intros l. induction l as [|e l IH]; cbn; [done|]. by rewrite !cnt_app, IH, Hf. }
  lia.
Qed.

(** Replacing a network by one of the same class. *)
Lemma nets_items_replace networks netId n n' i :
  networks !! netId = Some n -> getType n' = getType n ->
  cnt i (nets_items (<[netId := n']> networks)) - cnt i (nets_items networks) =
  diff (network_items (fall_of networks)) n n' i.
Proof.
  intros Hn Ht.
  assert (forall x p, cnt i (fall_of (<[netId := n']> networks) x p) = cnt i (fall_of networks x p)) as Hf.
  { intros x p. unfold fall_of. rewrite (cnt_entries_replace (entry_fall x p) _ _ _ _ n') by done.
    unfold entry_fall, is_virtual. cbn. rewrite Ht. lia. }
  unfold nets_items. rewrite (cnt_entries_replace (fun e => network_items (fall_of networks) e.2)
    _ _ _ _ _ i Hn); [unfold diff; cbn; lia|].
  intros e. by apply network_items_same.
Qed.

(** The extra items of all networks when [extra] is added to every
    fallthrough set: those of the default network. *)
Definition default_extra (extra : string -> Z -> list item) (n : Network) : list item :=
  match n with
  | Physical p =>
      if PhysicalNetwork.mIsDefault p then
        each_interface (fun x => extra x (PhysicalNetwork.mPermission p)) (PhysicalNetwork.network p)
      else []
  | _ => []
  end.

Lemma nets_extra extra s i :
  nc_ok s -> nc_sync s ->
  cnt i (concat (map (fun e => default_extra extra e.2) (map_entries (mNetworks s)))) =
  match getNetworkLocked s (mDefaultNetId s) with
  | Some n => cnt i (default_extra extra n)
  | None => 0
  end.
Proof.
  intros Hok Hsync.
  assert (forall l, (forall e, e ∈ l -> mNetworks s !! e.1 = Some e.2 /\ e.1 <> mDefaultNetId s) ->
    cnt i (concat (map (fun e => default_extra extra e.2) l)) = 0) as Hzero.
  { intros l. induction l as [|e l IH]; intros Hl; [done|]. cbn. rewrite cnt_app, IH.
    2: { intros e' He'. apply Hl. by constructor. }
    destruct (Hl e) as [Hn Hne]; [constructor|]. destruct e as [netId [b|p|v]]; cbn in *; try done.
    destruct (PhysicalNetwork.mIsDefault p) eqn:E; [|done]. by apply (Hsync _ _ Hn) in E. }
  unfold getNetworkLocked. destruct (mNetworks s !! mDefaultNetId s) as [n|] eqn:En.
  - rewrite (cnt_concat_map_Permutation _ _ _ _ (map_entries_delete _ _ _ En)). cbn.
    rewrite cnt_app, Hzero; [lia|]. intros [netId n'] Hin%elem_of_map_entries. cbn.
    apply lookup_delete_Some in Hin as [? ?]. done.
  - apply Hzero. intros [netId n'] Hin%elem_of_map_entries. cbn. split; [done|]. intros ->. congruence.
Qed.

(** Registering a network that has no interface. *)
Lemma nets_items_new s netId n i :
  nc_ok s -> nc_sync s -> mNetworks s !! netId = None -> cnt i (network_items (fall_of
    (<[netId := n]> (mNetworks s))) n) = 0 ->
  cnt i (nets_items (<[netId := n]> (mNetworks s))) = cnt i (nets_items (mNetworks s)) +
  match getNetworkLocked s (mDefaultNetId s) with
  | Some d => cnt i (default_extra (fun x p => entry_fall x p (netId, n)) d)
  | None => 0
  end.
Proof.
  intros Hok Hsync Hnew Hempty. rewrite <-nets_extra by done. unfold nets_items at 1.
  rewrite (cnt_concat_map_Permutation _ _ _ _ (map_entries_insert_new _ _ n Hnew)). cbn.
  rewrite cnt_app, Hempty. apply cnt_concat_split. intros e.
  rewrite (network_items_add (fall_of (mNetworks s)) _ (fun x p => entry_fall x p (netId, n))).
  - destruct e as [id [b|p|v]]; cbn; try done. by destruct (PhysicalNetwork.mIsDefault p).
  - intros x p. unfold fall_of.
    rewrite (cnt_concat_map_Permutation _ _ _ _ (map_entries_insert_new _ _ n Hnew)). cbn.
    rewrite cnt_app. lia.
Qed.
End Counting.

(** ** Soundness of a method *)

Definition put_network (netId : Z) (n : Network) (s : NC) : NC :=
  set_mNetworks (fun nets => <[netId := n]> nets) s.

Section Sound.
Context {K : Kernel} {KL : KernelLaws K} {St : Steady} {IX : Interfaces} {KI : KeepsIndices K}.

(** [sound_at s m]: run in state [s], [m] keeps the invariants and, when it
    returns 0, changes the ledger by the change of the items. *)
Definition sound_at (s : NC) (m : M NCState Z) : Prop :=
  forall r tr, cached_ok r ->
    wp m (fun ret s' tr' =>
      nc_ok s'.1 /\ cached_ok s'.2 /\
      (ret = 0 -> nc_sync s -> nc_sync s'.1 /\ changes tr tr' (diff nc_items s s'.1))) (s, r) tr.

Definition sound (m : M NCState Z) : Prop := forall s, nc_ok s -> sound_at s m.

Lemma sound_at_ret s v : nc_ok s -> sound_at s (mret v).
Proof.
  intros Hok r tr Hr. apply wp_ret. split_and!; [done..|]. intros _ Hs. split; [done|].
  intros _ i. unfold diff. cbn. lia.
Qed.

Lemma sound_at_gets s (k : NC -> M NCState Z) : sound_at s (k s) -> sound_at s (s ← gets fst; k s).
Proof. intros H r tr Hr. apply wp_bind, wp_gets. by apply H. Qed.

Lemma sound_at_method short s s' d m :
  nc_ok s -> nc_ok s' -> method short s s' d m ->
  (nc_sync s -> nc_sync s' /\ forall i, d i = diff nc_items s s' i) -> sound_at s m.
Proof.
  intros Hok Hok' Hm Hs r tr Hr. eapply wp_mono; [by apply Hm|]. cbn beta.
  intros ret s1 tr1 (H1 & H2 & H3 & _). split_and!; [|done|].
  - rewrite H2. by destruct (ret =? 0).
  - intros -> Hsync. cbn in H2. rewrite H2. destruct (Hs Hsync) as [Hsync' Hd]. split; [done|].
    intros st i. rewrite <-Hd. by apply H3.
Qed.

Lemma sound_orelse m1 m2 : sound m1 -> sound m2 -> sound (try! m1 ;; m2).
Proof.
  intros S1 S2 s Hok r tr Hr. apply wp_orelse. eapply wp_mono; [by apply S1|]. cbn beta.
  intros ret [s1 r1] tr1 (H1 & H2 & H3). cbn [fst snd] in *. split.
  - intros ->. eapply wp_mono; [by apply S2|]. cbn beta.
    intros ret [s2 r2] tr2 (G1 & G2 & G3). cbn [fst snd] in *. split_and!; [done..|].
    intros -> Hsync. destruct (H3 eq_refl Hsync) as [Hsync1 Hc1].
    destruct (G3 eq_refl Hsync1) as [Hsync2 Hc2]. split; [done|].
    intros st i. rewrite Hc2, Hc1 by done. unfold diff. lia.
  - intros Hne. split_and!; [done..|]. intros. congruence.
Qed.

Lemma sound_for_each {A} (l : list A) f : (forall x, sound (f x)) -> sound (for_each l f).
Proof.
  intros Hf. induction l as [|x l IH]; [intros s Hok; by apply sound_at_ret|]. by apply sound_orelse.
Qed.

(** A computation on the routes that the ledger does not see. *)
Lemma sound_at_quiet s (m : M RouteState Z) : nc_ok s -> quiet cached_ok m -> sound_at s (on_snd m).
Proof.
  intros Hok Hq r tr Hr. apply wp_zoom. cbn. eapply wp_mono; [by apply Hq|]. cbn beta.
  intros ret r' tr' [H1 H2]. split_and!; [done..|]. intros _ Hsync. split; [done|].
  intros st i. rewrite H2 by done. unfold diff. cbn. lia.
Qed.

Lemma method_on_network short s netId n n' d m :
  getNetworkLocked s netId = Some n -> method short n n' d m ->
  method short s (put_network netId n' s) d (on_network netId n m).
Proof.
  intros Hn Hm r tr Hr. specialize (Hm r tr Hr). unfold wp, on_network in *. cbn [snd fst].
  destruct (m (n, r) tr) as [[ret [n1 r1]] tr1]. cbn in *. destruct Hm as (H1 & H2 & H3 & H4).
  split_and!; [done| |done..]. rewrite H2. destruct (ret =? 0); [done|].
  unfold set_mNetworks. rewrite insert_id by done. by destruct s.
Qed.

(** *** Replacing a network *)

Lemma nc_ok_replace s netId n n' :
  nc_ok s -> mNetworks s !! netId = Some n -> getType n' = getType n -> getNetId n' = netId ->
  network_ok n' ->
  (forall x, x ∈ getInterfaces n' -> x ∈ getInterfaces n \/
    forall id2 n2, mNetworks s !! id2 = Some n2 -> x ∈ getInterfaces n2 -> id2 = netId) ->
  nc_ok (put_network netId n' s).
Proof.
  intros [He Hl Hd Hdis Hu] Hn Ht Hid Hok Hifs. split; cbn; [| | | |done].
  - intros id m. rewrite lookup_insert_Some. intros [[<- <-]|[Hne Hm]]; [|by apply He].
    destruct (He _ _ Hn) as (_ & Hv & _ & Hloc). rewrite Ht. done.
  - destruct Hl as [b Hb]. destruct (decide (netId = LOCAL_NET_ID)) as [->|Hne].
    + rewrite lookup_insert_eq. simplify_eq. destruct n'; try done. by eexists.
    + exists b. by rewrite lookup_insert_ne.
  - destruct Hd as [?|[p Hp]]; [by left|right]. destruct (decide (netId = mDefaultNetId s)) as [->|Hne].
    + rewrite lookup_insert_eq. simplify_eq. destruct n'; try done. by eexists.
    + exists p. by rewrite lookup_insert_ne.
  - intros id1 id2 n1 n2 x H1 H2 Hx1 Hx2. rewrite lookup_insert_Some in H1, H2.
    destruct H1 as [[<- <-]|[Hne1 H1]], H2 as [[<- <-]|[Hne2 H2]]; [done| | |by eapply Hdis].
    + destruct (Hifs x Hx1) as [Hx|Hx]; [by eapply Hdis|]. symmetry. by eapply Hx.
    + destruct (Hifs x Hx2) as [Hx|Hx]; [by eapply Hdis|]. by eapply Hx.
Qed.

Definition default_flag (n : Network) : bool :=
  match n with Physical p => PhysicalNetwork.mIsDefault p | _ => false end.

Lemma nc_sync_replace s netId n n' :
  mNetworks s !! netId = Some n -> getType n' = getType n -> default_flag n' = default_flag n ->
  nc_sync s -> nc_sync (put_network netId n' s).
Proof.
  intros Hn Ht Hd Hs id p. cbn. rewrite lookup_insert_Some. intros [[<- ->]|[Hne Hp]]; [|by apply Hs].
  destruct n as [b|q|v]; try done. cbn in Hd. rewrite Hd. by apply Hs.
Qed.

(** A method of a network that keeps its class and its default mark. *)
Lemma sound_at_on_network short s netId n n' m :
  nc_ok s -> getNetworkLocked s netId = Some n ->
  method short n n' (diff (network_items (fall_of (mNetworks s))) n n') m ->
  getType n' = getType n -> getNetId n' = getNetId n -> default_flag n' = default_flag n ->
  network_ok n' ->
  (forall x, x ∈ getInterfaces n' -> x ∈ getInterfaces n \/
    forall id2 n2, mNetworks s !! id2 = Some n2 -> x ∈ getInterfaces n2 -> id2 = netId) ->
  sound_at s (on_network netId n m).
Proof.
  intros Hok Hn Hm Ht Hid Hd Hok' Hifs.
  apply (sound_at_method short s (put_network netId n' s)
    (diff (network_items (fall_of (mNetworks s))) n n')).
  - done.
  - eapply nc_ok_replace; try done. rewrite Hid. by apply (ok_entry s).
  - by apply method_on_network.
  - intros Hsync. split; [by eapply nc_sync_replace|]. intros i. symmetry. by apply nets_items_replace.
Qed.
End Sound.

(** ** Looking an interface up *)

Lemma first_with_interface_spec entries interface :
  (forall e, e ∈ entries -> 0 < e.1) ->
  match first_with_interface entries interface with
  | 0 => forall e, e ∈ entries -> interface ∉ getInterfaces e.2
  | netId => exists n, (netId, n) ∈ entries /\ interface ∈ getInterfaces n
  end.
Proof.
  induction entries as [|[netId n] entries IH]; intros Hpos; cbn.
  { intros e. by rewrite elem_of_nil. }
  assert (0 < netId) as Hid by (apply (Hpos (netId, n)); constructor).
  destruct (hasInterface interface (network_base n)) eqn:E.
  - apply hasInterface_true in E. destruct netId as [|p|p]; try lia. exists n. split; [constructor|done].
  - apply hasInterface_false in E.
    assert (forall e, e ∈ entries -> 0 < e.1) as Hpos' by (intros; apply Hpos; by constructor).
    specialize (IH Hpos'). destruct (first_with_interface entries interface).
    + intros e [->|He]%elem_of_cons; [done|by apply IH].
    + destruct IH as (m & Hm & Hx). exists m. split; [by constructor|done].
    + destruct IH as (m & Hm & Hx). exists m. split; [by constructor|done].
Qed.

(** [NETID_UNSET] means that no network has the interface. *)
Lemma getNetworkForInterface_spec s interface :
  nc_ok s ->
  (getNetworkForInterface s interface = NETID_UNSET /\
   forall netId n, mNetworks s !! netId = Some n -> interface ∉ getInterfaces n) \/
  (getNetworkForInterface s interface <> NETID_UNSET /\
   exists n, mNetworks s !! getNetworkForInterface s interface = Some n /\ interface ∈ getInterfaces n).
Proof.
  intros Hok. unfold getNetworkForInterface, NETID_UNSET.
  assert (forall e, e ∈ map_entries (mNetworks s) -> 0 < e.1) as Hpos.
  { intros [netId n] Hin%elem_of_map_entries. cbn. by destruct (ok_entry s Hok _ _ Hin) as (_ & [? _] & _). }
  pose proof (first_with_interface_spec (map_entries (mNetworks s)) interface Hpos) as H.
  destruct (first_with_interface _ _) as [|p|p].
  - left. split; [done|]. intros netId n Hn. apply (H (netId, n)). by apply elem_of_map_entries.
  - right. split; [done|]. destruct H as (n & Hn%elem_of_map_entries & Hx). eauto.
  - right. split; [done|]. destruct H as (n & Hn%elem_of_map_entries & Hx). eauto.
Qed.

Lemma getType_map_base f n : getType (map_base f n) = getType n.
Proof. by destruct n. Qed.
Lemma default_flag_map_base f n : default_flag (map_base f n) = default_flag n.
Proof. by destruct n. Qed.
Lemma getInterfaces_insert interface n :
  getInterfaces (map_base (insert_interface interface) n) = {[interface]} ∪ getInterfaces n.
Proof. unfold getInterfaces. by rewrite network_base_map. Qed.
Lemma getNetId_map_base f n :
  (forall b, mNetId (f b) = mNetId b) -> getNetId (map_base f n) = getNetId n.
Proof. intros Hf. unfold getNetId. by rewrite network_base_map, Hf. Qed.

(** ** The methods *)

Definition ranges_ok (ranges : list (Z * Z)) : Prop :=
  UidRanges.sorted_ranges ranges /\ Forall (fun r => uids_ok (Some r)) ranges.

Section Methods.
Context {K : Kernel} {KL : KernelLaws K} {St : Steady} {IX : Interfaces} {KI : KeepsIndices K}.

Lemma sound_addInterfaceToNetwork netId interface :
  no_nul interface -> sound (addInterfaceToNetwork netId interface).
Proof.
  intros Hi s Hok. apply sound_at_gets.
  destruct (getNetworkLocked s netId) as [n|] eqn:En; [|by apply sound_at_ret].
  cbn zeta. destruct (_ && _)%bool eqn:E; [by apply sound_at_ret|].
  destruct (ok_entry s Hok _ _ En) as (Hid & Hv & Hn & _). pose proof (nc_ok_delegate s Hok).
  eapply sound_at_on_network; [done|done|by apply addInterface_spec|..].
  - apply getType_map_base.
  - by apply getNetId_map_base.
  - apply default_flag_map_base.
  - apply network_ok_map; [done|]. apply base_ok_insert; [by apply network_ok_base|done].
  - intros x. rewrite getInterfaces_insert. intros [->%elem_of_singleton|]%elem_of_union; [right|by left].
    intros id2 n2 Hn2 Hx. destruct (getNetworkForInterface_spec s interface Hok)
      as [[_ Hno]|[Hne (m & Hm & Hxm)]]; [by destruct (Hno _ _ Hn2)|].
    apply andb_false_iff in E. rewrite !negb_false_iff in E. destruct E as [E|E]; bool_to_prop; [done|].
    rewrite E in Hm. by eapply (ok_disjoint s Hok).
Qed.

Lemma sound_removeInterfaceFromNetwork netId interface :
  sound (removeInterfaceFromNetwork netId interface).
Proof.
  intros s Hok. apply sound_at_gets.
  destruct (getNetworkLocked s netId) as [n|] eqn:En; [|by apply sound_at_ret].
  destruct (ok_entry s Hok _ _ En) as (Hid & Hv & Hn & _). pose proof (nc_ok_delegate s Hok).
  eapply sound_at_on_network; [done|done|by apply removeInterface_spec|..].
  - apply getType_map_base.
  - by apply getNetId_map_base.
  - apply default_flag_map_base.
  - by apply network_ok_erase.
  - intros x. rewrite getInterfaces_erase. intros [? _]%elem_of_difference. by left.
Qed.

Lemma sound_at_then_ret0 s m : sound_at s m -> sound_at s (try! m ;; mret 0).
Proof.
  intros Hm r tr Hr. apply wp_orelse. eapply wp_mono; [by apply Hm|]. cbn beta.
  intros ret s1 tr1 (H1 & H2 & H3). split.
  - intros ->. apply wp_ret. auto.
  - intros Hne. split_and!; [done..|]. intros. congruence.
Qed.

Lemma uids_ok_add l1 l2 :
  Forall (fun r => uids_ok (Some r)) l1 -> Forall (fun r => uids_ok (Some r)) l2 ->
  Forall (fun r => uids_ok (Some r)) (UidRanges.add l1 l2).
Proof. intros. rewrite UidRanges.add_Permutation. by apply Forall_app_2. Qed.

Lemma uids_ok_remove l1 l2 :
  Forall (fun r => uids_ok (Some r)) l1 -> Forall (fun r => uids_ok (Some r)) (UidRanges.remove l1 l2).
Proof.
  rewrite !Forall_forall. intros H r Hr. apply H.
  eapply elem_of_submseteq; [exact Hr|]. apply sublist_submseteq, UidRanges.set_difference_sublist.
Qed.

Lemma sound_addUsersToNetwork netId ranges :
  ranges_ok ranges -> sound (addUsersToNetwork netId ranges).
Proof.
  intros [Hsorted Hranges] s Hok. apply sound_at_gets.
  destruct (getNetworkLocked s netId) as [n|] eqn:En; [|by apply sound_at_ret].
  destruct n as [b|p|v]; try by apply sound_at_ret. cbn [getType]. rewrite bool_decide_true by done.
  destruct (ok_entry s Hok _ _ En) as (Hid & Hv & Hn & _).
  apply sound_at_then_ret0. eapply (sound_at_on_network _ s netId _ (Virtual (VirtualNetwork.set_mUidRanges
    (fun l => UidRanges.add l ranges) v))); [done|done|..].
  - eapply method_virtual; [by apply addUsers_spec|done].
  - done.
  - done.
  - done.
  - destruct Hn as (Hb & Hs & Hu). split_and!; [done|by apply UidRanges.add_sorted|by apply uids_ok_add].
  - intros x Hx. by left.
Qed.

(** Ranges that are all there can be removed. *)
Lemma sound_at_removeUsersFromNetwork s netId ranges :
  nc_ok s -> ranges_ok ranges ->
  (forall v, getNetworkLocked s netId = Some (Virtual v) -> ranges ⊆+ VirtualNetwork.mUidRanges v) ->
  sound_at s (removeUsersFromNetwork netId ranges).
Proof.
  intros Hok [Hsorted Hranges] Hsub. apply sound_at_gets.
  destruct (getNetworkLocked s netId) as [n|] eqn:En; [|by apply sound_at_ret].
  destruct n as [b|p|v]; try by apply sound_at_ret. cbn [getType]. rewrite bool_decide_true by done.
  destruct (ok_entry s Hok _ _ En) as (Hid & Hv & Hn & _).
  apply sound_at_then_ret0. eapply (sound_at_on_network _ s netId _ (Virtual (VirtualNetwork.set_mUidRanges
    (fun l => UidRanges.remove l ranges) v))); [done|done|..].
  - eapply method_virtual; [by apply removeUsers_spec|]. intros i. symmetry.
    apply removeUsers_diff; [done..|]. by apply Hsub.
  - done.
  - done.
  - done.
  - destruct Hn as (Hb & Hs & Hu). split_and!; [done|by apply UidRanges.remove_sorted|by apply uids_ok_remove].
  - intros x Hx. by left.
Qed.

(** Whatever the ranges, removing them keeps the invariant. *)
Lemma removeUsersFromNetwork_keeps_ok s r tr netId ranges :
  nc_ok s -> cached_ok r -> ranges_ok ranges ->
  wp (removeUsersFromNetwork netId ranges) (fun _ s' _ => nc_ok s'.1 /\ cached_ok s'.2) (s, r) tr.
Proof.
  intros Hok Hr [Hsorted Hranges]. apply wp_bind, wp_gets. cbn [fst].
  destruct (getNetworkLocked s netId) as [n|] eqn:En; [|by apply wp_ret].
  destruct n as [b|p|v]; try by apply wp_ret. cbn [getType]. rewrite bool_decide_true by done.
  destruct (ok_entry s Hok _ _ En) as (Hid & Hv & Hn & _). cbn [negb]. apply wp_orelse.
  set (v' := VirtualNetwork.set_mUidRanges (fun l => UidRanges.remove l ranges) v).
  assert (nc_ok (put_network netId (Virtual v') s)) as Hok'.
  { eapply nc_ok_replace; try done.
    - destruct Hn as (Hb & Hs & Hu).
      split_and!; [done|by apply UidRanges.remove_sorted|by apply uids_ok_remove].
    - cbn. intros x. by left. }
  eapply wp_mono.
  { eapply (method_on_network _ s netId (Virtual v) (Virtual v')); [done| |done].
    eapply method_virtual; [by apply removeUsers_spec|done]. }
  cbn beta. intros ret [s1 r1] tr1 (Hr1 & Hs1 & _). cbn [fst snd] in *.
  assert (nc_ok s1) by (subst s1; by destruct (ret =? 0)). split; [|done]. intros _. by apply wp_ret.
Qed.

Lemma sound_setPermissionForNetworks permission netIds :
  valid_permission permission -> sound (setPermissionForNetworks permission netIds).
Proof.
  intros Hp. apply sound_for_each. intros netId s Hok. apply sound_at_gets.
  destruct (getNetworkLocked s netId) as [n|] eqn:En; [|by apply sound_at_ret].
  destruct n as [b|p|v]; try by apply sound_at_ret. cbn [getType]. rewrite bool_decide_true by done.
  destruct (ok_entry s Hok _ _ En) as (Hid & Hv & Hn & _). pose proof (nc_ok_delegate s Hok).
  eapply (sound_at_on_network _ s netId _ (Physical (PhysicalNetwork.set_mPermission permission p)));
    [done|done|..].
  - eapply method_physical; [by apply setPermission_spec|done].
  - done.
  - done.
  - done.
  - destruct Hn as [Hb _]. done.
  - intros x Hx. by left.
Qed.
End Methods.

(** ** Registering and unregistering networks *)

Section Registering.
Context {K : Kernel} {KL : KernelLaws K} {St : Steady} {IX : Interfaces} {KI : KeepsIndices K}.

Lemma nc_ok_new s netId n :
  nc_ok s -> mNetworks s !! netId = None -> getNetId n = netId -> valid_netId netId -> network_ok n ->
  getType n <> LOCAL -> getInterfaces n = ∅ -> nc_ok (put_network netId n s).
Proof.
  intros [He Hl Hd Hdis Hu] Hnew Hid Hv Hn Ht Hifs.
  assert (netId <> LOCAL_NET_ID) as Hne by (intros ->; destruct Hl as [b Hb]; congruence).
  split; cbn; [| | | |done].
  - intros id m. rewrite lookup_insert_Some. intros [[<- <-]|[_ Hm]]; [done|by apply He].
  - destruct Hl as [b Hb]. exists b. by rewrite lookup_insert_ne.
  - destruct Hd as [?|[p Hp]]; [by left|right]. exists p. rewrite lookup_insert_ne; [done|]. congruence.
  - intros id1 id2 n1 n2 x H1 H2 Hx1 Hx2. rewrite lookup_insert_Some in H1, H2.
    destruct H1 as [[<- <-]|[Hne1 H1]], H2 as [[<- <-]|[Hne2 H2]]; [done| | |by eapply Hdis];
      rewrite Hifs in *; by apply not_elem_of_empty in Hx1 || apply not_elem_of_empty in Hx2.
Qed.

Lemma nc_ok_delete s netId :
  nc_ok s -> netId <> LOCAL_NET_ID -> netId <> mDefaultNetId s ->
  nc_ok (set_mNetworks (fun nets => delete netId nets) s).
Proof.
  intros [He Hl Hd Hdis Hu] Hne Hnd. split; cbn; [| | | |done].
  - intros id m [_ Hm]%lookup_delete_Some. by apply He.
  - destruct Hl as [b Hb]. exists b. by rewrite lookup_delete_ne.
  - destruct Hd as [?|[p Hp]]; [by left|right]. exists p. by rewrite lookup_delete_ne.
  - intros id1 id2 n1 n2 x [_ H1]%lookup_delete_Some [_ H2]%lookup_delete_Some. by eapply Hdis.
Qed.

Lemma nc_sync_delete s netId : nc_sync s -> nc_sync (set_mNetworks (fun nets => delete netId nets) s).
Proof. intros Hs id p. cbn. intros [_ Hp]%lookup_delete_Some. by apply Hs. Qed.

Lemma no_default_at_unset s : nc_ok s -> getNetworkLocked s NETID_UNSET = None.
Proof.
  intros Hok. destruct (getNetworkLocked s NETID_UNSET) as [n|] eqn:E; [|done].
  destruct (ok_entry s Hok _ _ E) as (_ & [H _] & _). unfold NETID_UNSET in H. lia.
Qed.

(** *** Fallthrough rules of one VPN *)

Definition vpn_fall_items (s : NC) (vpnNetId : Z) : list item :=
  match getNetworkLocked s (mDefaultNetId s) with
  | Some (Physical p) =>
      each_interface (fun x => fallthrough_items vpnNetId (table_of x) (PhysicalNetwork.mPermission p))
        (PhysicalNetwork.network p)
  | _ => []
  end.

Lemma modifyFallthroughLocked_spec s vpnNetId add :
  nc_ok s -> netId_fits vpnNetId ->
  method True s s (signed add (vpn_fall_items s vpnNetId)) (modifyFallthroughLocked vpnNetId add).
Proof.
  intros Hok Hv. apply method_gets. unfold vpn_fall_items.
  destruct (mDefaultNetId s =? NETID_UNSET) eqn:E.
  - apply Z.eqb_eq in E. rewrite E, (no_default_at_unset s Hok).
    eapply method_ext; [done|reflexivity| |apply method_nop]. intros i. by rewrite signed_nil.
  - apply Z.eqb_neq in E. destruct (ok_default s Hok) as [?|[p Hp]]; [done|].
    unfold getNetworkLocked. rewrite Hp.
    destruct (ok_entry s Hok _ _ Hp) as (_ & _ & [[Hid Hn] Hperm] & _).
    assert (performs True (signed add (each_interface (fun x => fallthrough_items vpnNetId (table_of x)
      (PhysicalNetwork.mPermission p)) (PhysicalNetwork.network p)))
      (for_each (string_set_elements (mInterfaces (PhysicalNetwork.network p))) (fun x =>
         modifyFallthrough1 vpnNetId x (PhysicalNetwork.mPermission p) add))) as Hperf.
    { apply installs_performs, installs_each. intros x _. by apply installs_modifyFallthrough1. }
    intros r tr Hr. apply wp_zoom. cbn [fst snd].
    destruct Hperf as [B Su]. apply wp_intro. intros ret r' tr' Hrun.
    destruct (wp_run _ _ _ _ _ _ _ Hrun (B r tr Hr)) as [Hr' Hc]. split_and!; [done| |done|].
    + by destruct (ret =? 0).
    + intros KA _. by destruct (wp_run _ _ _ _ _ _ _ Hrun (Su KA I r tr Hr)).
Qed.

(** The fallthrough rules a VPN adds to the default network. *)
Lemma default_extra_virtual s netId v i :
  nc_ok s -> nc_sync s ->
  match getNetworkLocked s (mDefaultNetId s) with
  | Some d => cnt i (default_extra (fun x p => entry_fall x p (netId, Virtual v)) d)
  | None => 0
  end = cnt i (vpn_fall_items s netId).
Proof.
  intros Hok Hs. unfold vpn_fall_items.
  destruct (getNetworkLocked s (mDefaultNetId s)) as [[b|p|w]|] eqn:E; try done.
  cbn. by rewrite (proj2 (Hs _ _ E)).
Qed.

Lemma default_extra_other s netId n i :
  getType n <> VIRTUAL ->
  match getNetworkLocked s (mDefaultNetId s) with
  | Some d => cnt i (default_extra (fun x p => entry_fall x p (netId, n)) d)
  | None => 0
  end = 0.
Proof.
  intros Ht. destruct (getNetworkLocked s (mDefaultNetId s)) as [[b|p|w]|]; try done. cbn.
  destruct (PhysicalNetwork.mIsDefault p); [|done].
  unfold each_interface, entry_fall, is_virtual. cbn. rewrite bool_decide_false by done.
  generalize (string_set_elements (mInterfaces (PhysicalNetwork.network p))). intros l.
  by induction l.
Qed.

Lemma no_interface_items fall n i : getInterfaces n = ∅ -> cnt i (network_items fall n) = 0.
Proof.
  unfold getInterfaces. destruct n as [b|p|v]; cbn; intros H;
    unfold local_network_items, physical_network_items, virtual_network_items, each_interface;
    by rewrite H.
Qed.
End Registering.

Section Creating.
Context {K : Kernel} {KL : KernelLaws K} {St : Steady} {IX : Interfaces} {KI : KeepsIndices K}.

(** A fresh identifier is not the default's. *)
Lemma new_not_default s netId :
  nc_ok s -> getNetworkLocked s netId = None -> valid_netId netId -> netId <> mDefaultNetId s.
Proof.
  intros Hok Hnew [Hpos _] ->. destruct (ok_default s Hok) as [Hz|[q Hq]].
  - unfold NETID_UNSET in Hz. lia.
  - unfold getNetworkLocked in Hnew. congruence.
Qed.

Lemma nc_sync_new s netId n :
  nc_sync s -> netId <> mDefaultNetId s -> default_flag n = false -> nc_sync (put_network netId n s).
Proof.
  intros Hs Hne Hd id p. cbn. rewrite lookup_insert_Some. intros [[<- ->]|[_ Hp]]; [|by apply Hs].
  cbn in Hd. rewrite Hd. done.
Qed.

Lemma sound_createPhysicalNetwork netId permission :
  valid_permission permission -> sound (createPhysicalNetwork netId permission).
Proof.
  intros Hp s Hok. apply sound_at_gets. destruct (negb _) eqn:Ev; [by apply sound_at_ret|].
  unfold isValidNetwork. destruct (getNetworkLocked s netId) as [n|] eqn:En; [by apply sound_at_ret|].
  assert (valid_netId netId) as Hv.
  { unfold valid_netId, MAX_NET_ID, MIN_NET_ID, MIN_OEM_ID, MAX_OEM_ID in *. lia. }
  pose proof (nc_ok_delegate s Hok) as HD.
  assert (physical_ok (PhysicalNetwork.new netId)) as Hnew.
  { split; [|apply none_valid]. split; [by apply valid_netId_fits|]. cbn. intros x. set_solver. }
  intros r tr Hr. apply wp_bind. unfold on_new, wp. cbn [fst snd].
  pose proof (setPermission_spec (DelegateImpl (mNetworks s)) (fall_of (mNetworks s))
    (PhysicalNetwork.new netId) permission Hnew Hp r tr Hr) as Hset. unfold wp in Hset.
  destruct (PhysicalNetwork.setPermission _ _ _ _) as [[ret [p r1]] tr1]. cbn in Hset |- *.
  destruct Hset as (Hr1 & -> & Hc & _). destruct (ret =? 0) eqn:E; cbn.
  2: { split_and!; [done..|]. intros ->. done. }
  apply Z.eqb_eq in E as ->. set (n := Physical (PhysicalNetwork.set_mPermission _ _)).
  assert (nc_ok (put_network netId n s)) as Hok'.
  { apply nc_ok_new; try done. split; [|done]. by destruct Hnew. }
  split_and!; [done..|]. intros _ Hsync.
  pose proof (new_not_default s netId Hok En Hv) as Hne. split; [by apply nc_sync_new|].
  intros st i. rewrite Hc by done. unfold diff, nc_items. cbn.
  rewrite (nets_items_new s netId n) by (done || by apply no_interface_items).
  rewrite (default_extra_other s netId n) by done.
  pose proof (no_interface_items (fall_of (mNetworks s)) n i eq_refl) as Hz.
  pose proof (no_interface_items (fall_of (mNetworks s)) (Physical (PhysicalNetwork.new netId)) i
    eq_refl) as Hz'. cbn in Hz, Hz'. lia.
Qed.

Lemma sound_createVirtualNetwork netId hasDns secure :
  sound (createVirtualNetwork netId hasDns secure).
Proof.
  intros s Hok. apply sound_at_gets. destruct (negb _) eqn:Ev; [by apply sound_at_ret|].
  unfold isValidNetwork. destruct (getNetworkLocked s netId) as [n|] eqn:En; [by apply sound_at_ret|].
  assert (valid_netId netId) as Hv.
  { unfold valid_netId, MAX_NET_ID, MIN_NET_ID in *. lia. }
  set (n := Virtual (VirtualNetwork.new netId hasDns secure)).
  assert (nc_ok (put_network netId n s)) as Hok'.
  { apply nc_ok_new; try done. split_and!; [|constructor|constructor].
    split; [by apply valid_netId_fits|]. cbn. intros x. set_solver. }
  intros r tr Hr. apply wp_orelse.
  eapply wp_mono.
  { apply (modifyFallthroughLocked_spec s netId true Hok (valid_netId_fits _ Hv) r tr Hr). }
  cbn beta.
  intros ret [s1 r1] tr1 (Hr1 & Hs1 & Hc & _). cbn [fst snd] in *.
  assert (s1 = s) as -> by (by destruct (ret =? 0)). split; [|by intros].
  intros ->. apply wp_ret. cbn [fst snd]. split_and!; [done..|]. intros _ Hsync.
  pose proof (new_not_default s netId Hok En Hv) as Hne. split; [by apply nc_sync_new|].
  intros st i. rewrite Hc by done. unfold diff, nc_items. cbn.
  rewrite (nets_items_new s netId n) by (done || by apply no_interface_items).
  unfold n. rewrite (default_extra_virtual s netId) by done. unfold signed. lia.
Qed.
End Creating.

Section Destroying.
Context {K : Kernel} {KL : KernelLaws K} {St : Steady} {IX : Interfaces} {KI : KeepsIndices K}.

Lemma shrunk_facts n n' :
  shrunk n n' -> network_ok n ->
  getType n' = getType n /\ getNetId n' = getNetId n /\ default_flag n' = default_flag n /\
  network_ok n' /\ forall x, x ∈ getInterfaces n' -> x ∈ getInterfaces n.
Proof.
  intros (ifs & Hsub & ->) Hok. split_and!.
  - apply getType_map_base.
  - by apply getNetId_map_base.
  - apply default_flag_map_base.
  - apply network_ok_map; [done|]. apply network_ok_base in Hok as [Hid Hn]. split; [done|].
    intros x Hx. by apply Hn, Hsub.
  - intros x. unfold getInterfaces at 1. rewrite network_base_map. cbn. apply Hsub.
Qed.

(** Clearing the interfaces of a registered network. *)
Lemma clear_spec s netId n r tr :
  nc_ok s -> cached_ok r -> getNetworkLocked s netId = Some n ->
  wp (on_network netId n (clearInterfaces (DelegateImpl (mNetworks s)))) (fun ret s' tr' =>
    cached_ok s'.2 /\ exists n', s'.1 = put_network netId n' s /\ nc_ok s'.1 /\
      getType n' = getType n /\ (nc_sync s -> nc_sync s'.1) /\
      (ret = 0 -> getInterfaces n' = ∅ /\ changes tr tr' (diff nc_items s s'.1))) (s, r) tr.
Proof.
  intros Hok Hr Hn. pose proof (nc_ok_delegate s Hok) as HD.
  destruct (ok_entry s Hok _ _ Hn) as (Hid & Hv & Hnok & _).
  pose proof (clear_loop_spec (DelegateImpl (mNetworks s)) (fall_of (mNetworks s))
    (size (getInterfaces n)) n r tr Hnok Hr ltac:(done)) as Hc.
  unfold wp, on_network, clearInterfaces, mbind, M_bind, gets in *. cbn [fst snd].
  destruct (clear_loop _ _ _ _) as [[ret [n' r']] tr']. cbn [fst snd] in *.
  destruct Hc as (Hr' & Hsh & Hc & _). split; [done|]. exists n'.
  destruct (shrunk_facts n n' Hsh Hnok) as (Ht & Hid' & Hd & Hnok' & Hifs). split_and!; [done| |done| |].
  - eapply nc_ok_replace; try done; [congruence|]. intros x Hx. left. by apply Hifs.
  - by eapply nc_sync_replace.
  - intros E. destruct (Hc E) as [He Hch]. split; [done|]. intros st i. rewrite Hch by done.
    unfold diff at 2, nc_items. cbn. by rewrite (nets_items_replace _ _ n).
Qed.

(** Unregistering a network that has no interface. *)
Lemma nets_items_delete s netId n i :
  nc_ok s -> nc_sync s -> netId <> LOCAL_NET_ID -> netId <> mDefaultNetId s ->
  getNetworkLocked s netId = Some n -> getInterfaces n = ∅ ->
  cnt i (nc_items (set_mNetworks (fun nets => delete netId nets) s)) =
  cnt i (nc_items s) - (if is_virtual n then cnt i (vpn_fall_items s netId) else 0).
Proof.
  intros Hok Hsync Hl Hd Hn Hifs. set (s' := set_mNetworks (fun nets => delete netId nets) s).
  pose proof (nc_ok_delete s netId Hok Hl Hd) as Hok'. pose proof (nc_sync_delete s netId Hsync) as Hsync'.
  assert (mNetworks s = <[netId := n]> (mNetworks s')) as Hins.
  { cbn. by rewrite insert_delete_id. }
  assert (vpn_fall_items s' netId = vpn_fall_items s netId) as Hv.
  { unfold vpn_fall_items, getNetworkLocked. cbn. by rewrite lookup_delete_ne. }
  unfold nc_items at 2. rewrite Hins.
  rewrite (nets_items_new s' netId n) by (done || apply lookup_delete_eq || by apply no_interface_items).
  unfold is_virtual. case_bool_decide as Ht.
  - destruct n as [b|p|v]; try done. rewrite default_extra_virtual, Hv by done. unfold nc_items. lia.
  - rewrite default_extra_other by done. unfold nc_items. lia.
Qed.

(** The default mark and the fallthrough rules of a network about to go. *)
Definition destroy_default (netId : Z) (network : Network) (ret : Z) : M NCState Z :=
  s ← gets fst;
  if mDefaultNetId s =? netId then
    err ← on_network netId (default network (getNetworkLocked s netId))
            (on_physical 0 (PhysicalNetwork.removeAsDefault (DelegateImpl (mNetworks s))));
    on_fst (modify (set_mDefaultNetId NETID_UNSET));;
    mret (if ret =? 0 then err else ret)
  else if bool_decide (getType network = VIRTUAL) then
    err ← modifyFallthroughLocked netId false;
    mret (if ret =? 0 then err else ret)
  else mret ret.

(** What is left before the network is unregistered: [gone s netId] is the
    state with the default reset if it was the network. *)
Lemma destroy_default_spec s netId n network ret r tr :
  nc_ok s -> cached_ok r -> getNetworkLocked s netId = Some n -> getType network = getType n ->
  (ret = 0 -> getInterfaces n = ∅) ->
  wp (destroy_default netId network ret) (fun ret' s' tr' =>
    cached_ok s'.2 /\ nc_ok s'.1 /\ mDefaultNetId s'.1 <> netId /\
    exists n', getNetworkLocked s'.1 netId = Some n' /\
      (ret' = 0 -> ret = 0 /\ (nc_sync s ->
        nc_sync s'.1 /\ getInterfaces n' = ∅ /\
        changes tr tr' (fun i => diff nc_items s s'.1 i -
          (if is_virtual n' then cnt i (vpn_fall_items s'.1 netId) else 0))))) (s, r) tr.
Proof.
  intros Hok Hr Hn Ht Hifs. apply wp_bind, wp_gets. cbn [fst].
  destruct (ok_entry s Hok _ _ Hn) as (Hid & Hv & Hnok & _).
  destruct (mDefaultNetId s =? netId) eqn:Ed.
  - apply Z.eqb_eq in Ed. destruct (ok_default s Hok) as [Hz|[p Hp]].
    { destruct Hv. unfold NETID_UNSET in Hz. lia. }
    clear Hid. subst netId. pose proof Hn as Hn'. unfold getNetworkLocked in Hn'.
    assert (n = Physical p) as -> by congruence. rewrite Hn. change (default network (Some (Physical p))) with (Physical p).
    pose proof (nc_ok_delegate s Hok) as HD. apply wp_bind. eapply wp_mono.
    { eapply (method_on_network _ s (mDefaultNetId s) (Physical p)); [exact Hp| |exact Hr].
      eapply method_physical; [by apply removeAsDefault_spec|done]. }
    cbn beta. intros err [s1 r1] tr1 (Hr1 & Hs1 & Hc & _). cbn [fst snd] in *.
    set (n1 := if err =? 0 then Physical (PhysicalNetwork.set_mIsDefault false p) else Physical p).
    assert (s1 = put_network (mDefaultNetId s) n1 s) as ->.
    { rewrite Hs1. unfold n1. destruct (err =? 0); [done|]. unfold put_network, set_mNetworks.
      rewrite insert_id by done. by destruct s. }
    assert (nc_ok (put_network (mDefaultNetId s) n1 s)) as Hok1.
    { pose proof (proj1 (ok_entry s Hok _ _ Hn)) as Hid.
      unfold n1. eapply nc_ok_replace; [done|done|..]; destruct (err =? 0); try done;
        cbn; intros x; by left. }
    apply wp_bind, wp_zoom, wp_modify, wp_ret. cbn [fst snd].
    assert (nc_ok (set_mDefaultNetId NETID_UNSET (put_network (mDefaultNetId s) n1 s))) as Hok2.
    { destruct Hok1 as [H1 H2 H3 H4 H5]. split; try done. by left. }
    split_and!; [done|done| |].
    { cbn. unfold NETID_UNSET. destruct Hv. lia. }
    exists n1. split; [apply lookup_insert_eq|].
    intros Hret. assert (ret = 0 /\ err = 0) as [-> ->].
    { destruct (ret =? 0) eqn:E0; [by apply Z.eqb_eq in E0|]. subst ret. done. }
    split; [done|]. intros Hsync. split_and!.
    + intros id q. cbn. rewrite lookup_insert_Some. intros [[<- Hq]|[Hne Hq]].
      * unfold n1 in Hq. cbn in Hq. simplify_eq. cbn. split; [done|].
        unfold NETID_UNSET. destruct Hv. lia.
      * rewrite (Hsync _ _ Hq). split; [congruence|]. intros ->.
        destruct (ok_entry s Hok _ _ Hq) as (_ & [Hpos _] & _). unfold NETID_UNSET in Hpos. lia.
    + by apply Hifs.
    + intros st i. rewrite Hc by done. cbn. unfold is_virtual. cbn. rewrite bool_decide_false by done.
      pose proof (nets_items_replace (mNetworks s) (mDefaultNetId s) (Physical p)
        (Physical (PhysicalNetwork.set_mIsDefault false p)) i Hn eq_refl) as Hrep.
      unfold diff, nc_items in *. cbn in *. lia.
  - apply Z.eqb_neq in Ed. rewrite Ht. case_bool_decide as Hvt.
    + apply wp_bind. eapply wp_mono.
      { by apply (modifyFallthroughLocked_spec s netId false Hok (valid_netId_fits _ Hv)). }
      cbn beta. intros err [s1 r1] tr1 (Hr1 & Hs1 & Hc & _). cbn [fst snd] in *.
      assert (s1 = s) as -> by (by destruct (err =? 0)). apply wp_ret. cbn [fst snd].
      split_and!; [done..|]. exists n. split; [done|]. intros Hret.
      assert (ret = 0 /\ err = 0) as [-> ->].
      { destruct (ret =? 0) eqn:E0; [by apply Z.eqb_eq in E0|]. subst ret. done. }
      split; [done|]. intros Hsync. split_and!; [done|by apply Hifs|].
      intros st i. rewrite Hc by done. unfold is_virtual, diff, signed. rewrite bool_decide_true by done. lia.
    + apply wp_ret. cbn [fst snd]. split_and!; [done..|]. exists n. split; [done|]. intros ->.
      split; [done|]. intros Hsync. split_and!; [done|by apply Hifs|].
      intros _ i. unfold is_virtual, diff. rewrite bool_decide_false by done. lia.
Qed.

Lemma sound_destroyNetwork netId : sound (destroyNetwork netId).
Proof.
  intros s Hok. apply sound_at_gets. destruct (netId =? LOCAL_NET_ID) eqn:El; [by apply sound_at_ret|].
  apply Z.eqb_neq in El.
  destruct (getNetworkLocked s netId) as [n|] eqn:En; [|by apply sound_at_ret].
  intros r tr Hr. apply wp_bind. eapply wp_mono; [by apply clear_spec|]. cbn beta.
  intros ret [s1 r1] tr1 (Hr1 & n1 & Hs1 & Hok1 & Ht & Hsync1 & Hc1). cbn [fst snd] in *.
  change (wp (ret' ← destroy_default netId n ret;
    on_fst (modify (set_mNetworks (fun nets => delete netId nets)));;
    sys_resolv_delete netId;; mret ret') (fun ret s' tr' =>
      nc_ok s'.1 /\ cached_ok s'.2 /\
      (ret = 0 -> nc_sync s -> nc_sync s'.1 /\ changes tr tr' (diff nc_items s s'.1))) (s1, r1) tr1).
  assert (getNetworkLocked s1 netId = Some n1) as Hn1 by (subst s1; apply lookup_insert_eq).
  apply wp_bind. eapply wp_mono.
  { eapply (destroy_default_spec s1 netId n1 n ret); try done. intros E. by apply Hc1. }
  cbn beta. intros ret' [s2 r2] tr2 (Hr2 & Hok2 & Hne & n2 & Hn2 & Hc2). cbn [fst snd] in *.
  apply wp_bind, wp_zoom, wp_modify, wp_bind. unfold sys_resolv_delete, wp. cbn [fst snd].
  split_and!; [by apply nc_ok_delete|done|]. intros E Hsync.
  destruct (Hc2 E) as [-> Hc2']. destruct (Hc2' (Hsync1 Hsync)) as (Hsync2 & Hifs & Hch2).
  split; [by apply nc_sync_delete|]. intros st i. rewrite ledger_snoc, Hch2 by done.
  destruct (Hc1 eq_refl) as [_ Hch1]. rewrite Hch1 by done. unfold diff.
  rewrite (nets_items_delete s2 netId n2) by done. cbn. lia.
Qed.
End Destroying.

Section DefaultNetwork.
Context {K : Kernel} {KL : KernelLaws K} {St : Steady} {IX : Interfaces} {KI : KeepsIndices K}.

(** [addAsDefault] ([b = true]) or [removeAsDefault] of a registered network. *)
Definition mark_default (b : bool) (D : Delegate) : M (PhysicalNetwork.t * RouteState) Z :=
  if b then PhysicalNetwork.addAsDefault D else PhysicalNetwork.removeAsDefault D.

Lemma mark_default_spec b s netId p r tr :
  nc_ok s -> cached_ok r -> getNetworkLocked s netId = Some (Physical p) ->
  wp (on_network netId (Physical p) (on_physical 0 (mark_default b (DelegateImpl (mNetworks s)))))
    (fun ret s' tr' =>
      cached_ok s'.2 /\ nc_ok s'.1 /\ mDefaultNetId s'.1 = mDefaultNetId s /\
      (ret = 0 -> s'.1 = put_network netId (Physical (PhysicalNetwork.set_mIsDefault b p)) s /\
                  changes tr tr' (diff nc_items s s'.1))) (s, r) tr.
Proof.
  intros Hok Hr Hn. pose proof (nc_ok_delegate s Hok) as HD.
  destruct (ok_entry s Hok _ _ Hn) as (Hid & Hv & Hnok & _).
  set (p' := PhysicalNetwork.set_mIsDefault b p).
  assert (nc_ok (put_network netId (Physical p') s)) as Hok'.
  { eapply nc_ok_replace; try done. cbn. intros x. by left. }
  eapply wp_mono.
  { eapply (method_on_network True s netId (Physical p) (Physical p')); [done| |done].
    apply (method_physical _ _ _ (diff (physical_network_items (fall_of (mNetworks s))) p p')
      (diff (network_items (fall_of (mNetworks s))) (Physical p) (Physical p'))); [|done].
    destruct b; [by apply addAsDefault_spec|by apply removeAsDefault_spec]. }
  cbn beta. intros ret [s1 r1] tr1 (Hr1 & Hs1 & Hc & _). cbn [fst snd] in *. split_and!.
  - done.
  - rewrite Hs1. by destruct (ret =? 0).
  - rewrite Hs1. by destruct (ret =? 0).
  - intros ->. split; [done|]. intros st i. rewrite Hc, Hs1 by done. cbn [Z.eqb].
    by rewrite <-(nets_items_replace (mNetworks s) netId (Physical p)).
Qed.

(** Network [netId] (none for [NETID_UNSET]) got the default mark [b]. *)
Definition marked (b : bool) (netId : Z) (s s' : NC) : Prop :=
  netId = NETID_UNSET /\ s' = s \/
  exists p, getNetworkLocked s netId = Some (Physical p) /\
    s' = put_network netId (Physical (PhysicalNetwork.set_mIsDefault b p)) s.

(** One half of [setDefaultNetwork]. *)
Definition mark_network (b : bool) (err2 : Z) (netId : Z) (s : NC) : M NCState Z :=
  if negb (netId =? NETID_UNSET) then
    match getNetworkLocked s netId with
    | None => mret (if b then - ENONET else - ESRCH)
    | Some network =>
        if negb (bool_decide (getType network = PHYSICAL)) then mret err2
        else on_network netId network (on_physical 0 (mark_default b (DelegateImpl (mNetworks s))))
    end
  else mret 0.

Lemma mark_network_spec b err2 netId s r tr :
  nc_ok s -> cached_ok r -> err2 <> 0 ->
  wp (mark_network b err2 netId s) (fun ret s' tr' =>
    cached_ok s'.2 /\ nc_ok s'.1 /\ mDefaultNetId s'.1 = mDefaultNetId s /\
    (ret = 0 -> marked b netId s s'.1 /\ changes tr tr' (diff nc_items s s'.1))) (s, r) tr.
Proof.
  intros Hok Hr He. unfold mark_network. destruct (netId =? NETID_UNSET) eqn:Eu; cbn [negb].
  { apply wp_ret. split_and!; [done..|]. intros _. apply Z.eqb_eq in Eu. split; [by left|].
    intros _ i. unfold diff. cbn. lia. }
  destruct (getNetworkLocked s netId) as [[n|p|v]|] eqn:En; try by (apply wp_ret; split_and!).
  - eapply wp_mono; [by apply mark_default_spec|]. cbn beta.
    intros ret s1 tr1 (H1 & H2 & H3 & H4). split_and!; [done..|]. intros E.
    destruct (H4 E) as [Hs1 Hc]. split; [|done]. right. by exists p.
  - apply wp_ret. split_and!; [done..|]. by destruct b.
Qed.

Lemma marked_lookup b netId s s' id p :
  marked b netId s s' -> id <> NETID_UNSET -> mNetworks s' !! id = Some (Physical p) ->
  exists q, mNetworks s !! id = Some (Physical q) /\
    (id = netId /\ PhysicalNetwork.mIsDefault p = b \/
     id <> netId /\ PhysicalNetwork.mIsDefault p = PhysicalNetwork.mIsDefault q).
Proof.
  intros [[-> ->]|(q & Hq & ->)] Hid Hp.
  - exists p. auto.
  - cbn in Hp. rewrite lookup_insert_Some in Hp. destruct Hp as [[<- [= <-]]|[Hne Hp]]; eauto.
Qed.

Lemma marked_physical b netId s s' id p :
  marked b netId s s' -> mNetworks s !! id = Some (Physical p) ->
  exists q, mNetworks s' !! id = Some (Physical q).
Proof.
  intros [[-> ->]|(q & Hq & ->)] Hp; [by exists p|]. cbn.
  destruct (decide (netId = id)) as [<-|]; [rewrite lookup_insert_eq|rewrite lookup_insert_ne by done]; eauto.
Qed.

(** After both halves, exactly the new default network is marked. *)
Lemma default_moved s s1 s2 netId :
  nc_ok s -> nc_ok s2 -> netId <> mDefaultNetId s ->
  marked true netId s s1 -> marked false (mDefaultNetId s) s1 s2 ->
  nc_ok (set_mDefaultNetId netId s2) /\
  (nc_sync s -> nc_sync (set_mDefaultNetId netId s2)).
Proof.
  intros Hok Hok2 Hne H1 H2. split.
  - destruct Hok2 as [He Hl Hd Hdis Hu]. split; try done. cbn.
    destruct H1 as [[-> _]|(p & Hp & Hs1)]; [by left|right].
    assert (mNetworks s1 !! netId = Some (Physical (PhysicalNetwork.set_mIsDefault true p))) as Hp1.
    { subst s1. apply lookup_insert_eq. }
    by eapply marked_physical.
  - intros Hsync id p Hp. cbn in Hp.
    assert (id <> NETID_UNSET) as Hid.
    { destruct (ok_entry s2 Hok2 _ _ Hp) as (_ & [Hpos _] & _). unfold NETID_UNSET. lia. }
    destruct (marked_lookup _ _ _ _ _ _ H2 Hid Hp) as (q & Hq & Hpq).
    destruct (marked_lookup _ _ _ _ _ _ H1 Hid Hq) as (q0 & Hq0 & Hqq).
    specialize (Hsync _ _ Hq0). cbn.
    destruct Hpq as [[-> ->]|[Hn2 ->]].
    + split; [done|]. intros Heq. congruence.
    + destruct Hqq as [[-> ->]|[Hn1 ->]]; [done|]. rewrite Hsync. split; congruence.
Qed.

Lemma sound_setDefaultNetwork netId : sound (setDefaultNetwork netId).
Proof.
  intros s Hok. apply sound_at_gets. destruct (netId =? mDefaultNetId s) eqn:Ed; [by apply sound_at_ret|].
  apply Z.eqb_neq in Ed. intros r tr Hr. apply wp_orelse.
  eapply wp_mono; [by apply (mark_network_spec true (- EINVAL) netId s)|]. cbn beta.
  intros ret [s1 r1] tr1 (Hr1 & Hok1 & Hd1 & Hc1). cbn [fst snd] in *.
  split; [|intros Hne; split_and!; [done..|]; congruence].
  intros ->. destruct (Hc1 eq_refl) as [Hs1 Hch1]. apply wp_bind, wp_gets. cbn [fst].
  apply wp_orelse.
  eapply wp_mono; [by apply (mark_network_spec false (- ESRCH) (mDefaultNetId s1) s1)|]. cbn beta.
  intros ret [s2 r2] tr2 (Hr2 & Hok2 & _ & Hc2). cbn [fst snd] in *.
  split; [|intros Hne; split_and!; [done..|]; congruence].
  intros ->. destruct (Hc2 eq_refl) as [Hs2 Hch2]. rewrite Hd1 in Hs2.
  destruct (default_moved s s1 s2 netId Hok Hok2 Ed Hs1 Hs2) as [Hok3 Hsync3].
  apply wp_bind, wp_zoom, wp_modify, wp_ret. cbn [fst snd]. split_and!; [done..|].
  intros _ Hsync. split; [by apply Hsync3|]. intros st i. rewrite Hch2, Hch1 by done.
  unfold diff, nc_items. cbn. lia.
Qed.
End DefaultNetwork.

(** ** Users and routes *)

Section Users.
Context {K : Kernel} {KL : KernelLaws K} {St : Steady} {IX : Interfaces} {KI : KeepsIndices K}.

(** Changes of the members that no rule depends on. *)
Lemma sound_modify (f : NC -> NC) :
  (forall s, mNetworks (f s) = mNetworks s /\ mDefaultNetId (f s) = mDefaultNetId s) ->
  (forall s, nc_ok s -> nc_ok (f s)) -> sound (on_fst (modify f);; mret 0).
Proof.
  intros Hf Hok s Hs r tr Hr. apply wp_bind, wp_zoom, wp_modify, wp_ret. cbn [fst snd].
  destruct (Hf s) as [Hn Hd]. split_and!; [by apply Hok|done|]. intros _ Hsync. split.
  - intros id p. rewrite Hn, Hd. apply Hsync.
  - intros _ i. unfold diff, nc_items. rewrite Hn. lia.
Qed.

Lemma sound_setPermissionForUsers permission uids :
  valid_permission permission -> sound (setPermissionForUsers permission uids;; mret 0).
Proof.
  intros Hp. apply sound_modify; [done|]. intros s [He Hl Hd Hdis Hu]. split; try done. cbn.
  revert Hu. generalize (mUsers s). induction uids as [|uid uids IH]; intros m Hm; [done|]. cbn.
  apply IH. intros u q. rewrite lookup_insert_Some. intros [[_ <-]|[_ Hq]]; [done|by eapply Hm].
Qed.

Lemma sound_protect (f : gset Z -> gset Z) : sound (on_fst (modify (set_mProtectableUsers f));; mret 0).
Proof. apply sound_modify; [done|]. intros s [He Hl Hd Hdis Hu]. by split. Qed.

Lemma sound_modifyNetworkRoute netId interface destination nexthop add legacy uid :
  sound (modifyNetworkRoute netId interface destination nexthop add legacy uid).
Proof.
  intros s Hok. apply sound_at_gets. unfold isValidNetwork.
  destruct (negb _); [by apply sound_at_ret|]. cbv zeta.
  destruct (_ =? NETID_UNSET); [by apply sound_at_ret|].
  destruct (negb _); [by apply sound_at_ret|].
  apply sound_at_quiet; [done|]. destruct add; apply quiet_modifyRoute; auto.
Qed.
End Users.

Lemma init_networks id n :
  mNetworks NC_init !! id = Some n <-> id = LOCAL_NET_ID /\ n = Local (Base LOCAL_NET_ID ∅).
Proof.
  unfold NC_init. cbn [mNetworks]. rewrite lookup_singleton_Some. split; intros [??]; by subst.
Qed.

Lemma nc_ok_init : nc_ok NC_init.
Proof.
  split.
  - intros id n [-> ->]%init_networks. split_and!; try done.
  - exists (Base LOCAL_NET_ID ∅). by apply init_networks.
  - by left.
  - by intros id1 id2 n1 n2 x [-> _]%init_networks [-> _]%init_networks.
  - intros uid p. cbn. by rewrite lookup_empty.
Qed.

Lemma nc_sync_init : nc_sync NC_init.
Proof. by intros id p [_ ?]%init_networks. Qed.
