(* ===== verification/Indices.v ===== *)
(** * Indices: runs in which interfaces keep their indexes

    The table of an interface is made from its index, and the kernel may give
    a name another index when its interface is removed and created again.  A run
    in which that did not happen - every index [if_nametoindex] returned for a
    name is the same, or 0 - is a run on a kernel that never does it: what holds
    on such kernels holds of the run.  [follows] relates the operations on the
    two kernels, for the whole of RouteController and NetworkController. *)
From S2P Require Import Prelude Platform Cstd Fwmark UidRanges Netlink.
From S2P Require Import NetdConstants Ledger RouteController RouteSpec Networks NetworkController.

(** The kernel that answers 0 where [K] would answer another index than [ix] says. *)
Definition keeping (K : Kernel) (ix : Interfaces) : Kernel := {|
  k_netlink := k_netlink; k_exec := k_exec;
  k_ifindex := fun tr name => if k_ifindex tr name =? ix name then k_ifindex tr name else 0;
  k_file := k_file; k_property := k_property; k_popen := k_popen; k_read := k_read; k_readdir := k_readdir;
  k_spawn := k_spawn; k_wait := k_wait; k_system := k_system; k_ifc := k_ifc; k_ifc_get_info := k_ifc_get_info;
  k_ifc_get_hwaddr := k_ifc_get_hwaddr; k_wifi := k_wifi; k_qsap_reply := k_qsap_reply;
  k_wifi_fw_path := k_wifi_fw_path; k_pbkdf2 := k_pbkdf2; k_netmask := k_netmask; k_pipe := k_pipe;
  k_getaddrinfo := k_getaddrinfo; k_inet_pton := k_inet_pton; k_inet_aton := k_inet_aton
|}.

#[export] Instance keeping_laws K ix : KernelLaws K -> KernelLaws (keeping K ix).
Proof.
  intros KL. split; [apply (netlink_errno (K:=K))|]. intros tr name. cbn. destruct (_ =? _); [apply ifindex_range|lia].
Qed.

(** Its interfaces keep their indexes. *)
#[export] Instance keeping_keeps K (ix : Interfaces) (St : Steady) : KeepsIndices (keeping K ix).
Proof. intros _ tr name. cbn. unfold if_index. destruct (Z.eqb_spec (k_ifindex tr name) (ix name)); auto. Qed.

(** Every index in the events is the one [ix] says, or 0. *)
Definition index_kept (ix : Interfaces) (e : event) : Prop :=
  match e with EvIfIndex name index => index = ix name \/ index = 0 | _ => True end.

#[export] Instance index_kept_dec (ix : Interfaces) e : Decision (index_kept ix e).
Proof. destruct e; apply _. Defined.

(** [follows m m']: a run of [m] in which indexes are kept is a run of [m']. *)
Definition follows (ix : Interfaces) {S A} (m m' : M S A) : Prop :=
  forall s tr, let '(a, s1, tr1) := m s tr in
    exists evs, tr1 = tr ++ evs /\ (Forall (index_kept ix) evs -> m' s tr = (a, s1, tr1)).

Section Follows.
Context (ix : Interfaces) {S : Type}.

Lemma follows_same {A} (f : S -> A) g : follows ix (fun s tr => (f s, g s : S, tr)) (fun s tr => (f s, g s, tr)).
Proof. intros s tr. exists []. by rewrite app_nil_r. Qed.
Lemma follows_ret {A} (a : A) : follows ix (S:=S) (mret a) (mret a).
Proof. apply (follows_same (fun _ => a) (fun s => s)). Qed.
Lemma follows_gets {A} (f : S -> A) : follows ix (gets f) (gets f).
Proof. apply (follows_same f (fun s => s)). Qed.
Lemma follows_modify (f : S -> S) : follows ix (modify f) (modify f).
Proof. apply (follows_same (fun _ => tt) f). Qed.
Lemma follows_snoc {A} (f : trace -> A) (ev : trace -> event) :
  follows ix (S:=S) (fun s tr => (f tr, s, tr ++ [ev tr])) (fun s tr => (f tr, s, tr ++ [ev tr])).
Proof. intros s tr. by exists [ev tr]. Qed.

Lemma follows_bind {A B} (m m' : M S A) (k k' : A -> M S B) :
  follows ix m m' -> (forall a, follows ix (k a) (k' a)) -> follows ix (m ≫= k) (m' ≫= k').
Proof.
  intros Hm Hk s tr. unfold mbind, M_bind. specialize (Hm s tr). destruct (m s tr) as [[a s1] tr1].
  destruct Hm as (e1 & -> & H1). specialize (Hk a s1 (tr ++ e1)). destruct (k a s1 (tr ++ e1)) as [[b s2] tr2].
  destruct Hk as (e2 & -> & H2). exists (e1 ++ e2). split; [by rewrite app_assoc|].
  intros [F1 F2]%Forall_app. rewrite (H1 F1). by apply H2.
Qed.
Lemma follows_orelse (c c' k k' : M S Z) : follows ix c c' -> follows ix k k' -> follows ix (orelse c k) (orelse c' k').
Proof. intros. apply follows_bind; [done|]. intros r. destruct (r =? 0); [done|apply follows_ret]. Qed.
Lemma follows_for_each {A} (l : list A) (f f' : A -> M S Z) :
  (forall x, follows ix (f x) (f' x)) -> follows ix (for_each l f) (for_each l f').
Proof. intros H. induction l as [|x l IH]; [apply follows_ret|]. by apply follows_orelse. Qed.
Lemma follows_zoom {T A} (get : S -> T) put (m m' : M T A) :
  follows ix m m' -> follows ix (zoom get put m) (zoom get put m').
Proof.
  intros Hm s tr. unfold zoom. specialize (Hm (get s) tr). destruct (m (get s) tr) as [[a t] tr1].
  destruct Hm as (evs & -> & H). exists evs. split; [done|]. intros F. by rewrite (H F).
Qed.
End Follows.

(** ** The calls *)

Section Calls.
Context (K : Kernel) (ix : Interfaces).
Abbreviation K' := (keeping K ix).

Lemma follows_netlink {S} msg : follows ix (S:=S) (sys_netlink (K:=K) msg) (sys_netlink (K:=K') msg).
Proof. apply (follows_snoc ix (fun tr => k_netlink (Kernel:=K) tr msg) (fun tr => EvNetlink msg _)). Qed.
Lemma follows_exec {S} argv : follows ix (S:=S) (sys_exec (K:=K) argv) (sys_exec (K:=K') argv).
Proof. apply (follows_snoc ix (fun tr => k_exec (Kernel:=K) tr argv) (fun tr => EvExec argv _)). Qed.
Lemma follows_exec_value {S} argv : follows ix (S:=S) (sys_exec_value (K:=K) argv) (sys_exec_value (K:=K') argv).
Proof. apply (follows_snoc ix (fun tr => exec_value (k_exec (Kernel:=K) tr argv)) (fun tr => EvExec argv _)). Qed.
Lemma follows_file {S} op : follows ix (S:=S) (sys_file (K:=K) op) (sys_file (K:=K') op).
Proof. apply (follows_snoc ix (fun tr => k_file (Kernel:=K) tr op) (fun tr => EvFile op _)). Qed.
Lemma follows_resolv_delete {S} n : follows ix (S:=S) (sys_resolv_delete n) (sys_resolv_delete n).
Proof. apply (follows_snoc ix (fun _ => tt) (fun _ => EvResolvDelete n)). Qed.
(** The only call that two kernels answer differently. *)
Lemma follows_ifindex {S} name : follows ix (S:=S) (sys_ifindex (K:=K) name) (sys_ifindex (K:=K') name).
Proof.
  intros s tr. unfold sys_ifindex. cbn. set (index := k_ifindex (Kernel:=K) tr name). exists [EvIfIndex name index].
  split; [done|]. intros [H _]%Forall_cons.
  assert ((if index =? ix name then index else 0) = index) as ->; [|done].
  destruct (Z.eqb_spec index (ix name)); [done|]. by destruct H.
Qed.
End Calls.

Create HintDb follows.
#[export] Hint Resolve follows_ret follows_gets follows_modify follows_netlink follows_exec follows_exec_value
  follows_file follows_resolv_delete follows_ifindex : follows.

(** Walk through the two computations together, and unfold them. *)
Ltac head_of m := lazymatch m with ?f _ => head_of f | _ => m end.
Ltac follows_step :=
  first
    [ solve [auto with follows nocore]
    | apply follows_bind; [|intros ?]
    | apply follows_orelse
    | apply follows_zoom
    | apply follows_for_each; intros ?
    | match goal with
      | |- follows _ (match ?x with _ => _ end) _ => destruct x eqn:?
      | |- follows _ (let '(_, _) := ?x in _) _ => destruct x eqn:?
      end
    | progress cbv zeta
    | match goal with |- follows _ ?m _ => let h := head_of m in unfold h end ].
Ltac follows := repeat follows_step.

(** ** RouteController *)

Section Routes.
Context (K : Kernel) (ix : Interfaces).
Abbreviation K' := (keeping K ix).

Lemma follows_sendNetlinkRequest action flags iov :
  follows ix (S:=RouteState) (sendNetlinkRequest (H:=K) action flags iov) (sendNetlinkRequest (H:=K') action flags iov).
Proof. follows. Qed.
Hint Resolve follows_sendNetlinkRequest : follows.
Lemma follows_execIptables target args :
  follows ix (S:=RouteState) (execIptables (K:=K) target args) (execIptables (K:=K') target args).
Proof. unfold execIptables, execIptablesCommand. follows. Qed.
Hint Resolve follows_execIptables : follows.
Lemma follows_getRouteTableForInterface i :
  follows ix (getRouteTableForInterface (K:=K) i) (getRouteTableForInterface (K:=K') i).
Proof. follows. Qed.
Hint Resolve follows_getRouteTableForInterface : follows.
Lemma follows_updateTableNamesFile :
  follows ix (updateTableNamesFile (K:=K)) (updateTableNamesFile (K:=K')).
Proof. follows. Qed.
Hint Resolve follows_updateTableNamesFile : follows.
Lemma follows_modifyIpRule a p t fm m ii oi us ue :
  follows ix (modifyIpRule (K:=K) a p t fm m ii oi us ue) (modifyIpRule (K:=K') a p t fm m ii oi us ue).
Proof. follows. Qed.
Hint Resolve follows_modifyIpRule : follows.
Lemma follows_modifyIncomingPacketMark n i p add :
  follows ix (modifyIncomingPacketMark (K:=K) n i p add) (modifyIncomingPacketMark (K:=K') n i p add).
Proof. follows. Qed.
Hint Resolve follows_modifyIncomingPacketMark : follows.
Lemma follows_modifyIpRoute a t i d n :
  follows ix (modifyIpRoute (K:=K) a t i d n) (modifyIpRoute (K:=K') a t i d n).
Proof. unfold modifyIpRoute. change (@parsePrefix K') with (@parsePrefix K). change (@k_inet_pton K') with (@k_inet_pton K). follows. Qed.
Hint Resolve follows_modifyIpRoute : follows.
Lemma follows_modifyPhysicalNetwork n i p add :
  follows ix (modifyPhysicalNetwork (K:=K) n i p add) (modifyPhysicalNetwork (K:=K') n i p add).
Proof. follows. Qed.
Hint Resolve follows_modifyPhysicalNetwork : follows.
Lemma follows_modifyVirtualNetwork n i l secure add b :
  follows ix (modifyVirtualNetwork (K:=K) n i l secure add b) (modifyVirtualNetwork (K:=K') n i l secure add b).
Proof. follows. Qed.
Hint Resolve follows_modifyVirtualNetwork : follows.
Lemma follows_modifyDefaultNetwork a i p :
  follows ix (modifyDefaultNetwork (K:=K) a i p) (modifyDefaultNetwork (K:=K') a i p).
Proof. follows. Qed.
Hint Resolve follows_modifyDefaultNetwork : follows.
Lemma follows_modifyRoute a i d n t :
  follows ix (modifyRoute (K:=K) a i d n t) (modifyRoute (K:=K') a i d n t).
Proof. follows. Qed.
Hint Resolve follows_modifyRoute : follows.
Lemma follows_flush_attempts n argv :
  follows ix (S:=RouteState) (flush_attempts (K:=K) n argv) (flush_attempts (K:=K') n argv).
Proof. induction n as [|n IH]; cbn [flush_attempts]; follows. Qed.
Hint Resolve follows_flush_attempts : follows.
Lemma follows_flush_versions l t ret :
  follows ix (flush_versions (K:=K) l t ret) (flush_versions (K:=K') l t ret).
Proof. revert ret. induction l as [|v l IH]; intros ret; cbn [flush_versions]; follows. Qed.
Hint Resolve follows_flush_versions : follows.
Lemma follows_flushRoutes i :
  follows ix (flushRoutes (K:=K) i) (flushRoutes (K:=K') i).
Proof. follows. Qed.
Hint Resolve follows_flushRoutes : follows.
Lemma follows_Init n :
  follows ix (RouteController.Init (K:=K) n) (RouteController.Init (K:=K') n).
Proof. follows. Qed.
Hint Resolve follows_Init : follows.
End Routes.
#[export] Hint Resolve follows_sendNetlinkRequest follows_execIptables follows_getRouteTableForInterface follows_updateTableNamesFile follows_modifyIpRule follows_modifyIncomingPacketMark follows_modifyIpRoute follows_modifyPhysicalNetwork follows_modifyVirtualNetwork follows_modifyDefaultNetwork follows_modifyRoute follows_flush_attempts follows_flush_versions follows_flushRoutes follows_Init : follows.

(** ** Networks and NetworkController *)

Section Networks.
Context (K : Kernel) (ix : Interfaces).
Abbreviation K' := (keeping K ix).

Lemma follows_dispatch {A} (l l' : M (base * RouteState) A) p p' v v' :
  follows ix l l' -> follows ix p p' -> follows ix v v' -> follows ix (dispatch l p v) (dispatch l' p' v').
Proof.
  intros Hl Hp Hv [[n|n|n] r] tr; unfold dispatch; cbn.
  - specialize (Hl (n, r) tr). destruct (l (n, r) tr) as [[a s'] tr']. destruct Hl as (evs & -> & H).
    exists evs. split; [done|]. intros F. by rewrite (H F).
  - specialize (Hp (n, r) tr). destruct (p (n, r) tr) as [[a s'] tr']. destruct Hp as (evs & -> & H).
    exists evs. split; [done|]. intros F. by rewrite (H F).
  - specialize (Hv (n, r) tr). destruct (v (n, r) tr) as [[a s'] tr']. destruct Hv as (evs & -> & H).
    exists evs. split; [done|]. intros F. by rewrite (H F).
Qed.
Lemma follows_on_network {A} netId n (m m' : M (Network * RouteState) A) :
  follows ix m m' -> follows ix (on_network netId n m) (on_network netId n m').
Proof.
  intros Hm s tr. unfold on_network. specialize (Hm (n, s.2) tr). destruct (m (n, s.2) tr) as [[a [n' r']] tr'].
  destruct Hm as (evs & -> & H). exists evs. split; [done|]. intros F. by rewrite (H F).
Qed.
Lemma follows_on_new {N A} (n : N) (m m' : M (N * RouteState) A) :
  follows ix m m' -> follows ix (on_new n m) (on_new n m').
Proof.
  intros Hm s tr. unfold on_new. specialize (Hm (n, s.2) tr). destruct (m (n, s.2) tr) as [[a [n' r']] tr'].
  destruct Hm as (evs & -> & H). exists evs. split; [done|]. intros F. by rewrite (H F).
Qed.

Ltac follows_net := repeat first [apply follows_dispatch | apply follows_on_network | apply follows_on_new | follows_step].

Record follows_delegate (D D' : Delegate) : Prop := {
  follows_addFallthrough i p : follows ix (addFallthrough D i p) (addFallthrough D' i p);
  follows_removeFallthrough i p : follows ix (removeFallthrough D i p) (removeFallthrough D' i p)
}.
Lemma follows_modifyFallthrough1 n i p add :
  follows ix (modifyFallthrough1 (K:=K) n i p add) (modifyFallthrough1 (K:=K') n i p add).
Proof. follows. Qed.
Hint Resolve follows_modifyFallthrough1 : follows.
Lemma DelegateImpl_follows networks : follows_delegate (DelegateImpl (K:=K) networks) (DelegateImpl (K:=K') networks).
Proof. split; intros i p; cbn; follows. Qed.

Section Objects.
Context (D D' : Delegate) (HD : follows_delegate D D').
Hint Resolve follows_addFallthrough follows_removeFallthrough HD : follows.

Lemma follows_setPermission p : follows ix (PhysicalNetwork.setPermission (K:=K) D p) (PhysicalNetwork.setPermission (K:=K') D' p).
Proof. follows. Qed.
Lemma follows_addAsDefault : follows ix (PhysicalNetwork.addAsDefault (K:=K) D) (PhysicalNetwork.addAsDefault (K:=K') D').
Proof. follows. Qed.
Lemma follows_removeAsDefault : follows ix (PhysicalNetwork.removeAsDefault (K:=K) D) (PhysicalNetwork.removeAsDefault (K:=K') D').
Proof. follows. Qed.
Lemma follows_addInterface i : follows ix (addInterface (K:=K) D i) (addInterface (K:=K') D' i).
Proof. follows_net. Qed.
Lemma follows_removeInterface i : follows ix (removeInterface (K:=K) D i) (removeInterface (K:=K') D' i).
Proof. follows_net. Qed.
Hint Resolve follows_removeInterface : follows.
Lemma follows_clearInterfaces : follows ix (clearInterfaces (K:=K) D) (clearInterfaces (K:=K') D').
Proof.
  unfold clearInterfaces. apply follows_bind; [auto with follows|]. intros n. generalize (size (getInterfaces n)).
  intros fuel. induction fuel as [|fuel IH]; cbn [clear_loop]; follows.
Qed.
End Objects.
End Networks.
#[export] Hint Resolve follows_modifyFallthrough1 follows_setPermission follows_addAsDefault follows_removeAsDefault
  follows_addInterface follows_removeInterface follows_clearInterfaces DelegateImpl_follows : follows.
Ltac follows_net := repeat first [apply follows_dispatch | apply follows_on_network | apply follows_on_new | follows_step].
