(* ===== verification/Daemon.v ===== *)
(** * Daemon: the network commands as a state machine

    The methods of [NetworkController] that the network commands call, one
    command after the other, from the state the daemon boots into.  The
    theorems of this file are about every reachable state. *)
From S2P Require Import Prelude Platform Cstd Fwmark UidRanges Netlink.
From S2P Require Import NetdConstants Ledger RouteController RouteSpec Networks NetworkSpec.
From S2P Require Import NetworkController ControllerSpec Indices SampleKernel.

Inductive command :=
| CreatePhysicalNetwork (netId permission : Z)
| CreateVirtualNetwork (netId : Z) (hasDns secure : bool)
| DestroyNetwork (netId : Z)
| SetDefaultNetwork (netId : Z)
| AddInterfaceToNetwork (netId : Z) (interface : string)
| RemoveInterfaceFromNetwork (netId : Z) (interface : string)
| AddUsersToNetwork (netId : Z) (uidRanges : list (Z * Z))
| RemoveUsersFromNetwork (netId : Z) (uidRanges : list (Z * Z))
| SetPermissionForUsers (permission : Z) (uids : list Z)
| SetPermissionForNetworks (permission : Z) (netIds : list Z)
| AllowProtect (uids : list Z)
| DenyProtect (uids : list Z)
| ModifyRoute (netId : Z) (interface : string) (destination nexthop : option string)
    (add legacy : bool) (uid : Z).

(** What the command parser guarantees: a permission is one of the enum's
    values, a name is a C string, UID ranges are those [parseFrom] accepts. *)
Definition wf_command (c : command) : Prop :=
  match c with
  | CreatePhysicalNetwork _ permission | SetPermissionForUsers permission _
  | SetPermissionForNetworks permission _ => valid_permission permission
  | AddInterfaceToNetwork _ interface => no_nul interface
  | AddUsersToNetwork _ uidRanges | RemoveUsersFromNetwork _ uidRanges => ranges_ok uidRanges
  | _ => True
  end.

Section Daemon.
Context {K : Kernel}.

Definition run_command (c : command) : M NCState Z :=
  match c with
  | CreatePhysicalNetwork netId permission => createPhysicalNetwork netId permission
  | CreateVirtualNetwork netId hasDns secure => createVirtualNetwork netId hasDns secure
  | DestroyNetwork netId => destroyNetwork netId
  | SetDefaultNetwork netId => setDefaultNetwork netId
  | AddInterfaceToNetwork netId interface => addInterfaceToNetwork netId interface
  | RemoveInterfaceFromNetwork netId interface => removeInterfaceFromNetwork netId interface
  | AddUsersToNetwork netId uidRanges => addUsersToNetwork netId uidRanges
  | RemoveUsersFromNetwork netId uidRanges => removeUsersFromNetwork netId uidRanges
  | SetPermissionForUsers permission uids => setPermissionForUsers permission uids;; mret 0
  | SetPermissionForNetworks permission netIds => setPermissionForNetworks permission netIds
  | AllowProtect uids => allowProtect uids;; mret 0
  | DenyProtect uids => denyProtect uids;; mret 0
  | ModifyRoute netId interface destination nexthop add legacy uid =>
      modifyNetworkRoute netId interface destination nexthop add legacy uid
  end.

(** The states a run of the daemon goes through, whatever the kernel answers
    and whether or not commands succeed. *)
Inductive reachable : NCState -> trace -> Prop :=
| reach_boot ret r tr :
    Init LOCAL_NET_ID ∅ [] = (ret, r, tr) -> reachable (NC_init, r) tr
| reach_command c ret s tr s' tr' :
    reachable s tr -> wf_command c -> run_command c s tr = (ret, s', tr') -> reachable s' tr'.

(** The ranges to remove are among the network's ranges. *)
Definition removes_present (s : NC) (c : command) : Prop :=
  match c with
  | RemoveUsersFromNetwork netId ranges =>
      forall v, getNetworkLocked s netId = Some (Virtual v) -> ranges ⊆+ VirtualNetwork.mUidRanges v
  | _ => True
  end.

(** Runs in which every command returned 0, and no UID range was to be removed that
    the network does not have. *)
Inductive clean : NCState -> trace -> Prop :=
| clean_boot r tr :
    Init LOCAL_NET_ID ∅ [] = (0, r, tr) -> clean (NC_init, r) tr
| clean_command c s tr s' tr' :
    clean s tr -> wf_command c -> removes_present s.1 c ->
    run_command c s tr = (0, s', tr') -> clean s' tr'.

Section Invariants.
Context {KL : KernelLaws K} {St : Steady} {IX : Interfaces} {KI : KeepsIndices K}.

Lemma sound_at_command s c :
  nc_ok s -> wf_command c -> removes_present s c -> sound_at s (run_command c).
Proof.
  intros Hok Hwf Hrm. destruct c; cbn in *.
  - by apply sound_createPhysicalNetwork.
  - by apply sound_createVirtualNetwork.
  - by apply sound_destroyNetwork.
  - by apply sound_setDefaultNetwork.
  - by apply sound_addInterfaceToNetwork.
  - by apply sound_removeInterfaceFromNetwork.
  - by apply sound_addUsersToNetwork.
  - by apply sound_at_removeUsersFromNetwork.
  - by apply sound_setPermissionForUsers.
  - by apply sound_setPermissionForNetworks.
  - by apply (sound_protect (fun users => users ∪ list_to_set uids)).
  - by apply (sound_protect (fun users => foldl (fun users uid => users ∖ {[uid]}) users uids)).
  - by apply sound_modifyNetworkRoute.
Qed.

(** Any command keeps the invariant. *)
Lemma command_keeps_ok s r tr c :
  nc_ok s -> cached_ok r -> wf_command c ->
  wp (run_command c) (fun _ s' _ => nc_ok s'.1 /\ cached_ok s'.2) (s, r) tr.
Proof.
  intros Hok Hr Hwf.
  assert (removes_present s c ->
    wp (run_command c) (fun _ s' _ => nc_ok s'.1 /\ cached_ok s'.2) (s, r) tr) as Hsound.
  { intros Hrm. eapply wp_mono; [by apply (sound_at_command s c Hok Hwf Hrm)|].
    cbn beta. intros ret s' tr' (H1 & H2 & _). done. }
  destruct c; try by apply Hsound. by apply removeUsersFromNetwork_keeps_ok.
Qed.

Lemma boot_ok ret r tr :
  Init LOCAL_NET_ID ∅ [] = (ret, r, tr) ->
  cached_ok r /\ (ret = 0 -> steady -> forall i, ledger tr i = cnt i (base_items LOCAL_NET_ID)).
Proof.
  intros Hrun. destruct (installs_Init LOCAL_NET_ID) as [B _].
  { unfold netId_fits, LOCAL_NET_ID. lia. }
  assert (cached_ok ∅) as Hempty by (intros name t; by rewrite lookup_empty).
  destruct (wp_run _ _ _ _ _ _ _ Hrun (B ∅ [] Hempty)) as [Hr Hc]. split; [done|].
  intros E st i. by rewrite (Hc E st).
Qed.

Lemma reachable_invariant s tr : reachable s tr -> nc_ok s.1 /\ cached_ok s.2.
Proof.
  induction 1 as [ret r tr Hrun|c ret s tr s' tr' _ [Hok Hr] Hwf Hrun].
  - split; [apply nc_ok_init|]. by eapply boot_ok.
  - destruct s as [s r]. exact (wp_run _ _ _ _ _ _ _ Hrun (command_keeps_ok s r tr c Hok Hr Hwf)).
Qed.

Lemma clean_invariant s tr :
  clean s tr ->
  nc_ok s.1 /\ cached_ok s.2 /\ nc_sync s.1 /\
  (steady -> forall i, ledger tr i = cnt i (base_items LOCAL_NET_ID) + cnt i (nc_items s.1)).
Proof.
  induction 1 as [r tr Hrun|c s tr s' tr' _ (Hok & Hr & Hsync & Hl) Hwf Hrm Hrun].
  - destruct (boot_ok _ _ _ Hrun) as [Hr Hl].
    split_and!; [apply nc_ok_init|done|apply nc_sync_init|].
    intros st i. rewrite Hl by done. cbn [fst].
    assert (cnt i (nc_items NC_init) = 0) as ->; [|lia]. by vm_compute.
  - destruct s as [s r].
    destruct (wp_run _ _ _ _ _ _ _ Hrun (sound_at_command s c Hok Hwf Hrm r tr Hr)) as (H1 & H2 & H3).
    destruct (H3 eq_refl Hsync) as [Hsync' Hc]. split_and!; [done..|].
    intros st i. rewrite Hc, Hl by done. unfold diff. cbn [fst]. lia.
Qed.
End Invariants.
End Daemon.

(** *** Runs in which interfaces keep their indexes *)

(** Whatever the kernel does, the state keeps its invariants: nothing in them
    depends on indexes. *)
Lemma never_steady (K : Kernel) (IX : Interfaces) : KeepsIndices K (St:=False).
Proof. intros []. Qed.
Lemma reachable_ok {K : Kernel} {KL : KernelLaws K} s tr : reachable s tr -> nc_ok s.1.
Proof. intros H. by destruct (reachable_invariant (St:=False) (KI:=never_steady K (fun _ => 0)) s tr H). Qed.
Lemma clean_sync {K : Kernel} {KL : KernelLaws K} s tr : clean s tr -> nc_sync s.1.
Proof. intros H. by destruct (clean_invariant (St:=False) (KI:=never_steady K (fun _ => 0)) s tr H) as (_ & _ & Hs & _). Qed.

Lemma follows_run_command (K : Kernel) ix c : follows ix (run_command (K:=K) c) (run_command (K:=keeping K ix) c).
Proof. destruct c; cbn [run_command]; follows_net. Qed.

(** Such a run is a run on the kernel that keeps the indexes. *)
Lemma clean_keeping (K : Kernel) ix s tr :
  clean (K:=K) s tr -> Forall (index_kept ix) tr -> clean (K:=keeping K ix) s tr.
Proof.
  induction 1 as [r tr Hrun|c s tr s' tr' _ IH Hwf Hrm Hrun]; intros Hix.
  - apply clean_boot. pose proof (follows_Init K ix LOCAL_NET_ID ∅ []) as H. rewrite Hrun in H.
    destruct H as (evs & -> & H). by apply H.
  - pose proof (follows_run_command K ix c s tr) as H. rewrite Hrun in H. destruct H as (evs & -> & H).
    apply Forall_app in Hix as [Hix1 Hix2]. eapply clean_command; [by apply IH|done..|by apply H].
Qed.

(** The indexes the run has seen are those of [ix]. *)
Lemma clean_ledger {K : Kernel} {KL : KernelLaws K} (ix : Interfaces) s tr :
  clean s tr -> Forall (index_kept ix) tr ->
  forall i, ledger tr i = cnt i (base_items LOCAL_NET_ID) + cnt i (nc_items s.1).
Proof.
  intros H Hix. pose proof (clean_keeping K ix s tr H Hix) as Hk.
  destruct (clean_invariant (KL:=keeping_laws K ix KL) (KI:=keeping_keeps K ix True) s tr Hk) as (_ & _ & _ & Hl). exact (Hl I).
Qed.

(** ** Running commands *)

Section Running.
Context {K : Kernel}.

(** Commands one after the other, as long as they return 0. *)
Fixpoint run_all (cs : list command) (s : NCState) (tr : trace) : option (NCState * trace) :=
  match cs with
  | [] => Some (s, tr)
  | c :: cs => let '(ret, s', tr') := run_command c s tr in
               if ret =? 0 then run_all cs s' tr' else None
  end.

Definition boot_and_run (cs : list command) : option (NCState * trace) :=
  let '(ret, r, tr) := Init LOCAL_NET_ID ∅ [] in
  if ret =? 0 then run_all cs (NC_init, r) tr else None.

Definition is_remove_users (c : command) : bool :=
  match c with RemoveUsersFromNetwork _ _ => true | _ => false end.

Lemma clean_run_all cs s tr s' tr' :
  clean s tr -> Forall wf_command cs -> forallb (fun c => negb (is_remove_users c)) cs = true ->
  run_all cs s tr = Some (s', tr') -> clean s' tr'.
Proof.
  revert s tr. induction cs as [|c cs IH]; intros s tr Hs Hwf Hrm; cbn in *; [by intros [= -> ->]|].
  apply Forall_cons in Hwf as [Hwf1 Hwf]. bool_to_prop.
  destruct (run_command c s tr) as [[ret s1] tr1] eqn:E. destruct (ret =? 0) eqn:E0; [|done].
  apply Z.eqb_eq in E0 as ->. apply IH; [|done..].
  eapply clean_command; [done|done|by destruct c|done].
Qed.

Lemma clean_boot_and_run cs s tr :
  Forall wf_command cs -> forallb (fun c => negb (is_remove_users c)) cs = true ->
  boot_and_run cs = Some (s, tr) -> clean s tr.
Proof.
  unfold boot_and_run. intros Hwf Hrm. destruct (Init _ _ _) as [[ret r] tr0] eqn:E.
  destruct (ret =? 0) eqn:E0; [|done]. apply Z.eqb_eq in E0 as ->. intros Hrun.
  by eapply clean_run_all; [apply clean_boot| | |].
Qed.

Lemma clean_reachable s tr : clean s tr -> reachable s tr.
Proof. induction 1; [by eapply reach_boot|by eapply reach_command]. Qed.
End Running.

(** A phone with Wi-Fi as the default network and a secure VPN for some users. *)
Definition sample_commands : list command :=
  [ CreatePhysicalNetwork 100 PERMISSION_NONE;
    AddInterfaceToNetwork 100 "wlan0";
    SetDefaultNetwork 100;
    CreateVirtualNetwork 101 true true;
    AddUsersToNetwork 101 [(10000, 10100)];
    AddInterfaceToNetwork 101 "tun0";
    SetPermissionForUsers PERMISSION_NETWORK [10001];
    SetPermissionForNetworks PERMISSION_NETWORK [100];
    AddInterfaceToNetwork 99 "usb0";
    AllowProtect [10002] ].

Lemma sample_commands_wf : Forall wf_command sample_commands.
Proof.
  repeat (apply Forall_cons_2 || apply Forall_nil_2); cbn; try done;
    try by (unfold valid_permission, PERMISSION_NONE, PERMISSION_NETWORK; lia).
  split; [repeat constructor|].
  repeat (apply Forall_cons_2 || apply Forall_nil_2). cbn. unfold INVALID_UID. lia.
Qed.

Lemma boot_and_run_clean (o : option (NCState * trace)) :
  boot_and_run (K:=good_kernel) sample_commands = o -> match o with Some (s, tr) => clean (K:=good_kernel) s tr | None => True end.
Proof.
  intros H. destruct o as [[s tr]|]; [|done]. eapply clean_boot_and_run; [apply sample_commands_wf|done|done].
Qed.

(** ** Properties *)

(** C1. As long as every command has returned 0, no UID range was to be removed
    that the network did not have ([clean]), and no interface got another index (every
    index [if_nametoindex] returned for a name is the same, or 0), the kernel holds
    exactly the rules the daemon's state stands for: for every routing rule (both
    families) and every iptables rule, acknowledged additions minus acknowledged
    removals equal the number of times the rule occurs among the base rules of
    [Init] and the rules of the current networks. *)
Theorem ledger_matches_state {K : Kernel} {KL : KernelLaws K} (ix : Interfaces) s tr :
  clean s tr -> Forall (index_kept ix) tr ->
  forall i, ledger tr i = cnt i (base_items LOCAL_NET_ID) + cnt i (nc_items s.1).
Proof. apply clean_ledger. Qed.

Lemma ledger_matches_state_witness :
  exists s tr, boot_and_run (K:=good_kernel) sample_commands = Some (s, tr) /\ length tr = 89%nat /\
    forall i, ledger tr i = cnt i (base_items LOCAL_NET_ID) + cnt i (nc_items s.1).
Proof.
  assert (match boot_and_run (K:=good_kernel) sample_commands with
          | Some (_, tr) => length tr = 89%nat /\ bool_decide (Forall (index_kept sample_interfaces) tr) = true
          | None => False end) as Hrun by (vm_compute; split; reflexivity).
  destruct (boot_and_run (K:=good_kernel) sample_commands) as [[s tr]|] eqn:E; [|destruct Hrun].
  destruct Hrun as [Hlen Hix%bool_decide_eq_true]. exists s, tr. split; [reflexivity|]. split; [exact Hlen|].
  exact (ledger_matches_state (K:=good_kernel) sample_interfaces s tr (boot_and_run_clean _ E) Hix).
Defined.

(** C2. In every reachable state, whatever the kernel answered and whichever
    commands failed: network identifiers are between 1 and 65535, the local
    network is registered under 99 and no other network is local, the default
    network is unset or a registered physical network, and no interface is in
    two networks. *)
Theorem reachable_networks {K : Kernel} {KL : KernelLaws K} s tr :
  reachable s tr ->
  (forall netId n, mNetworks s.1 !! netId = Some n ->
     0 < netId <= 65535 /\ getNetId n = netId /\ (netId = LOCAL_NET_ID <-> getType n = LOCAL)) /\
  (exists n, mNetworks s.1 !! LOCAL_NET_ID = Some (Local n)) /\
  (mDefaultNetId s.1 = NETID_UNSET \/ exists n, mNetworks s.1 !! mDefaultNetId s.1 = Some (Physical n)) /\
  (forall id1 id2 n1 n2 interface, mNetworks s.1 !! id1 = Some n1 -> mNetworks s.1 !! id2 = Some n2 ->
     interface ∈ getInterfaces n1 -> interface ∈ getInterfaces n2 -> id1 = id2).
Proof.
  intros H. destruct (reachable_ok s tr H) as [He Hl Hd Hdis _].
  split_and!; [|done..]. intros netId n Hn. by destruct (He _ _ Hn) as (Hid & Hv & _ & Hloc).
Qed.

(** The commands of [sample_commands] that the refusing kernel lets change the state. *)
Lemma reachable_networks_witness :
  let boot := Init (K:=bad_kernel) LOCAL_NET_ID ∅ [] in
  let run := createPhysicalNetwork (K:=bad_kernel) 100 PERMISSION_NONE (NC_init, boot.1.2) boot.2 in
  run.1.1 = 0 /\ is_Some (mNetworks run.1.2.1 !! 100) /\
  exists n, mNetworks run.1.2.1 !! LOCAL_NET_ID = Some (Local n).
Proof.
  split; [vm_compute; reflexivity|]. split; [vm_compute; eexists; reflexivity|].
  set (boot := Init (K:=bad_kernel) LOCAL_NET_ID ∅ []).
  destruct boot as [[ret0 r0] tr0] eqn:E0. cbn [fst snd].
  destruct (createPhysicalNetwork (K:=bad_kernel) 100 PERMISSION_NONE (NC_init, r0) tr0)
    as [[ret1 s1] tr1] eqn:E1. cbn [fst snd].
  apply (reachable_networks (K:=bad_kernel) s1 tr1).
  apply (reach_command (K:=bad_kernel) (CreatePhysicalNetwork 100 PERMISSION_NONE) ret1 (NC_init, r0) tr0).
  - apply (reach_boot (K:=bad_kernel) ret0). exact E0.
  - cbn. unfold valid_permission, PERMISSION_NONE. lia.
  - exact E1.
Defined.

(** C12. As long as commands succeed, and no UID range was to be removed that the
    network did not have ([clean]), exactly the network [mDefaultNetId] names
    is marked default, so at most one network has default rules. *)
Theorem one_default_network {K : Kernel} {KL : KernelLaws K} s tr :
  clean s tr ->
  forall netId n, mNetworks s.1 !! netId = Some (Physical n) ->
    (PhysicalNetwork.mIsDefault n = true <-> netId = mDefaultNetId s.1).
Proof. intros H. exact (clean_sync s tr H). Qed.

Lemma one_default_network_witness :
  exists s tr, boot_and_run (K:=good_kernel) sample_commands = Some (s, tr) /\
    mDefaultNetId s.1 = 100 /\
    forall netId n, mNetworks s.1 !! netId = Some (Physical n) ->
      (PhysicalNetwork.mIsDefault n = true <-> netId = mDefaultNetId s.1).
Proof.
  assert (match boot_and_run (K:=good_kernel) sample_commands with
          | Some (s, _) => mDefaultNetId s.1 = 100 | None => False end) as Hd by (vm_compute; reflexivity).
  destruct (boot_and_run (K:=good_kernel) sample_commands) as [[s tr]|] eqn:E; [|destruct Hd].
  exists s, tr. split; [reflexivity|]. split; [exact Hd|].
  exact (one_default_network (K:=good_kernel) s tr (boot_and_run_clean _ E)).
Defined.

(** C13. No rule outlives its network, under the conditions of
    [ledger_matches_state] - every command returned 0, no UID range was to be removed
    that the network did not have, no interface got another index: when no network
    that is left has an interface, the kernel holds the base rules and nothing else. *)
Theorem nothing_left_behind {K : Kernel} {KL : KernelLaws K} (ix : Interfaces) s tr :
  clean s tr -> Forall (index_kept ix) tr ->
  (forall netId n, mNetworks s.1 !! netId = Some n -> getInterfaces n = ∅) ->
  forall i, ledger tr i = cnt i (base_items LOCAL_NET_ID).
Proof.
  intros H Hix Hno i. rewrite (clean_ledger ix s tr H Hix).
  assert (forall l, (forall e, e ∈ l -> getInterfaces e.2 = ∅) ->
    cnt i (concat (map (fun e : Z * Network => network_items (fall_of (mNetworks s.1)) e.2) l)) = 0) as Hz.
  { intros l. induction l as [|e l IH]; intros Hl; [done|]. cbn. rewrite cnt_app, IH.
    - rewrite no_interface_items; [done|]. apply Hl. constructor.
    - intros e' He'. apply Hl. by constructor. }
  unfold nc_items, nets_items. rewrite Hz; [lia|].
  intros [netId n] Hin%elem_of_map_entries. by eapply Hno.
Qed.

(** Set up the sample networks and take everything down again. *)
Definition teardown_commands : list command :=
  sample_commands ++ [SetDefaultNetwork 0; DestroyNetwork 101; RemoveInterfaceFromNetwork 99 "usb0"; DestroyNetwork 100].

Lemma nothing_left_behind_witness :
  exists s tr, boot_and_run (K:=good_kernel) teardown_commands = Some (s, tr) /\
    length tr = 137%nat /\ forall i, ledger tr i = cnt i (base_items LOCAL_NET_ID).
Proof.
  assert (match boot_and_run (K:=good_kernel) teardown_commands with
          | Some (s, tr) => length tr = 137%nat /\ bool_decide (Forall (index_kept sample_interfaces) tr) = true /\
              map_to_list (mNetworks s.1) = [(99, Local (Base 99 ∅))]
          | None => False end) as Hd by (vm_compute; auto).
  destruct (boot_and_run (K:=good_kernel) teardown_commands) as [[s tr]|] eqn:E; [|destruct Hd].
  destruct Hd as (Hlen & Hix%bool_decide_eq_true & Hmap). exists s, tr. split; [reflexivity|]. split; [exact Hlen|].
  apply (nothing_left_behind (K:=good_kernel) sample_interfaces s tr).
  - apply (clean_boot_and_run (K:=good_kernel) teardown_commands); [|reflexivity|exact E].
    apply Forall_app_2; [apply sample_commands_wf|].
    repeat (apply Forall_cons_2 || apply Forall_nil_2); exact I.
  - exact Hix.
  - intros netId n Hn. apply elem_of_map_to_list in Hn. rewrite Hmap in Hn.
    apply list_elem_of_singleton in Hn. injection Hn as -> ->. reflexivity.
Defined.

(** An interface that is removed and created again under another index, between
    commands that all succeed, has rules in two tables. *)
Definition renumbering_kernel : Kernel := {|
  k_ifindex := fun tr name => if (Z.of_nat (length tr) <? 25) then sample_index name else sample_index name + 5;
  k_netlink := k_netlink (Kernel:=good_kernel); k_exec := k_exec (Kernel:=good_kernel);
  k_file := k_file (Kernel:=good_kernel); k_property := k_property (Kernel:=good_kernel);
  k_popen := k_popen (Kernel:=good_kernel); k_read := k_read (Kernel:=good_kernel); k_readdir := k_readdir (Kernel:=good_kernel);
  k_spawn := k_spawn (Kernel:=good_kernel); k_wait := k_wait (Kernel:=good_kernel); k_system := k_system (Kernel:=good_kernel);
  k_ifc := k_ifc (Kernel:=good_kernel); k_ifc_get_info := k_ifc_get_info (Kernel:=good_kernel);
  k_ifc_get_hwaddr := k_ifc_get_hwaddr (Kernel:=good_kernel); k_wifi := k_wifi (Kernel:=good_kernel);
  k_qsap_reply := k_qsap_reply (Kernel:=good_kernel); k_wifi_fw_path := k_wifi_fw_path (Kernel:=good_kernel);
  k_pbkdf2 := k_pbkdf2 (Kernel:=good_kernel); k_netmask := k_netmask (Kernel:=good_kernel); k_pipe := k_pipe (Kernel:=good_kernel);
  k_getaddrinfo := k_getaddrinfo (Kernel:=good_kernel); k_inet_pton := k_inet_pton (Kernel:=good_kernel);
  k_inet_aton := k_inet_aton (Kernel:=good_kernel)
|}.
Lemma recreated_interface : exists s tr,
  boot_and_run (K:=renumbering_kernel)
    [CreatePhysicalNetwork 100 PERMISSION_NONE; AddInterfaceToNetwork 100 "wlan0"; SetDefaultNetwork 100] = Some (s, tr) /\
  Forall (fun i => ledger tr i = 1) (explicit_items 100 1003 PERMISSION_NONE None) /\
  Forall (fun i => ledger tr i = 1) (default_items 1008 PERMISSION_NONE).
Proof.
  do 2 eexists. split; [vm_compute; reflexivity|].
  split; (apply (bool_decide_unpack _); vm_compute; exact I).
Qed.
