(* ===== verification/NetworkCommand.v ===== *)
(** * NetworkCommand: the text commands of the [network] family

    Models [CommandListener::NetworkCommand::runCommand] and the parsing
    helpers of [server/CommandListener.cpp].  [argv] is a list of C strings;
    reading it out of bounds is [None], and the first theorem is that this never
    happens.  A parsed command is one of the commands of [Daemon]. *)
From S2P Require Import Prelude Platform Cstd Fwmark UidRanges Netlink.
From S2P Require Import NetdConstants Ledger RouteController RouteSpec Networks NetworkSpec.
From S2P Require Import NetworkController ControllerSpec Daemon SampleKernel.

Definition NUM_OEM_IDS : Z := MAX_OEM_ID - MIN_OEM_ID + 1.

Definition stringToPermission (arg : string) : Z :=
  if String.eqb arg "NETWORK" then PERMISSION_NETWORK
  else if String.eqb arg "SYSTEM" then PERMISSION_SYSTEM
  else PERMISSION_NONE.

(** [arg + 3] of a string that starts with three given characters. *)
Fixpoint skip (n : nat) (s : string) : string :=
  match n, s with
  | S n, String _ s => skip n s
  | _, _ => s
  end.

(** [unsigned x = strtoul(s, NULL, 0)] *)
Definition parse_unsigned (s : string) : Z := u32 (strtoul s 0).1.

Definition stringToNetId (arg : string) : Z :=
  if String.eqb arg "local" then LOCAL_NET_ID
  else if String.prefix "oem" arg then
    let n := parse_unsigned (skip 3 arg) in
    if (1 <=? n) && (n <=? NUM_OEM_IDS) then MIN_OEM_ID + n else NETID_UNSET
  else parse_unsigned arg.

(** What a command line asks for: a syntax error, or one call of
    [NetworkController] with the message for its failure. *)
Inductive parsed :=
| SyntaxError (message : string)
| Call (c : Daemon.command) (failed : string).

Definition argc (argv : list string) : Z := Z.of_nat (length argv).

(** network route [legacy <uid>] add|remove <netId> <interface> <destination> [nexthop] *)
Definition parse_route (argv : list string) : option parsed :=
  if (argc argv <? 6) || (9 <? argc argv) then Some (SyntaxError "Incorrect number of arguments")
  else
    a2 ← argv !! 2%nat;
    r ← (if String.eqb a2 "legacy" then
           uid ← argv !! 3%nat; Some (4%nat, true, parse_unsigned uid)
         else Some (2%nat, false, 0));
    let '(nextArg, legacy, uid) := r in
    action ← argv !! nextArg;
    let add := String.eqb action "add" in
    if negb add && negb (String.eqb action "remove") then Some (SyntaxError "Unknown argument")
    else
      let nextArg := S nextArg in
      if (argc argv <? Z.of_nat nextArg + 3) || (Z.of_nat nextArg + 4 <? argc argv)
      then Some (SyntaxError "Incorrect number of arguments")
      else
        netId ← argv !! nextArg;
        interface ← argv !! (nextArg + 1)%nat;
        destination ← argv !! (nextArg + 2)%nat;
        nexthop ← (if Z.of_nat (nextArg + 3) <? argc argv
                   then hop ← argv !! (nextArg + 3)%nat; Some (Some hop)
                   else Some None);
        Some (Call (ModifyRoute (stringToNetId netId) interface (Some destination) nexthop add legacy uid)
                (if add then "addRoute() failed" else "removeRoute() failed")).

(** network interface add|remove <netId> <interface> *)
Definition parse_interface (argv : list string) : option parsed :=
  if negb (argc argv =? 5) then Some (SyntaxError "Missing argument")
  else
    a2 ← argv !! 2%nat; a3 ← argv !! 3%nat; a4 ← argv !! 4%nat;
    let netId := stringToNetId a3 in
    if String.eqb a2 "add" then
      Some (Call (AddInterfaceToNetwork netId a4) "addInterfaceToNetwork() failed")
    else if String.eqb a2 "remove" then
      Some (Call (RemoveInterfaceFromNetwork netId a4) "removeInterfaceFromNetwork() failed")
    else Some (SyntaxError "Unknown argument").

(** network create <netId> [permission]
    network create <netId> vpn <hasDns> <secure> *)
Definition parse_create (argv : list string) : option parsed :=
  if argc argv <? 3 then Some (SyntaxError "Missing argument")
  else
    a2 ← argv !! 2%nat;
    let netId := stringToNetId a2 in
    vpn ← (if argc argv =? 6 then a3 ← argv !! 3%nat; Some (String.eqb a3 "vpn") else Some false);
    if vpn : bool then
      a4 ← argv !! 4%nat; a5 ← argv !! 5%nat;
      Some (Call (CreateVirtualNetwork netId (negb (atoi a4 =? 0)) (negb (atoi a5 =? 0)))
              "createVirtualNetwork() failed")
    else if 4 <? argc argv then Some (SyntaxError "Unknown trailing argument(s)")
    else if argc argv =? 4 then
      a3 ← argv !! 3%nat;
      let permission := stringToPermission a3 in
      if permission =? PERMISSION_NONE then Some (SyntaxError "Unknown permission")
      else Some (Call (CreatePhysicalNetwork netId permission) "createPhysicalNetwork() failed")
    else Some (Call (CreatePhysicalNetwork netId PERMISSION_NONE) "createPhysicalNetwork() failed").

(** network destroy <netId> *)
Definition parse_destroy (argv : list string) : option parsed :=
  if negb (argc argv =? 3) then Some (SyntaxError "Incorrect number of arguments")
  else a2 ← argv !! 2%nat; Some (Call (DestroyNetwork (stringToNetId a2)) "destroyNetwork() failed").

(** network default set <netId> | network default clear *)
Definition parse_default (argv : list string) : option parsed :=
  if argc argv <? 3 then Some (SyntaxError "Missing argument")
  else
    a2 ← argv !! 2%nat;
    if String.eqb a2 "set" then
      if argc argv <? 4 then Some (SyntaxError "Missing netId")
      else a3 ← argv !! 3%nat;
           Some (Call (SetDefaultNetwork (stringToNetId a3)) "setDefaultNetwork() failed")
    else if negb (String.eqb a2 "clear") then Some (SyntaxError "Unknown argument")
    else Some (Call (SetDefaultNetwork NETID_UNSET) "setDefaultNetwork() failed").

(** The loop over the ids; [None] for an invalid one. *)
Fixpoint parse_ids (argv : list string) : option (list Z) :=
  match argv with
  | [] => Some []
  | arg :: argv =>
      let '(id, endPtr) := strtoul arg 0 in
      if String.eqb arg "" || negb (String.eqb endPtr "") then None
      else ids ← parse_ids argv; Some (u32 id :: ids)
  end.

(** network permission user|network set <permission> <id> ...
    network permission user|network clear <id> ... *)
Definition parse_permission (argv : list string) : option parsed :=
  if argc argv <? 5 then Some (SyntaxError "Missing argument")
  else
    a2 ← argv !! 2%nat; a3 ← argv !! 3%nat; a4 ← argv !! 4%nat;
    let set := String.eqb a3 "set" in
    let permission := if set then stringToPermission a4 else PERMISSION_NONE in
    let nextArg := if set then 5%nat else 4%nat in
    if set && (permission =? PERMISSION_NONE) then Some (SyntaxError "Unknown permission")
    else if negb set && negb (String.eqb a3 "clear") then Some (SyntaxError "Unknown argument")
    else if Z.of_nat nextArg =? argc argv then Some (SyntaxError "Missing id")
    else
      match parse_ids (drop nextArg argv) with
      | None => Some (SyntaxError "Invalid id")
      | Some ids =>
          if String.eqb a2 "user" then Some (Call (SetPermissionForUsers permission ids) "")
          else if String.eqb a2 "network" then
            Some (Call (SetPermissionForNetworks permission ids) "setPermissionForNetworks() failed")
          else Some (SyntaxError "Unknown argument")
      end.

(** network users add|remove <netId> [<uid>[-<uid>]] ... *)
Definition parse_users (argv : list string) : option parsed :=
  if argc argv <? 4 then Some (SyntaxError "Missing argument")
  else
    a2 ← argv !! 2%nat; a3 ← argv !! 3%nat;
    let netId := stringToNetId a3 in
    match UidRanges.parseFrom (drop 4 argv) with
    | (false, _) => Some (SyntaxError "Invalid UIDs")
    | (true, uidRanges) =>
        if String.eqb a2 "add" then
          Some (Call (AddUsersToNetwork netId uidRanges) "addUsersToNetwork() failed")
        else if String.eqb a2 "remove" then
          Some (Call (RemoveUsersFromNetwork netId uidRanges) "removeUsersFromNetwork() failed")
        else Some (SyntaxError "Unknown argument")
    end.

(** network protect allow|deny <uid> ... *)
Definition parse_protect (argv : list string) : option parsed :=
  if argc argv <? 4 then Some (SyntaxError "Missing argument")
  else
    a2 ← argv !! 2%nat;
    let uids := map parse_unsigned (drop 3 argv) in
    if String.eqb a2 "allow" then Some (Call (AllowProtect uids) "")
    else if String.eqb a2 "deny" then Some (Call (DenyProtect uids) "")
    else Some (SyntaxError "Unknown argument").

Definition parse_command (argv : list string) : option parsed :=
  if argc argv <? 2 then Some (SyntaxError "Missing argument")
  else
    a1 ← argv !! 1%nat;
    if String.eqb a1 "route" then parse_route argv
    else if String.eqb a1 "interface" then parse_interface argv
    else if String.eqb a1 "create" then parse_create argv
    else if String.eqb a1 "destroy" then parse_destroy argv
    else if String.eqb a1 "default" then parse_default argv
    else if String.eqb a1 "permission" then parse_permission argv
    else if String.eqb a1 "users" then parse_users argv
    else if String.eqb a1 "protect" then parse_protect argv
    else Some (SyntaxError "Unknown argument").

(** [ResponseCode.h] *)
Definition CommandOkay : Z := 200.
Definition OperationFailed : Z := 400.
Definition CommandSyntaxError : Z := 500.

(** [sendMsg(code, msg, addErrno)]: the errno of a failed operation is added. *)
Record response := Response { rsp_code : Z; rsp_msg : string; rsp_errno : option Z }.

Definition syntaxError (message : string) : response := Response CommandSyntaxError message None.
Definition operationError (message : string) (ret : Z) : response :=
  Response OperationFailed message (Some (- ret)).
Definition success : response := Response CommandOkay "success" None.

(** [None] when [argv] was read out of bounds. *)
Definition runCommand `{K : Kernel} (argv : list string) : M NCState (option response) :=
  match parse_command argv with
  | None => mret None
  | Some (SyntaxError message) => mret (Some (syntaxError message))
  | Some (Call c failed) =>
      ret ← run_command c;
      mret (Some (if negb (ret =? 0) then operationError failed ret else success))
  end.

(** ** Lemmas *)

Lemma lookup_in_bounds (argv : list string) n :
  Z.of_nat n < argc argv -> exists a, argv !! n = Some a.
Proof. unfold argc. intros. apply lookup_lt_is_Some. lia. Qed.

(** Read an argument whose index is below [argc]. *)
Ltac read_at n l :=
  let a := fresh "a" in let H := fresh "Ha" in
  destruct (lookup_in_bounds l n) as [a H]; [lia|rewrite H; cbn [mbind option_bind]].
Ltac read_arg :=
  match goal with
  | |- is_Some (lookup ?n ?l ≫= _) => read_at n l
  | |- is_Some ((lookup ?n ?l ≫= _) ≫= _) => read_at n l
  end.
Ltac parse_steps :=
  repeat (bool_to_prop;
    match goal with
    | |- is_Some (Some _) => by eexists
    | |- is_Some (if ?b then _ else _) => destruct b eqn:?
    | |- is_Some (lookup _ _ ≫= _) => read_arg
    | |- is_Some (match ?x with _ => _ end) => destruct x eqn:?
    end; cbv zeta).

Lemma parse_route_total argv : is_Some (parse_route argv).
Proof.
  unfold parse_route. destruct (_ || _) eqn:E; [by eexists|]. bool_to_prop. read_arg.
  destruct (String.eqb a "legacy").
  - read_arg. cbv zeta. read_arg. cbv zeta. destruct (_ && _); [by eexists|].
    destruct (_ || _) eqn:E2; [by eexists|]. bool_to_prop. read_arg. read_arg. read_arg.
    destruct (_ <? _) eqn:E3; cbn [mbind option_bind]; [|by eexists]. bool_to_prop. read_arg. by eexists.
  - cbn [mbind option_bind]. cbv zeta. read_arg. cbv zeta. destruct (_ && _); [by eexists|].
    destruct (_ || _) eqn:E2; [by eexists|]. bool_to_prop. read_arg. read_arg. read_arg.
    destruct (_ <? _) eqn:E3; cbn [mbind option_bind]; [|by eexists]. bool_to_prop. read_arg. by eexists.
Qed.

Lemma parse_create_total argv : is_Some (parse_create argv).
Proof.
  unfold parse_create. destruct (argc argv <? 3) eqn:E; [by eexists|]. bool_to_prop. read_arg. cbv zeta.
  destruct (argc argv =? 6) eqn:E6.
  - bool_to_prop. read_arg. destruct (String.eqb a0 "vpn"); cbv iota; [read_arg; read_arg; by eexists|].
    rewrite (proj2 (Z.ltb_lt 4 (argc argv))) by lia. by eexists.
  - cbn [mbind option_bind]. destruct (4 <? argc argv); [by eexists|].
    destruct (argc argv =? 4) eqn:E4; [|by eexists]. bool_to_prop. read_arg. cbv zeta.
    destruct (_ =? _); by eexists.
Qed.

Lemma parse_total argv : is_Some (parse_command argv).
Proof.
  unfold parse_command. destruct (argc argv <? 2) eqn:E; [by eexists|]. bool_to_prop. read_arg.
  destruct (String.eqb a "route"); [apply parse_route_total|].
  destruct (String.eqb a "interface"); [unfold parse_interface; parse_steps|].
  destruct (String.eqb a "create"); [apply parse_create_total|].
  destruct (String.eqb a "destroy"); [unfold parse_destroy; parse_steps|].
  destruct (String.eqb a "default"); [unfold parse_default; parse_steps|].
  destruct (String.eqb a "permission"); [unfold parse_permission; parse_steps|].
  destruct (String.eqb a "users"); [unfold parse_users; parse_steps|].
  destruct (String.eqb a "protect"); [unfold parse_protect; parse_steps|]. by eexists.
Qed.

Lemma stringToPermission_valid arg : valid_permission (stringToPermission arg).
Proof.
  unfold stringToPermission. destruct (String.eqb arg "NETWORK"); [|destruct (String.eqb arg "SYSTEM")];
    [|apply system_valid|apply none_valid]. unfold valid_permission, PERMISSION_NETWORK. lia.
Qed.

Lemma parseFrom_ranges_ok argv l : UidRanges.parseFrom argv = (true, l) -> ranges_ok l.
Proof.
  intros H. destruct (UidRanges.parseFrom_sorted argv l H) as [Hs Hv]. split; [done|].
  eapply Forall_impl; [exact Hv|]. intros [us ue] [[? ?] ?]. cbn in *. lia.
Qed.

(** Follow the parser to the call it makes. *)
Ltac follow_parser :=
  repeat match goal with
  | |- Some _ = Some _ -> _ => intros [= <- _]
  | |- Some (SyntaxError _) = Some (Call _ _) -> _ => done
  | |- None = Some _ -> _ => done
  | |- (lookup ?n ?l ≫= _) = _ -> _ => destruct (lookup n l) as [?|] eqn:?; cbn [mbind option_bind]; cbv zeta
  | |- (if ?b then _ else _) = _ -> _ => destruct b eqn:?
  | |- (let '(_, _) := ?x in _) = _ -> _ => destruct x eqn:?
  | |- match ?x with _ => _ end = _ -> _ => destruct x eqn:?
  | |- ((if ?b then _ else _) ≫= _) = _ -> _ => destruct b eqn:?; cbn [mbind option_bind]
  | |- ((lookup ?n ?l ≫= _) ≫= _) = _ -> _ =>
      destruct (lookup n l) as [?|] eqn:?; cbn [mbind option_bind]; cbv zeta
  end.

Lemma parse_wf argv c failed :
  Forall no_nul argv -> parse_command argv = Some (Call c failed) -> wf_command c.
Proof.
  intros Hnul. rewrite Forall_lookup in Hnul. unfold parse_command.
  destruct (argc argv <? 2); [done|]. destruct (argv !! 1%nat) as [a1|]; [|done]. cbn [mbind option_bind].
  repeat match goal with |- (if ?b then _ else _) = _ -> _ => destruct b end.
  - unfold parse_route. by follow_parser.
  - unfold parse_interface. follow_parser; cbn; [by eapply Hnul|done].
  - unfold parse_create. follow_parser; cbn; try done.
    all: try apply stringToPermission_valid; apply none_valid.
  - unfold parse_destroy. by follow_parser.
  - unfold parse_default. by follow_parser.
  - unfold parse_permission. follow_parser; cbn; case_match; try apply stringToPermission_valid; apply none_valid.
  - unfold parse_users. follow_parser; cbn; try done; by eapply parseFrom_ranges_ok.
  - unfold parse_protect. by follow_parser.
  - done.
Qed.

(** ** Printing a command *)

Definition print_permission (permission : Z) : string :=
  if permission =? PERMISSION_NETWORK then "NETWORK" else "SYSTEM".
Definition print_bool (b : bool) : string := if b then "1" else "0".
Definition set_or_clear (permission : Z) : list string :=
  if permission =? PERMISSION_NONE then ["clear"] else ["set"; print_permission permission].

Definition print_command (c : Daemon.command) : list string :=
  "network" ::
  match c with
  | CreatePhysicalNetwork netId permission =>
      "create" :: print_u netId ::
      (if permission =? PERMISSION_NONE then [] else [print_permission permission])
  | CreateVirtualNetwork netId hasDns secure =>
      ["create"; print_u netId; "vpn"; print_bool hasDns; print_bool secure]
  | DestroyNetwork netId => ["destroy"; print_u netId]
  | SetDefaultNetwork netId =>
      if netId =? NETID_UNSET then ["default"; "clear"] else ["default"; "set"; print_u netId]
  | AddInterfaceToNetwork netId interface => ["interface"; "add"; print_u netId; interface]
  | RemoveInterfaceFromNetwork netId interface => ["interface"; "remove"; print_u netId; interface]
  | AddUsersToNetwork netId ranges =>
      "users" :: "add" :: print_u netId :: map UidRanges.print_range ranges
  | RemoveUsersFromNetwork netId ranges =>
      "users" :: "remove" :: print_u netId :: map UidRanges.print_range ranges
  | SetPermissionForUsers permission uids =>
      "permission" :: "user" :: set_or_clear permission ++ map print_u uids
  | SetPermissionForNetworks permission netIds =>
      "permission" :: "network" :: set_or_clear permission ++ map print_u netIds
  | AllowProtect uids => "protect" :: "allow" :: map print_u uids
  | DenyProtect uids => "protect" :: "deny" :: map print_u uids
  | ModifyRoute netId interface destination nexthop add legacy uid =>
      "route" :: (if legacy then ["legacy"; print_u uid] else []) ++
      (if add then "add" else "remove") :: print_u netId :: interface ::
      option_list destination ++ option_list nexthop
  end.

(** The commands that have a text form. *)
Definition id_ok (n : Z) : Prop := 0 <= n < 2 ^ 32.
Definition enum_permission (p : Z) : Prop :=
  p = PERMISSION_NONE \/ p = PERMISSION_NETWORK \/ p = PERMISSION_SYSTEM.

Definition printable (c : Daemon.command) : Prop :=
  match c with
  | CreatePhysicalNetwork netId permission => id_ok netId /\ enum_permission permission
  | CreateVirtualNetwork netId _ _ | DestroyNetwork netId | SetDefaultNetwork netId
  | AddInterfaceToNetwork netId _ | RemoveInterfaceFromNetwork netId _ => id_ok netId
  | AddUsersToNetwork netId ranges | RemoveUsersFromNetwork netId ranges =>
      id_ok netId /\ UidRanges.sorted_ranges ranges /\ Forall UidRanges.valid_range ranges
  | SetPermissionForUsers permission ids | SetPermissionForNetworks permission ids =>
      enum_permission permission /\ ids <> [] /\ Forall id_ok ids
  | AllowProtect ids | DenyProtect ids => ids <> [] /\ Forall id_ok ids
  | ModifyRoute netId _ destination _ _ legacy uid =>
      id_ok netId /\ is_Some destination /\ (if legacy then id_ok uid else uid = 0)
  end.

Lemma parse_print_unsigned n : id_ok n -> parse_unsigned (print_u n) = n.
Proof.
  unfold id_ok. intros. unfold parse_unsigned, print_u.
  rewrite strtoul_print_u by (done || lia || by left). by apply u32_small.
Qed.

(** A numeral starts with a digit. *)
Lemma print_u_digit n :
  id_ok n -> exists d s, print_u n = String (digit_char d) s /\ 0 <= d < 10.
Proof.
  unfold id_ok. intros. unfold print_u.
  destruct (print_digits_nonempty 64 10 n "") as (d & s & -> & Hd & _); [lia..|]. by exists d, s.
Qed.

Lemma stringToNetId_print n : id_ok n -> stringToNetId (print_u n) = n.
Proof.
  intros Hn. destruct (print_u_digit n Hn) as (d & s & Hp & Hd).
  pose proof (parse_print_unsigned n Hn) as Hr. rewrite Hp in Hr |- *. rewrite <-Hr.
  assert (d = 0 \/ d = 1 \/ d = 2 \/ d = 3 \/ d = 4 \/ d = 5 \/ d = 6 \/ d = 7 \/ d = 8 \/ d = 9) as Hcase by lia.
  destruct Hcase as [H|[H|[H|[H|[H|[H|[H|[H|[H|H]]]]]]]]]; subst d; reflexivity.
Qed.

Lemma parse_ids_print ids : Forall id_ok ids -> parse_ids (map print_u ids) = Some ids.
Proof.
  induction 1 as [|n ids Hn _ IH]; [done|]. cbn [map parse_ids].
  unfold print_u at 1. unfold id_ok in Hn.
  rewrite strtoul_print_u by (done || lia || by left).
  destruct (print_u_digit n Hn) as (d & s & Hp & _). rewrite Hp. cbn [String.eqb orb negb].
  rewrite IH. cbn. by rewrite u32_small.
Qed.

Lemma map_parse_print ids : Forall id_ok ids -> map parse_unsigned (map print_u ids) = ids.
Proof.
  induction 1 as [|n ids Hn _ IH]; [done|]. cbn [map]. by rewrite IH, parse_print_unsigned.
Qed.

Lemma print_bool_parse b : negb (atoi (print_bool b) =? 0) = b.
Proof. by destruct b. Qed.

Lemma print_permission_parse p :
  p = PERMISSION_NETWORK \/ p = PERMISSION_SYSTEM -> stringToPermission (print_permission p) = p.
Proof. by intros [-> | ->]. Qed.

Lemma argc_cons a argv : argc (a :: argv) = 1 + argc argv.
Proof. unfold argc. cbn. lia. Qed.
Lemma argc_nil : argc [] = 0.
Proof. done. Qed.
Lemma argc_nonneg argv : 0 <= argc argv.
Proof. unfold argc. lia. Qed.
Lemma argc_map {A} (f : A -> string) l : argc (map f l) = Z.of_nat (length l).
Proof. unfold argc. by rewrite length_map. Qed.

Lemma parse_permission_print word permission ids k :
  (word = "user" /\ k = SetPermissionForUsers \/ word = "network" /\ k = SetPermissionForNetworks) ->
  enum_permission permission -> ids <> [] -> Forall id_ok ids ->
  exists failed, parse_permission ("network" :: "permission" :: word :: set_or_clear permission ++ map print_u ids) =
    Some (Call (k permission ids) failed).
Proof.
  intros Hk Hp Hne Hids.
  assert (exists n : nat, length ids = S n) as [n Hlen] by (destruct ids; [done|by eexists]).
  pose proof (parse_ids_print ids Hids) as Hparse.
  unfold parse_permission, set_or_clear.
  destruct (permission =? PERMISSION_NONE) eqn:E; bool_to_prop.
  - cbn [app]. rewrite !argc_cons, argc_map, Hlen.
    rewrite (proj2 (Z.ltb_ge _ 5)) by lia.
    destruct ids as [|i ids]; [done|]. cbn [map lookup list_lookup mbind option_bind].
    cbn [String.eqb Ascii.eqb Bool.eqb andb negb]. cbv zeta iota. cbn [andb negb].
    rewrite (proj2 (Z.eqb_neq _ _)) by lia.
    change (drop 4 _) with (map print_u (i :: ids)). rewrite Hparse.
    subst permission. destruct Hk as [[-> ->]|[-> ->]]; cbn [String.eqb Ascii.eqb Bool.eqb andb]; eauto.
  - assert (permission = PERMISSION_NETWORK \/ permission = PERMISSION_SYSTEM) as Hp'
      by (destruct Hp as [?|?]; [done|done]).
    cbn [app]. rewrite !argc_cons, argc_map, Hlen.
    rewrite (proj2 (Z.ltb_ge _ 5)) by lia.
    cbn [map lookup list_lookup mbind option_bind].
    cbn [String.eqb Ascii.eqb Bool.eqb andb negb]. cbv zeta iota.
    rewrite print_permission_parse by done. rewrite (proj2 (Z.eqb_neq _ _) E). cbn [andb negb].
    rewrite (proj2 (Z.eqb_neq _ _)) by lia.
    change (drop 5 _) with (map print_u ids). rewrite Hparse.
    destruct Hk as [[-> ->]|[-> ->]]; cbn [String.eqb Ascii.eqb Bool.eqb andb]; eauto.
Qed.

(** Unfold one command word of the parser. *)
Ltac parse_word :=
  cbn [parse_command lookup list_lookup mbind option_bind];
  cbn [String.eqb Ascii.eqb Bool.eqb andb negb];
  cbv zeta iota; cbn [andb orb negb].

Lemma parse_command_word word argv p :
  word ∈ ["route"; "interface"; "create"; "destroy"; "default"; "permission"; "users"; "protect"] ->
  (match word with
   | "route" => parse_route | "interface" => parse_interface | "create" => parse_create
   | "destroy" => parse_destroy | "default" => parse_default | "permission" => parse_permission
   | "users" => parse_users | _ => parse_protect
   end) ("network" :: word :: argv) = p ->
  parse_command ("network" :: word :: argv) = p.
Proof.
  intros Hw <-. unfold parse_command. rewrite !argc_cons. pose proof (argc_nonneg argv).
  rewrite (proj2 (Z.ltb_ge _ 2)) by lia.
  repeat (apply elem_of_cons in Hw as [->|Hw]; [reflexivity|]). by apply elem_of_nil in Hw.
Qed.

Lemma parse_print_users netId ranges add :
  id_ok netId -> UidRanges.sorted_ranges ranges -> Forall UidRanges.valid_range ranges ->
  exists failed, parse_users ("network" :: "users" :: (if add : bool then "add" else "remove") :: print_u netId ::
      map UidRanges.print_range ranges) =
    Some (Call ((if add then AddUsersToNetwork else RemoveUsersFromNetwork) netId ranges) failed).
Proof.
  intros Hid Hs Hv. unfold parse_users. rewrite !argc_cons.
  pose proof (argc_nonneg (map UidRanges.print_range ranges)).
  rewrite (proj2 (Z.ltb_ge _ 4)) by lia.
  cbn [lookup list_lookup mbind option_bind]. rewrite stringToNetId_print by done.
  change (drop 4 _) with (map UidRanges.print_range ranges).
  rewrite UidRanges.parseFrom_print_ranges by done. destruct add; by eexists.
Qed.

Lemma parse_print_protect ids allow :
  ids <> [] -> Forall id_ok ids ->
  exists failed, parse_protect ("network" :: "protect" :: (if allow : bool then "allow" else "deny") ::
      map print_u ids) = Some (Call ((if allow then AllowProtect else DenyProtect) ids) failed).
Proof.
  intros Hne Hids. unfold parse_protect. rewrite !argc_cons, argc_map.
  assert (length ids <> 0%nat) by (by destruct ids).
  rewrite (proj2 (Z.ltb_ge _ 4)) by lia. cbn [lookup list_lookup mbind option_bind].
  change (drop 3 _) with (map print_u ids). rewrite map_parse_print by done.
  destruct allow; by eexists.
Qed.

Lemma parse_print_route netId interface destination nexthop add legacy uid :
  id_ok netId -> (if legacy : bool then id_ok uid else uid = 0) ->
  exists failed, parse_route ("network" :: "route" :: (if legacy then ["legacy"; print_u uid] else []) ++
      (if add : bool then "add" else "remove") :: print_u netId :: interface :: destination :: option_list nexthop) =
    Some (Call (ModifyRoute netId interface (Some destination) nexthop add legacy uid) failed).
Proof.
  intros Hid Huid. unfold parse_route.
  assert (0 <= argc (option_list nexthop) <= 1) as Hh by (destruct nexthop; unfold argc; cbn; lia).
  destruct legacy.
  - cbn [app]. rewrite !argc_cons.
    rewrite (proj2 (Z.ltb_ge _ 6)), (proj2 (Z.ltb_ge 9 _)) by lia. cbn [orb].
    change (_ !! 2%nat) with (Some "legacy"). cbn [mbind option_bind].
    change (_ !! 3%nat) with (Some (print_u uid)). cbn [mbind option_bind].
    rewrite (proj2 (String.eqb_eq _ _) eq_refl). rewrite parse_print_unsigned by done.
    destruct add; destruct nexthop as [hop|]; cbn -[stringToNetId print_u argc];
      change (argc (option_list _)) with 0 || change (argc (option_list _)) with 1; cbn;
      rewrite stringToNetId_print by done; by eexists.
  - cbn [app]. subst uid. rewrite !argc_cons.
    rewrite (proj2 (Z.ltb_ge _ 6)), (proj2 (Z.ltb_ge 9 _)) by lia. cbn [orb].
    destruct add; destruct nexthop as [hop|]; cbn -[stringToNetId print_u];
      rewrite stringToNetId_print by done; by eexists.
Qed.

(** ** Properties *)

(** Whatever the arguments, the parser never reads [argv] out of bounds. *)
Theorem parse_in_bounds argv : exists p, parse_command argv = Some p.
Proof. apply parse_total. Qed.

(** [parse_command_word] for the words that are handled with a list of arguments. *)
Lemma parse_command_word_ex word argv c :
  word ∈ ["route"; "interface"; "create"; "destroy"; "default"; "permission"; "users"; "protect"] ->
  (exists failed, (match word with
   | "route" => parse_route | "interface" => parse_interface | "create" => parse_create
   | "destroy" => parse_destroy | "default" => parse_default | "permission" => parse_permission
   | "users" => parse_users | _ => parse_protect
   end) ("network" :: word :: argv) = Some (Call c failed)) ->
  exists failed, parse_command ("network" :: word :: argv) = Some (Call c failed).
Proof. intros Hw [failed H]. exists failed. by apply parse_command_word. Qed.

(** C37. Every command has a text form the parser reads back as that command. *)
Theorem parse_print_command c :
  printable c -> exists failed, parse_command (print_command c) = Some (Call c failed).
Proof.
  intros Hp. destruct c as [netId p|netId d s|netId|netId|netId i|netId i|netId l|netId l|p ids|p ids|ids|ids|
    netId i dst hop add legacy uid]; cbn [print_command].
  - destruct Hp as [Hid Hp]. eexists. apply parse_command_word; [set_solver|].
    unfold parse_create. destruct (p =? PERMISSION_NONE) eqn:E; bool_to_prop; cbn -[stringToNetId print_u];
      rewrite stringToNetId_print by done; [by subst|].
    rewrite print_permission_parse by (destruct Hp as [?|?]; done).
    by rewrite (proj2 (Z.eqb_neq p PERMISSION_NONE) E).
  - eexists. apply parse_command_word; [set_solver|].
    unfold parse_create, parse_destroy, parse_interface; cbn -[stringToNetId print_u atoi print_bool].
    by rewrite stringToNetId_print, !print_bool_parse by exact Hp.
  - eexists. apply parse_command_word; [set_solver|].
    unfold parse_create, parse_destroy, parse_interface; cbn -[stringToNetId print_u].
    by rewrite stringToNetId_print by exact Hp.
  - unfold print_command. destruct (netId =? NETID_UNSET) eqn:E; bool_to_prop; eexists; (apply parse_command_word; [set_solver|]);
      unfold parse_default; cbn -[stringToNetId print_u];
      [by subst|by rewrite stringToNetId_print by exact Hp].
  - eexists. apply parse_command_word; [set_solver|].
    unfold parse_create, parse_destroy, parse_interface; cbn -[stringToNetId print_u].
    by rewrite stringToNetId_print by exact Hp.
  - eexists. apply parse_command_word; [set_solver|].
    unfold parse_create, parse_destroy, parse_interface; cbn -[stringToNetId print_u].
    by rewrite stringToNetId_print by exact Hp.
  - destruct Hp as (Hid & Hs & Hv). apply parse_command_word_ex; [set_solver|].
    exact (parse_print_users netId l true Hid Hs Hv).
  - destruct Hp as (Hid & Hs & Hv). apply parse_command_word_ex; [set_solver|].
    exact (parse_print_users netId l false Hid Hs Hv).
  - destruct Hp as (Hp & Hne & Hids). apply parse_command_word_ex; [set_solver|].
    apply (parse_permission_print "user" p ids SetPermissionForUsers); [by left|done..].
  - destruct Hp as (Hp & Hne & Hids). apply parse_command_word_ex; [set_solver|].
    apply (parse_permission_print "network" p ids SetPermissionForNetworks); [by right|done..].
  - destruct Hp as (Hne & Hids). apply parse_command_word_ex; [set_solver|].
    exact (parse_print_protect ids true Hne Hids).
  - destruct Hp as (Hne & Hids). apply parse_command_word_ex; [set_solver|].
    exact (parse_print_protect ids false Hne Hids).
  - destruct Hp as (Hid & [destination ->] & Huid). apply parse_command_word_ex; [set_solver|].
    exact (parse_print_route netId i destination hop add legacy uid Hid Huid).
Qed.

Lemma parse_print_command_witness :
  print_command (AddUsersToNetwork 101 [(10000, 10100)]) = ["network"; "users"; "add"; "101"; "10000-10100"] /\
  exists failed, parse_command (print_command (AddUsersToNetwork 101 [(10000, 10100)])) =
    Some (Call (AddUsersToNetwork 101 [(10000, 10100)]) failed).
Proof.
  split; [vm_compute; reflexivity|].
  apply (parse_print_command (AddUsersToNetwork 101 [(10000, 10100)])).
  split; [unfold id_ok; lia|]. split.
  - repeat constructor.
  - unfold UidRanges.valid_range, INVALID_UID. repeat (apply Forall_cons_2 || apply Forall_nil_2); cbn; lia.
Defined.

(** C23. A text command takes the daemon from a reachable state to a reachable
    state, always answers, and the answer is 200 exactly when the command was
    accepted by the parser and returned 0. *)
Theorem runCommand_reachable {K : Kernel} argv s tr rsp s' tr' :
  reachable s tr -> Forall no_nul argv -> runCommand argv s tr = (rsp, s', tr') ->
  reachable s' tr' /\
  exists r, rsp = Some r /\ rsp_code r ∈ [CommandOkay; OperationFailed; CommandSyntaxError] /\
  (rsp_code r = CommandOkay <->
     exists c failed, parse_command argv = Some (Call c failed) /\ (run_command c s tr).1.1 = 0).
Proof.
  intros Hreach Hnul. unfold runCommand. destruct (parse_total argv) as [p Hp]. rewrite Hp.
  destruct p as [message|c failed].
  - intros [= <- <- <-]. split; [done|]. eexists. split; [done|]. split; [set_solver|].
    split; [done|]. by intros (c & failed & ? & _).
  - unfold mbind, M_bind. destruct (run_command c s tr) as [[ret s1] tr1] eqn:E.
    intros [= <- <- <-]. split; [eapply reach_command; [done|by eapply parse_wf|done]|].
    eexists. split; [done|].
    destruct (ret =? 0) eqn:E0; cbn [negb]; (split; [set_solver|]).
    + split; [|done]. intros _. exists c, failed. split; [done|]. rewrite E. cbn. lia.
    + split; [done|]. intros (c' & f' & [= <- <-] & Hr). rewrite E in Hr. cbn in Hr. lia.
Qed.

Lemma runCommand_reachable_witness :
  let boot := Init (K:=good_kernel) LOCAL_NET_ID ∅ [] in
  let run := runCommand (K:=good_kernel) ["network"; "create"; "100"; "SYSTEM"] (NC_init, boot.1.2) boot.2 in
  run.1.1 = Some success /\ reachable (K:=good_kernel) run.1.2 run.2.
Proof.
  split; [vm_compute; reflexivity|].
  set (boot := Init (K:=good_kernel) LOCAL_NET_ID ∅ []). destruct boot as [[ret0 r0] tr0] eqn:E0. cbn [fst snd].
  destruct (runCommand (K:=good_kernel) ["network"; "create"; "100"; "SYSTEM"] (NC_init, r0) tr0)
    as [[rsp s1] tr1] eqn:E1. cbn [fst snd].
  apply (runCommand_reachable (K:=good_kernel) ["network"; "create"; "100"; "SYSTEM"] (NC_init, r0) tr0 rsp s1 tr1).
  - apply (reach_boot (K:=good_kernel) ret0). exact E0.
  - unfold no_nul. repeat (apply Forall_cons_2 || apply Forall_nil_2); discriminate.
  - exact E1.
Defined.

(** The OEM identifiers are shifted by one: "oem1" names network 2, no
    "oem" word names network 1, and "oem50" names 51, which is outside the range
    [createPhysicalNetwork] accepts. *)
Theorem oem_ids_shifted :
  stringToNetId "oem1" = 2 /\ stringToNetId "oem50" = 51 /\ MAX_OEM_ID < stringToNetId "oem50" /\
  stringToNetId "oem0" = NETID_UNSET /\ stringToNetId "oem51" = NETID_UNSET /\
  forall K s tr, (@createPhysicalNetwork K (stringToNetId "oem50") PERMISSION_NONE s tr).1.1 = - EINVAL.
Proof. split_and!; try by vm_compute. Qed.
