(* ===== verification/Access.v ===== *)
(** * Access: which network a user gets

    Properties of the methods of [NetworkController] that other components ask
    before they mark a socket: the VPN that applies to a user, access checks,
    the network for DNS and for connect. *)
From S2P Require Import Prelude Platform Cstd Fwmark UidRanges NetdConstants.
From S2P Require Import RouteController RouteSpec Networks NetworkSpec NetworkController ControllerSpec.
From S2P Require Import Daemon SampleKernel.

Lemma first_virtual_Some entries uid v :
  first_virtual entries uid = Some v ->
  exists i netId, entries !! i = Some (netId, Virtual v) /\ VirtualNetwork.appliesToUser v uid = true /\
    forall j id w, (j < i)%nat -> entries !! j = Some (id, Virtual w) ->
      VirtualNetwork.appliesToUser w uid = false.
Proof.
  induction entries as [|[id n] entries IH]; [done|]. intros H.
  assert (first_virtual entries uid = Some v ->
    (forall w, n = Virtual w -> VirtualNetwork.appliesToUser w uid = false) ->
    exists i netId, ((id, n) :: entries) !! i = Some (netId, Virtual v) /\
      VirtualNetwork.appliesToUser v uid = true /\
      forall j id' w, (j < i)%nat -> ((id, n) :: entries) !! j = Some (id', Virtual w) ->
        VirtualNetwork.appliesToUser w uid = false) as Hstep.
  { intros (i & netId & Hi & Ha & Hj)%IH Hn. exists (S i), netId. split_and!; [done..|].
    intros [|j] id' w Hlt Hw; cbn in Hw; [simplify_eq; by apply Hn|]. eapply Hj; [|done]. lia. }
  destruct n as [b|p|w]; cbn in H; [by apply Hstep|by apply Hstep|].
  destruct (VirtualNetwork.appliesToUser w uid) eqn:E.
  - injection H as ->. exists 0%nat, id. split_and!; [done..|]. intros j. lia.
  - apply Hstep; [done|]. by intros w' [= <-].
Qed.

Lemma first_virtual_None entries uid :
  first_virtual entries uid = None ->
  forall netId v, (netId, Virtual v) ∈ entries -> VirtualNetwork.appliesToUser v uid = false.
Proof.
  induction entries as [|[id n] entries IH]; intros H netId v Hin; [by apply elem_of_nil in Hin|].
  apply elem_of_cons in Hin as [Heq|Hin].
  - injection Heq as <- <-. cbn in H. by destruct (VirtualNetwork.appliesToUser v uid).
  - destruct n as [b|p|w]; cbn in H; try by eapply IH.
    destruct (VirtualNetwork.appliesToUser w uid); [done|]. by eapply IH.
Qed.

(** The VPN a user is subject to: the one with the smallest identifier among
    those that apply. *)
Lemma getVirtualNetworkForUserLocked_Some s uid v :
  nc_ok s -> getVirtualNetworkForUserLocked s uid = Some v ->
  getNetworkLocked s (virtual_netId v) = Some (Virtual v) /\
  VirtualNetwork.appliesToUser v uid = true /\
  forall id w, id < virtual_netId v -> getNetworkLocked s id = Some (Virtual w) ->
    VirtualNetwork.appliesToUser w uid = false.
Proof.
  intros Hok (i & netId & Hi & Ha & Hj)%first_virtual_Some.
  assert (mNetworks s !! netId = Some (Virtual v)) as Hv.
  { apply elem_of_map_entries. by eapply list_elem_of_lookup_2. }
  assert (virtual_netId v = netId) as Hid by (by apply (ok_entry s Hok _ _ Hv)).
  rewrite Hid. split_and!; [done..|]. intros id w Hlt Hw.
  apply elem_of_map_entries, list_elem_of_lookup in Hw as [j Hw]. eapply Hj; [|exact Hw].
  destruct (decide (j < i)%nat) as [|Hge]; [done|]. assert (j = i \/ (i < j)%nat) as [->|Hlt'] by lia.
  { rewrite Hi in Hw. injection Hw as <- _. lia. }
  pose proof (StronglySorted_lookup _ _ _ _ _ _ (map_entries_sorted (mNetworks s)) Hi Hw Hlt') as Hs.
  cbn in Hs. lia.
Qed.

Lemma getVirtualNetworkForUserLocked_None s uid id w :
  getVirtualNetworkForUserLocked s uid = None -> getNetworkLocked s id = Some (Virtual w) ->
  VirtualNetwork.appliesToUser w uid = false.
Proof. intros H Hw. eapply first_virtual_None; [exact H|]. by apply elem_of_map_entries. Qed.

(** A user's permission is one of the enum's values. *)
Lemma getPermissionForUserLocked_valid s uid :
  nc_ok s -> valid_permission (getPermissionForUserLocked s uid).
Proof.
  intros Hok. unfold getPermissionForUserLocked. destruct (mUsers s !! uid) as [p|] eqn:E.
  - by eapply ok_users.
  - case_match; [apply system_valid|apply none_valid].
Qed.

(** ** Properties *)

Section Access.
(** What the cast of a local network to a physical one reads: any value. *)
Variable stray : Network -> Z.

(** Access under a secure VPN that holds the user. *)
Lemma access_under_vpn s uid v netId :
  nc_ok s ->
  getVirtualNetworkForUserLocked s uid = Some v -> VirtualNetwork.mSecure v = true ->
  canProtect s uid = false ->
  checkUserNetworkAccess stray s uid netId = 0 ->
  exists w, getNetworkLocked s netId = Some (Virtual w) /\ VirtualNetwork.appliesToUser w uid = true.
Proof.
  intros Hok Hv Hsec Hcan. unfold checkUserNetworkAccess, checkUserNetworkAccessLocked.
  unfold canProtect in Hcan. apply orb_false_iff in Hcan as [Hsys Hprot]. rewrite Hsys, Hv, Hsec, Hprot.
  destruct (getNetworkLocked s netId) as [n|]; [|done]. destruct (uid =? INVALID_UID); [done|].
  destruct n as [b|p|w]; cbn [andb negb]; try done.
  destruct (VirtualNetwork.appliesToUser w uid) eqn:E; [|done]. intros _. by exists w.
Qed.

(** C3. Lockdown: while a user without system permission and without the right
    to protect sockets is subject to a secure VPN, access to every network that
    is not a VPN applying to the user is denied. *)
Theorem secure_vpn_lockdown s uid v netId :
  nc_ok s ->
  getVirtualNetworkForUserLocked s uid = Some v -> VirtualNetwork.mSecure v = true ->
  canProtect s uid = false ->
  checkUserNetworkAccess stray s uid netId = 0 ->
  exists w, getNetworkLocked s netId = Some (Virtual w) /\ VirtualNetwork.appliesToUser w uid = true.
Proof. apply access_under_vpn. Qed.

(** Access to a physical network is granted exactly to users with system
    permission, and to the others when their permissions include the network's
    and no secure VPN holds them; an unknown user is always refused. *)
Theorem physical_access_iff s uid netId p :
  getNetworkLocked s netId = Some (Physical p) ->
  checkUserNetworkAccess stray s uid netId = 0 <->
  uid <> INVALID_UID /\
  (has_permission (getPermissionForUser s uid) PERMISSION_SYSTEM = true \/
   has_permission (getPermissionForUser s uid) (PhysicalNetwork.mPermission p) = true /\
   forall v, getVirtualNetworkForUserLocked s uid = Some v -> VirtualNetwork.mSecure v = true ->
     uid ∈ mProtectableUsers s).
Proof.
  intros Hn. unfold checkUserNetworkAccess, checkUserNetworkAccessLocked, getPermissionForUser. rewrite Hn.
  cbn [cast_permission]. destruct (uid =? INVALID_UID) eqn:Eu; bool_to_prop; [split; [done|by intros []]|].
  destruct (has_permission _ PERMISSION_SYSTEM); [split; auto|].
  destruct (getVirtualNetworkForUserLocked s uid) as [v|].
  - destruct (VirtualNetwork.mSecure v) eqn:Es; cbn [andb].
    + case_bool_decide as Hp; cbn [negb].
      * destruct (has_permission _ (PhysicalNetwork.mPermission p)); split; try done; [by auto|].
        by intros [_ [?|[? _]]].
      * split; [done|]. intros [_ [?|[_ H]]]; [done|]. by destruct Hp; eapply H.
    + destruct (has_permission _ (PhysicalNetwork.mPermission p)); split; try done.
      * intros _. split; [done|]. right. split; [done|]. intros w [= <-]. congruence.
      * by intros [_ [?|[? _]]].
  - destruct (has_permission _ (PhysicalNetwork.mPermission p)); split; try done.
    + intros _. split; [done|]. right. by split.
    + by intros [_ [?|[? _]]].
Qed.

(** The mark for a DNS request: it is protected from VPNs and carries the
    system permission, its netId is the network chosen, and it is explicit
    exactly when the user may use the network asked for, which is then the one
    chosen.  Otherwise the user's VPN is chosen if it has DNS servers, and else
    the default network. *)
Theorem dns_network_and_mark s netId uid :
  nc_ok s ->
  let chosen := (getNetworkForDns stray s netId uid).1 in
  let mark := (getNetworkForDns stray s netId uid).2 in
  fwmark_netId mark = chosen /\ fwmark_protectedFromVpn mark = true /\
  fwmark_permission mark = PERMISSION_SYSTEM /\
  (fwmark_explicitlySelected mark = true <-> checkUserNetworkAccess stray s uid netId = 0) /\
  (if checkUserNetworkAccess stray s uid netId =? 0 then chosen = netId
   else match getVirtualNetworkForUserLocked s uid with
        | Some v => chosen = if VirtualNetwork.mHasDns v then virtual_netId v else mDefaultNetId s
        | None => chosen = mDefaultNetId s
        end).
Proof.
  intros Hok. unfold checkUserNetworkAccess, getNetworkForDns.
  assert (forall id n, getNetworkLocked s id = Some n -> netId_fits id) as Hfits.
  { intros id n Hn. apply valid_netId_fits. by apply (ok_entry s Hok id n). }
  assert (netId_fits (mDefaultNetId s)) as Hdef.
  { destruct (ok_default s Hok) as [->|[p Hp]]; [apply netId_0_fits|by eapply Hfits]. }
  set (ret := checkUserNetworkAccessLocked stray s uid netId).
  destruct (ret =? 0) eqn:E; cbn [fst snd].
  - apply Z.eqb_eq in E. assert (netId_fits netId) as Hn.
    { unfold ret, checkUserNetworkAccessLocked in E.
      destruct (getNetworkLocked s netId) as [n|] eqn:En; [by eapply Hfits|done]. }
    rewrite read_netId_netId by done. autorewrite with fwmark.
    rewrite read_permission_permission by apply system_valid. done.
  - apply Z.eqb_neq in E.
    assert (forall id, netId_fits id ->
      let mark := set_netId id (set_permission PERMISSION_SYSTEM (set_protectedFromVpn true Fwmark_init)) in
      fwmark_netId mark = id /\ fwmark_protectedFromVpn mark = true /\
      fwmark_permission mark = PERMISSION_SYSTEM /\
      (fwmark_explicitlySelected mark = true <-> ret = 0)) as Hmark.
    { intros id Hid mark. unfold mark. rewrite read_netId_netId by done. autorewrite with fwmark.
      rewrite read_permission_permission by apply system_valid. done. }
    destruct (getVirtualNetworkForUserLocked s uid) as [v|] eqn:Ev.
    + apply getVirtualNetworkForUserLocked_Some in Ev as (Hv & _ & _); [|done].
      destruct (VirtualNetwork.mHasDns v); cbn [fst snd]; [destruct (Hmark _ (Hfits _ _ Hv)) as (?&?&?&?)|
        destruct (Hmark _ Hdef) as (?&?&?&?)]; split_and!; done.
    + cbn [fst snd]. destruct (Hmark _ Hdef) as (?&?&?&?); split_and!; done.
Qed.

End Access.

(** ** Witnesses: the state the sample commands lead to *)

Definition sample_state : NC :=
  match boot_and_run (K:=good_kernel) sample_commands with Some (s, _) => s.1 | None => NC_init end.

Lemma sample_state_ok : nc_ok sample_state.
Proof.
  unfold sample_state. destruct (boot_and_run (K:=good_kernel) sample_commands) as [[s tr]|] eqn:E.
  - pose proof (boot_and_run_clean _ E) as Hc. by apply (reachable_ok (K:=good_kernel) s tr), clean_reachable.
  - apply nc_ok_init.
Qed.

(** Stray memory that grants everything: the worst case. *)
Definition sample_stray (n : Network) : Z := PERMISSION_NONE.

Definition sample_vpn : VirtualNetwork.t :=
  VirtualNetwork.Make (Base 101 {["tun0"]}) true true [(10000, 10100)].

Lemma secure_vpn_lockdown_witness :
  checkUserNetworkAccess sample_stray sample_state 10050 101 = 0 /\
  checkUserNetworkAccess sample_stray sample_state 10050 100 = - EPERM /\
  exists w, getNetworkLocked sample_state 101 = Some (Virtual w) /\
    VirtualNetwork.appliesToUser w 10050 = true.
Proof.
  split; [vm_compute; reflexivity|]. split; [vm_compute; reflexivity|].
  apply (secure_vpn_lockdown sample_stray sample_state 10050 sample_vpn 101);
    [exact sample_state_ok|vm_compute; reflexivity..].
Defined.

(** 10002 may protect its sockets, but lacks the network's permission. *)
Lemma physical_access_iff_witness :
  let p := PhysicalNetwork.Make (Base 100 {["wlan0"]}) PERMISSION_NETWORK true in
  checkUserNetworkAccess sample_stray sample_state 1000 100 = 0 /\
  checkUserNetworkAccess sample_stray sample_state 10001 100 = - EPERM /\
  checkUserNetworkAccess sample_stray sample_state 10002 100 = - EACCES /\
  (checkUserNetworkAccess sample_stray sample_state 10002 100 = 0 <->
   10002 <> INVALID_UID /\
   (has_permission (getPermissionForUser sample_state 10002) PERMISSION_SYSTEM = true \/
    has_permission (getPermissionForUser sample_state 10002) (PhysicalNetwork.mPermission p) = true /\
    forall v, getVirtualNetworkForUserLocked sample_state 10002 = Some v ->
      VirtualNetwork.mSecure v = true -> 10002 ∈ mProtectableUsers sample_state)).
Proof.
  split; [vm_compute; reflexivity|]. split; [vm_compute; reflexivity|]. split; [vm_compute; reflexivity|].
  apply (physical_access_iff sample_stray sample_state 10002 100). vm_compute. reflexivity.
Defined.

Lemma dns_network_and_mark_witness :
  getNetworkForDns sample_stray sample_state 100 10050 = (101, pack 101 false true 3) /\
  let chosen := (getNetworkForDns sample_stray sample_state 100 10050).1 in
  let mark := (getNetworkForDns sample_stray sample_state 100 10050).2 in
  fwmark_netId mark = chosen /\ fwmark_protectedFromVpn mark = true /\
  fwmark_permission mark = PERMISSION_SYSTEM.
Proof.
  split; [vm_compute; reflexivity|].
  destruct (dns_network_and_mark sample_stray sample_state 100 10050 sample_state_ok)
    as (H1 & H2 & H3 & _). exact (conj H1 (conj H2 H3)).
Defined.

