(* ===== verification/FwmarkServer.v ===== *)
(** * FwmarkServer: marking the sockets of applications

    Models [server/FwmarkServer.cpp] and [include/FwmarkCommand.h].  A client
    sends a command and a socket over a Unix socket; the server computes the
    socket's new mark from the old one, the sender's UID and the state of
    [NetworkController].  The message, the mark read from the socket and the
    outcome of [setsockopt] come from the kernel and are arguments. *)
From S2P Require Import Prelude Platform Cstd Fwmark UidRanges NetdConstants.
From S2P Require Import RouteController RouteSpec Networks NetworkSpec NetworkController ControllerSpec.
From S2P Require Import Daemon Access SampleKernel.

(** [FwmarkCommand::cmdId] *)
Definition ON_ACCEPT : Z := 0.
Definition ON_CONNECT : Z := 1.
Definition SELECT_NETWORK : Z := 2.
Definition PROTECT_FROM_VPN : Z := 3.
Definition SELECT_FOR_USER : Z := 4.

Record FwmarkCommand := Command { cmdId : Z; cmd_netId : Z; cmd_uid : Z }.

(** Three 32-bit members. *)
Definition sizeof_FwmarkCommand : Z := 12.

(** What [recvmsg] gave: its result, [errno], the command, and the descriptor
    of a well-formed [SCM_RIGHTS] control message. *)
Record received := Received {
  messageLength : Z; recv_errno : Z; command : FwmarkCommand; passed_fd : option Z
}.

(** [getsockopt(SO_MARK)] and [setsockopt(SO_MARK)] on a descriptor; [inl] and
    [Some] carry [errno] of a failed call. *)
Record sockets := Sockets { get_mark : Z -> Z + Z; set_mark : Z -> Z -> option Z }.

Section FwmarkServer.
Variable stray : Network -> Z.

(** The [switch] over the command: the new mark but for its permission, and
    that permission; [inl] is an early return. *)
Definition mark_command (s : NC) (uid : Z) (c : FwmarkCommand) (fwmark : Z) : Z + Z * Z :=
  let permission := getPermissionForUser s uid in
  if cmdId c =? ON_ACCEPT then inr (fwmark, Z.lor permission (fwmark_permission fwmark))
  else if cmdId c =? ON_CONNECT then
    let fwmark :=
      if negb (fwmark_explicitlySelected fwmark) then
        if negb (fwmark_protectedFromVpn fwmark) then set_netId (getNetworkForConnect s uid) fwmark
        else if negb (isVirtualNetwork s (fwmark_netId fwmark)) then
          set_netId (getDefaultNetwork s) fwmark
        else fwmark
      else fwmark in
    inr (fwmark, permission)
  else if cmdId c =? SELECT_NETWORK then
    let fwmark := set_netId (cmd_netId c) fwmark in
    if cmd_netId c =? NETID_UNSET then
      inr (set_protectedFromVpn false (set_explicitlySelected false fwmark), PERMISSION_NONE)
    else
      let ret := checkUserNetworkAccess stray s uid (cmd_netId c) in
      if negb (ret =? 0) then inl ret
      else inr (set_protectedFromVpn (canProtect s uid) (set_explicitlySelected true fwmark), permission)
  else if cmdId c =? PROTECT_FROM_VPN then
    if negb (canProtect s uid) then inl (- EPERM)
    else
      let fwmark :=
        if negb (fwmark_explicitlySelected fwmark) && isVirtualNetwork s (fwmark_netId fwmark)
        then set_netId (getDefaultNetwork s) fwmark else fwmark in
      let fwmark := set_protectedFromVpn true fwmark in
      inr (fwmark, Z.lor permission (fwmark_permission fwmark))
  else if cmdId c =? SELECT_FOR_USER then
    if negb (has_permission permission PERMISSION_SYSTEM) then inl (- EPERM)
    else
      let fwmark := set_netId (getNetworkForUser s (cmd_uid c)) fwmark in
      inr (set_protectedFromVpn true fwmark, permission)
  else inl (- EPROTO).

(** The result, the descriptor received (-1 for none), and the mark given to
    [setsockopt] if it was called. *)
Definition processClient (k : sockets) (s : NC) (uid : Z) (m : received) : Z * Z * option Z :=
  let socketFd := -1 in
  if messageLength m <=? 0 then (- recv_errno m, socketFd, None)
  else if negb (messageLength m =? sizeof_FwmarkCommand) then (- EBADMSG, socketFd, None)
  else
    let socketFd := match passed_fd m with Some fd => fd | None => socketFd end in
    if socketFd <? 0 then (- EBADF, socketFd, None)
    else
      match get_mark k socketFd with
      | inl e => (- e, socketFd, None)
      | inr fwmark =>
          match mark_command s uid (command m) fwmark with
          | inl ret => (ret, socketFd, None)
          | inr (fwmark, permission) =>
              let fwmark := set_permission permission fwmark in
              (match set_mark k socketFd fwmark with Some e => - e | None => 0 end, socketFd, Some fwmark)
          end
      end.

(** What the client is sent, and whether the descriptor is closed; the
    connection always is. *)
Definition onDataAvailable (k : sockets) (s : NC) (uid : Z) (m : received) : Z * bool :=
  let '(error, socketFd, _) := processClient k s uid m in (error, 0 <=? socketFd).

(** ** Lemmas *)

(** A mark is only set after the switch produced it. *)
Lemma processClient_mark k s uid m ret fd mark :
  processClient k s uid m = (ret, fd, Some mark) ->
  exists old w p, get_mark k fd = inr old /\ passed_fd m = Some fd /\ 0 <= fd /\
    mark_command s uid (command m) old = inr (w, p) /\ mark = set_permission p w.
Proof.
  unfold processClient. destruct (messageLength m <=? 0); [done|]. destruct (negb _); [done|].
  destruct (passed_fd m) as [fd'|]; [|done].
  destruct (fd' <? 0) eqn:Ef; [done|]. destruct (get_mark k fd') as [e|old] eqn:Eg; [done|].
  destruct (mark_command s uid (command m) old) as [e|[w p]] eqn:Em; [done|].
  intros [= _ <- <-]. exists old, w, p. split_and!; try done. lia.
Qed.

Lemma fwmark_permission_valid w : valid_permission (fwmark_permission w).
Proof.
  unfold valid_permission, fwmark_permission, get_bits. rewrite Z.land_ones by lia.
  apply Z.mod_pos_bound. lia.
Qed.

Lemma lor_valid p q : valid_permission p -> valid_permission q -> valid_permission (Z.lor p q).
Proof.
  unfold valid_permission. intros. apply (bounded_by_bits _ 2); [lia|apply Z.lor_nonneg; lia|].
  intros i Hi. rewrite Z.lor_spec, !(testbit_above _ 2) by lia. done.
Qed.

(** Where a 16-bit netId in a computed mark comes from. *)
Lemma getNetworkForUser_fits s uid : nc_ok s -> netId_fits (getNetworkForUser s uid).
Proof.
  intros Hok. unfold getNetworkForUser.
  destruct (getVirtualNetworkForUserLocked s uid) as [v|] eqn:Ev.
  - apply getVirtualNetworkForUserLocked_Some in Ev as (Hv & _); [|done].
    apply valid_netId_fits. by apply (ok_entry s Hok _ _ Hv).
  - destruct (ok_default s Hok) as [->|[p Hp]]; [apply netId_0_fits|].
    apply valid_netId_fits. by apply (ok_entry s Hok _ _ Hp).
Qed.

Lemma getNetworkForConnect_fits s uid : nc_ok s -> netId_fits (getNetworkForConnect s uid).
Proof.
  intros Hok. unfold getNetworkForConnect.
  assert (netId_fits (mDefaultNetId s)) as Hdef.
  { destruct (ok_default s Hok) as [->|[p Hp]]; [apply netId_0_fits|].
    apply valid_netId_fits. by apply (ok_entry s Hok _ _ Hp). }
  destruct (getVirtualNetworkForUserLocked s uid) as [v|] eqn:Ev; [|done].
  destruct (negb _); [|done].
  apply getVirtualNetworkForUserLocked_Some in Ev as (Hv & _); [|done].
  apply valid_netId_fits. by apply (ok_entry s Hok _ _ Hv).
Qed.

Lemma getDefaultNetwork_fits s : nc_ok s -> netId_fits (getDefaultNetwork s).
Proof.
  intros Hok. unfold getDefaultNetwork. destruct (ok_default s Hok) as [->|[p Hp]]; [apply netId_0_fits|].
  apply valid_netId_fits. by apply (ok_entry s Hok _ _ Hp).
Qed.

(** Split on the command. *)
Ltac by_command H :=
  unfold mark_command in H;
  repeat match type of H with
  | (if ?b then _ else _) = _ => destruct b eqn:?
  end; simplify_eq/=; bool_to_prop.
(** Where protection from VPNs, and an explicit network, come from. *)
Lemma mark_command_protected s uid c old w p :
  mark_command s uid c old = inr (w, p) -> fwmark_protectedFromVpn w = true ->
  fwmark_protectedFromVpn old = true \/ canProtect s uid = true.
Proof.
  intros Hm. unfold mark_command in Hm.
  repeat match type of Hm with
  | (let _ := _ in _) = _ => cbv zeta in Hm
  | (if ?b then _ else _) = _ => destruct b eqn:?
  end; try done; injection Hm as <- <-; autorewrite with fwmark; try by auto.
  - repeat case_match; autorewrite with fwmark; auto.
  - intros _. right. by destruct (canProtect s uid).
  - intros _. right. unfold canProtect. apply orb_true_iff. left. by apply negb_false_iff.
Qed.

Lemma checkUserNetworkAccess_fits s uid netId :
  nc_ok s -> checkUserNetworkAccess stray s uid netId = 0 -> netId_fits netId.
Proof.
  intros Hok. unfold checkUserNetworkAccess, checkUserNetworkAccessLocked.
  destruct (getNetworkLocked s netId) as [n|] eqn:En; [|done]. intros _.
  apply valid_netId_fits. by apply (ok_entry s Hok _ _ En).
Qed.

Lemma mark_command_explicit s uid c old w p :
  nc_ok s -> mark_command s uid c old = inr (w, p) -> fwmark_explicitlySelected w = true ->
  fwmark_explicitlySelected old = true /\ fwmark_netId w = fwmark_netId old \/
  checkUserNetworkAccess stray s uid (fwmark_netId w) = 0 \/ canProtect s uid = true.
Proof.
  intros Hok Hm. unfold mark_command in Hm.
  repeat match type of Hm with
  | (let _ := _ in _) = _ => cbv zeta in Hm
  | (if ?b then _ else _) = _ => destruct b eqn:?
  end; try done; injection Hm as <- <-; autorewrite with fwmark; try by auto.
  - destruct (fwmark_explicitlySelected old) eqn:E; cbn [negb]; [by auto|].
    repeat case_match; autorewrite with fwmark; rewrite E; done.
  - bool_to_prop. right. left.
    match goal with H : checkUserNetworkAccess _ _ _ _ = 0 |- _ => rename H into Ha end.
    rewrite read_netId_netId by (by eapply checkUserNetworkAccess_fits). done.
  - intros E. right. right. by destruct (canProtect s uid).
  - intros E. right. right. unfold canProtect. apply orb_true_iff. left. by apply negb_false_iff.
Qed.

(** A successful selection of a network. *)
Lemma mark_command_select s uid c old w p :
  nc_ok s -> cmdId c = SELECT_NETWORK -> cmd_netId c <> NETID_UNSET ->
  mark_command s uid c old = inr (w, p) ->
  checkUserNetworkAccess stray s uid (cmd_netId c) = 0 /\ fwmark_netId w = cmd_netId c /\
  fwmark_explicitlySelected w = true /\ fwmark_protectedFromVpn w = canProtect s uid /\
  p = getPermissionForUser s uid.
Proof.
  intros Hok Hid Hne Hm.
  unfold mark_command in Hm. rewrite Hid in Hm. cbn -[Z.eqb getPermissionForUser] in Hm.
  change (SELECT_NETWORK =? ON_ACCEPT) with false in Hm.
  change (SELECT_NETWORK =? ON_CONNECT) with false in Hm.
  change (SELECT_NETWORK =? SELECT_NETWORK) with true in Hm. cbv iota in Hm.
  rewrite (proj2 (Z.eqb_neq _ _) Hne) in Hm.
  destruct (checkUserNetworkAccess stray s uid (cmd_netId c) =? 0) eqn:E; [|done].
  apply Z.eqb_eq in E. cbn [negb] in Hm. injection Hm as <- <-.
  pose proof (checkUserNetworkAccess_fits _ _ _ Hok E) as Hfits.
  autorewrite with fwmark. rewrite read_netId_netId by done. done.
Qed.

(** ** Properties *)

(** C14. A socket is marked for a network an application selects only after the
    access check let the user in; the mark then names that network, is explicit
    and carries the user's permission. *)
Theorem select_network_checked k s uid m ret fd mark :
  nc_ok s ->
  processClient k s uid m = (ret, fd, Some mark) ->
  cmdId (command m) = SELECT_NETWORK -> cmd_netId (command m) <> NETID_UNSET ->
  checkUserNetworkAccess stray s uid (cmd_netId (command m)) = 0 /\
  fwmark_netId mark = cmd_netId (command m) /\ fwmark_explicitlySelected mark = true /\
  fwmark_protectedFromVpn mark = canProtect s uid /\
  fwmark_permission mark = getPermissionForUser s uid.
Proof.
  intros Hok (old & w & p & _ & _ & _ & Hm & ->)%processClient_mark Hid Hne.
  destruct (mark_command_select _ _ _ _ _ _ Hok Hid Hne Hm) as (Hc & Hn & He & Hp & ->).
  autorewrite with fwmark.
  rewrite read_permission_permission by (by apply getPermissionForUserLocked_valid). done.
Qed.

(** C18. No socket gains protection from VPNs unless its owner has the right to
    protect sockets. *)
Theorem protection_needs_right k s uid m ret fd mark old :
  processClient k s uid m = (ret, fd, Some mark) -> get_mark k fd = inr old ->
  fwmark_protectedFromVpn mark = true ->
  fwmark_protectedFromVpn old = true \/ canProtect s uid = true.
Proof.
  intros (old' & w & p & Hold & _ & _ & Hm & ->)%processClient_mark Hg.
  rewrite Hg in Hold. injection Hold as <-. rewrite read_protected_permission.
  by eapply mark_command_protected.
Qed.

(** A mark never carries a permission that neither the sender has nor the
    socket had. *)
Theorem permission_not_raised k s uid m ret fd mark old :
  nc_ok s ->
  processClient k s uid m = (ret, fd, Some mark) -> get_mark k fd = inr old ->
  Z.ldiff (fwmark_permission mark) (Z.lor (getPermissionForUser s uid) (fwmark_permission old)) = 0.
Proof.
  intros Hok (old' & w & p & Hold & _ & _ & Hm & ->)%processClient_mark Hg.
  rewrite Hg in Hold. injection Hold as <-.
  pose proof (getPermissionForUserLocked_valid s uid Hok) as Hp.
  pose proof (fwmark_permission_valid old) as Ho.
  assert (valid_permission p /\
    Z.ldiff p (Z.lor (getPermissionForUser s uid) (fwmark_permission old)) = 0) as [Hv Hd].
  { assert (forall q, q = getPermissionForUser s uid \/ q = PERMISSION_NONE \/
      q = Z.lor (getPermissionForUser s uid) (fwmark_permission old) ->
      valid_permission q /\
      Z.ldiff q (Z.lor (getPermissionForUser s uid) (fwmark_permission old)) = 0) as Hq.
    { intros q Hq. split.
      - destruct Hq as [-> | [-> | ->]]; [done|apply none_valid|by apply lor_valid].
      - apply ldiff_0_testbit. intros i Hi Hb. rewrite Z.lor_spec.
        destruct Hq as [-> | [-> | ->]]; [by rewrite Hb|by rewrite Z.bits_0 in Hb|by rewrite Z.lor_spec in Hb]. }
    apply Hq. unfold mark_command in Hm.
    repeat match type of Hm with
    | (let _ := _ in _) = _ => cbv zeta in Hm
    | (if ?b then _ else _) = _ => destruct b eqn:?
    end; try done; injection Hm as <- <-; auto.
    right. right. repeat case_match; by autorewrite with fwmark. }
  by rewrite read_permission_permission.
Qed.

(** Calling connect() again changes nothing: the mark [ON_CONNECT] gives
    is a fixed point of [ON_CONNECT]. *)
Theorem connect_twice s uid c fwmark w p w' p' :
  nc_ok s -> cmdId c = ON_CONNECT ->
  mark_command s uid c fwmark = inr (w, p) ->
  mark_command s uid c (set_permission p w) = inr (w', p') ->
  set_permission p' w' = set_permission p w.
Proof.
  intros Hok Hc. unfold mark_command. rewrite Hc.
  change (ON_CONNECT =? ON_ACCEPT) with false. change (ON_CONNECT =? ON_CONNECT) with true. cbv iota zeta.
  set (perm := getPermissionForUser s uid).
  set (n := getNetworkForConnect s uid). set (d := getDefaultNetwork s).
  intros [= <- <-] [= <- <-]. autorewrite with fwmark.
  assert (forall v w, set_netId v (set_permission perm (set_netId v w)) = set_permission perm (set_netId v w)) as Hset.
  { intros v w. bits_ext. unfold set_netId, set_permission.
    rewrite !testbit_set_bits by lia.
    repeat match goal with |- context [(?a <=? ?b)] => destruct (a <=? b) eqn:? end;
    repeat match goal with |- context [(?a <? ?b)] => destruct (a <? b) eqn:? end; cbn; try done; lia. }
  assert (forall w, set_permission perm (set_permission perm w) = set_permission perm w) as Hperm.
  { intros w. bits_ext. unfold set_permission. rewrite !testbit_set_bits by lia. by case_match. }
  destruct (fwmark_explicitlySelected fwmark) eqn:Ee; cbn [negb].
  { rewrite Ee. cbn [negb]. apply Hperm. }
  destruct (fwmark_protectedFromVpn fwmark) eqn:Ep; cbn [negb].
  - destruct (isVirtualNetwork s (fwmark_netId fwmark)) eqn:Ev; cbn [negb].
    + rewrite Ee, Ep, Ev. cbn [negb]. apply Hperm.
    + autorewrite with fwmark. rewrite Ee, Ep. cbn [negb].
      destruct (isVirtualNetwork s (fwmark_netId (set_netId d fwmark))); cbn [negb]; [apply Hperm|].
      rewrite Hset. apply Hperm.
  - autorewrite with fwmark. rewrite Ee, Ep. cbn [negb]. rewrite Hset. apply Hperm.
Qed.

(** The network of a mark is always one that is registered or unset, or the
    one the socket had: no command writes a netId of its own choosing. *)
Theorem mark_network_registered k s uid m ret fd mark old :
  nc_ok s ->
  processClient k s uid m = (ret, fd, Some mark) -> get_mark k fd = inr old ->
  fwmark_netId mark = fwmark_netId old \/ fwmark_netId mark = NETID_UNSET \/
  is_Some (getNetworkLocked s (fwmark_netId mark)).
Proof.
  intros Hok (old' & w & p & Hold & _ & _ & Hm & ->)%processClient_mark Hg.
  rewrite Hg in Hold. injection Hold as <-. rewrite read_netId_permission.
  assert (forall v x, netId_fits v -> v = NETID_UNSET \/ is_Some (getNetworkLocked s v) ->
    fwmark_netId (set_netId v x) = NETID_UNSET \/
    is_Some (getNetworkLocked s (fwmark_netId (set_netId v x)))) as Hset.
  { intros v x Hv. by rewrite read_netId_netId. }
  assert (getDefaultNetwork s = NETID_UNSET \/ is_Some (getNetworkLocked s (getDefaultNetwork s))) as Hd.
  { destruct (ok_default s Hok) as [?|[q Hq]]; [by left|right; by eexists]. }
  pose proof (getDefaultNetwork_fits s Hok) as Hdf.
  unfold mark_command in Hm.
  repeat match type of Hm with
  | (let _ := _ in _) = _ => cbv zeta in Hm
  | (if ?b then _ else _) = _ => destruct b eqn:?
  end; try done; injection Hm as <- <-; autorewrite with fwmark; auto; bool_to_prop.
  - destruct (fwmark_explicitlySelected old); cbn [negb]; [by left|].
    destruct (fwmark_protectedFromVpn old); cbn [negb].
    + destruct (isVirtualNetwork s (fwmark_netId old)); cbn [negb]; [by left|right]. by apply Hset.
    + right. apply Hset; [by apply getNetworkForConnect_fits|]. unfold getNetworkForConnect.
      destruct (getVirtualNetworkForUserLocked s uid) as [v|] eqn:Ev; [|done]. destruct (negb _); [|done].
      right. apply getVirtualNetworkForUserLocked_Some in Ev as (Hv & _); [by eexists|done].
  - right. left. rewrite read_netId_netId; [done|].
    match goal with H : cmd_netId _ = NETID_UNSET |- _ => rewrite H end. apply netId_0_fits.
  - match goal with H : checkUserNetworkAccess _ _ _ _ = 0 |- _ => rename H into E end.
    unfold checkUserNetworkAccess, checkUserNetworkAccessLocked in E.
    destruct (getNetworkLocked s (cmd_netId (command m))) as [n|] eqn:En; [|done].
    right. right. rewrite read_netId_netId; [by eexists|].
    apply valid_netId_fits. by apply (ok_entry s Hok _ _ En).
  - destruct (_ && _); [right; by apply Hset|by left].
  - right. apply Hset; [by apply getNetworkForUser_fits|]. unfold getNetworkForUser.
    destruct (getVirtualNetworkForUserLocked s (cmd_uid (command m))) as [v|] eqn:Ev; [|done].
    right. apply getVirtualNetworkForUserLocked_Some in Ev as (Hv & _); [by eexists|done].
Qed.
End FwmarkServer.

(** ** Witnesses *)

(** Sockets marked 0 (or as given), where setting the mark succeeds. *)
Definition sample_sockets (mark : Z) : sockets := Sockets (fun _ => inr mark) (fun _ _ => None).
Definition sample_request (id netId uid : Z) : received :=
  Received sizeof_FwmarkCommand 0 (Command id netId uid) (Some 5).

Lemma select_network_checked_witness :
  processClient sample_stray (sample_sockets 0) sample_state 10050 (sample_request SELECT_NETWORK 100 0) =
    (- EPERM, 5, None) /\
  let mark := pack 101 true false PERMISSION_NONE in
  processClient sample_stray (sample_sockets 0) sample_state 10050 (sample_request SELECT_NETWORK 101 0) =
    (0, 5, Some mark) /\
  checkUserNetworkAccess sample_stray sample_state 10050 101 = 0 /\ fwmark_netId mark = 101.
Proof.
  split; [vm_compute; reflexivity|]. split; [vm_compute; reflexivity|].
  destruct (select_network_checked sample_stray (sample_sockets 0) sample_state 10050
    (sample_request SELECT_NETWORK 101 0) 0 5 (pack 101 true false PERMISSION_NONE) sample_state_ok)
    as (H1 & H2 & _); [vm_compute; reflexivity|reflexivity|discriminate|].
  exact (conj H1 H2).
Defined.

Lemma protection_needs_right_witness :
  processClient sample_stray (sample_sockets 0) sample_state 10001 (sample_request PROTECT_FROM_VPN 0 0) =
    (- EPERM, 5, None) /\
  let mark := pack 0 false true PERMISSION_NONE in
  processClient sample_stray (sample_sockets 0) sample_state 10002 (sample_request PROTECT_FROM_VPN 0 0) =
    (0, 5, Some mark) /\
  (fwmark_protectedFromVpn 0 = true \/ canProtect sample_state 10002 = true).
Proof.
  split; [vm_compute; reflexivity|]. split; [vm_compute; reflexivity|].
  apply (protection_needs_right sample_stray (sample_sockets 0) sample_state 10002
    (sample_request PROTECT_FROM_VPN 0 0) 0 5 (pack 0 false true PERMISSION_NONE) 0);
    vm_compute; reflexivity.
Defined.

(** A server socket accepts on behalf of the system: both permissions. *)
Lemma permission_not_raised_witness :
  let old := pack 100 true false PERMISSION_SYSTEM in
  processClient sample_stray (sample_sockets old) sample_state 10001 (sample_request ON_ACCEPT 0 0) =
    (0, 5, Some old) /\
  Z.ldiff (fwmark_permission old)
    (Z.lor (getPermissionForUser sample_state 10001) (fwmark_permission old)) = 0.
Proof.
  split; [vm_compute; reflexivity|].
  apply (permission_not_raised sample_stray (sample_sockets (pack 100 true false PERMISSION_SYSTEM))
    sample_state 10001 (sample_request ON_ACCEPT 0 0) 0 5 (pack 100 true false PERMISSION_SYSTEM)
    (pack 100 true false PERMISSION_SYSTEM) sample_state_ok); vm_compute; reflexivity.
Defined.

Lemma connect_twice_witness :
  let c := Command ON_CONNECT 0 0 in
  mark_command sample_stray sample_state 10001 c 0 = inr (100, PERMISSION_NETWORK) /\
  set_permission PERMISSION_NETWORK (set_netId 100 (pack 100 false false PERMISSION_NETWORK)) =
  set_permission PERMISSION_NETWORK 100.
Proof.
  split; [vm_compute; reflexivity|].
  apply (connect_twice sample_stray sample_state 10001 (Command ON_CONNECT 0 0) 0 100 PERMISSION_NETWORK
    (set_netId 100 (pack 100 false false PERMISSION_NETWORK)) PERMISSION_NETWORK sample_state_ok);
    vm_compute; reflexivity.
Defined.

Lemma mark_network_registered_witness :
  processClient sample_stray (sample_sockets 0) sample_state 10001 (sample_request ON_CONNECT 0 0) =
    (0, 5, Some (pack 100 false false PERMISSION_NETWORK)) /\
  (fwmark_netId (pack 100 false false PERMISSION_NETWORK) = fwmark_netId 0 \/
   fwmark_netId (pack 100 false false PERMISSION_NETWORK) = NETID_UNSET \/
   is_Some (getNetworkLocked sample_state (fwmark_netId (pack 100 false false PERMISSION_NETWORK)))).
Proof.
  split; [vm_compute; reflexivity|].
  apply (mark_network_registered sample_stray (sample_sockets 0) sample_state 10001
    (sample_request ON_CONNECT 0 0) 0 5 (pack 100 false false PERMISSION_NETWORK) 0 sample_state_ok);
    vm_compute; reflexivity.
Defined.
