(* ===== verification/NetdClient.v ===== *)
(** * NetdClient: what an application's process does with its sockets

    Models [client/FwmarkClient.cpp] and [client/NetdClient.cpp], which libc
    loads into every application, against the server of FwmarkServer.v.  The
    libc and vendor functions they call, and what happens on the way to the
    server, are the parameter [Os], a function of the calls made before.  The
    server's half of a request is [processClient] itself, on the sockets of
    the process. *)
From S2P Require Import Prelude Platform Cstd Fwmark UidRanges Netlink NetdConstants.
From S2P Require Import RouteController RouteSpec Networks NetworkSpec NetworkController ControllerSpec.
From S2P Require Import Daemon Access FwmarkServer SampleKernel.

(** ** Calls and their outcomes *)

Inductive call :=
| CSocket (vendor : bool) (domain type protocol : Z)
| CAccept4 (sockfd flags : Z)
| CConnect (vendor : bool) (sockfd : Z)
| CDomain (fd : Z)                     (** getsockopt(SO_DOMAIN) *)
| CServer (c : FwmarkCommand) (fd : Z) (** one exchange with the server *)
| CClose (fd : Z).

(** How far an exchange with the server got. *)
Inductive channel :=
| NoChannel (e : Z)          (** socket() failed *)
| NoServer                   (** connect() failed: no server *)
| NotSent (e : Z)            (** sendmsg() failed *)
| NotAnswered (e : Z)        (** the request was handled, recv() failed *)
| HungUp                     (** the request was handled, recv() returned 0 *)
| Answered.

Class Os := {
  (** Descriptor and mark of a new socket, or errno; libc's function or the
      vendor's. *)
  os_socket : list call -> bool -> Z -> Z -> Z -> Z + Z * Z;
  (** Descriptor, mark and peer's address family. *)
  os_accept4 : list call -> Z -> Z -> Z + Z * Z * Z;
  os_connect : list call -> bool -> Z -> option Z;
  os_domain : list call -> Z -> Z + Z;
  os_channel : list call -> FwmarkCommand -> Z -> channel;
  (** errno of the server's setsockopt(), if it fails. *)
  os_set_mark : list call -> Z -> option Z;
  (** The environment variable ANDROID_NO_USE_FWMARK_CLIENT is set. *)
  os_no_client : bool;
  (** vendorConnect and vendorSocket of libvendorconn.so. *)
  os_vendor : option (bool * bool)
}.

(** The variables of the library, the sockets of the process with their marks
    ([SO_MARK]), errno, and the calls made. *)
Record process := Process {
  netIdForProcess : Z;
  netIdForResolv : Z;
  libcAccept4 : bool; libcConnect : bool; libcSocket : bool;
  propConnect : bool; propSocket : bool;
  marks : gmap Z Z;
  errno : Z;
  calls : list call
}.

Definition set_target (resolv : bool) (netId : Z) (p : process) : process :=
  Process (if resolv then netIdForProcess p else netId) (if resolv then netId else netIdForResolv p)
    (libcAccept4 p) (libcConnect p) (libcSocket p) (propConnect p) (propSocket p)
    (marks p) (errno p) (calls p).
Definition set_errno (e : Z) (p : process) : process :=
  Process (netIdForProcess p) (netIdForResolv p) (libcAccept4 p) (libcConnect p) (libcSocket p)
    (propConnect p) (propSocket p) (marks p) e (calls p).
Definition set_marks (f : gmap Z Z -> gmap Z Z) (c : call) (p : process) : process :=
  Process (netIdForProcess p) (netIdForResolv p) (libcAccept4 p) (libcConnect p) (libcSocket p)
    (propConnect p) (propSocket p) (f (marks p)) (errno p) (calls p ++ [c]).

(** Computations of the process. *)
Definition C (A : Type) : Type := process -> A * process.
#[export] Instance C_ret : MRet C := fun A a p => (a, p).
#[export] Instance C_bind : MBind C := fun A B k m p => let '(a, p1) := m p in k a p1.

Definition update (f : process -> process) : C unit := fun p => (tt, f p).
Definition ask {A} (f : process -> A) : C A := fun p => (f p, p).

Section NetdClient.
Context {O : Os} (stray : Network -> Z) (server : list call -> NC) (uid : Z).

(** ** Calls *)

(** A new socket; -1 and errno when there is none. *)
Definition new_socket (vendor : bool) (domain type protocol : Z) : C Z :=
  r ← ask (fun p => os_socket (calls p) vendor domain type protocol);
  match r with
  | inl e => update (set_marks id (CSocket vendor domain type protocol));; update (set_errno e);; mret (-1)
  | inr (fd, mark) => update (set_marks <[fd := mark]> (CSocket vendor domain type protocol));; mret fd
  end.

Definition close (fd : Z) : C unit := update (set_marks (delete fd) (CClose fd)).

(** ** FwmarkClient *)

Definition shouldSetFwmark (family : Z) : bool :=
  ((family =? AF_INET) || (family =? AF_INET6)) && negb os_no_client.

(** The sockets as the server sees them: it receives the descriptor itself. *)
Definition server_sockets (p : process) : sockets :=
  Sockets (fun fd => match marks p !! fd with Some mark => inr mark | None => inl EBADF end)
    (fun fd _ => os_set_mark (calls p) fd).

(** What the server replies, and the marks it leaves. *)
Definition handled (c : FwmarkCommand) (fd : Z) (p : process) : Z * gmap Z Z :=
  let '(error, socketFd, mark) :=
    processClient stray (server_sockets p) (server (calls p)) uid
      (Received sizeof_FwmarkCommand 0 c (Some fd)) in
  (error, match mark with
          | Some mark => if error =? 0 then <[socketFd := mark]> (marks p) else marks p
          | None => marks p
          end).

(** The error starts as 0, and recv() leaves it alone at the end of file. *)
Definition send (c : FwmarkCommand) (fd : Z) : C Z :=
  outcome ← ask (fun p => os_channel (calls p) c fd);
  match outcome with
  | NoChannel e => mret (- e)
  | NoServer => mret 0
  | NotSent e => mret (- e)
  | NotAnswered e =>
      r ← ask (handled c fd);
      update (set_marks (fun _ => r.2) (CServer c fd));; mret (- e)
  | HungUp =>
      r ← ask (handled c fd);
      update (set_marks (fun _ => r.2) (CServer c fd));; mret 0
  | Answered =>
      r ← ask (handled c fd);
      update (set_marks (fun _ => r.2) (CServer c fd));; mret r.1
  end.

(** ** NetdClient *)

Definition closeFdAndSetErrno (fd error : Z) : C Z :=
  close fd;; update (set_errno (- error));; mret (-1).

Definition setNetworkForSocket (netId socketFd : Z) : C Z :=
  if socketFd <? 0 then mret (- EBADF) else send (Command SELECT_NETWORK netId 0) socketFd.

(** The second half of [netdClientAccept4], once the family is known or asking
    for it failed. *)
Definition markAccepted (acceptedSocket : Z) (family : Z + Z) : C Z :=
  match family with
  | inl e => closeFdAndSetErrno acceptedSocket (- e)
  | inr family =>
      if shouldSetFwmark family then
        error ← send (Command ON_ACCEPT 0 0) acceptedSocket;
        if negb (error =? 0) then closeFdAndSetErrno acceptedSocket error
        else mret acceptedSocket
      else mret acceptedSocket
  end.

(** [addr] tells whether the caller asked for the peer's address. *)
Definition netdClientAccept4 (sockfd : Z) (addr : bool) (flags : Z) : C Z :=
  r ← ask (fun p => os_accept4 (calls p) sockfd flags);
  match r with
  | inl e => update (set_marks id (CAccept4 sockfd flags));; update (set_errno e);; mret (-1)
  | inr (acceptedSocket, mark, sa_family) =>
      update (set_marks <[acceptedSocket := mark]> (CAccept4 sockfd flags));;
      family ← (if addr then mret (inr sa_family)
                else
                  f ← ask (fun p => os_domain (calls p) acceptedSocket);
                  update (set_marks id (CDomain acceptedSocket));; mret f);
      markAccepted acceptedSocket family
  end.

(** The address's family, if there is an address; [None] is a null pointer
    dereference. *)
Definition netdClientConnect (sockfd : Z) (addr : option Z) : C (option Z) :=
  error ← (if (0 <=? sockfd) && match addr with Some family => shouldSetFwmark family | None => false end
           then send (Command ON_CONNECT 0 0) sockfd else mret 0);
  if negb (error =? 0) then update (set_errno (- error));; mret (Some (-1))
  else
    vendor ← ask propConnect;
    match vendor, addr with
    | true, None => mret None
    | _, _ =>
        let vendor := vendor && match addr with Some family => shouldSetFwmark family | None => false end in
        r ← ask (fun p => os_connect (calls p) vendor sockfd);
        update (set_marks id (CConnect vendor sockfd));;
        match r with
        | None => mret (Some 0)
        | Some e => update (set_errno e);; mret (Some (-1))
        end
    end.

(** The second half of [netdClientSocket]. *)
Definition markNewSocket (domain socketFd : Z) : C Z :=
  if -1 =? socketFd then mret (-1)
  else
    netId ← ask netIdForProcess;
    if negb (netId =? NETID_UNSET) && shouldSetFwmark domain then
      error ← setNetworkForSocket netId socketFd;
      if negb (error =? 0) then closeFdAndSetErrno socketFd error else mret socketFd
    else mret socketFd.

Definition netdClientSocket (domain type protocol : Z) : C Z :=
  p ← ask id;
  socketFd ← (if propSocket p then new_socket true domain type protocol
              else if libcSocket p then new_socket false domain type protocol
              else mret (-1));
  markNewSocket domain socketFd.

Definition getNetworkForResolv (netId : Z) : C Z :=
  if negb (netId =? NETID_UNSET) then mret netId
  else
    netId ← ask netIdForProcess;
    if negb (netId =? NETID_UNSET) then mret netId else ask netIdForResolv.

(** [resolv] chooses the target variable. *)
Definition setNetworkForTarget (netId : Z) (resolv : bool) : C Z :=
  if netId =? NETID_UNSET then update (set_target resolv netId);; mret 0
  else
    socketFd ← new_socket false AF_INET6 2 0;
    if socketFd <? 0 then e ← ask errno; mret (- e)
    else
      error ← setNetworkForSocket netId socketFd;
      (if error =? 0 then update (set_target resolv netId) else mret tt);;
      close socketFd;;
      mret error.

(** The initialisation functions: [function] tells whether libc passes a
    pointer to a function, which is then saved and replaced (the result). *)
Definition netdClientInitAccept4 (function : bool) : C bool :=
  (if function then
     update (fun p => Process (netIdForProcess p) (netIdForResolv p) true (libcConnect p)
       (libcSocket p) (propConnect p) (propSocket p) (marks p) (errno p) (calls p))
   else mret tt);;
  mret function.

Definition netdClientInitConnect (function : bool) : C bool :=
  update (fun p => Process (netIdForProcess p) (netIdForResolv p) (libcAccept4 p)
    (function || libcConnect p) (libcSocket p)
    (match os_vendor with Some (connect, _) => connect | None => propConnect p end)
    (propSocket p) (marks p) (errno p) (calls p));;
  mret function.

Definition netdClientInitSocket (function : bool) : C bool :=
  update (fun p => Process (netIdForProcess p) (netIdForResolv p) (libcAccept4 p)
    (libcConnect p) (function || libcSocket p) (propConnect p)
    (match os_vendor with Some (_, socket) => socket | None => propSocket p end)
    (marks p) (errno p) (calls p));;
  mret function.

(** [netId] tells whether the pointer is not null; what is written there is the
    second component. *)
Definition getNetworkForSocket (netId : bool) (socketFd : Z) : C (Z * option Z) :=
  if negb netId || (socketFd <? 0) then mret (- EBADF, None)
  else
    p ← ask id;
    match marks p !! socketFd with
    | None => mret (- EBADF, None)
    | Some fwmark => mret (0, Some (fwmark_netId fwmark))
    end.

Definition getNetworkForProcess : C Z := ask netIdForProcess.
Definition setNetworkForProcess (netId : Z) : C Z := setNetworkForTarget netId false.
Definition setNetworkForResolv (netId : Z) : C Z := setNetworkForTarget netId true.

Definition protectFromVpn (socketFd : Z) : C Z :=
  if socketFd <? 0 then mret (- EBADF) else send (Command PROTECT_FROM_VPN 0 0) socketFd.

Definition setNetworkForUser (user socketFd : Z) : C Z :=
  if socketFd <? 0 then mret (- EBADF) else send (Command SELECT_FOR_USER 0 user) socketFd.
End NetdClient.

(** ** Lemmas *)

Section Lemmas.
Context {O : Os} (stray : Network -> Z) (server : list call -> NC) (uid : Z).
Implicit Types p : process.

Abbreviation send' := (send stray server uid).
Abbreviation handled' := (handled stray server uid).

(** The parts of the process an exchange leaves alone. *)
Definition same_library p p' : Prop :=
  netIdForProcess p' = netIdForProcess p /\ netIdForResolv p' = netIdForResolv p /\
  errno p' = errno p.

(** The server's half: an error leaves the marks, success gives the socket the
    mark the switch computed. *)
Lemma mark_command_error s c old e : mark_command stray s uid c old = inl e -> e <> 0.
Proof.
  unfold mark_command. intros H.
  repeat match type of H with
  | (let _ := _ in _) = _ => cbv zeta in H
  | (if ?b then _ else _) = _ => destruct b eqn:?
  end; simplify_eq; bool_to_prop; try done; by destruct (_ =? 0).
Qed.

Lemma handled_cases c fd p :
  ((handled' c fd p).1 <> 0 /\ (handled' c fd p).2 = marks p) \/
  exists old w q, (handled' c fd p).1 = 0 /\ 0 <= fd /\ marks p !! fd = Some old /\
    mark_command stray (server (calls p)) uid c old = inr (w, q) /\
    (handled' c fd p).2 = <[fd := set_permission q w]> (marks p).
Proof.
  unfold handled, processClient. cbn [messageLength recv_errno command passed_fd].
  change (sizeof_FwmarkCommand <=? 0) with false.
  change (sizeof_FwmarkCommand =? sizeof_FwmarkCommand) with true. cbn [negb].
  destruct (fd <? 0) eqn:Ef; [by left|]. bool_to_prop. cbn [server_sockets get_mark set_mark].
  destruct (marks p !! fd) as [old|] eqn:Eo; [|by left].
  destruct (mark_command stray (server (calls p)) uid c old) as [e|[w q]] eqn:Em.
  { left. cbn. split; [by eapply mark_command_error|done]. }
  cbn [fst snd]. destruct (os_set_mark (calls p) fd) as [e|]; cbn [fst snd].
  - destruct (- e =? 0) eqn:Ee; bool_to_prop; [|by left]. right. by exists old, w, q.
  - right. by exists old, w, q.
Qed.

(** An exchange changes nothing of the library's state, and only the mark of
    the socket it is about, to one the server computed from the old one. *)
Definition marked c fd p (m : gmap Z Z) : Prop :=
  exists old w q, 0 <= fd /\ marks p !! fd = Some old /\
    mark_command stray (server (calls p)) uid c old = inr (w, q) /\
    m = <[fd := set_permission q w]> (marks p).

Lemma send_spec c fd p :
  let '(error, p') := send' c fd p in
  same_library p p' /\ (marks p' = marks p \/ marked c fd p (marks p')) /\
  (error = 0 -> os_channel (calls p) c fd = Answered -> marked c fd p (marks p')).
Proof.
  unfold send, ask, update, mbind, C_bind, mret, C_ret.
  pose proof (handled_cases c fd p) as Hh.
  destruct (os_channel (calls p) c fd); cbn;
    try (split_and!; try done; by left);
    (split_and!; [done..| |]);
    destruct Hh as [[Hne ->]|(old & w & q & H0 & Hfd & Ho & Hm & ->)]; auto; try done;
    try (right; by exists old, w, q). intros _ _. by exists old, w, q.
Qed.
End Lemmas.

(** ** Invariants of a process *)

(** [preserves I m]: the computation keeps the invariant. *)
Definition preserves {A} (I : process -> Prop) (m : C A) : Prop := forall p, I p -> I (m p).2.

Lemma preserves_ret {A} (I : process -> Prop) (a : A) : preserves I (mret a).
Proof. by intros p. Qed.

Lemma preserves_ask {A} (I : process -> Prop) (f : process -> A) : preserves I (ask f).
Proof. by intros p. Qed.

Lemma preserves_update (I : process -> Prop) f : (forall p, I p -> I (f p)) -> preserves I (update f).
Proof. intros H p. apply H. Qed.

Lemma preserves_bind {A B} (I : process -> Prop) (m : C A) (k : A -> C B) :
  preserves I m -> (forall a, preserves I (k a)) -> preserves I (m ≫= k).
Proof.
  intros Hm Hk p Hp. unfold mbind, C_bind. specialize (Hm p Hp).
  destruct (m p) as [a p1]. by apply Hk.
Qed.

Lemma preserves_if {A} (I : process -> Prop) (b : bool) (m1 m2 : C A) :
  preserves I m1 -> preserves I m2 -> preserves I (if b then m1 else m2).
Proof. by destruct b. Qed.

(** Invariants that only depend on the marks. *)
Ltac preserves_step :=
  first [ apply preserves_ret | apply preserves_ask | apply preserves_if | apply preserves_bind | progress intros
        | apply preserves_update; by intros | progress case_match ].

(** ** Lockdown, end to end *)

(** What an application may call; the results are left to it. *)
Inductive op :=
| DoSocket (domain type protocol : Z)
| DoAccept4 (sockfd : Z) (addr : bool) (flags : Z)
| DoConnect (fd : Z) (addr : option Z)
| DoSetNetworkForSocket (netId fd : Z)
| DoSetNetworkForProcess (netId : Z)
| DoSetNetworkForResolv (netId : Z)
| DoProtectFromVpn (fd : Z)
| DoSetNetworkForUser (user fd : Z)
| DoClose (fd : Z).

Section Lockdown.
Context {O : Os} (stray : Network -> Z) (server : list call -> NC) (uid : Z).

(** The process, and which of its descriptors accept4() returned last. *)
Definition run_op (o : op) (st : process * gset Z) : process * gset Z :=
  let '(p, accepted) := st in
  match o with
  | DoSocket domain type protocol =>
      let '(fd, p) := netdClientSocket stray server uid domain type protocol p in (p, if fd =? -1 then accepted else accepted ∖ {[fd]})
  | DoAccept4 sockfd addr flags =>
      let '(fd, p) := netdClientAccept4 stray server uid sockfd addr flags p in (p, accepted ∪ {[fd]})
  | DoConnect fd addr => ((netdClientConnect stray server uid fd addr p).2, accepted)
  | DoSetNetworkForSocket netId fd => ((setNetworkForSocket stray server uid netId fd p).2, accepted)
  | DoSetNetworkForProcess netId => ((setNetworkForProcess stray server uid netId p).2, accepted)
  | DoSetNetworkForResolv netId => ((setNetworkForResolv stray server uid netId p).2, accepted)
  | DoProtectFromVpn fd => ((protectFromVpn stray server uid fd p).2, accepted)
  | DoSetNetworkForUser user fd => ((setNetworkForUser stray server uid user fd p).2, accepted)
  | DoClose fd => ((close fd p).2, accepted)
  end.

Definition run_ops (ops : list op) (st : process * gset Z) : process * gset Z := foldl (fun st o => run_op o st) st ops.

(** The kernel creates sockets without a mark. *)
Definition unmarked_sockets : Prop :=
  forall l vendor domain type protocol fd mark,
    os_socket l vendor domain type protocol = inr (fd, mark) -> mark = 0.

(** A state in which the user is under a secure VPN and may not protect sockets. *)
Definition under_lockdown (s : NC) : Prop :=
  nc_ok s /\ canProtect s uid = false /\
  exists v, getVirtualNetworkForUserLocked s uid = Some v /\ VirtualNetwork.mSecure v = true.

(** Not protected, and only explicit for what was, in a state of the server, a VPN
    that applies to the user. *)
Definition locked_down (w : Z) : Prop :=
  fwmark_protectedFromVpn w = false /\
  (fwmark_explicitlySelected w = true -> exists l v,
     getNetworkLocked (server l) (fwmark_netId w) = Some (Virtual v) /\
     VirtualNetwork.appliesToUser v uid = true).

(** Every socket but those in [but]. *)
Definition locked_but (but : gset Z) (p : process) : Prop :=
  forall fd w, marks p !! fd = Some w -> fd ∉ but -> locked_down w.

Context (Hunmarked : unmarked_sockets) (Hserver : forall l, under_lockdown (server l)).

(** What the server gives a socket: the exception stays one. *)
Lemma marked_locked but c fd p p' :
  marked stray server uid c fd p (marks p') -> locked_but but p -> locked_but but p'.
Proof.
  intros (old & w & q & Hfd & Ho & Hm & E) Hp fd' w' Hw Hb. rewrite E in Hw.
  destruct (decide (fd' = fd)) as [->|Hne]; [|rewrite lookup_insert_ne in Hw by done; by eapply Hp].
  rewrite lookup_insert_eq in Hw. injection Hw as <-.
  destruct (Hserver (calls p)) as (Hok & Hright & v & Hv & Hsecure).
  destruct (Hp fd old Ho Hb) as [Hpro Hexp]. unfold locked_down. autorewrite with fwmark. split.
  - apply not_true_iff_false. intros Ht. by destruct (mark_command_protected _ _ _ _ _ _ _ Hm Ht); congruence.
  - intros He. destruct (mark_command_explicit _ _ _ _ _ _ _ Hok Hm He) as [[E1 ->]|[Ha|?]];
      [by apply Hexp| |congruence].
    destruct (access_under_vpn stray (server (calls p)) uid v _ Hok Hv Hsecure Hright Ha) as (v' & H1 & H2).
    by exists (calls p), v'.
Qed.

Lemma preserves_send but c fd : preserves (locked_but but) (send stray server uid c fd).
Proof.
  intros p Hp. pose proof (send_spec stray server uid c fd p) as H.
  destruct (send stray server uid c fd p) as [error p'].
  destruct H as (_ & [E|Hm] & _); cbn; [intros fd' w; rewrite E; apply Hp|by eapply marked_locked].
Qed.

(** A new socket has no mark, whatever it replaces. *)
Lemma new_socket_locked but vendor domain type protocol p :
  locked_but but p ->
  let '(fd, p') := new_socket vendor domain type protocol p in
  locked_but but p' /\ (fd <> -1 -> locked_but (but ∖ {[fd]}) p').
Proof.
  intros Hp. unfold new_socket, ask, update, mbind, C_bind.
  destruct (os_socket (calls p) vendor domain type protocol) as [e|[fd mark]] eqn:E; [by split|].
  apply Hunmarked in E as ->.
  assert (locked_but (but ∖ {[fd]}) (set_marks <[fd := 0]> (CSocket vendor domain type protocol) p)) as H.
  { intros fd' w Hw Hb. cbn in Hw. destruct (decide (fd' = fd)) as [->|Hne].
    - rewrite lookup_insert_eq in Hw. by injection Hw as <-.
    - rewrite lookup_insert_ne in Hw by done. apply (Hp fd' w Hw). set_solver. }
  split; [|done]. intros fd' w Hw Hb. apply (H fd' w Hw). set_solver.
Qed.

Lemma preserves_new_socket but vendor domain type protocol :
  preserves (locked_but but) (new_socket vendor domain type protocol).
Proof.
  intros p Hp. pose proof (new_socket_locked but vendor domain type protocol p Hp) as H.
  destruct (new_socket vendor domain type protocol p) as [fd p']. by destruct H.
Qed.

Lemma preserves_close but fd : preserves (locked_but but) (close fd).
Proof. intros p Hp fd' w Hw Hb. cbn in Hw. apply lookup_delete_Some in Hw as [_ Hw]. by eapply Hp. Qed.

Lemma locked_mono but but' p : but ⊆ but' -> locked_but but p -> locked_but but' p.
Proof. intros Hs Hp fd w Hw Hb. apply (Hp fd w Hw). set_solver. Qed.

Lemma close_locked but fd p : locked_but (but ∪ {[fd]}) p -> locked_but but (close fd p).2.
Proof. intros Hp fd' w Hw Hb. cbn in Hw. apply lookup_delete_Some in Hw as [Hne Hw]. apply (Hp fd' w Hw). set_solver. Qed.

(** The new socket of [netdClientSocket] is no exception. *)
Lemma markNewSocket_locked but domain fd p :
  locked_but but p -> (fd <> -1 -> locked_but (but ∖ {[fd]}) p) ->
  let '(r, p') := markNewSocket stray server uid domain fd p in
  locked_but (if r =? -1 then but else but ∖ {[r]}) p'.
Proof.
  intros Hp Hnew. unfold markNewSocket. destruct (-1 =? fd) eqn:Ef; [done|]. apply Z.eqb_neq in Ef.
  specialize (Hnew ltac:(congruence)). unfold ask, mbind, C_bind, mret, C_ret.
  destruct (_ && _); [|by rewrite (proj2 (Z.eqb_neq fd (-1))) by congruence].
  unfold setNetworkForSocket. destruct (fd <? 0).
  { cbn. apply (close_locked but fd p). eapply locked_mono; [|exact Hnew]. set_solver. }
  pose proof (preserves_send (but ∖ {[fd]}) (Command SELECT_NETWORK (netIdForProcess p) 0) fd p Hnew) as Hs.
  destruct (send stray server uid _ fd p) as [error p2]. cbn in Hs.
  destruct (negb (error =? 0)); cbn; [|by rewrite (proj2 (Z.eqb_neq fd (-1))) by congruence].
  apply (close_locked but fd p2). eapply locked_mono; [|exact Hs]. set_solver.
Qed.

Lemma socket_locked but domain type protocol p :
  locked_but but p ->
  let '(fd, p') := netdClientSocket stray server uid domain type protocol p in
  locked_but (if fd =? -1 then but else but ∖ {[fd]}) p'.
Proof.
  intros Hp. unfold netdClientSocket, ask, mbind, C_bind, id.
  assert (forall vendor, let '(fd, p') := (let '(a, p1) := new_socket vendor domain type protocol p in
      markNewSocket stray server uid domain a p1) in locked_but (if fd =? -1 then but else but ∖ {[fd]}) p') as H.
  { intros vendor. pose proof (new_socket_locked but vendor domain type protocol p Hp) as H.
    destruct (new_socket vendor domain type protocol p) as [fd p']. destruct H. by apply markNewSocket_locked. }
  destruct (propSocket p); [apply H|]. destruct (libcSocket p); [apply H|done].
Qed.

(** An accepted socket is an exception, unless it is closed again. *)
Lemma markAccepted_locked but fd family p :
  locked_but (but ∪ {[fd]}) p ->
  let '(r, p') := markAccepted stray server uid fd family p in locked_but (but ∪ {[r]}) p'.
Proof.
  assert (forall error q, locked_but (but ∪ {[fd]}) q ->
    let '(r, p') := closeFdAndSetErrno fd error q in locked_but (but ∪ {[r]}) p') as Hclose.
  { intros error q Hq. pose proof (close_locked but fd q Hq) as H. cbn in H |- *. eapply locked_mono; [|exact H]. set_solver. }
  intros Hp. unfold markAccepted. destruct family as [e|family]; [by apply Hclose|].
  destruct (shouldSetFwmark family); [|done]. unfold mbind, C_bind.
  pose proof (preserves_send (but ∪ {[fd]}) (Command ON_ACCEPT 0 0) fd p Hp) as Hs.
  destruct (send stray server uid _ fd p) as [error p3]. cbn in Hs.
  destruct (negb (error =? 0)); [by apply Hclose|done].
Qed.

Lemma accept_locked but sockfd addr flags p :
  locked_but but p ->
  let '(fd, p') := netdClientAccept4 stray server uid sockfd addr flags p in locked_but (but ∪ {[fd]}) p'.
Proof.
  intros Hp. unfold netdClientAccept4, ask, mbind, C_bind.
  destruct (os_accept4 (calls p) sockfd flags) as [e|[[fd mark] sa_family]] eqn:E.
  { cbn. eapply locked_mono; [|exact Hp]. set_solver. }
  cbn. destruct addr; apply markAccepted_locked; intros fd' w Hw Hb; cbn in Hw;
    rewrite lookup_insert_ne in Hw by set_solver; apply (Hp fd' w Hw); set_solver.
Qed.

Lemma run_op_locked o st : locked_but st.2 st.1 -> locked_but (run_op o st).2 (run_op o st).1.
Proof.
  destruct st as [p but]. cbn [fst snd]. intros Hp.
  destruct o as [domain type protocol|sockfd addr flags|fd addr|netId fd|netId|netId|fd|user fd|fd]; cbn [run_op].
  { pose proof (socket_locked but domain type protocol p Hp) as H. by destruct (netdClientSocket _ _ _ _ _ _ _) as [fd p']. }
  { pose proof (accept_locked but sockfd addr flags p Hp) as H. by destruct (netdClientAccept4 _ _ _ _ _ _ _) as [fd p']. }
  all: cbn [fst snd]; revert p Hp; unfold netdClientConnect, setNetworkForProcess,
    setNetworkForResolv, setNetworkForTarget, setNetworkForSocket, protectFromVpn, setNetworkForUser.
  all: match goal with |- forall p, locked_but ?b p -> locked_but ?b (?m p).2 => change (preserves (locked_but b) m) end.
  all: repeat first [apply preserves_send | apply preserves_new_socket | apply preserves_close | preserves_step].
Qed.

(** C4. Lockdown, end to end.  Whatever calls of the library an application makes,
    however its exchanges with the server go, and whatever states the server is in, as
    long as in all of them the user is under a secure VPN and has no right to protect
    sockets: no socket the application opened (accept4() gives it others, with a mark
    from the kernel) is ever protected from VPNs, nor selected for anything but a VPN
    that applied to the user. *)
Theorem lockdown_end_to_end ops p fd w :
  marks p = ∅ ->
  let '(p', accepted) := run_ops ops (p, {[-1]}) in
  marks p' !! fd = Some w -> fd ∉ accepted -> locked_down w.
Proof.
  intros Hempty. assert (locked_but (run_ops ops (p, {[-1]})).2 (run_ops ops (p, {[-1]})).1) as H.
  { assert (locked_but {[-1]} p) as Hp by (intros fd' w' Hw; by rewrite Hempty in Hw).
    change (locked_but (p, {[-1]} : gset Z).2 (p, {[-1]} : gset Z).1) in Hp. revert Hp. generalize (p, {[-1]} : gset Z).
    induction ops as [|o ops IH]; intros st Hst; [done|]. by apply IH, run_op_locked. }
  destruct (run_ops ops (p, {[-1]})) as [p' accepted]. apply H.
Qed.
End Lockdown.
(** ** Sockets of a process bound to a network *)

Section Bound.
Context {O : Os} (stray : Network -> Z) (server : list call -> NC) (uid : Z).
Context (Hok : forall l, nc_ok (server l)).

(** What becomes of a new socket [fd0] among the sockets [m]. *)
Lemma markNewSocket_spec domain fd0 mark m p fd p' :
  marks p = <[fd0 := mark]> m -> m !! fd0 = None -> 0 <= fd0 ->
  markNewSocket stray server uid domain fd0 p = (fd, p') ->
  (fd = -1 -> marks p' = m) /\
  (fd <> -1 -> fd = fd0 /\ exists w, marks p' = <[fd := w]> m /\
     let n := netIdForProcess p in
     n <> NETID_UNSET -> shouldSetFwmark domain = true ->
     os_channel (calls p) (Command SELECT_NETWORK n 0) fd = Answered ->
     fwmark_netId w = n /\ fwmark_explicitlySelected w = true /\
     checkUserNetworkAccess stray (server (calls p)) uid n = 0).
Proof.
  intros Hm Hfd Hge. unfold markNewSocket, ask, mbind, C_bind.
  rewrite (proj2 (Z.eqb_neq (-1) fd0)) by lia.
  destruct (negb (netIdForProcess p =? NETID_UNSET) && shouldSetFwmark domain) eqn:Ec.
  2: { intros [= <- <-]. split; [lia|]. intros _. split; [done|]. exists mark. split; [done|].
       cbv zeta. intros Hn Hs. rewrite Hs, (proj2 (Z.eqb_neq _ _) Hn) in Ec. done. }
  unfold setNetworkForSocket. rewrite (proj2 (Z.ltb_ge fd0 0)) by lia.
  pose proof (send_spec stray server uid (Command SELECT_NETWORK (netIdForProcess p) 0) fd0 p) as Hs.
  destruct (send stray server uid _ fd0 p) as [error p2]. destruct Hs as (_ & Hmarks & Hans).
  destruct (error =? 0) eqn:E0; cbn [negb].
  - intros [= <- <-]. split; [lia|]. intros _. split; [done|]. bool_to_prop.
    assert (exists w, marks p2 = <[fd0 := w]> m) as [w Hw].
    { destruct Hmarks as [E|(old & w & q & _ & _ & _ & E)]; rewrite E, Hm; [by eexists|].
      rewrite insert_insert_eq. by eexists. }
    exists w. split; [done|]. intros Hn _ Ha.
    destruct (Hans E0 Ha) as (old & w0 & q & _ & _ & Hc & E).
    assert (w = set_permission q w0) as ->.
    { rewrite Hw, Hm, insert_insert_eq in E. apply (f_equal (lookup fd0)) in E.
      rewrite !lookup_insert_eq in E. by injection E. }
    apply mark_command_select in Hc as (Hc & He & Hx & _); [|done..].
    by autorewrite with fwmark.
  - unfold closeFdAndSetErrno, close, update, mbind, C_bind, mret, C_ret. intros [= <- <-].
    split; [|done]. intros _. cbn. destruct Hmarks as [E|(old & w & q & _ & _ & _ & E)]; rewrite E, Hm;
      [|rewrite insert_insert_eq]; by apply delete_insert_id.
Qed.

(** C15. A socket opened while the process is bound to a network is either
    returned with a mark for that network, after the server checked that the
    user may use it, or not returned at all and closed again, as long as the
    server answers; the marks of the other sockets do not change. *)
Theorem socket_bound domain type protocol p fd p' :
  (forall vendor fd mark, os_socket (calls p) vendor domain type protocol = inr (fd, mark) ->
     0 <= fd /\ marks p !! fd = None) ->
  netdClientSocket stray server uid domain type protocol p = (fd, p') ->
  (fd = -1 -> marks p' = marks p) /\
  (fd <> -1 -> exists w, marks p' = <[fd := w]> (marks p) /\
     let opened := calls p ++ [CSocket (propSocket p) domain type protocol] in
     let n := netIdForProcess p in
     n <> NETID_UNSET -> shouldSetFwmark domain = true ->
     os_channel opened (Command SELECT_NETWORK n 0) fd = Answered ->
     fwmark_netId w = n /\ fwmark_explicitlySelected w = true /\
     checkUserNetworkAccess stray (server opened) uid n = 0).
Proof.
  intros Hfresh. unfold netdClientSocket, ask, mbind, C_bind, id.
  assert (forall vendor, vendor = propSocket p -> (let '(a, p1) :=
      new_socket vendor domain type protocol p in markNewSocket stray server uid domain a p1) =
    (fd, p') -> (fd = -1 -> marks p' = marks p) /\ (fd <> -1 -> exists w, marks p' = <[fd := w]> (marks p) /\
     let opened := calls p ++ [CSocket (propSocket p) domain type protocol] in
     let n := netIdForProcess p in
     n <> NETID_UNSET -> shouldSetFwmark domain = true ->
     os_channel opened (Command SELECT_NETWORK n 0) fd = Answered ->
     fwmark_netId w = n /\ fwmark_explicitlySelected w = true /\
     checkUserNetworkAccess stray (server opened) uid n = 0)) as Hnew.
  { intros vendor Hv. unfold new_socket, ask, update, mbind, C_bind, mret, C_ret.
    destruct (os_socket (calls p) vendor domain type protocol) as [e|[fd0 mark]] eqn:Eo.
    - intros [= <- <-]. by split.
    - destruct (Hfresh _ _ _ Eo) as [Hge Hnone]. subst vendor. intros Hrun.
      eapply markNewSocket_spec in Hrun as [H1 H2]; [|reflexivity|done|done].
      split; [exact H1|]. intros Hne. by destruct (H2 Hne) as [-> Hw]. }
  destruct (propSocket p) eqn:Ev; [by apply Hnew|].
  destruct (libcSocket p); [by apply Hnew|]. intros [= <- <-]. by split.
Qed.
End Bound.

(** ** Witnesses *)

(** Every call succeeds and the server always answers. *)
Definition sample_os : Os := {|
  os_socket := fun l _ _ _ _ => inr (3 + Z.of_nat (length l), 0);
  os_accept4 := fun l _ _ => inr (3 + Z.of_nat (length l), 0, AF_INET);
  os_connect := fun _ _ _ => None;
  os_domain := fun _ _ => inr AF_INET;
  os_channel := fun _ _ _ => Answered;
  os_set_mark := fun _ _ => None;
  os_no_client := false;
  os_vendor := None
|}.

Definition new_process (netId : Z) : process := Process netId 0 true true true false false ∅ 0 [].

Lemma sample_os_unmarked : unmarked_sockets (O:=sample_os).
Proof. by intros l vendor domain type protocol fd mark [= _ <-]. Qed.

(** An application under the secure VPN 101 tries network 100 and to protect
    its socket, then selects its VPN; the socket it accepts comes with another mark. *)
Definition sample_ops : list op :=
  [DoSocket AF_INET 1 0; DoSetNetworkForSocket 100 3; DoProtectFromVpn 3;
   DoSetNetworkForUser 1000 3; DoSetNetworkForSocket 101 3; DoConnect 3 (Some AF_INET); DoAccept4 3 true 0].

Lemma sample_under_lockdown : under_lockdown 10050 sample_state.
Proof. split; [apply sample_state_ok|]. split; [reflexivity|]. exists sample_vpn. by split. Qed.

Lemma lockdown_end_to_end_witness :
  let end_state := run_ops (O:=sample_os) sample_stray (fun _ => sample_state) 10050 sample_ops (new_process 0, {[-1]}) in
  end_state.2 = {[-1; 10]} /\ marks end_state.1 !! 3 = Some (pack 101 true false PERMISSION_NONE) /\
  locked_down (fun _ => sample_state) 10050 (pack 101 true false PERMISSION_NONE).
Proof.
  pose proof (lockdown_end_to_end (O:=sample_os) sample_stray (fun _ => sample_state) 10050 sample_os_unmarked
    (fun _ => sample_under_lockdown) sample_ops (new_process 0) 3 (pack 101 true false PERMISSION_NONE) eq_refl) as H.
  destruct (run_ops (O:=sample_os) sample_stray (fun _ => sample_state) 10050 sample_ops (new_process 0, {[-1]}))
    as [p accepted] eqn:E.
  assert (accepted = {[-1; 10]}) as -> by (vm_compute in E; injection E as _ <-; vm_compute; reflexivity).
  assert (marks p !! 3 = Some (pack 101 true false PERMISSION_NONE)) as Hm by (vm_compute in E; injection E as <-; vm_compute; reflexivity).
  split; [reflexivity|]. split; [exact Hm|]. apply H; [exact Hm|]. apply (bool_decide_unpack _). vm_compute. exact I.
Defined.

Lemma socket_bound_witness :
  let run := netdClientSocket (O:=sample_os) sample_stray (fun _ => sample_state) 10050 AF_INET6 1 0
               (new_process 101) in
  run.1 = 3 /\ exists w, marks run.2 = <[3 := w]> ∅ /\ fwmark_netId w = 101 /\
    fwmark_explicitlySelected w = true.
Proof.
  split; [vm_compute; reflexivity|].
  destruct (socket_bound (O:=sample_os) sample_stray (fun _ => sample_state) 10050
    (fun _ => sample_state_ok) AF_INET6 1 0 (new_process 101) 3
    (netdClientSocket (O:=sample_os) sample_stray (fun _ => sample_state) 10050 AF_INET6 1 0
      (new_process 101)).2) as [_ H].
  - by intros vendor fd mark [= <- _].
  - vm_compute. reflexivity.
  - destruct (H ltac:(done)) as (w & Hm & Hw). exists w. split; [exact Hm|].
    destruct (Hw ltac:(done) ltac:(done) ltac:(done)) as (Hn & He & _). exact (conj Hn He).
Defined.

(** With the vendor's connect(), a null address is dereferenced. *)
Lemma connect_null_address :
  (netdClientConnect (O:=sample_os) sample_stray (fun _ => sample_state) 10050 3 None
    (Process 0 0 true true true true false ∅ 0 [])).1 = None.
Proof. vm_compute. reflexivity. Qed.

(** A reply that never comes counts as success: the socket is not marked. *)
Lemma no_server_is_success :
  let os := {|
    os_socket := fun l _ _ _ _ => inr (3, 0); os_accept4 := fun _ _ _ => inl 1;
    os_connect := fun _ _ _ => None; os_domain := fun _ _ => inr AF_INET;
    os_channel := fun _ _ _ => NoServer; os_set_mark := fun _ _ => None;
    os_no_client := false; os_vendor := None |} in
  let run := netdClientSocket (O:=os) sample_stray (fun _ => sample_state) 10050 AF_INET 1 0
               (new_process 101) in
  run.1 = 3 /\ marks run.2 !! 3 = Some 0.
Proof. vm_compute. by split. Qed.
