(* ===== verification/TetherController.v ===== *)
(** * TetherController: the tethered interfaces and the two daemons behind them

    Models [server/TetherController.cpp]: IP forwarding, the DHCP and DNS server
    dnsmasq, the router advertisement daemon, and the lists of interfaces they
    serve.  The lists of [List.h] are lists; starting and stopping a child, and
    writing to its pipe, are events of the trace. *)
From S2P Require Import Prelude Platform Cstd Fwmark UidRanges Children Netlink NetdConstants SampleKernel.

Module TetherController.

(** ** Data *)

Definition RTRADVDAEMON : string := "/system/bin/radish".
Definition DNSMASQ : string := "/system/bin/dnsmasq".
Definition IP4_CFG_IP_FORWARD : string := "/proc/sys/net/ipv4/ip_forward".
Definition IP6_CFG_ALL_PROXY_NDP : string := "/proc/sys/net/ipv6/conf/all/proxy_ndp".
Definition IP6_CFG_ALL_FORWARDING : string := "/proc/sys/net/ipv6/conf/all/forwarding".
Definition PROC_PATH_SIZE : Z := 255.
Definition SYS_PATH_SIZE : Z := PROC_PATH_SIZE.
Definition RTRADVDAEMON_MIN_IFACES : Z := 2.
Definition MAX_TABLE_LEN : Z := 11.
Definition MIN_TABLE_NUMBER : Z := 0.
Definition BASE_TABLE_NUMBER : Z := 1000.
Definition MAX_CMD_SIZE : Z := 1024.

(** [mDaemonFd] is -1 and the pids are 0 when there is no child. *)
Record t := State {
  mInterfaces : list string;
  mUpstreamInterfaces : list string;
  mDnsForwarders : list Z;
  mDnsNetId : Z;
  mDaemonPid : Z;
  mDaemonFd : Z;
  mRtrAdvPid : Z;
  errno : Z
}.

Definition set_mInterfaces f (s : t) : t :=
  State (f (mInterfaces s)) (mUpstreamInterfaces s) (mDnsForwarders s) (mDnsNetId s)
    (mDaemonPid s) (mDaemonFd s) (mRtrAdvPid s) (errno s).
Definition set_mUpstreamInterfaces f (s : t) : t :=
  State (mInterfaces s) (f (mUpstreamInterfaces s)) (mDnsForwarders s) (mDnsNetId s)
    (mDaemonPid s) (mDaemonFd s) (mRtrAdvPid s) (errno s).
Definition set_mDnsForwarders f (s : t) : t :=
  State (mInterfaces s) (mUpstreamInterfaces s) (f (mDnsForwarders s)) (mDnsNetId s)
    (mDaemonPid s) (mDaemonFd s) (mRtrAdvPid s) (errno s).
Definition set_mDnsNetId n (s : t) : t :=
  State (mInterfaces s) (mUpstreamInterfaces s) (mDnsForwarders s) n
    (mDaemonPid s) (mDaemonFd s) (mRtrAdvPid s) (errno s).
Definition set_daemon pid fd (s : t) : t :=
  State (mInterfaces s) (mUpstreamInterfaces s) (mDnsForwarders s) (mDnsNetId s)
    pid fd (mRtrAdvPid s) (errno s).
Definition set_mRtrAdvPid pid (s : t) : t :=
  State (mInterfaces s) (mUpstreamInterfaces s) (mDnsForwarders s) (mDnsNetId s)
    (mDaemonPid s) (mDaemonFd s) pid (errno s).
Definition set_errno e (s : t) : t :=
  State (mInterfaces s) (mUpstreamInterfaces s) (mDnsForwarders s) (mDnsNetId s)
    (mDaemonPid s) (mDaemonFd s) (mRtrAdvPid s) e.

(** The constructor leaves [mDnsNetId] and [mRtrAdvPid] as they are in memory. *)
Definition init (netId rtrAdvPid : Z) : t := State [] [] [] netId 0 (-1) rtrAdvPid 0.

(** [List::erase] of the first entry with this name. *)
Fixpoint erase_first (name : string) (l : list string) : list string :=
  match l with
  | [] => []
  | x :: l => if String.eqb name x then l else x :: erase_first name l
  end.

Definition mem_name (name : string) (l : list string) : bool := existsb (String.eqb name) l.

(** [inet_ntoa] of an address as a little-endian machine reads it. *)
Definition inet_ntoa (a : Z) : string :=
  print_u (a mod 256) +:+ "." +:+ print_u (a / 256 mod 256) +:+ "." +:+
  print_u (a / 65536 mod 256) +:+ "." +:+ print_u (a / 16777216 mod 256).

(** The "--dhcp-range" arguments, one for each pair of addresses; there is an even
    number of them, as the command "tether start" checks. *)
Fixpoint dhcp_ranges (addrs : list Z) : list string :=
  match addrs with
  | start :: end_ :: addrs =>
      ("--dhcp-range=" +:+ inet_ntoa start +:+ "," +:+ inet_ntoa end_ +:+ ",1h") :: dhcp_ranges addrs
  | _ => []
  end.

Definition dnsmasq_args (addrs : list Z) : list string :=
  [DNSMASQ; "--keep-in-foreground"; "--no-resolv"; "--no-poll"; "--dhcp-authoritative";
   "--dhcp-option-force=43,ANDROID_METERED"; "--pid-file"; ""] ++ dhcp_ranges addrs.

(** The arguments of the router advertisement daemon; a table name that does not
    fit its buffer is left out. *)
Definition radish_args (ifaces : list string) (table_number : Z) : list string :=
  RTRADVDAEMON :: concat (map (fun iface => ["-i"; iface; "-x"]) ifaces) ++
  (if MIN_TABLE_NUMBER <? table_number then
     let table_name := print_d (s32 (table_number + BASE_TABLE_NUMBER)) in
     if MAX_TABLE_LEN <=? strlen table_name then [] else ["-t"; table_name]
   else []).

(** The loop of [applyDnsInterfaces]: [cmdLen] is the length it keeps. *)
Fixpoint join_ifaces (ifaces : list string) (cmdLen : Z) (daemonCmd : string) : string :=
  match ifaces with
  | [] => daemonCmd
  | iface :: ifaces =>
      let cmdLen := cmdLen + (strlen iface + 1) in
      if MAX_CMD_SIZE <=? cmdLen + 1 then daemonCmd
      else join_ifaces ifaces cmdLen (daemonCmd +:+ ":" +:+ iface)
  end.

Section TetherController.
Context {K : Kernel}.

(** The loop of [setDnsForwarders]: the command and the forwarders, [None] when
    a server cannot be parsed. *)
Fixpoint join_servers (servers : list string) (cmdLen : Z) (daemonCmd : string) (forwarders : list Z)
    : option (string * list Z) :=
  match servers with
  | [] => Some (daemonCmd, forwarders)
  | server :: servers =>
      match k_inet_aton server with
      | None => None
      | Some a =>
          let cmdLen := cmdLen + (strlen server + 1) in
          if MAX_CMD_SIZE <=? cmdLen + 1 then Some (daemonCmd, forwarders)
          else join_servers servers cmdLen (daemonCmd +:+ ":" +:+ server) (forwarders ++ [a])
      end
  end.

(** ** IP forwarding *)

Definition config_write_setting (path value : string) : M t Z :=
  fd ← sys_file (FOpen path);
  if fd <? 0 then mret (-1)
  else
    n ← sys_file (FWrite path value);
    if negb (n =? strlen value) then mret (-1) else mret 0.

Definition setIpFwdEnabled (enable : bool) : M t Z :=
  bootmode ← sys_property "ro.bootmode";
  if Bool.eqb enable false && String.eqb "bp-tools" bootmode then mret 0
  else
    fd ← sys_file (FOpen IP4_CFG_IP_FORWARD);
    if fd <? 0 then mret (-1)
    else
      n ← sys_file (FWrite IP4_CFG_IP_FORWARD (if enable then "1" else "0"));
      if negb (n =? 1) then mret (-1)
      else
        ret ← config_write_setting IP6_CFG_ALL_PROXY_NDP (if enable then "2" else "0");
        if negb (ret =? 0) then mret (-1)
        else
          ret ← config_write_setting IP6_CFG_ALL_FORWARDING (if enable then "2" else "0");
          if negb (ret =? 0) then mret (-1) else mret 0.

(** [return -1] in a function that returns [bool] is [true]. *)
Definition getIpFwdEnabled : M t bool :=
  contents ← sys_read IP4_CFG_IP_FORWARD;
  mret match contents with
       | None => false
       | Some EmptyString => true
       | Some (String enabled _) => Ascii.eqb enabled "1"
       end.

(** ** dnsmasq *)

Definition applyDnsInterfaces : M t Z :=
  s ← gets id;
  let daemonCmd := join_ifaces (mInterfaces s) (strlen "update_ifaces") "update_ifaces" in
  let haveInterfaces := negb (String.eqb daemonCmd "update_ifaces") in
  if negb (mDaemonFd s =? -1) && haveInterfaces then
    n ← sys_pipe (mDaemonFd s) daemonCmd;
    if n <? 0 then mret (-1) else mret 0
  else mret 0.

Definition startTethering (addrs : list Z) : M t Z :=
  s ← gets id;
  if negb (mDaemonPid s =? 0) then modify (set_errno EBUSY);; mret (-1)
  else
    child ← sys_spawn (dnsmasq_args addrs);
    match child with
    | SpawnError e => modify (set_errno e);; mret (-1)
    | Spawned pid fd =>
        modify (set_daemon pid fd);;
        applyDnsInterfaces;;
        mret 0
    end.

Definition stopTethering : M t Z :=
  s ← gets id;
  if mDaemonPid s =? 0 then mret 0
  else
    sys_kill (mDaemonPid s);;
    modify (set_daemon 0 (-1));;
    mret 0.

Definition isTetheringStarted : M t bool := gets (fun s => negb (mDaemonPid s =? 0)).

(** ** The router advertisement daemon *)

Definition startV6RtrAdv (ifaces : list string) (table_number : Z) : M t Z :=
  if Z.of_nat (length ifaces) <? RTRADVDAEMON_MIN_IFACES then mret 0
  else
    child ← sys_spawn (radish_args ifaces table_number);
    match child with
    | SpawnError e => modify (set_errno e);; mret (-1)
    | Spawned pid _ => modify (set_mRtrAdvPid pid);; mret 0
    end.

Definition stopV6RtrAdv : M t Z :=
  s ← gets id;
  if mRtrAdvPid s =? 0 then mret 0
  else sys_kill (mRtrAdvPid s);; modify (set_mRtrAdvPid 0);; mret 0.

(** The index in the last line of the file. *)
Definition getIfaceIndexForIface (iface : string) : M t Z :=
  let if_index := "/sys/class/net/" +:+ iface +:+ "/ifindex" in
  if SYS_PATH_SIZE <=? strlen if_index then mret (-1)
  else
    contents ← sys_read if_index;
    mret match contents with
         | None => -1
         | Some s => foldl (fun _ res => atoi res) (-1) (fgets_all (MAX_TABLE_LEN - 1) s)
         end.

(** The loop over the upstream interfaces: the index of the last one. *)
Fixpoint last_index (ifaces : list string) (iface_index : Z) : M t Z :=
  match ifaces with
  | [] => mret iface_index
  | iface :: ifaces =>
      iface_index ← getIfaceIndexForIface iface;
      last_index ifaces iface_index
  end.

Definition configureV6RtrAdv : M t Z :=
  s ← gets id;
  iface_index ← last_index (mUpstreamInterfaces s) (-1);
  stopV6RtrAdv;;
  startV6RtrAdv (mInterfaces s ++ mUpstreamInterfaces s) iface_index;;
  mret 0.

Definition isV6RtrAdvStarted : M t bool := gets (fun s => negb (mRtrAdvPid s =? 0)).

(** ** DNS forwarders *)

Definition setDnsForwarders (netId : Z) (servers : list string) : M t Z :=
  let fwmark := set_permission PERMISSION_SYSTEM
    (set_protectedFromVpn true (set_explicitlySelected true (set_netId netId Fwmark_init))) in
  let daemonCmd := "update_dns:0x" +:+ print_x fwmark in
  match join_servers servers (strlen daemonCmd) daemonCmd [] with
  | None => modify (set_mDnsForwarders (fun _ => []));; mret (-1)
  | Some (daemonCmd, forwarders) =>
      modify (set_mDnsForwarders (fun _ => forwarders));;
      modify (set_mDnsNetId netId);;
      s ← gets id;
      if negb (mDaemonFd s =? -1) then
        n ← sys_pipe (mDaemonFd s) daemonCmd;
        if n <? 0 then modify (set_mDnsForwarders (fun _ => []));; mret (-1)
        else mret 0
      else mret 0
  end.

Definition getDnsNetId : M t Z := gets mDnsNetId.
Definition getDnsForwarders : M t (list Z) := gets mDnsForwarders.

(** ** Interfaces *)

Definition addUpstreamInterface (iface : option string) : M t Z :=
  match iface with
  | None => mret 0
  | Some iface =>
      s ← gets id;
      if mem_name iface (mUpstreamInterfaces s) then mret 0
      else
        modify (set_mUpstreamInterfaces (fun l => l ++ [iface]));;
        configureV6RtrAdv
  end.

Definition removeUpstreamInterface (iface : option string) : M t Z :=
  match iface with
  | None => mret 0
  | Some iface =>
      s ← gets id;
      if mem_name iface (mUpstreamInterfaces s) then
        modify (set_mUpstreamInterfaces (erase_first iface));;
        configureV6RtrAdv
      else mret 0
  end.

Definition tetherInterface (interface : string) : M t Z :=
  if negb (isIfaceName interface) then modify (set_errno ENOENT);; mret (-1)
  else
    modify (set_mInterfaces (fun l => l ++ [interface]));;
    configureV6RtrAdv;;
    ret ← applyDnsInterfaces;
    if negb (ret =? 0) then modify (set_mInterfaces (erase_first interface));; mret (-1)
    else mret 0.

Definition untetherInterface (interface : string) : M t Z :=
  s ← gets id;
  if mem_name interface (mInterfaces s) then
    modify (set_mInterfaces (erase_first interface));;
    configureV6RtrAdv;;
    applyDnsInterfaces
  else modify (set_errno ENOENT);; mret (-1).

Definition getTetheredInterfaceList : M t (list string) := gets mInterfaces.
End TetherController.

(** What the controller believes to run. *)
Definition believed (s : t) : list (string * Z) :=
  (if mDaemonPid s =? 0 then [] else [(DNSMASQ, mDaemonPid s)]) ++
  (if mRtrAdvPid s =? 0 then [] else [(RTRADVDAEMON, mRtrAdvPid s)]).

(** The invariant; [rest] are the children of other controllers. *)
Record inv (rest : list (string * Z)) (s : t) (tr : trace) : Prop := {
  inv_owns : owns rest (believed s) tr;
  inv_fd : mDaemonPid s = 0 <-> mDaemonFd s = -1;
  inv_valid : Forall (fun n => isIfaceName n = true) (mInterfaces s);
  inv_upstream : NoDup (mUpstreamInterfaces s)
}.

(** [steady m]: children, pids and descriptor stay as they are. *)
Definition steady {A} (m : M t A) : Prop := forall s tr,
  wp m (fun _ s' tr' => children tr' = children tr /\
    (mDaemonPid s', mDaemonFd s', mRtrAdvPid s', mInterfaces s', mUpstreamInterfaces s') =
    (mDaemonPid s, mDaemonFd s, mRtrAdvPid s, mInterfaces s, mUpstreamInterfaces s)) s tr.

(** [safe m]: a run keeps the invariant. *)
Definition safe {A} (m : M t A) : Prop :=
  forall rest s tr, inv rest s tr -> wp m (fun _ s' tr' => inv rest s' tr') s tr.

Lemma steady_safe {A} (m : M t A) : steady m -> safe m.
Proof.
  intros H rest s tr [[Hc Hp] Hf Hv Hu]. eapply wp_mono; [apply H|]. cbn.
  intros _ s' tr' [E1 [= E2 E3 E4 E5 E6]].
  split; [split|..]; unfold believed in *; by rewrite ?E1, ?E2, ?E3, ?E4, ?E5, ?E6.
Qed.

Section Rules.
Context {K : Kernel}.

Lemma steady_ret {A} (a : A) : steady (mret a).
Proof. by intros s tr. Qed.
Lemma steady_gets {A} (f : t -> A) : steady (gets f).
Proof. by intros s tr. Qed.
Lemma steady_bind {A B} (m : M t A) (k : A -> M t B) :
  steady m -> (forall a, steady (k a)) -> steady (m ≫= k).
Proof.
  intros Hm Hk s tr. apply wp_bind. eapply wp_mono; [apply Hm|]. intros a s1 tr1 [E1 E2].
  eapply wp_mono; [apply Hk|]. cbn. intros b s2 tr2 [-> ->]. done.
Qed.
Lemma steady_if {A} (b : bool) (m1 m2 : M t A) : steady m1 -> steady m2 -> steady (if b then m1 else m2).
Proof. by destruct b. Qed.
Lemma steady_file op : steady (sys_file op).
Proof. intros s tr. unfold sys_file, wp. by rewrite children_snoc. Qed.
Lemma steady_pipe fd data : steady (sys_pipe fd data).
Proof. intros s tr. unfold sys_pipe, wp. by rewrite children_snoc. Qed.
Lemma steady_read path : steady (sys_read path).
Proof. by intros s tr. Qed.
Lemma steady_property key : steady (sys_property key).
Proof. by intros s tr. Qed.
Lemma steady_errno e : steady (modify (set_errno e)).
Proof. by intros s tr. Qed.
Lemma steady_forwarders f : steady (modify (set_mDnsForwarders f)).
Proof. by intros s tr. Qed.
Lemma steady_netId n : steady (modify (set_mDnsNetId n)).
Proof. by intros s tr. Qed.

Lemma safe_bind {A B} (m : M t A) (k : A -> M t B) : safe m -> (forall a, safe (k a)) -> safe (m ≫= k).
Proof.
  intros Hm Hk rest s tr H. apply wp_bind. eapply wp_mono; [by apply Hm|]. intros a s1 tr1 H1. by apply Hk.
Qed.
Lemma safe_if {A} (b : bool) (m1 m2 : M t A) : safe m1 -> safe m2 -> safe (if b then m1 else m2).
Proof. by destruct b. Qed.
End Rules.

Ltac steady :=
  repeat first
    [ apply steady_ret | apply steady_gets | apply steady_if | apply steady_file | apply steady_pipe
    | apply steady_read | apply steady_property | apply steady_errno | apply steady_forwarders
    | apply steady_netId | apply steady_bind | progress intros | progress case_match ].

Section Invariant.
Context {K : Kernel} (HK : pid_laws K).

Lemma steady_applyDnsInterfaces : steady applyDnsInterfaces.
Proof. unfold applyDnsInterfaces. steady. Qed.

Lemma steady_setIpFwdEnabled b : steady (setIpFwdEnabled b).
Proof. unfold setIpFwdEnabled, config_write_setting. steady. Qed.

Lemma steady_setDnsForwarders n servers : steady (setDnsForwarders n servers).
Proof. unfold setDnsForwarders. cbv zeta. steady. Qed.

Lemma steady_last_index ifaces i : steady (last_index ifaces i).
Proof.
  revert i. induction ifaces as [|iface ifaces IH]; intros i; [apply steady_ret|].
  apply steady_bind; [|done]. unfold getIfaceIndexForIface. steady.
Qed.

(** Stopping a child that is believed to run, and starting one that is not. *)
Lemma inv_kill_daemon rest s tr :
  inv rest s tr -> mDaemonPid s <> 0 -> inv rest (set_daemon 0 (-1) s) (tr ++ [EvKill (mDaemonPid s)]).
Proof.
  intros [Ho Hf Hv Hu] Hne. split; cbn; try done. unfold believed in *. cbn.
  rewrite (proj2 (Z.eqb_neq _ _) Hne) in Ho. by eapply owns_kill.
Qed.

Lemma inv_kill_radish rest s tr :
  inv rest s tr -> mRtrAdvPid s <> 0 -> inv rest (set_mRtrAdvPid 0 s) (tr ++ [EvKill (mRtrAdvPid s)]).
Proof.
  intros [Ho Hf Hv Hu] Hne. split; cbn; try done. unfold believed in *. cbn. rewrite app_nil_r.
  rewrite (proj2 (Z.eqb_neq _ _) Hne), Permutation_app_comm in Ho. by eapply owns_kill.
Qed.

Lemma inv_spawn_daemon rest s tr addrs pid fd :
  inv rest s tr -> mDaemonPid s = 0 -> k_spawn tr (dnsmasq_args addrs) = Spawned pid fd ->
  inv rest (set_daemon pid fd s) (tr ++ [EvSpawn (dnsmasq_args addrs) pid]).
Proof.
  intros [Ho Hf Hv Hu] H0 (Hpid & Hfd & Hnew)%HK. split; cbn; try done; [|lia].
  unfold believed in *. rewrite H0 in Ho. cbn -[dnsmasq_args].
  rewrite (proj2 (Z.eqb_neq pid 0)) by lia. by apply owns_spawn.
Qed.

Lemma inv_spawn_radish rest s tr ifaces n pid fd :
  inv rest s tr -> mRtrAdvPid s = 0 -> k_spawn tr (radish_args ifaces n) = Spawned pid fd ->
  inv rest (set_mRtrAdvPid pid s) (tr ++ [EvSpawn (radish_args ifaces n) pid]).
Proof.
  intros [Ho Hf Hv Hu] H0 (Hpid & Hfd & Hnew)%HK. split; cbn; try done.
  unfold believed in *. rewrite H0, app_nil_r in Ho. cbn -[radish_args].
  rewrite (proj2 (Z.eqb_neq pid 0)), Permutation_app_comm by lia. by apply owns_spawn.
Qed.

Lemma safe_startTethering addrs : safe (startTethering addrs).
Proof.
  intros rest s tr Hs. unfold startTethering. apply wp_bind, wp_gets. cbn [id].
  destruct (mDaemonPid s =? 0) eqn:E; cbn [negb]; bool_to_prop.
  - apply wp_bind. unfold sys_spawn, wp at 1.
    destruct (k_spawn tr (dnsmasq_args addrs)) as [e|pid fd] eqn:Ek.
    + by apply (steady_safe _ (steady_bind _ _ (steady_errno e) (fun _ => steady_ret (-1)))).
    + apply wp_bind, wp_modify. revert Hs.
      intros Hs%(inv_spawn_daemon _ _ _ addrs pid fd); [|done|done]. revert Hs.
      apply steady_safe, steady_bind; [apply steady_applyDnsInterfaces|]. intros; apply steady_ret.
  - by apply (steady_safe _ (steady_bind _ _ (steady_errno _) (fun _ => steady_ret (-1)))).
Qed.

Lemma safe_stopTethering : safe stopTethering.
Proof.
  intros rest s tr Hs. apply wp_bind, wp_gets. cbn [id].
  destruct (mDaemonPid s =? 0) eqn:E; bool_to_prop; [by apply wp_ret|].
  apply wp_bind. unfold sys_kill, wp at 1. apply wp_bind, wp_modify, wp_ret. by apply inv_kill_daemon.
Qed.

Lemma wp_stopV6RtrAdv (Q : Z -> t -> trace -> Prop) rest s tr :
  inv rest s tr -> (forall s' tr', inv rest s' tr' -> mRtrAdvPid s' = 0 -> Q 0 s' tr') ->
  wp stopV6RtrAdv Q s tr.
Proof.
  intros Hs HQ. apply wp_bind, wp_gets. cbn [id].
  destruct (mRtrAdvPid s =? 0) eqn:E; bool_to_prop; [apply wp_ret; by apply HQ|].
  apply wp_bind. unfold sys_kill, wp at 1. apply wp_bind, wp_modify, wp_ret.
  apply HQ; [by apply inv_kill_radish|done].
Qed.

Lemma wp_startV6RtrAdv ifaces n rest s tr :
  inv rest s tr -> mRtrAdvPid s = 0 -> wp (startV6RtrAdv ifaces n) (fun _ s' tr' => inv rest s' tr') s tr.
Proof.
  intros Hs H0. unfold startV6RtrAdv. destruct (_ <? _); [by apply wp_ret|].
  apply wp_bind. unfold sys_spawn, wp at 1.
  destruct (k_spawn tr (radish_args ifaces n)) as [e|pid fd] eqn:Ek.
  - by apply (steady_safe _ (steady_bind _ _ (steady_errno e) (fun _ => steady_ret (-1)))).
  - apply wp_bind, wp_modify, wp_ret. by eapply inv_spawn_radish.
Qed.

Lemma safe_configureV6RtrAdv : safe configureV6RtrAdv.
Proof.
  intros rest s tr Hs. apply wp_bind, wp_gets. cbn [id]. apply wp_bind.
  eapply wp_mono; [by apply (steady_safe _ (steady_last_index _ _))|]. cbn. intros i s1 tr1 H1.
  apply wp_bind. eapply wp_stopV6RtrAdv; [done|]. intros s2 tr2 H2 E2.
  apply wp_bind. eapply wp_mono; [by apply wp_startV6RtrAdv|]. done.
Qed.

Lemma mem_name_spec name l : mem_name name l = true <-> name ∈ l.
Proof.
  unfold mem_name. rewrite existsb_exists. setoid_rewrite <-list_elem_of_In.
  setoid_rewrite String.eqb_eq. split; [by intros (x & Hx & ->)|by exists name].
Qed.

Lemma erase_first_incl name l : erase_first name l ⊆ l.
Proof.
  induction l as [|x l IH]; cbn; [done|]. destruct (String.eqb name x); set_solver.
Qed.

Lemma erase_first_NoDup name l : NoDup l -> NoDup (erase_first name l).
Proof.
  induction 1 as [|x l Hx Hl IH]; cbn; [constructor|]. destruct (String.eqb name x); [done|].
  constructor; [|done]. intros H. by apply Hx, (erase_first_incl name).
Qed.

Lemma inv_mInterfaces f rest s tr :
  inv rest s tr -> Forall (fun n => isIfaceName n = true) (f (mInterfaces s)) ->
  inv rest (set_mInterfaces f s) tr.
Proof. intros [] H. by split. Qed.

Lemma inv_mUpstreamInterfaces f rest s tr :
  inv rest s tr -> NoDup (f (mUpstreamInterfaces s)) -> inv rest (set_mUpstreamInterfaces f s) tr.
Proof. intros [] H. by split. Qed.

Lemma inv_erase name rest s tr : inv rest s tr -> inv rest (set_mInterfaces (erase_first name) s) tr.
Proof.
  intros H. apply inv_mInterfaces; [done|]. destruct H as [_ _ Hv _].
  rewrite Forall_forall in *. intros x Hx. by apply Hv, (erase_first_incl name).
Qed.

Lemma safe_apply : safe applyDnsInterfaces.
Proof. apply steady_safe, steady_applyDnsInterfaces. Qed.

Lemma safe_ret {A} (a : A) : safe (mret a).
Proof. apply steady_safe, steady_ret. Qed.

Lemma safe_addUpstreamInterface iface : safe (addUpstreamInterface iface).
Proof.
  destruct iface as [iface|]; [|apply safe_ret]. intros rest s tr Hs. apply wp_bind, wp_gets. cbn [id].
  destruct (mem_name iface (mUpstreamInterfaces s)) eqn:E; [by apply wp_ret|].
  apply wp_bind, wp_modify, safe_configureV6RtrAdv, inv_mUpstreamInterfaces; [done|].
  apply NoDup_app. split_and!; [by destruct Hs| |apply NoDup_singleton].
  intros x Hx ->%list_elem_of_singleton. apply mem_name_spec in Hx. congruence.
Qed.

Lemma safe_removeUpstreamInterface iface : safe (removeUpstreamInterface iface).
Proof.
  destruct iface as [iface|]; [|apply safe_ret]. intros rest s tr Hs. apply wp_bind, wp_gets. cbn [id].
  destruct (mem_name iface (mUpstreamInterfaces s)) eqn:E; [|by apply wp_ret].
  apply wp_bind, wp_modify, safe_configureV6RtrAdv, inv_mUpstreamInterfaces; [done|].
  apply erase_first_NoDup. by destruct Hs.
Qed.

Lemma safe_tetherInterface interface : safe (tetherInterface interface).
Proof.
  unfold tetherInterface. destruct (isIfaceName interface) eqn:E; cbn [negb].
  - intros rest s tr Hs. apply wp_bind, wp_modify. apply (inv_mInterfaces (fun l => l ++ [interface])) in Hs.
    2: { apply Forall_app_2; [by destruct Hs|by repeat constructor]. }
    revert Hs. apply safe_bind; [apply safe_configureV6RtrAdv|]. intros _.
    apply safe_bind; [apply safe_apply|]. intros ret. apply safe_if; [|apply safe_ret].
    intros rest1 s1 tr1 H1. apply wp_bind, wp_modify, wp_ret. by apply inv_erase.
  - by apply steady_safe, (steady_bind _ _ (steady_errno _) (fun _ => steady_ret (-1))).
Qed.

Lemma safe_untetherInterface interface : safe (untetherInterface interface).
Proof.
  intros rest s tr Hs. apply wp_bind, wp_gets. cbn [id].
  destruct (mem_name interface (mInterfaces s)).
  - apply wp_bind, wp_modify. apply (inv_erase interface) in Hs. revert Hs.
    apply safe_bind; [apply safe_configureV6RtrAdv|]. intros _. apply safe_apply.
  - by apply (steady_safe _ (steady_bind _ _ (steady_errno _) (fun _ => steady_ret (-1)))).
Qed.

(** The operations of the controller. *)
Inductive op :=
| OStart (addrs : list Z)
| OStop
| OTether (interface : string)
| OUntether (interface : string)
| OAddUpstream (iface : option string)
| ORemoveUpstream (iface : option string)
| OSetDns (netId : Z) (servers : list string)
| OSetIpFwd (enable : bool).

Definition run_op (o : op) : M t Z :=
  match o with
  | OStart addrs => startTethering addrs
  | OStop => stopTethering
  | OTether interface => tetherInterface interface
  | OUntether interface => untetherInterface interface
  | OAddUpstream iface => addUpstreamInterface iface
  | ORemoveUpstream iface => removeUpstreamInterface iface
  | OSetDns netId servers => setDnsForwarders netId servers
  | OSetIpFwd enable => setIpFwdEnabled enable
  end.

Lemma safe_run_op o : safe (run_op o).
Proof.
  destruct o; cbn [run_op].
  - apply safe_startTethering.
  - apply safe_stopTethering.
  - apply safe_tetherInterface.
  - apply safe_untetherInterface.
  - apply safe_addUpstreamInterface.
  - apply safe_removeUpstreamInterface.
  - apply steady_safe, steady_setDnsForwarders.
  - apply steady_safe, steady_setIpFwdEnabled.
Qed.
End Invariant.

(** The states operations lead to, whatever they return, from a controller
    whose memory happened to be 0. *)
Inductive reached {K : Kernel} : t -> trace -> Prop :=
| reached_init netId : reached (init netId 0) []
| reached_op o s tr ret s' tr' :
    reached s tr -> run_op o s tr = (ret, s', tr') -> reached s' tr'.

Lemma reached_inv {K : Kernel} (HK : pid_laws K) s tr : reached s tr -> inv [] s tr.
Proof.
  induction 1 as [netId|o s tr ret s' tr' _ IH Hrun].
  - split; cbn; try done; repeat constructor.
  - by apply (wp_run _ (fun _ s' tr' => inv [] s' tr') _ _ _ _ _ Hrun), safe_run_op.
Qed.

(** At any time at most one dnsmasq and one router advertisement daemon
    run, and they are the ones the controller knows: no operation, failed ones
    included, loses track of a child or starts a second one; the descriptor of
    dnsmasq's pipe is kept exactly while it runs; the tethered interfaces all
    have valid names, and no upstream interface is listed twice. *)
Theorem one_daemon_each {K : Kernel} s tr :
  pid_laws K -> reached s tr ->
  children tr ≡ₚ
    (if mDaemonPid s =? 0 then [] else [(DNSMASQ, mDaemonPid s)]) ++
    (if mRtrAdvPid s =? 0 then [] else [(RTRADVDAEMON, mRtrAdvPid s)]) /\
  (mDaemonPid s = 0 <-> mDaemonFd s = -1) /\
  Forall (fun n => isIfaceName n = true) (mInterfaces s) /\ NoDup (mUpstreamInterfaces s).
Proof.
  intros HK H. destruct (reached_inv HK s tr H) as [[Hc _] Hf Hv Hu]. by rewrite app_nil_r in Hc.
Qed.

Definition run_all {K : Kernel} (ops : list op) (s : t) (tr : trace) : t * trace :=
  foldl (fun r o => let '(_, s', tr') := run_op o r.1 r.2 in (s', tr')) (s, tr) ops.

Lemma reached_run_all {K : Kernel} ops s tr :
  reached s tr -> reached (run_all ops s tr).1 (run_all ops s tr).2.
Proof.
  revert s tr. induction ops as [|o ops IH]; intros s tr H; [done|]. unfold run_all. cbn [foldl].
  cbn [fst snd]. destruct (run_op o s tr) as [[ret s'] tr'] eqn:E. apply IH. by econstructor.
Qed.

Definition sample_ops : list op :=
  [OStart [0x012aa8c0; 0xfe2aa8c0]; OTether "wlan0"; OAddUpstream (Some "rmnet0"); OTether "usb0";
   OUntether "wlan0"].

Lemma one_daemon_each_witness :
  let s := (run_all (K:=good_kernel) sample_ops (init 0 0) []).1 in
  let tr := (run_all (K:=good_kernel) sample_ops (init 0 0) []).2 in
  children tr = [(DNSMASQ, 101); (RTRADVDAEMON, 104)] /\
  children tr ≡ₚ [(DNSMASQ, mDaemonPid s)] ++ [(RTRADVDAEMON, mRtrAdvPid s)].
Proof.
  split; [vm_compute; reflexivity|].
  apply (one_daemon_each (K:=good_kernel) (run_all (K:=good_kernel) sample_ops (init 0 0) []).1
    (run_all (K:=good_kernel) sample_ops (init 0 0) []).2 sample_pid_laws).
  apply reached_run_all. constructor.
Defined.

(** ** The commands dnsmasq is sent *)

(** The pieces of a string between colons, as dnsmasq reads it. *)
Fixpoint split_colons (piece : string) (s : string) : list string :=
  match s with
  | EmptyString => [piece]
  | String c s => if Ascii.eqb c ":" then piece :: split_colons "" s
                  else split_colons (piece +:+ String c "") s
  end.

Fixpoint no_colon (s : string) : bool :=
  match s with
  | EmptyString => true
  | String c s => negb (Ascii.eqb c ":") && no_colon s
  end.

(** A command with its words. *)
Definition joined (cmd : string) (words : list string) : string :=
  foldl (fun s w => s +:+ ":" +:+ w) cmd words.

Lemma split_colons_end piece w : no_colon w = true -> split_colons piece w = [piece +:+ w].
Proof.
  revert piece. induction w as [|c w IH]; intros piece H; cbn [split_colons].
  - by rewrite append_empty_r.
  - cbn in H. apply andb_true_iff in H as [Hc H]. apply negb_true_iff in Hc.
    rewrite Hc, IH, append_assoc by done. done.
Qed.

Lemma split_colons_word piece s w :
  no_colon w = true -> split_colons piece (s +:+ ":" +:+ w) = split_colons piece s ++ [w].
Proof.
  intros Hw. revert piece. induction s as [|c s IH]; intros piece.
  - change (piece :: split_colons "" w = [piece; w]). by rewrite split_colons_end.
  - change (String c s +:+ ":" +:+ w) with (String c (s +:+ ":" +:+ w)). cbn [split_colons].
    destruct (Ascii.eqb c ":"); rewrite IH; done.
Qed.

Lemma split_joined cmd words :
  Forall (fun w => no_colon w = true) words ->
  split_colons "" (joined cmd words) = split_colons "" cmd ++ words.
Proof.
  unfold joined. revert cmd. induction words as [|w words IH]; intros cmd Hw; cbn [foldl].
  - by rewrite app_nil_r.
  - apply Forall_cons in Hw as [H Hw]. by rewrite IH, split_colons_word, <-app_assoc.
Qed.

Lemma strlen_word cmd w : strlen (cmd +:+ ":" +:+ w) = strlen cmd + (strlen w + 1).
Proof. rewrite !strlen_app. change (strlen ":") with 1. lia. Qed.

(** The words [kept] are those that fit the buffer after [cmd]. *)
Definition fits_buffer (cmd : string) (kept dropped : list string) : Prop :=
  strlen (joined cmd kept) + 1 < MAX_CMD_SIZE /\
  (dropped = [] \/ exists w rest, dropped = w :: rest /\
     MAX_CMD_SIZE <= strlen (joined cmd kept) + (strlen w + 1) + 1).

Lemma fits_buffer_cons cmd w kept dropped :
  fits_buffer (cmd +:+ ":" +:+ w) kept dropped -> fits_buffer cmd (w :: kept) dropped.
Proof. done. Qed.

Lemma join_ifaces_spec ifaces cmd :
  strlen cmd + 1 < MAX_CMD_SIZE ->
  exists kept dropped, ifaces = kept ++ dropped /\ fits_buffer cmd kept dropped /\
    join_ifaces ifaces (strlen cmd) cmd = joined cmd kept.
Proof.
  revert cmd. induction ifaces as [|w ifaces IH]; intros cmd Hcmd; cbn [join_ifaces].
  - exists [], []. split_and!; [done| |done]. split; [done|by left].
  - destruct (MAX_CMD_SIZE <=? strlen cmd + (strlen w + 1) + 1) eqn:E; bool_to_prop.
    + exists [], (w :: ifaces). split_and!; [done| |done]. split; [done|]. right. by exists w, ifaces.
    + rewrite <-strlen_word.
      destruct (IH (cmd +:+ ":" +:+ w)) as (kept & dropped & -> & Hf & ->); [rewrite strlen_word; lia|].
      exists (w :: kept), dropped. split_and!; [done|by apply fits_buffer_cons|done].
Qed.

Lemma join_servers_spec {K : Kernel} servers cmd acc r :
  strlen cmd + 1 < MAX_CMD_SIZE -> join_servers servers (strlen cmd) cmd acc = Some r ->
  exists kept dropped addrs, servers = kept ++ dropped /\ fits_buffer cmd kept dropped /\
    mapM k_inet_aton kept = Some addrs /\ r = (joined cmd kept, acc ++ addrs).
Proof.
  revert cmd acc. induction servers as [|w servers IH]; intros cmd acc Hcmd; cbn [join_servers].
  - intros [= <-]. exists [], [], []. rewrite (app_nil_r acc). split_and!; [done| |done|done].
    split; [done|by left].
  - destruct (k_inet_aton w) as [a|] eqn:Ea; [|done].
    destruct (MAX_CMD_SIZE <=? strlen cmd + (strlen w + 1) + 1) eqn:E; bool_to_prop.
    + intros [= <-]. exists [], (w :: servers), []. rewrite (app_nil_r acc). split_and!; [done| |done|done].
      split; [done|]. right. by exists w, servers.
    + rewrite <-strlen_word.
      intros (kept & dropped & addrs & -> & Hf & Hm & ->)%IH; [|rewrite strlen_word; lia].
      exists (w :: kept), dropped, (a :: addrs). split_and!; [done|by apply fits_buffer_cons| |].
      * cbn. by rewrite Ea, Hm.
      * by rewrite <-app_assoc.
Qed.

Lemma joined_nil_or_longer cmd kept : kept = [] \/ joined cmd kept <> cmd.
Proof.
  destruct kept as [|w kept]; [by left|]. right. intros E.
  assert (forall l c, strlen c <= strlen (joined c l)) as Hle.
  { induction l as [|x l IH]; intros c; [done|]. cbn. etrans; [|apply IH]. rewrite strlen_word.
    unfold strlen. lia. }
  specialize (Hle kept (cmd +:+ ":" +:+ w)). change (joined cmd (w :: kept)) with
    (joined (cmd +:+ ":" +:+ w) kept) in E. rewrite E, strlen_word in Hle. unfold strlen in Hle. lia.
Qed.

(** The mark of the DNS queries that dnsmasq makes. *)
Definition dns_mark (netId : Z) : Z :=
  set_permission PERMISSION_SYSTEM
    (set_protectedFromVpn true (set_explicitlySelected true (set_netId netId Fwmark_init))).

Definition dns_command (netId : Z) : string := "update_dns:0x" +:+ print_x (dns_mark netId).

Lemma dns_command_short netId : strlen (dns_command netId) + 1 < MAX_CMD_SIZE.
Proof.
  unfold dns_command. rewrite strlen_app. change (strlen "update_dns:0x") with 13.
  pose proof (print_digits_length 64 16 (dns_mark netId) "") as H. unfold print_x, MAX_CMD_SIZE.
  change (strlen "") with 0 in H. lia.
Qed.

Lemma run_applyDnsInterfaces {K : Kernel} s tr kept :
  mDaemonFd s <> -1 ->
  join_ifaces (mInterfaces s) (strlen "update_ifaces") "update_ifaces" = joined "update_ifaces" kept ->
  let m := joined "update_ifaces" kept in
  let r := k_pipe tr (mDaemonFd s) m in
  applyDnsInterfaces s tr =
  match kept with
  | [] => (0, s, tr)
  | _ => (if r <? 0 then -1 else 0, s, tr ++ [EvPipe (mDaemonFd s) m r])
  end.
Proof.
  intros Hfd Hj m r. unfold applyDnsInterfaces, gets, mbind, M_bind. cbn [id].
  rewrite Hj, (proj2 (Z.eqb_neq _ _) Hfd). destruct kept as [|w kept]; [done|].
  destruct (joined_nil_or_longer "update_ifaces" (w :: kept)) as [?|Hne]; [done|].
  rewrite (proj2 (String.eqb_neq _ _) Hne). cbn [negb andb]. unfold sys_pipe. fold m. fold r.
  by destruct (r <? 0).
Qed.

Lemma run_setDnsForwarders {K : Kernel} netId servers s tr s' tr' :
  mDaemonFd s <> -1 -> setDnsForwarders netId servers s tr = (0, s', tr') ->
  exists m forwarders, join_servers servers (strlen (dns_command netId)) (dns_command netId) [] =
      Some (m, forwarders) /\
    mDnsForwarders s' = forwarders /\ mDnsNetId s' = netId /\
    tr' = tr ++ [EvPipe (mDaemonFd s) m (k_pipe tr (mDaemonFd s) m)].
Proof.
  intros Hfd. unfold setDnsForwarders. cbv zeta. fold (dns_mark netId). fold (dns_command netId).
  destruct (join_servers servers (strlen (dns_command netId)) (dns_command netId) []) as [[m fwd]|]; [|done].
  unfold gets, modify, sys_pipe, mbind, M_bind. cbn [id mDaemonFd set_mDnsNetId set_mDnsForwarders].
  rewrite (proj2 (Z.eqb_neq _ _) Hfd). cbn [negb].
  destruct (k_pipe tr (mDaemonFd s) m <? 0); intros [= <- <-].
  exists m, fwd. done.
Qed.

(** C22. What dnsmasq is told.  The interfaces: the message fits the buffer, and, when
    no name holds a colon, splitting it at the colons gives back the tethered interfaces
    in order, less those that did not fit any more.  The DNS servers: a 0 means that the
    forwarders are the addresses of the servers that fit, and, when no text of a server
    holds a colon, those are the servers dnsmasq reads, after the mark for the network. *)
Theorem dnsmasq_messages {K : Kernel} s tr :
  mDaemonFd s <> -1 ->
  (exists kept dropped, mInterfaces s = kept ++ dropped /\ fits_buffer "update_ifaces" kept dropped /\
     (applyDnsInterfaces s tr).1.2 = s /\
     (kept = [] -> (applyDnsInterfaces s tr).2 = tr) /\
     (kept <> [] -> exists m r, (applyDnsInterfaces s tr).2 = tr ++ [EvPipe (mDaemonFd s) m r] /\
        strlen m + 1 < MAX_CMD_SIZE /\
        (Forall (fun w => no_colon w = true) kept -> split_colons "" m = "update_ifaces" :: kept))) /\
  (forall netId servers s' tr', setDnsForwarders netId servers s tr = (0, s', tr') ->
     exists kept dropped m r, servers = kept ++ dropped /\
       fits_buffer (dns_command netId) kept dropped /\
       mapM k_inet_aton kept = Some (mDnsForwarders s') /\ mDnsNetId s' = netId /\
       tr' = tr ++ [EvPipe (mDaemonFd s) m r] /\ strlen m + 1 < MAX_CMD_SIZE /\
       (Forall (fun w => no_colon w = true) kept ->
        split_colons "" m = split_colons "" (dns_command netId) ++ kept)).
Proof.
  intros Hfd. split.
  - destruct (join_ifaces_spec (mInterfaces s) "update_ifaces") as (kept & dropped & El & Hf & Hj); [done|].
    exists kept, dropped. rewrite (run_applyDnsInterfaces s tr kept Hfd Hj).
    split_and!; [done|done|by destruct kept|by intros ->|]. intros Hne.
    exists (joined "update_ifaces" kept), (k_pipe tr (mDaemonFd s) (joined "update_ifaces" kept)).
    split_and!; [by destruct kept|apply Hf|]. intros Hc. by rewrite split_joined.
  - intros netId servers s' tr' (m & fwd & Hj & Hfw & Hn & Ht)%run_setDnsForwarders; [|done].
    apply join_servers_spec in Hj as (kept & dropped & addrs & El & Hf & Hm & [= -> ->]);
      [|apply dns_command_short].
    exists kept, dropped, (joined (dns_command netId) kept), (k_pipe tr (mDaemonFd s)
      (joined (dns_command netId) kept)).
    split_and!; [done|done|by rewrite Hfw|done|done|apply Hf|]. intros Hc. by rewrite split_joined.
Qed.

Lemma dnsmasq_messages_witness :
  let s := State ["wlan0"; "usb0"] [] [] 0 101 7 0 0 in
  (applyDnsInterfaces (K:=good_kernel) s []).2 = [EvPipe 7 "update_ifaces:wlan0:usb0" 25] /\
  exists s' tr', setDnsForwarders (K:=good_kernel) 100 ["8.8.8.8"] s [] = (0, s', tr') /\
    tr' = [EvPipe 7 "update_dns:0xf0064:8.8.8.8" 27] /\
    exists kept dropped, ["8.8.8.8"] = kept ++ dropped /\
      mapM sample_inet_aton kept = Some (mDnsForwarders s').
Proof.
  intros s. split; [vm_compute; reflexivity|]. do 2 eexists. split; [vm_compute; reflexivity|].
  split; [reflexivity|].
  destruct (dnsmasq_messages (K:=good_kernel) s []) as [_ H]; [discriminate|].
  destruct (H 100 ["8.8.8.8"] (setDnsForwarders (K:=good_kernel) 100 ["8.8.8.8"] s []).1.2
    (setDnsForwarders (K:=good_kernel) 100 ["8.8.8.8"] s []).2) as (kept & dropped & m & r & E & _ & Hm & _);
    [vm_compute; reflexivity|].
  exists kept, dropped. exact (conj E Hm).
Defined.

(** A colon is allowed in an interface's name, and separates the names sent to
    dnsmasq. *)
Lemma colon_in_name :
  isIfaceName "a:b" = true /\
  split_colons "" (join_ifaces ["a:b"] 13 "update_ifaces") = ["update_ifaces"; "a"; "b"].
Proof. split; reflexivity. Qed.

(** A file that cannot be read means that forwarding is on. *)
Lemma unreadable_means_enabled :
  forall s tr, (getIpFwdEnabled (K:={|
    k_netlink := fun _ _ => NlAck 0; k_exec := fun _ _ => ExecRes 0 true 0;
    k_ifindex := fun _ name => sample_index name; k_file := fun _ _ => 3;
    k_property := fun _ _ => ""; k_popen := fun _ _ => None; k_read := fun _ _ => Some "";
    k_readdir := fun _ _ => None;
  k_wait := fun _ _ => 0;
  k_system := fun _ _ => 0;
  k_ifc := fun _ _ => 0;
  k_ifc_get_info := fun _ _ => None;
  k_ifc_get_hwaddr := fun _ _ => None;
  k_wifi := fun _ _ => 0;
  k_qsap_reply := fun _ command => command;
  k_wifi_fw_path := fun _ => Some "/vendor/firmware/fw_bcmdhd.bin";
  k_pbkdf2 := fun _ _ => replicate 32 171;
  k_netmask := sample_netmask;
  k_spawn := fun tr _ => Spawned (fresh_pid tr) 7; k_pipe := fun _ _ _ => 0;
    k_inet_aton := sample_inet_aton; k_getaddrinfo := sample_getaddrinfo;
    k_inet_pton := sample_inet_pton |}) s tr).1.1 = true.
Proof. reflexivity. Qed.
End TetherController.
