(* ===== verification/ClatdController.v ===== *)
(** * ClatdController: the address translators, one for each interface

    Models [server/ClatdController.cpp].  [mClatdPids] is a map from interfaces to
    the pids of the children; a run starts and stops children, which are events of
    the trace. *)
From S2P Require Import Prelude Platform Cstd Fwmark UidRanges Children Netlink NetdConstants.
From S2P Require Import Ledger RouteController Networks NetworkController.

Module ClatdController.

Definition kClatdPath : string := "/system/bin/clatd".

Record t := State { mClatdPids : gmap string Z; errno : Z }.
Definition set_mClatdPids f (s : t) : t := State (f (mClatdPids s)) (errno s).
Definition set_errno e (s : t) : t := State (mClatdPids s) e.
Definition init : t := State ∅ 0.

Section Operations.
Context {K : Kernel}.

Definition getClatdPid (interface : string) (s : t) : Z := default 0 (mClatdPids s !! interface).

(** The mark of the packets the translator sends. *)
Definition clatd_mark (netId : Z) : Z :=
  set_permission PERMISSION_SYSTEM
    (set_protectedFromVpn true (set_explicitlySelected true (set_netId netId Fwmark_init))).

(** The program and its arguments; [argv[0]] is "clatd-" and the interface. *)
Definition clatd_args (interface : string) (netId : Z) : list string :=
  [kClatdPath; "-i"; interface; "-n"; print_u netId; "-m"; "0x" +:+ print_x (clatd_mark netId)].

(** [mNetCtrl] is the state of the network controller. *)
Definition startClatd (mNetCtrl : NC) (interface : string) : M t Z :=
  pid ← gets (getClatdPid interface);
  if negb (pid =? 0) then modify (set_errno EBUSY);; mret (-1)
  else
    let netId := getNetworkForInterface mNetCtrl interface in
    if netId =? NETID_UNSET then modify (set_errno ENODEV);; mret (-1)
    else
      child ← sys_spawn (clatd_args interface netId);
      match child with
      | SpawnError e => modify (set_errno e);; mret (-1)
      | Spawned pid _ => modify (set_mClatdPids (insert interface pid));; mret 0
      end.

Definition stopClatd (interface : string) : M t Z :=
  pid ← gets (getClatdPid interface);
  if pid =? 0 then mret (-1)
  else
    sys_kill pid;;
    modify (set_mClatdPids (delete interface));;
    mret 0.

Definition isClatdStarted (interface : string) : M t bool :=
  pid ← gets (getClatdPid interface);
  if pid =? 0 then mret false
  else
    waitpid_status ← sys_wait pid;
    (if negb (waitpid_status =? 0) then modify (set_mClatdPids (delete interface)) else mret tt);;
    mret (waitpid_status =? 0).
End Operations.

(** ** The children *)

Definition believed (s : t) : list (string * Z) :=
  map (fun e : string * Z => (kClatdPath, e.2)) (map_to_list (mClatdPids s)).

Record inv (rest : list (string * Z)) (s : t) (tr : trace) : Prop := {
  inv_owns : owns rest (believed s) tr;
  inv_pos : map_Forall (fun _ pid => 0 < pid) (mClatdPids s)
}.

Definition safe {K : Kernel} {A} (m : M t A) : Prop :=
  forall rest s tr, inv rest s tr -> wp m (fun _ s' tr' => inv rest s' tr') s tr.

Section Proofs.
Context {K : Kernel} (HK : pid_laws K).

Lemma believed_delete s interface pid :
  mClatdPids s !! interface = Some pid ->
  believed s ≡ₚ (kClatdPath, pid) :: believed (set_mClatdPids (delete interface) s).
Proof.
  intros H. unfold believed. cbn. by rewrite <-(map_to_list_delete _ _ _ H).
Qed.

Lemma believed_insert s interface pid :
  mClatdPids s !! interface = None ->
  believed (set_mClatdPids (insert interface pid) s) ≡ₚ (kClatdPath, pid) :: believed s.
Proof. intros H. unfold believed. cbn. by rewrite map_to_list_insert. Qed.

Lemma inv_errno rest s tr e : inv rest s tr -> inv rest (set_errno e s) tr.
Proof. intros [H1 H2]. by split. Qed.

Lemma getClatdPid_0 rest s tr interface :
  inv rest s tr -> getClatdPid interface s = 0 -> mClatdPids s !! interface = None.
Proof.
  intros [_ Hp]. unfold getClatdPid. destruct (mClatdPids s !! interface) as [pid|] eqn:E; [|done].
  apply Hp in E. cbn. lia.
Qed.

Lemma getClatdPid_ne s interface :
  getClatdPid interface s <> 0 -> mClatdPids s !! interface = Some (getClatdPid interface s).
Proof. unfold getClatdPid. by destruct (mClatdPids s !! interface). Qed.

(** A child that is gone and the entry that is erased. *)
Lemma inv_gone rest s tr interface e :
  inv rest s tr -> getClatdPid interface s <> 0 ->
  (forall known, owns rest ((kClatdPath, getClatdPid interface s) :: known) tr -> owns rest known (tr ++ [e])) ->
  inv rest (set_mClatdPids (delete interface) s) (tr ++ [e]).
Proof.
  intros [Ho Hp] Hne%getClatdPid_ne He. split.
  - apply He. by rewrite <-believed_delete.
  - cbn. by apply map_Forall_delete.
Qed.

Lemma safe_startClatd nc interface : safe (startClatd nc interface).
Proof.
  intros rest s tr Hs. apply wp_bind, wp_gets. destruct (getClatdPid interface s =? 0) eqn:E; cbn [negb]; bool_to_prop.
  2: { apply wp_bind, wp_modify, wp_ret. by apply inv_errno. }
  pose proof (getClatdPid_0 _ _ _ _ Hs E) as Hnone. cbv zeta.
  destruct (_ =? NETID_UNSET); [apply wp_bind, wp_modify, wp_ret; by apply inv_errno|].
  apply wp_bind. unfold sys_spawn, wp at 1. destruct (k_spawn _ _) as [e|pid fd] eqn:Ek.
  - apply wp_bind, wp_modify, wp_ret. by apply inv_errno.
  - apply HK in Ek as (Hpid & _ & Hnew). apply wp_bind, wp_modify, wp_ret. destruct Hs as [Ho Hp]. split.
    + rewrite believed_insert by done. by apply owns_spawn.
    + cbn. by apply map_Forall_insert_2.
Qed.

Lemma safe_stopClatd interface : safe (stopClatd interface).
Proof.
  intros rest s tr Hs. apply wp_bind, wp_gets. destruct (_ =? 0) eqn:E; bool_to_prop; [by apply wp_ret|].
  apply wp_bind. unfold sys_kill, wp at 1. apply wp_bind, wp_modify, wp_ret.
  apply inv_gone; [done..|]. intros known. apply owns_kill.
Qed.

Lemma safe_isClatdStarted interface : safe (isClatdStarted interface).
Proof.
  intros rest s tr Hs. apply wp_bind, wp_gets. destruct (_ =? 0) eqn:E; bool_to_prop; [by apply wp_ret|].
  apply wp_bind. unfold sys_wait, wp at 1. destruct (k_wait _ _ =? 0) eqn:Ew; cbn [negb]; bool_to_prop.
  - apply wp_bind, wp_ret, wp_ret. rewrite Ew. destruct Hs as [Ho Hp]. split; [by apply owns_running|done].
  - apply wp_bind, wp_modify, wp_ret. apply inv_gone; [done..|]. intros known. by apply owns_reaped.
Qed.
End Proofs.
End ClatdController.
