(* ===== verification/PppController.v ===== *)
(** * PppController: the point-to-point daemon and the terminals it may use

    Models [server/PppController.cpp].  In the child, when execl() fails, the
    code returns into the daemon's own code; the model has no such child. *)
From S2P Require Import Prelude Platform Cstd Fwmark UidRanges Children Netlink NetdConstants.
From S2P Require Import TetherController.

Module PppController.

Definition PPPD : string := "/system/bin/pppd".

(** [mPid] is 0 when there is no child. *)
Record t := State { mTtys : list string; mPid : Z; errno : Z }.
Definition set_mTtys l (s : t) : t := State l (mPid s) (errno s).
Definition set_mPid p (s : t) : t := State (mTtys s) p (errno s).
Definition set_errno e (s : t) : t := State (mTtys s) (mPid s) e.
Definition init : t := State [] 0 0.

Section Operations.
Context {K : Kernel}.

(** [dev] has 32 bytes. *)
Definition pppd_args (tty : string) (local remote dns1 dns2 : Z) : list string :=
  let ntoa := TetherController.inet_ntoa in
  [PPPD; "-detach"; String.substring 0 31 ("/dev/" +:+ tty); "115200"; ntoa local +:+ ":" +:+ ntoa remote;
   "ms-dns"; ntoa dns1; "ms-dns"; ntoa dns2; "lcp-max-configure"; "99999"].

Definition attachPppd (tty : string) (local remote dns1 dns2 : Z) : M t Z :=
  s ← gets id;
  if negb (mPid s =? 0) then modify (set_errno EBUSY);; mret (-1)
  else if negb (existsb (String.eqb tty) (mTtys s)) then modify (set_errno (- EINVAL));; mret (-1)
  else
    child ← sys_spawn (pppd_args tty local remote dns1 dns2);
    match child with
    | SpawnError e => modify (set_errno e);; mret (-1)
    | Spawned pid _ => modify (set_mPid pid);; mret 0
    end.

(** The terminal is not looked at. *)
Definition detachPppd (tty : string) : M t Z :=
  s ← gets id;
  if mPid s =? 0 then mret 0
  else sys_kill (mPid s);; modify (set_mPid 0);; mret 0.

Definition is_tty (d_name : string) : bool :=
  negb (String.prefix "." d_name) && String.prefix "tty" d_name && (3 <? strlen d_name).

Definition updateTtyList : M t Z :=
  modify (set_mTtys []);;
  d ← sys_readdir "/sys/class/tty";
  match d with
  | None => mret (-1)
  | Some entries =>
      modify (set_mTtys (List.filter is_tty (map fst entries)));; mret 0
  end.

Definition getTtyList : M t (list string) := updateTtyList;; gets mTtys.
End Operations.

Definition believed (s : t) : list (string * Z) := if mPid s =? 0 then [] else [(PPPD, mPid s)].

Definition inv (rest : list (string * Z)) (s : t) (tr : trace) : Prop := owns rest (believed s) tr.

Definition safe {K : Kernel} {A} (m : M t A) : Prop :=
  forall rest s tr, inv rest s tr -> wp m (fun _ s' tr' => inv rest s' tr') s tr.

Section Proofs.
Context {K : Kernel} (HK : pid_laws K).

Lemma safe_attachPppd tty l r d1 d2 : safe (attachPppd tty l r d1 d2).
Proof.
  intros rest s tr Hs. apply wp_bind, wp_gets. cbn [id].
  destruct (mPid s =? 0) eqn:E; cbn [negb]; bool_to_prop; [|by apply wp_bind, wp_modify, wp_ret].
  destruct (existsb _ _); cbn [negb]; [|by apply wp_bind, wp_modify, wp_ret].
  apply wp_bind. unfold sys_spawn, wp at 1. destruct (k_spawn _ _) as [e|pid fd] eqn:Ek.
  - by apply wp_bind, wp_modify, wp_ret.
  - apply HK in Ek as (Hpid & _ & Hnew). apply wp_bind, wp_modify, wp_ret. unfold inv, believed in *.
    rewrite E in Hs. cbn -[pppd_args]. rewrite (proj2 (Z.eqb_neq pid 0)) by lia. by apply owns_spawn.
Qed.

Lemma safe_detachPppd tty : safe (detachPppd tty).
Proof.
  intros rest s tr Hs. apply wp_bind, wp_gets. cbn [id].
  destruct (mPid s =? 0) eqn:E; [by apply wp_ret|]. apply wp_bind. unfold sys_kill, wp at 1.
  apply wp_bind, wp_modify, wp_ret. unfold inv, believed in *. rewrite E in Hs. by eapply owns_kill.
Qed.

Lemma safe_getTtyList : safe getTtyList.
Proof.
  intros rest s tr Hs. unfold getTtyList, updateTtyList. apply wp_bind, wp_bind, wp_modify, wp_bind.
  unfold sys_readdir, wp at 1. destruct (k_readdir _ _) as [entries|]; [|by apply wp_ret, wp_gets].
  by apply wp_bind, wp_modify, wp_ret, wp_gets.
Qed.
End Proofs.
End PppController.
