(* ===== verification/SoftapController.v ===== *)
(** * SoftapController: the access point daemon and its configuration

    Models [server/SoftapController.cpp].  Some arguments are read, and the text
    of the configuration is used, without a check that they are there: [None] is
    a run that does so.  In the child, when execl() fails, the code returns into
    the daemon's own code; the model has no such child. *)
From S2P Require Import Prelude Platform Cstd Fwmark UidRanges Children Netlink NetdConstants.
From S2P Require Import NetworkCommand TetherStats SampleKernel.

Module SoftapController.

Definition HOSTAPD_CONF_FILE : string := "/data/misc/wifi/hostapd.conf".
Definition HOSTAPD_BIN_FILE : string := "/system/bin/hostapd".
Definition HOSTAPD_SOCKETS_DIR : string := "/data/misc/wifi/sockets".
Definition AP_CHANNEL_DEFAULT : Z := 6.

(** [ResponseCode.h] *)
Definition SoftapStatusResult : Z := 214.
Definition ServiceStartFailed : Z := 402.
Definition CommandParameterError : Z := 501.

(** wifi.h *)
Definition WIFI_ENTROPY_FILE : string := "/data/misc/wifi/entropy.bin".
Definition WIFI_GET_FW_PATH_STA : Z := 0.
Definition WIFI_GET_FW_PATH_AP : Z := 1.
Definition WIFI_GET_FW_PATH_P2P : Z := 2.

(** [mPid] is 0 when there is no child. *)
Record t := State { mPid : Z }.
Definition set_mPid (p : Z) (s : t) : t := State p.
Definition init : t := State 0.

(** [strcasecmp(a, b) == 0] *)
Definition lower (c : ascii) : ascii :=
  let n := Ascii.nat_of_ascii c in if (65 <=? n)%nat && (n <=? 90)%nat then Ascii.ascii_of_nat (n + 32) else c.
Fixpoint strcasecmp_eq (a b : string) : bool :=
  match a, b with
  | EmptyString, EmptyString => true
  | String x a, String y b => Ascii.eqb (lower x) (lower y) && strcasecmp_eq a b
  | _, _ => false
  end.

Section Operations.
Context {K : Kernel}.
Implicit Types argv : list string.

Definition hostapd_args : list string := [HOSTAPD_BIN_FILE; "-e"; WIFI_ENTROPY_FILE; HOSTAPD_CONF_FILE].

Definition startSoftap : M t Z :=
  s ← gets id;
  if negb (mPid s =? 0) then mret SoftapStatusResult
  else
    sys_wifi WifiEntropy;;
    child ← sys_spawn hostapd_args;
    match child with
    | SpawnError _ => mret ServiceStartFailed
    | Spawned pid _ =>
        modify (set_mPid pid);;
        dir ← sys_file (FOpenDir HOSTAPD_SOCKETS_DIR);
        (if dir =? - ENOENT then
           sys_file (FMkdir HOSTAPD_SOCKETS_DIR);;
           sys_file (FChown HOSTAPD_SOCKETS_DIR);;
           sys_file (FChmod HOSTAPD_SOCKETS_DIR);; mret tt
         else mret tt);;
        mret SoftapStatusResult
    end.

Definition stopSoftap : M t Z :=
  s ← gets id;
  if mPid s =? 0 then mret SoftapStatusResult
  else sys_kill (mPid s);; modify (set_mPid 0);; mret SoftapStatusResult.

Definition isSoftapStarted : M t bool := s ← gets id; mret (negb (mPid s =? 0)).

Definition generatePsk (ssid passphrase : string) : string :=
  foldr (fun b s => hex2 b +:+ s) "" (k_pbkdf2 passphrase ssid).

Definition LF : string := String newline "".

(** The lines every configuration has. *)
Definition wbuf (iface ssid : string) (channel hidden : Z) : string :=
  "interface=" +:+ iface +:+ LF +:+ "driver=nl80211" +:+ LF +:+ "ctrl_interface=/data/misc/wifi/hostapd" +:+ LF +:+
  "ssid=" +:+ ssid +:+ LF +:+ "channel=" +:+ print_d channel +:+ LF +:+ "ieee80211n=1" +:+ LF +:+
  "hw_mode=g" +:+ LF +:+ "ignore_broadcast_ssid=" +:+ print_d hidden +:+ LF +:+ "wowlan_triggers=any" +:+ LF.

(** [fbuf]: NULL when the security is not one of the three, or needs a key. *)
Definition fbuf (wbuf : string) argv : option string :=
  match argv with
  | _ :: _ :: _ :: ssid :: _ :: _ :: security :: key :: _ =>
      if String.eqb security "wpa-psk" then
        Some (wbuf +:+ "wpa=3" +:+ LF +:+ "wpa_pairwise=TKIP CCMP" +:+ LF +:+ "wpa_psk=" +:+ generatePsk ssid key +:+ LF)
      else if String.eqb security "wpa2-psk" then
        Some (wbuf +:+ "wpa=2" +:+ LF +:+ "rsn_pairwise=CCMP" +:+ LF +:+ "wpa_psk=" +:+ generatePsk ssid key +:+ LF)
      else if String.eqb security "open" then Some wbuf else None
  | [_; _; _; _; _; _; security] => if String.eqb security "open" then Some wbuf else None
  | _ => Some wbuf
  end.

(** What follows when the file is open: the text is written, then its mode and owner are set. *)
Definition write_config (text : string) : M t Z :=
  n ← sys_file (FWrite HOSTAPD_CONF_FILE text);
  let ret := if n <? 0 then OperationFailed else SoftapStatusResult in
  n ← sys_file (FChmod HOSTAPD_CONF_FILE);
  if n <? 0 then sys_file (FUnlink HOSTAPD_CONF_FILE);; mret OperationFailed
  else
    n ← sys_file (FChown HOSTAPD_CONF_FILE);
    if n <? 0 then sys_file (FUnlink HOSTAPD_CONF_FILE);; mret OperationFailed else mret ret.

Definition setSoftap argv : M t (option Z) :=
  match argv with
  | _ :: _ :: iface :: ssid :: a4 :: rest =>
      match rest with
      | [] => mret None
      | a5 :: _ =>
          let hidden := if strcasecmp_eq a4 "hidden" then 1 else 0 in
          let channel := if atoi a5 <=? 0 then AP_CHANNEL_DEFAULT else atoi a5 in
          fd ← sys_file (FOpen HOSTAPD_CONF_FILE);
          if fd <? 0 then mret (Some OperationFailed)
          else
            match fbuf (wbuf iface ssid channel hidden) argv with
            | None => mret None
            | Some text => ret ← write_config text; mret (Some ret)
            end
      end
  | _ => mret (Some CommandSyntaxError)
  end.

Definition fwReloadSoftap argv : M t Z :=
  match argv with
  | _ :: _ :: _ :: a3 :: _ =>
      let fwpath :=
        if String.eqb a3 "AP" then k_wifi_fw_path WIFI_GET_FW_PATH_AP
        else if String.eqb a3 "P2P" then k_wifi_fw_path WIFI_GET_FW_PATH_P2P
        else if String.eqb a3 "STA" then k_wifi_fw_path WIFI_GET_FW_PATH_STA
        else None in
      match fwpath with
      | None => mret CommandParameterError
      | Some fwpath => r ← sys_wifi (WifiFirmware fwpath); if negb (r =? 0) then mret OperationFailed else mret SoftapStatusResult
      end
  | _ => mret CommandSyntaxError
  end.
End Operations.

Definition believed (s : t) : list (string * Z) := if mPid s =? 0 then [] else [(HOSTAPD_BIN_FILE, mPid s)].

Definition inv (rest : list (string * Z)) (s : t) (tr : trace) : Prop := owns rest (believed s) tr.

Definition safe {K : Kernel} {A} (m : M t A) : Prop :=
  forall rest s tr, inv rest s tr -> wp m (fun _ s' tr' => inv rest s' tr') s tr.

(** ** The child is the one that is known *)

Section Proofs.
Context {K : Kernel} (HK : pid_laws K).

(** Code that starts no child and keeps the state is safe. *)
Definition inert {A} (m : M t A) : Prop :=
  forall rest known s tr, owns rest known tr -> wp m (fun _ s' tr' => s' = s /\ owns rest known tr') s tr.

Lemma inert_ret {A} (a : A) : inert (mret a).
Proof. intros rest known s tr Ho. by apply wp_ret. Qed.
Lemma inert_bind {A B} (m : M t A) (k : A -> M t B) : inert m -> (forall a, inert (k a)) -> inert (m ≫= k).
Proof.
  intros Hm Hk rest known s tr Ho. apply wp_bind. eapply wp_mono; [by apply Hm|]. cbn. intros a s' tr' [-> Ho'].
  by apply Hk.
Qed.
Lemma inert_file op : inert (sys_file op).
Proof. intros rest known s tr Ho. unfold sys_file, wp. split; [done|]. by apply owns_childless. Qed.
Lemma inert_wifi op : inert (sys_wifi op).
Proof. intros rest known s tr Ho. unfold sys_wifi, wp. split; [done|]. by apply owns_childless. Qed.

Ltac inert :=
  repeat first
    [ apply inert_ret | apply inert_file | apply inert_wifi | apply inert_bind; [|intros ?]
    | match goal with |- inert (match ?x with _ => _ end) => destruct x end
    | progress cbv zeta ].

Lemma safe_inert {A} (m : M t A) : inert m -> safe m.
Proof. intros Hm rest s tr Ho. eapply wp_mono; [by apply Hm|]. cbn. by intros _ s' tr' [-> ?]. Qed.

Lemma inert_setSoftap argv : inert (setSoftap argv).
Proof. unfold setSoftap, write_config. inert. Qed.
Lemma safe_setSoftap argv : safe (setSoftap argv).
Proof. apply safe_inert, inert_setSoftap. Qed.
Lemma safe_fwReloadSoftap argv : safe (fwReloadSoftap argv).
Proof. apply safe_inert. unfold fwReloadSoftap. inert. Qed.
Lemma safe_isSoftapStarted : safe isSoftapStarted.
Proof. intros rest s tr Ho. by apply wp_bind, wp_gets, wp_ret. Qed.

Lemma safe_startSoftap : safe startSoftap.
Proof.
  intros rest s tr Hs. apply wp_bind, wp_gets. cbn [id].
  destruct (mPid s =? 0) eqn:E; cbn [negb]; [|by apply wp_ret]. unfold inv, believed in Hs. rewrite E in Hs.
  apply wp_bind. eapply wp_mono; [by apply inert_wifi|]. cbn. intros _ s1 tr1 [-> Ho].
  apply wp_bind. unfold sys_spawn, wp at 1. destruct (k_spawn _ _) as [e|pid fd] eqn:Ek.
  - apply wp_ret. unfold inv, believed. by rewrite E.
  - apply HK in Ek as (Hpid & _ & Hnew). apply wp_bind, wp_modify.
    eapply wp_mono; [apply (fun m (H : inert m) => H rest [(HOSTAPD_BIN_FILE, pid)]); [inert|by apply owns_spawn]|].
    cbn. intros _ s2 tr2 [-> Ho2]. unfold inv, believed. cbn. by rewrite (proj2 (Z.eqb_neq pid 0)) by lia.
Qed.

Lemma safe_stopSoftap : safe stopSoftap.
Proof.
  intros rest s tr Hs. apply wp_bind, wp_gets. cbn [id].
  destruct (mPid s =? 0) eqn:E; [by apply wp_ret|]. apply wp_bind. unfold sys_kill, wp at 1.
  apply wp_bind, wp_modify, wp_ret. unfold inv, believed in *. rewrite E in Hs. by eapply owns_kill.
Qed.
End Proofs.

(** ** Reading the configuration back

    What hostapd makes of the file: lines, each with a key, "=" and a value. *)

Fixpoint config_lines (s : string) : list string :=
  match s with
  | EmptyString => []
  | String c s =>
      if Ascii.eqb c newline then EmptyString :: config_lines s
      else match config_lines s with [] => [String c EmptyString] | l :: ls => String c l :: ls end
  end.

Fixpoint after_prefix (p s : string) : option string :=
  match p, s with
  | EmptyString, _ => Some s
  | String a p, String b s => if Ascii.eqb a b then after_prefix p s else None
  | _, _ => None
  end.

Fixpoint value_of (key : string) (lines : list string) : option string :=
  match lines with
  | [] => None
  | l :: lines => match after_prefix (key +:+ "=") l with Some v => Some v | None => value_of key lines end
  end.

Definition config_value (key text : string) : option string := value_of key (config_lines text).

Abbreviation no_newline := TetherStats.no_newline.

Lemma config_lines_line l rest : no_newline l -> config_lines (l +:+ LF +:+ rest) = l :: config_lines rest.
Proof.
  unfold TetherStats.no_newline. induction l as [|c l IH]; [done|]. cbn [String.list_ascii_of_string].
  intros [Hc Hl]%Forall_cons. change (String c l +:+ LF +:+ rest) with (String c (l +:+ LF +:+ rest)).
  cbn [config_lines]. by rewrite Hc, IH.
Qed.

Lemma digits_no_newline fuel base n tl : 2 <= base <= 36 -> no_newline tl -> no_newline (print_digits fuel base n tl).
Proof.
  intros Hb Htl. apply TetherStats.print_digits_Forall; [done| |done]. intros d Hd. apply Ascii.eqb_neq. intros E.
  pose proof (digit_val_char d Hd) as H. by rewrite E in H.
Qed.

Lemma print_d_no_newline n : no_newline (print_d n).
Proof.
  unfold print_d. destruct (n <? 0).
  - apply TetherStats.no_newline_app. split; [by repeat constructor|apply TetherStats.print_u_no_newline].
  - apply TetherStats.print_u_no_newline.
Qed.

Lemma hex2_no_newline b : no_newline (hex2 b).
Proof.
  assert (no_newline (print_x b)) by (apply digits_no_newline; [lia|constructor]). unfold hex2.
  destruct (b <? 16); [|done]. apply TetherStats.no_newline_app. split; [by repeat constructor|done].
Qed.

Lemma generatePsk_no_newline {K : Kernel} ssid key : no_newline (generatePsk ssid key).
Proof.
  unfold generatePsk. induction (k_pbkdf2 key ssid) as [|b l IH]; cbn [foldr]; [constructor|].
  apply TetherStats.no_newline_app. split; [apply hex2_no_newline|done].
Qed.

(** The key and the version of WPA that the words after the channel ask for. *)
Definition asked_psk {K : Kernel} (ssid : string) (words : list string) : option string :=
  match words with
  | security :: key :: _ => if String.eqb security "open" then None else Some (generatePsk ssid key)
  | _ => None
  end.
Definition asked_wpa (words : list string) : option string :=
  match words with
  | security :: _ :: _ =>
      if String.eqb security "wpa-psk" then Some "3" else if String.eqb security "wpa2-psk" then Some "2" else None
  | _ => None
  end.

(** The lines of the configuration, without what the security adds. *)
Definition common_lines (iface ssid : string) (channel hidden : Z) : list string :=
  ["interface=" +:+ iface; "driver=nl80211"; "ctrl_interface=/data/misc/wifi/hostapd"; "ssid=" +:+ ssid;
   "channel=" +:+ print_d channel; "ieee80211n=1"; "hw_mode=g"; "ignore_broadcast_ssid=" +:+ print_d hidden;
   "wowlan_triggers=any"].

Lemma wbuf_lines iface ssid channel hidden rest :
  no_newline iface -> no_newline ssid ->
  config_lines (wbuf iface ssid channel hidden +:+ rest) = common_lines iface ssid channel hidden ++ config_lines rest.
Proof.
  intros Hi Hs. unfold wbuf, common_lines. rewrite !append_assoc.
  assert (forall p v r, no_newline p -> no_newline v -> config_lines (p +:+ v +:+ LF +:+ r) = (p +:+ v) :: config_lines r) as H2.
  { intros p v r Hp Hv. rewrite <-(append_assoc p v). apply config_lines_line. by apply TetherStats.no_newline_app. }
  rewrite H2 by (done || by repeat constructor). do 2 rewrite config_lines_line by (by repeat constructor).
  rewrite H2 by (done || by repeat constructor). rewrite H2 by (apply print_d_no_newline || by repeat constructor).
  do 2 rewrite config_lines_line by (by repeat constructor).
  rewrite H2 by (apply print_d_no_newline || by repeat constructor). by rewrite config_lines_line by (by repeat constructor).
Qed.

Lemma value_of_common key iface ssid channel hidden rest :
  value_of key (common_lines iface ssid channel hidden ++ rest) =
  match value_of key (common_lines iface ssid channel hidden) with Some v => Some v | None => value_of key rest end.
Proof.
  generalize (common_lines iface ssid channel hidden). intros l. induction l as [|x l IH]; [done|].
  cbn [value_of app]. by destruct (after_prefix _ x).
Qed.

Lemma common_values iface ssid channel hidden :
  let l := common_lines iface ssid channel hidden in
  value_of "interface" l = Some iface /\ value_of "ssid" l = Some ssid /\
  value_of "channel" l = Some (print_d channel) /\ value_of "ignore_broadcast_ssid" l = Some (print_d hidden) /\
  value_of "wpa" l = None /\ value_of "wpa_psk" l = None.
Proof. unfold common_lines. generalize (print_d channel) (print_d hidden). intros c h. split_and!; reflexivity. Qed.

(** What the file holds: the lines of the security after the common ones. *)
Lemma fbuf_lines {K : Kernel} a0 a1 iface ssid a4 a5 words channel hidden text :
  no_newline iface -> no_newline ssid ->
  fbuf (wbuf iface ssid channel hidden) (a0 :: a1 :: iface :: ssid :: a4 :: a5 :: words) = Some text ->
  exists more, config_lines text = common_lines iface ssid channel hidden ++ more /\
    value_of "wpa" more = asked_wpa words /\ value_of "wpa_psk" more = asked_psk ssid words /\
    Forall (fun k => value_of k more = None) ["interface"; "ssid"; "channel"; "ignore_broadcast_ssid"].
Proof.
  intros Hi Hs. unfold fbuf, asked_wpa, asked_psk.
  assert (forall r, config_lines (wbuf iface ssid channel hidden +:+ r) = common_lines iface ssid channel hidden ++ config_lines r)
    as Hw by (intros r; by apply wbuf_lines).
  assert (config_lines (wbuf iface ssid channel hidden) = common_lines iface ssid channel hidden ++ []) as Hw0.
  { rewrite <-(append_empty_r (wbuf _ _ _ _)). apply Hw. }
  assert (forall v, no_newline v -> config_lines ("wpa_psk=" +:+ v +:+ LF) = ["wpa_psk=" +:+ v]) as Hpsk.
  { intros v Hv. rewrite <-(append_empty_r LF), <-append_assoc. apply config_lines_line.
    apply TetherStats.no_newline_app. split; [by repeat constructor|done]. }
  destruct words as [|security [|key words]]; [| |].
  - intros [= <-]. exists []. by repeat constructor.
  - destruct (String.eqb security "open"); [|done]. intros [= <-]. exists []. by repeat constructor.
  - destruct (String.eqb_spec security "wpa-psk") as [->|_].
    { intros [= <-]. rewrite Hw. eexists. split; [done|].
      do 2 rewrite config_lines_line by (by repeat constructor).
      rewrite Hpsk by apply generatePsk_no_newline. by repeat constructor. }
    destruct (String.eqb_spec security "wpa2-psk") as [->|_].
    { intros [= <-]. rewrite Hw. eexists. split; [done|].
      do 2 rewrite config_lines_line by (by repeat constructor).
      rewrite Hpsk by apply generatePsk_no_newline. by repeat constructor. }
    destruct (String.eqb security "open"); [|done]. intros [= <-]. exists []. by repeat constructor.
Qed.

(** ** Properties *)

(** C29. Whatever the client asks for is what hostapd reads: when setting the access
    point up is reported a success, the file was opened, written and given its mode
    and owner, and in the text written the interface, the network's name, the
    channel (6 for none), the broadcast flag, the version of WPA and the key are
    those of the command, for an interface and a name without line ends. *)
Theorem config_read_back {K : Kernel} a0 a1 iface ssid broadcast chan words s tr s' tr' :
  no_newline iface -> no_newline ssid ->
  setSoftap (a0 :: a1 :: iface :: ssid :: broadcast :: chan :: words) s tr = (Some SoftapStatusResult, s', tr') ->
  s' = s /\ exists text fd n mode owner,
    tr' = tr ++ [EvFile (FOpen HOSTAPD_CONF_FILE) fd; EvFile (FWrite HOSTAPD_CONF_FILE text) n;
                 EvFile (FChmod HOSTAPD_CONF_FILE) mode; EvFile (FChown HOSTAPD_CONF_FILE) owner] /\
    0 <= fd /\ 0 <= n /\ 0 <= mode /\ 0 <= owner /\
    config_value "interface" text = Some iface /\ config_value "ssid" text = Some ssid /\
    config_value "channel" text = Some (print_d (if 0 <? atoi chan then atoi chan else 6)) /\
    config_value "ignore_broadcast_ssid" text = Some (if strcasecmp_eq broadcast "hidden" then "1" else "0") /\
    config_value "wpa" text = asked_wpa words /\ config_value "wpa_psk" text = asked_psk ssid words.
Proof.
  intros Hi Hs Hrun. unfold setSoftap, write_config, sys_file, mbind, M_bind, mret, M_ret in Hrun. cbv zeta in Hrun.
  destruct (k_file tr _ <? 0) eqn:Efd; [done|]. destruct (fbuf _ _) as [text|] eqn:Ef; [|done].
  repeat match type of Hrun with context [if ?x <? 0 then _ else _] => destruct (x <? 0) eqn:?; try discriminate Hrun end.
  revert Hrun.
  intros [= <- <-]. split; [done|]. rewrite <-!app_assoc in *. eexists text, _, _, _, _. split; [reflexivity|].
  bool_to_prop. do 4 (split; [lia|]).
  apply fbuf_lines in Ef as (more & E & Ewpa & Epsk & Hn); [|done..]. unfold config_value. rewrite E. clear E.
  remember (if atoi chan <=? 0 then AP_CHANNEL_DEFAULT else atoi chan) as channel eqn:Ec.
  remember (if strcasecmp_eq broadcast "hidden" then 1 else 0) as hidden eqn:Eh.
  destruct (common_values iface ssid channel hidden) as (V1 & V2 & V3 & V4 & V5 & V6).
  split_and!; rewrite value_of_common, ?V1, ?V2, ?V3, ?V4, ?V5, ?V6; try done.
  - rewrite Ec, Z.ltb_antisym. by destruct (atoi chan <=? 0).
  - rewrite Eh. by destruct (strcasecmp_eq broadcast "hidden").
Qed.

Definition sample_set : list string := ["softap"; "set"; "wlan0"; "Home"; "broadcast"; "11"; "wpa2-psk"; "secret12"].

Lemma config_read_back_witness :
  exists tr', setSoftap (K:=good_kernel) sample_set init [] = (Some SoftapStatusResult, init, tr') /\
    (init = init /\ exists text fd n mode owner,
      tr' = [] ++ [EvFile (FOpen HOSTAPD_CONF_FILE) fd; EvFile (FWrite HOSTAPD_CONF_FILE text) n;
                   EvFile (FChmod HOSTAPD_CONF_FILE) mode; EvFile (FChown HOSTAPD_CONF_FILE) owner] /\
      0 <= fd /\ 0 <= n /\ 0 <= mode /\ 0 <= owner /\
      config_value "interface" text = Some "wlan0" /\ config_value "ssid" text = Some "Home" /\
      config_value "channel" text = Some (print_d (if 0 <? atoi "11" then atoi "11" else 6)) /\
      config_value "ignore_broadcast_ssid" text = Some (if strcasecmp_eq "broadcast" "hidden" then "1" else "0") /\
      config_value "wpa" text = asked_wpa ["wpa2-psk"; "secret12"] /\
      config_value "wpa_psk" text = asked_psk (K:=good_kernel) "Home" ["wpa2-psk"; "secret12"]).
Proof.
  eexists. split; [vm_compute; reflexivity|].
  eapply (config_read_back (K:=good_kernel) "softap" "set" "wlan0" "Home" "broadcast" "11" ["wpa2-psk"; "secret12"] init []);
    [by repeat constructor|by repeat constructor|vm_compute; reflexivity].
Defined.

(** A name with a line end adds lines of its own: the network is an open one that
    the client asked a key for only in the lines after. *)
Lemma name_adds_lines {K : Kernel} :
  exists text, fbuf (wbuf "wlan0" ("Home" +:+ LF +:+ "interface=rmnet0") 6 0) ["softap"; "set"; "wlan0"; "Home"; "x"; "6"] = Some text /\
    config_lines text !! 4%nat = Some "interface=rmnet0".
Proof. eexists. split; reflexivity. Qed.

(** Five words are enough for the check, but the sixth is read. *)
Lemma channel_reads_past_end {K : Kernel} s tr :
  (setSoftap ["softap"; "set"; "wlan0"; "Home"; "broadcast"] s tr).1.1 = None.
Proof. reflexivity. Qed.

(** A security that is not known: the file is emptied, then the text, which is
    missing, is written. *)
Lemma unknown_security_empties {K : Kernel} s tr :
  0 <= k_file tr (FOpen HOSTAPD_CONF_FILE) ->
  setSoftap ["softap"; "set"; "wlan0"; "Home"; "broadcast"; "6"; "wep"; "secret12"] s tr =
  (None, s, tr ++ [EvFile (FOpen HOSTAPD_CONF_FILE) (k_file tr (FOpen HOSTAPD_CONF_FILE))]).
Proof.
  intros H. unfold setSoftap, sys_file, mbind, M_bind. by rewrite (proj2 (Z.ltb_ge _ _)) by done.
Qed.

(** [psk_str] has room for 64 digits and the NUL; the library gives 32 bytes. *)
Lemma generatePsk_fits {K : Kernel} ssid key :
  length (k_pbkdf2 key ssid) = 32%nat -> Forall (fun b => 0 <= b < 256) (k_pbkdf2 key ssid) ->
  strlen (generatePsk ssid key) + 1 <= 65.
Proof.
  intros Hl Hb. unfold generatePsk.
  assert (forall l, Forall (fun b => 0 <= b < 256) l ->
    strlen (foldr (fun b s => hex2 b +:+ s) "" l) = 2 * Z.of_nat (length l)) as H; [|by rewrite H, Hl by done].
  clear. induction 1 as [|b l Hb _ IH]; [done|]. cbn [foldr]. rewrite strlen_app, IH. cbn [length].
  assert (strlen (hex2 b) = 2); [|lia].
  assert (forallb (fun n => strlen (hex2 (Z.of_nat n)) =? 2) (seq 0 256) = true) as Ht by (vm_compute; reflexivity).
  rewrite forallb_forall in Ht. specialize (Ht (Z.to_nat b)). rewrite Z2Nat.id in Ht by lia.
  apply Z.eqb_eq, Ht, in_seq. lia.
Qed.
End SoftapController.
