(* ===== verification/InterfaceController.v ===== *)
(** * InterfaceController: settings of interfaces under /proc and /sys

    Models [server/InterfaceController.cpp].  The state is [errno]. *)
From S2P Require Import Prelude Platform Cstd Netlink NetdConstants Ledger RouteController.

Module InterfaceController.

Definition ipv6_proc_path : string := "/proc/sys/net/ipv6/conf".
Definition sys_net_path : string := "/sys/class/net".
Definition wl_util_path : string := "/system/xbin/wlutil".

Section Operations.
Context {K : Kernel}.

Definition writeIPv6ProcPath (interface setting value : string) : M Z Z :=
  if negb (isIfaceName interface) then modify (fun _ => ENOENT);; mret (-1)
  else writeFile (ipv6_proc_path +:+ "/" +:+ interface +:+ "/" +:+ setting) value.

Definition setEnableIPv6 (interface : string) (on : bool) : M Z Z :=
  writeIPv6ProcPath interface "disable_ipv6" (if on then "0" else "1").

Definition setIPv6PrivacyExtensions (interface : string) (on : bool) : M Z Z :=
  writeIPv6ProcPath interface "use_tempaddr" (if on then "2" else "0").

Definition setIPv6NdOffload (interface : string) (on : bool) : M Z Z :=
  found ← sys_file (FAccess wl_util_path);
  if found =? 0 then
    sys_exec_value [wl_util_path; "-a"; interface; "ndoe"; if on then "1" else "0"]
  else mret 0.

Definition isInterfaceName (name : string) : bool :=
  negb (existsb (String.eqb name) ["."; ".."; "default"; "all"]).

(** The loop over the entries of the directory. *)
Fixpoint write_all (entries : list (string * bool)) (filename value : string) : M Z unit :=
  match entries with
  | [] => mret tt
  | (d_name, is_dir) :: entries =>
      (if is_dir && isInterfaceName d_name then writeIPv6ProcPath d_name filename value else mret 0);;
      write_all entries filename value
  end.

Definition setOnAllInterfaces (filename value : string) : M Z unit :=
  writeIPv6ProcPath "default" filename value;;
  dir ← sys_readdir ipv6_proc_path;
  match dir with
  | None => mret tt
  | Some entries => write_all entries filename value
  end.

Definition setAcceptRA (value : string) : M Z unit := setOnAllInterfaces "accept_ra" value.

Definition setAcceptRARouteTable (tableOrOffset : Z) : M Z unit :=
  setOnAllInterfaces "accept_ra_rt_table" (print_d tableOrOffset).

Definition setMtu (interface mtu : string) : M Z Z :=
  if negb (isIfaceName interface) then modify (fun _ => ENOENT);; mret (-1)
  else writeFile (sys_net_path +:+ "/" +:+ interface +:+ "/mtu") mtu.

Definition setIPv6OptimisticMode (value : string) : M Z unit :=
  setOnAllInterfaces "optimistic_dad" value;;
  setOnAllInterfaces "use_optimistic" value.

(** The constructor. *)
Definition construct : M Z unit :=
  setAcceptRA "2";;
  setAcceptRARouteTable (- ROUTE_TABLE_OFFSET_FROM_INDEX);;
  setIPv6OptimisticMode "1".
End Operations.
End InterfaceController.
