(* ===== verification/QcRouteController.v ===== *)
(** * QcRouteController: routes configured with shell commands

    Models [server/QcRouteController.cpp].  The controller has no state; each
    method returns an error text, empty when everything worked.  Commands are
    given to a shell, so what may occur in them matters. *)
From S2P Require Import Prelude Platform Cstd Netlink NetdConstants.

Module QcRouteController.

Definition IP_PATH : string := "/system/bin/ip".
Definition MAIN_TABLE : string := "254".
Definition SOURCE_POLICY_RULE_PRIO : string := "150".
Definition MAXSIZE : Z := 256.

(** [char buffer[255]] *)
Definition BUFFER_SIZE : Z := 255.

(** [snprintf(buffer, sizeof buffer, ...)] of the text [s]. *)
Definition snprintf_buffer (s : string) : string := String.substring 0 (Z.to_nat (BUFFER_SIZE - 1)) s.

Definition is_empty (s : string) : bool := String.eqb s "".

(** [std::string::find(word) != npos] *)
Fixpoint contains (word s : string) : bool :=
  String.prefix word s || match s with EmptyString => false | String _ s => contains word s end.

Section Operations.
Context {K : Kernel} {S : Type}.
(** [strerror] of the errno popen() leaves, and of [E2BIG]. *)
Context (strerror_popen strerror_E2BIG : string).

Definition shell_line (cmd : string) : string := IP_PATH +:+ " " +:+ cmd +:+ " 2>&1".

(** Only the first line of the output is read. *)
Definition runIpCmd (cmd : string) : M S string :=
  if 255 <? strlen cmd then mret strerror_E2BIG
  else
    fp ← sys_shell (shell_line cmd);
    mret match fp with
         | None => strerror_popen
         | Some output =>
             match fgets_all MAXSIZE output with
             | [] => ""
             | line :: _ => cmd +:+ ": " +:+ line
             end
         end.

Definition flushCache : M S string := runIpCmd (snprintf_buffer "route flush cached").

Definition addRule (address table ipver : string) : M S string :=
  runIpCmd (snprintf_buffer (ipver +:+ " rule add from " +:+ address +:+ " lookup " +:+ table +:+ " prio " +:+
                             SOURCE_POLICY_RULE_PRIO)).

Definition delRule (table ipver : string) : M S string :=
  runIpCmd (snprintf_buffer (ipver +:+ " rule del table " +:+ table)).

Definition repDefRoute (iface : string) (gateway : option string) (table ipver : string) : M S string :=
  runIpCmd (snprintf_buffer
    match gateway with
    | Some gateway => ipver +:+ " route replace default via " +:+ gateway +:+ " dev " +:+ iface +:+
                      " scope global table " +:+ table
    | None => ipver +:+ " route replace default dev " +:+ iface +:+ " table " +:+ table
    end).

Definition delDefRoute (table ipver : string) (iface : option string) : M S string :=
  runIpCmd (snprintf_buffer
    match iface with
    | Some iface => ipver +:+ " route del default dev " +:+ iface +:+ " table " +:+ table
    | None => ipver +:+ " route del default table " +:+ table
    end).

Definition delHostRoute (dstPrefix table : string) : M S string :=
  runIpCmd (snprintf_buffer ("route del " +:+ dstPrefix +:+ " table " +:+ table)).

(** [if (res.empty()) res = k;] *)
Definition if_empty (res : string) (k : M S string) : M S string := if is_empty res then k else mret res.

Definition repSrcRoute (iface srcPrefix : string) (gateway : option string) (table ipver : string) : M S string :=
  res ← repDefRoute iface gateway table ipver;
  if_empty res
    (delRule table ipver;;
     res ← addRule srcPrefix table ipver;
     if_empty res flushCache).

Definition delSrcRoute (table ipver : string) : M S string :=
  delDefRoute table ipver None;;
  res ← delRule table ipver;
  if_empty res flushCache.

Definition addDstRoute (iface dstPrefix : string) (gateway : option string) (metric : Z) (table : string)
    : M S string :=
  let buffer := snprintf_buffer
    match gateway with
    | Some gateway => "route add " +:+ dstPrefix +:+ " via " +:+ gateway +:+ " dev " +:+ iface +:+
                      " table " +:+ table +:+ " metric " +:+ print_d metric
    | None => "route add " +:+ dstPrefix +:+ " dev " +:+ iface +:+ " table " +:+ table +:+
              " metric " +:+ print_d metric
    end in
  delHostRoute dstPrefix table;;
  res ← runIpCmd buffer;
  if is_empty res || contains "exists" res then flushCache else mret res.

Definition delDstRoute (dstPrefix table : string) : M S string :=
  res ← delHostRoute dstPrefix table;
  if_empty res flushCache.

Definition replaceDefRoute (iface : string) (gateway : option string) (ipver : string) : M S string :=
  res ← repDefRoute iface gateway MAIN_TABLE ipver;
  if_empty res flushCache.

Definition addDefRoute (iface : string) (gateway : option string) (ipver : string) (metric : Z) (table : string)
    : M S string :=
  delDefRoute table ipver (Some iface);;
  res ← runIpCmd (snprintf_buffer
    match gateway with
    | Some gateway => ipver +:+ " route add default via " +:+ gateway +:+ " dev " +:+ iface +:+
                      " table " +:+ table +:+ " metric " +:+ print_d metric
    | None => ipver +:+ " route add default dev " +:+ iface +:+ " table " +:+ table +:+
              " metric " +:+ print_d metric
    end);
  if_empty res flushCache.
End Operations.
End QcRouteController.
