(* ===== verification/CommandListener.v ===== *)
(** * CommandListener: the text commands and the start of the daemon

    Models [server/CommandListener.cpp] and [server/oem_iptables_hook.cpp].  One record holds the controllers; a command
    runs on it and on the connection, to which it sends replies.  Reading [argv]
    out of bounds ends a run ([None]): nothing is known of what is there.  The
    network commands are those of NetworkCommand.v. *)
From S2P Require Import Prelude Platform Cstd Fwmark UidRanges Children Netlink.
From S2P Require Import NetdConstants Ledger Iptables RouteController RouteSpec Networks NetworkSpec.
From S2P Require Import NetworkController ControllerSpec Daemon NetworkCommand.
From S2P Require Import FirewallController NatController IdletimerController BandwidthController TetherStats.
From S2P Require Import TetherController ClatdController PppController SoftapController InterfaceController.
From S2P Require Import QcRouteController.

(** ** State *)

(** The routes cache of RouteController is the one NatController.t carries; the
    controllers without a record of their own share [errno]. *)
Record t := State {
  sNetCtrl : NC;
  sTetherCtrl : TetherController.t;
  sNatCtrl : NatController.t;
  sPppCtrl : PppController.t;
  sSoftapCtrl : SoftapController.t;
  sBandwidthCtrl : BandwidthController.t;
  sClatdCtrl : ClatdController.t;
  errno : Z;
  iWlanFwdEnable : bool;
  fwIpFwdEnable : bool
}.

Definition net_state (s : t) : NCState := (sNetCtrl s, NatController.routes (sNatCtrl s)).
Definition set_net_state (p : NCState) (s : t) : t :=
  State p.1 (sTetherCtrl s) (NatController.set_routes p.2 (sNatCtrl s)) (sPppCtrl s) (sSoftapCtrl s) (sBandwidthCtrl s)
    (sClatdCtrl s) (errno s) (iWlanFwdEnable s) (fwIpFwdEnable s).
Definition set_sTetherCtrl v (s : t) : t :=
  State (sNetCtrl s) v (sNatCtrl s) (sPppCtrl s) (sSoftapCtrl s) (sBandwidthCtrl s) (sClatdCtrl s) (errno s)
    (iWlanFwdEnable s) (fwIpFwdEnable s).
Definition set_sNatCtrl v (s : t) : t :=
  State (sNetCtrl s) (sTetherCtrl s) v (sPppCtrl s) (sSoftapCtrl s) (sBandwidthCtrl s) (sClatdCtrl s) (errno s)
    (iWlanFwdEnable s) (fwIpFwdEnable s).
Definition set_sPppCtrl v (s : t) : t :=
  State (sNetCtrl s) (sTetherCtrl s) (sNatCtrl s) v (sSoftapCtrl s) (sBandwidthCtrl s) (sClatdCtrl s) (errno s)
    (iWlanFwdEnable s) (fwIpFwdEnable s).
Definition set_sSoftapCtrl v (s : t) : t :=
  State (sNetCtrl s) (sTetherCtrl s) (sNatCtrl s) (sPppCtrl s) v (sBandwidthCtrl s) (sClatdCtrl s) (errno s)
    (iWlanFwdEnable s) (fwIpFwdEnable s).
Definition set_sBandwidthCtrl v (s : t) : t :=
  State (sNetCtrl s) (sTetherCtrl s) (sNatCtrl s) (sPppCtrl s) (sSoftapCtrl s) v (sClatdCtrl s) (errno s)
    (iWlanFwdEnable s) (fwIpFwdEnable s).
Definition set_sClatdCtrl v (s : t) : t :=
  State (sNetCtrl s) (sTetherCtrl s) (sNatCtrl s) (sPppCtrl s) (sSoftapCtrl s) (sBandwidthCtrl s) v (errno s)
    (iWlanFwdEnable s) (fwIpFwdEnable s).
Definition set_errno v (s : t) : t :=
  State (sNetCtrl s) (sTetherCtrl s) (sNatCtrl s) (sPppCtrl s) (sSoftapCtrl s) (sBandwidthCtrl s) (sClatdCtrl s) v
    (iWlanFwdEnable s) (fwIpFwdEnable s).
Definition set_iWlanFwdEnable v (s : t) : t :=
  State (sNetCtrl s) (sTetherCtrl s) (sNatCtrl s) (sPppCtrl s) (sSoftapCtrl s) (sBandwidthCtrl s) (sClatdCtrl s) (errno s)
    v (fwIpFwdEnable s).
Definition set_fwIpFwdEnable v (s : t) : t :=
  State (sNetCtrl s) (sTetherCtrl s) (sNatCtrl s) (sPppCtrl s) (sSoftapCtrl s) (sBandwidthCtrl s) (sClatdCtrl s) (errno s)
    (iWlanFwdEnable s) v.

(** A message to the client; [rp_errno]: the text of errno is added to it. *)
Record reply := Reply { rp_code : Z; rp_text : string; rp_errno : bool }.

(** [ResponseCode.h], those that are not in NetworkCommand.v or TetherStats.v *)
Definition InterfaceListResult : Z := 110.
Definition TetherInterfaceListResult : Z := 111.
Definition TetherDnsFwdTgtListResult : Z := 112.
Definition TtyListResult : Z := 113.
Definition TetherDnsFwdNetIdResult : Z := 115.
Definition TetherStatusResult : Z := 210.
Definition IpFwdStatusResult : Z := 211.
Definition InterfaceGetCfgResult : Z := 213.
Definition QuotaCounterResult : Z := 220.
Definition ClatdStatusResult : Z := 223.
Definition V6RtrAdvResult : Z := 227.
Definition CommandParameterError : Z := 501.

(** ** The monad of commands *)

Record conn := Conn { daemon : t; sent : list reply }.

Definition C (A : Type) : Type := conn -> trace -> option A * conn * trace.

#[export] Instance C_ret : MRet C := fun A a c tr => (Some a, c, tr).
#[export] Instance C_bind : MBind C :=
  fun A B k m c tr =>
    let '(r, c1, tr1) := m c tr in
    match r with Some a => k a c1 tr1 | None => (None, c1, tr1) end.

(** Run code of the daemon; send a message; read an argument. *)
Definition run {A} (m : M t A) : C A :=
  fun c tr => let '(a, s, tr') := m (daemon c) tr in (Some a, Conn s (sent c), tr').
Definition sendMsg (code : Z) (msg : string) (addErrno : bool) : C unit :=
  fun c tr => (Some tt, Conn (daemon c) (sent c ++ [Reply code msg addErrno]), tr).
Definition arg (argv : list string) (n : nat) : C string := fun c tr => (argv !! n, c, tr).

(** A text sent as it is, without a code. *)
Definition sendRaw (msg : string) : C unit := sendMsg 0 msg false.
(** Use of what may not be there. *)
Definition deref {A} (o : option A) : C A := fun c tr => (o, c, tr).

Fixpoint send_all (code : Z) (msgs : list string) : C unit :=
  match msgs with
  | [] => mret tt
  | msg :: msgs => sendMsg code msg false;; send_all code msgs
  end.

(** The code of one controller. *)
Definition on_net {A} : M NCState A -> M t A := zoom net_state set_net_state.
Definition on_tether {A} : M TetherController.t A -> M t A := zoom sTetherCtrl set_sTetherCtrl.
Definition on_nat {A} : M NatController.t A -> M t A := zoom sNatCtrl set_sNatCtrl.
Definition on_ppp {A} : M PppController.t A -> M t A := zoom sPppCtrl set_sPppCtrl.
Definition on_softap {A} : M SoftapController.t A -> M t A := zoom sSoftapCtrl set_sSoftapCtrl.
Definition on_bandwidth {A} : M BandwidthController.t A -> M t A := zoom sBandwidthCtrl set_sBandwidthCtrl.
Definition on_clatd {A} : M ClatdController.t A -> M t A := zoom sClatdCtrl set_sClatdCtrl.
Definition on_errno {A} : M Z A -> M t A := zoom errno set_errno.

(** ** Starting up *)

Definition OEM_IPTABLES_FILTER_OUTPUT : string := "oem_out".
Definition OEM_IPTABLES_FILTER_FORWARD : string := "oem_fwd".
Definition OEM_IPTABLES_NAT_PREROUTING : string := "oem_nat_pre".
Definition OEM_SCRIPT_PATH : string := "/system/bin/oem-iptables-init.sh".

(** BandwidthController.h *)
Definition BW_LOCAL_INPUT : string := "bw_INPUT".
Definition BW_LOCAL_FORWARD : string := "bw_FORWARD".
Definition BW_LOCAL_OUTPUT : string := "bw_OUTPUT".
Definition BW_LOCAL_RAW_PREROUTING : string := "bw_raw_PREROUTING".
Definition BW_LOCAL_MANGLE_POSTROUTING : string := "bw_mangle_POSTROUTING".

Definition FILTER_INPUT : list string := [BW_LOCAL_INPUT; FirewallController.LOCAL_INPUT].
Definition FILTER_FORWARD : list string :=
  [OEM_IPTABLES_FILTER_FORWARD; FirewallController.LOCAL_FORWARD; BW_LOCAL_FORWARD; NatController.LOCAL_FORWARD].
Definition FILTER_OUTPUT : list string :=
  [OEM_IPTABLES_FILTER_OUTPUT; FirewallController.LOCAL_OUTPUT; BW_LOCAL_OUTPUT].
Definition RAW_PREROUTING : list string := [BW_LOCAL_RAW_PREROUTING; IdletimerController.LOCAL_RAW_PREROUTING].
Definition MANGLE_POSTROUTING : list string :=
  [BW_LOCAL_MANGLE_POSTROUTING; IdletimerController.LOCAL_MANGLE_POSTROUTING].
Definition MANGLE_FORWARD : list string := [NatController.LOCAL_MANGLE_FORWARD].
Definition NAT_PREROUTING : list string := [OEM_IPTABLES_NAT_PREROUTING].
Definition NAT_POSTROUTING : list string := [NatController.LOCAL_NAT_POSTROUTING].

(** What the constructors of the controllers leave as it is in memory. *)
Record memory := Memory {
  mem_mDnsNetId : Z; mem_mRtrAdvPid : Z; mem_natCount : Z; mem_errno : Z;
  mem_bandwidth : Z * Z * Z * Z   (* the integers of BandwidthController *)
}.

(** The controllers after their constructors; the lists are empty. *)
Definition init (mem : memory) : t :=
  let '(quota, alert, global, count) := mem_bandwidth mem in
  State NC_init (TetherController.init (mem_mDnsNetId mem) (mem_mRtrAdvPid mem))
    (NatController.State (mem_natCount mem) [] 0 ∅) PppController.init SoftapController.init
    (BandwidthController.State [] quota alert global count [] [] []) ClatdController.init
    (mem_errno mem) false false.

Section Startup.
Context {K : Kernel}.

(** The jumps, flushes and chains of one child; the order is the code's. *)
Definition createChildChain {S} (target : IptablesTarget) (table parentChain childChain : string) : M S unit :=
  execIptables target ["-w"; "-t"; table; "-D"; parentChain; "-j"; childChain];;
  execIptables target ["-w"; "-t"; table; "-F"; childChain];;
  execIptables target ["-w"; "-t"; table; "-X"; childChain];;
  execIptables target ["-w"; "-t"; table; "-N"; childChain];;
  execIptables target ["-w"; "-t"; table; "-A"; parentChain; "-j"; childChain];;
  mret tt.

Fixpoint createChildChains {S} (target : IptablesTarget) (table parentChain : string)
    (childChains : list string) : M S unit :=
  match childChains with
  | [] => mret tt
  | childChain :: childChains =>
      createChildChain target table parentChain childChain;;
      createChildChains target table parentChain childChains
  end.

(** The eight calls of the constructor, in their order. *)
Definition child_chain_calls : list (IptablesTarget * string * string * list string) :=
  [(V4V6, "filter", "INPUT", FILTER_INPUT); (V4V6, "filter", "FORWARD", FILTER_FORWARD);
   (V4V6, "filter", "OUTPUT", FILTER_OUTPUT); (V4V6, "raw", "PREROUTING", RAW_PREROUTING);
   (V4V6, "mangle", "POSTROUTING", MANGLE_POSTROUTING); (V4, "mangle", "FORWARD", MANGLE_FORWARD);
   (V4, "nat", "PREROUTING", NAT_PREROUTING); (V4, "nat", "POSTROUTING", NAT_POSTROUTING)].

Fixpoint create_all {S} (calls : list (IptablesTarget * string * string * list string)) : M S unit :=
  match calls with
  | [] => mret tt
  | (target, table, parentChain, childChains) :: calls =>
      createChildChains target table parentChain childChains;; create_all calls
  end.

(** oem_iptables_hook.cpp *)
Definition oemCleanupHooks {S} : M S bool :=
  sys_exec_value [IPTABLES_PATH; "-F"; "oem_out"];;
  sys_exec_value [IPTABLES_PATH; "-F"; "oem_fwd"];;
  sys_exec_value [IPTABLES_PATH; "-t"; "nat"; "-F"; "oem_nat_pre"];;
  mret true.

Definition oemInitChains {S} : M S bool :=
  ret ← sys_system OEM_SCRIPT_PATH;
  if (ret =? -1) || negb (Z.land (Z.shiftr ret 8) 255 =? 0)
  then oemCleanupHooks;; mret false else mret true.

Definition setupOemIptablesHook {S} : M S unit :=
  found ← sys_file (FAccess OEM_SCRIPT_PATH);
  if found =? 0 then
    cleaned ← oemCleanupHooks;
    (if cleaned : bool then oemInitChains;; mret tt else mret tt)
  else mret tt.

(** What the constructor of [CommandListener] does after the controllers are
    created; a failure of [RouteController::Init] is only logged. *)
Definition construct : M t unit :=
  on_errno InterfaceController.construct;;
  create_all child_chain_calls;;
  setupOemIptablesHook;;
  on_errno FirewallController.setupIptablesHooks;;
  on_nat NatController.setupIptablesHooks;;
  on_bandwidth BandwidthController.setupIptablesHooks;;
  on_errno IdletimerController.setupIptablesHooks;;
  on_bandwidth (BandwidthController.enableBandwidthControl false);;
  on_net (on_snd (RouteController.Init LOCAL_NET_ID));;
  mret tt.
End Startup.
