(* ===== verification/Commands.v ===== *)
(** * Commands: what the text commands do

    The [runCommand] methods of [server/CommandListener.cpp], a Module each, and
    the table of the registered commands.  They all return 0, so a handler has no
    value; what counts is what it sends. *)
From S2P Require Import Prelude Platform Cstd Fwmark UidRanges Children Netlink.
From S2P Require Import NetdConstants Ledger Iptables RouteController RouteSpec Networks NetworkSpec.
From S2P Require Import NetworkController ControllerSpec Daemon NetworkCommand.
From S2P Require Import FirewallController NatController IdletimerController BandwidthController TetherStats.
From S2P Require Import TetherController ClatdController PppController SoftapController InterfaceController.
From S2P Require Import QcRouteController.
From S2P Require Import CommandListener.

(** Texts and values of code outside the repository that the commands print or
    use: [strerror], what an uninitialised variable holds, and how netd is built. *)
Class Ambient := {
  strerror_popen : string;
  strerror_E2BIG : string;
  (** [addr] and [prefix_length] when [ifc_get_info] fails *)
  stray_info : Z * Z;
  (** QSAP_WLAN and QSAP_STA_CONCURRENCY *)
  qsap_wlan : bool;
  qsap_sta_concurrency : bool
}.

Notation "w == s" := (String.eqb w s) (at level 70, no associativity) : netd_scope.


(** The message at the end of most commands. *)
Definition send_result (rc : Z) (ok failed : string) (addErrno : bool) : C unit :=
  if rc =? 0 then sendMsg CommandOkay ok false else sendMsg OperationFailed failed addErrno.

Definition syntax_error (msg : string) : C unit := sendMsg CommandSyntaxError msg false.

(** ** interface *)
Module InterfaceCmd.
Section InterfaceCmd.
Context {K : Kernel}.
Implicit Types argv : list string.

Definition IFF_UP : Z := 1.
Definition IFF_BROADCAST : Z := 2.
Definition IFF_LOOPBACK : Z := 8.
Definition IFF_POINTOPOINT : Z := 16.
Definition IFF_RUNNING : Z := 64.
Definition IFF_MULTICAST : Z := 4096.

Definition flag_text (flags mask : Z) (text otherwise : string) : string :=
  if Z.land flags mask =? 0 then otherwise else text.

Definition getcfg_text (hwaddr : list Z) (addr prefixLength flags : Z) : string :=
  let b i := hex2 (nth i hwaddr 0) in
  b 0%nat +:+ ":" +:+ b 1%nat +:+ ":" +:+ b 2%nat +:+ ":" +:+ b 3%nat +:+ ":" +:+ b 4%nat +:+ ":" +:+ b 5%nat +:+
  " " +:+ TetherController.inet_ntoa addr +:+ " " +:+ print_d prefixLength +:+ " " +:+
  flag_text flags IFF_UP "up" "down" +:+ flag_text flags IFF_BROADCAST " broadcast" "" +:+
  flag_text flags IFF_LOOPBACK " loopback" "" +:+ flag_text flags IFF_POINTOPOINT " point-to-point" "" +:+
  flag_text flags IFF_RUNNING " running" "" +:+ flag_text flags IFF_MULTICAST " multicast" "".

Definition list_interfaces : C unit :=
  d ← run (sys_readdir "/sys/class/net");
  match d with
  | None => sendMsg OperationFailed "Failed to open sysfs dir" true
  | Some entries =>
      send_all InterfaceListResult (List.filter (fun n => negb (String.prefix "." n)) (map fst entries));;
      sendMsg CommandOkay "Interface list completed" false
  end.

Definition getcfg (iface : string) : C unit :=
  info ← run (sys_ifc_get_info iface);
  match info with
  | None => sendMsg OperationFailed "Interface not found" true
  | Some (addr, prefixLength, flags) =>
      hwaddr ← run (sys_ifc_get_hwaddr iface);
      sendMsg InterfaceGetCfgResult (getcfg_text (default [0;0;0;0;0;0] hwaddr) addr prefixLength flags) false
  end.

Definition ignored_flag (flag : string) : bool :=
  existsb (String.eqb flag) ["broadcast"; "multicast"; "running"; "loopback"; "point-to-point"].

(** The loop over the flags. *)
Fixpoint set_flags (iface : string) (flags : list string) : C unit :=
  match flags with
  | [] => sendMsg CommandOkay "Interface configuration set" false
  | flag :: flags =>
      if flag == "up" then
        r ← run (sys_ifc (IfcUp iface));
        if negb (r =? 0) then sendMsg OperationFailed "Failed to up interface" true else set_flags iface flags
      else if flag == "down" then
        r ← run (sys_ifc (IfcDown iface));
        if negb (r =? 0) then sendMsg OperationFailed "Failed to down interface" true else set_flags iface flags
      else if ignored_flag flag then set_flags iface flags
      else sendMsg CommandParameterError "Flag unsupported" false
  end.

(** interface setcfg <iface> [<addr> <prefixLength>] <flags> *)
Definition setcfg (iface : string) argv : C unit :=
  if argc argv <? 4 then syntax_error "Missing argument"
  else
    a3 ← arg argv 3;
    match k_inet_aton a3 with
    | None => set_flags iface (drop 3 argv)
    | Some addr =>
        r ← run (sys_ifc (IfcSetAddr iface addr));
        if negb (r =? 0) then sendMsg OperationFailed "Failed to set address" true
        else if negb (addr =? 0) then
          a4 ← arg argv 4;
          r ← run (sys_ifc (IfcSetPrefixLength iface (atoi a4)));
          if negb (r =? 0) then sendMsg OperationFailed "Failed to set prefixLength" true
          else set_flags iface (drop 5 argv)
        else set_flags iface (drop 5 argv)
    end.

(** The settings of InterfaceController that take "enable" or another word. *)
Definition setting argv (usage ok failed : string) (set : string -> bool -> M Z Z) (iface : string) : C unit :=
  if negb (argc argv =? 4) then syntax_error usage
  else
    a3 ← arg argv 3;
    rc ← run (on_errno (set iface (a3 == "enable")));
    send_result rc ok failed true.

Definition runCommand argv : C unit :=
  if argc argv <? 2 then syntax_error "Missing argument"
  else
    a1 ← arg argv 1;
    if a1 == "list" then list_interfaces
    else if argc argv <? 3 then syntax_error "Missing argument"
    else
      iface ← arg argv 2;
      if a1 == "getcfg" then getcfg iface
      else if a1 == "setcfg" then setcfg iface argv
      else if a1 == "clearaddrs" then
        run (sys_ifc (IfcClearAddresses iface));;
        sendMsg CommandOkay "Interface IP addresses cleared" false
      else if a1 == "ipv6privacyextensions" then
        setting argv "Usage: interface ipv6privacyextensions <interface> <enable|disable>"
          "IPv6 privacy extensions changed" "Failed to set ipv6 privacy extensions"
          InterfaceController.setIPv6PrivacyExtensions iface
      else if a1 == "ipv6" then
        setting argv "Usage: interface ipv6 <interface> <enable|disable>"
          "IPv6 state changed" "Failed to change IPv6 state" InterfaceController.setEnableIPv6 iface
      else if a1 == "ipv6ndoffload" then
        setting argv "Usage: interface ipv6ndoffload <interface> <enable|disable>"
          "IPv6 ND offload changed" "Failed to change IPv6 ND offload state"
          InterfaceController.setIPv6NdOffload iface
      else if a1 == "setmtu" then
        if negb (argc argv =? 4) then syntax_error "Usage: interface setmtu <interface> <val>"
        else
          a3 ← arg argv 3;
          rc ← run (on_errno (InterfaceController.setMtu iface a3));
          send_result rc "MTU changed" "Failed to get MTU" true
      else syntax_error "Unknown interface cmd".
End InterfaceCmd.
End InterfaceCmd.

(** ** list_ttys *)
Module ListTtysCmd.
Section ListTtysCmd.
Context {K : Kernel}.
Implicit Types argv : list string.

Definition runCommand argv : C unit :=
  tlist ← run (on_ppp PppController.getTtyList);
  send_all TtyListResult tlist;;
  sendMsg CommandOkay "Ttys listed." false.
End ListTtysCmd.
End ListTtysCmd.

(** ** ipfwd *)
Module IpFwdCmd.
Section IpFwdCmd.
Context {K : Kernel}.
Implicit Types argv : list string.

(** [(argc > 2) && !strcmp(argv[2], "iwlan")] *)
Definition is_iwlan argv : C bool :=
  if 2 <? argc argv then a2 ← arg argv 2; mret (a2 == "iwlan") else mret false.

Definition set_flag argv (enable : bool) : C unit :=
  iwlan ← is_iwlan argv;
  run (modify (if iwlan : bool then set_iWlanFwdEnable enable else set_fwIpFwdEnable enable)).

Definition finish (rc : Z) : C unit := send_result rc "ipfwd operation succeeded" "ipfwd operation failed" true.

Definition runCommand argv : C unit :=
  if argc argv <? 2 then syntax_error "Missing argument"
  else
    a1 ← arg argv 1;
    if a1 == "status" then
      enabled ← run (on_tether TetherController.getIpFwdEnabled);
      sendMsg IpFwdStatusResult ("Forwarding " +:+ (if enabled : bool then "enabled" else "disabled")) false
    else if a1 == "enable" then
      set_flag argv true;;
      rc ← run (on_tether (TetherController.setIpFwdEnabled true));
      finish rc
    else if a1 == "disable" then
      set_flag argv false;;
      s ← run (gets id);
      if negb (iWlanFwdEnable s) && negb (fwIpFwdEnable s) then
        rc ← run (on_tether (TetherController.setIpFwdEnabled false));
        finish rc
      else finish 0
    else syntax_error "Unknown ipfwd cmd".
End IpFwdCmd.
End IpFwdCmd.

(** ** tether *)
Module TetherCmd.
Section TetherCmd.
Context {K : Kernel}.
Implicit Types argv : list string.

(** The loop of "tether start"; [None] for an invalid address. *)
Fixpoint parse_addrs (words : list string) : option (list Z) :=
  match words with
  | [] => Some []
  | word :: words => addr ← k_inet_aton word; addrs ← parse_addrs words; Some (addr :: addrs)
  end.

Definition finish (rc : Z) : C unit := send_result rc "Tether operation succeeded" "Tether operation failed" true.

(** The commands of exactly three words; others are accepted without effect. *)
Definition three_words (a1 a2 : string) : C unit :=
  if (a1 == "interface") && (a2 == "list") then
    ilist ← run (on_tether TetherController.getTetheredInterfaceList);
    send_all TetherInterfaceListResult ilist
  else if (a1 == "dns") && (a2 == "list") then
    netId ← run (on_tether TetherController.getDnsNetId);
    sendMsg TetherDnsFwdNetIdResult (print_u (u32 netId)) false;;
    dlist ← run (on_tether TetherController.getDnsForwarders);
    send_all TetherDnsFwdTgtListResult (map TetherController.inet_ntoa dlist)
  else mret tt.

Definition interface_cmd (a2 a3 : string) : C unit :=
  let op (m : M TetherController.t Z) := (rc ← run (on_tether m); finish rc) in
  if a2 == "add" then op (TetherController.tetherInterface a3)
  else if a2 == "remove" then op (TetherController.untetherInterface a3)
  else if a2 == "add_upstream" then op (TetherController.addUpstreamInterface (Some a3))
  else if a2 == "remove_upstream" then op (TetherController.removeUpstreamInterface (Some a3))
  else sendMsg CommandParameterError "Unknown tether interface operation" false.

Definition runCommand argv : C unit :=
  if argc argv <? 2 then syntax_error "Missing argument"
  else
    a1 ← arg argv 1;
    if a1 == "stop" then rc ← run (on_tether TetherController.stopTethering); finish rc
    else if a1 == "status" then
      started ← run (on_tether TetherController.isTetheringStarted);
      sendMsg TetherStatusResult ("Tethering services " +:+ (if started : bool then "started" else "stopped")) false
    else if argc argv =? 3 then
      a2 ← arg argv 2; three_words a1 a2;; finish 0
    else if argc argv <? 4 then syntax_error "Missing argument"
    else
      a2 ← arg argv 2; a3 ← arg argv 3;
      if a1 == "start" then
        if argc argv mod 2 =? 1 then syntax_error "Bad number of arguments"
        else
          match parse_addrs (drop 2 argv) with
          | None => sendMsg CommandParameterError "Invalid address" false
          | Some addrs => rc ← run (on_tether (TetherController.startTethering addrs)); finish rc
          end
      else if a1 == "interface" then interface_cmd a2 a3
      else if a1 == "dns" then
        if a2 == "set" then
          if argc argv <? 5 then syntax_error "Missing argument"
          else
            rc ← run (on_tether (TetherController.setDnsForwarders (stringToNetId a3) (drop 4 argv)));
            finish rc
        else sendMsg CommandParameterError "Unknown tether interface operation" false
      else syntax_error "Unknown tether cmd".
End TetherCmd.
End TetherCmd.

(** ** v6rtradv, which the constructor does not register *)
Module V6RtrAdvCmd.
Section V6RtrAdvCmd.
Context {K : Kernel}.
Implicit Types argv : list string.

(** [INVALID_TABLE_NUMBER] *)
Definition INVALID_TABLE_NUMBER : Z := -1.

Definition finish (rc : Z) : C unit :=
  send_result rc "V6RtrAdv operation succeeded" "V6RtrAdv operation failed" true.

Definition runCommand argv : C unit :=
  if argc argv <? 2 then syntax_error "Missing argument"
  else
    a1 ← arg argv 1;
    if a1 == "stop" then rc ← run (on_tether TetherController.stopV6RtrAdv); finish rc
    else if a1 == "status" then
      started ← run (on_tether TetherController.isV6RtrAdvStarted);
      sendMsg V6RtrAdvResult
        ("IPv6 Router Advertisement service " +:+ (if started : bool then "started" else "stopped")) false
    else if argc argv <? 4 then syntax_error "Missing argument"
    else if a1 == "start" then
      rc ← run (on_tether (TetherController.startV6RtrAdv (drop 2 argv) INVALID_TABLE_NUMBER));
      finish rc
    else if a1 == "interface" then
      a2 ← arg argv 2; a3 ← arg argv 3;
      if a2 == "add" then rc ← run (on_tether (TetherController.tetherInterface a3)); finish rc
      else if a2 == "remove" then rc ← run (on_tether (TetherController.untetherInterface a3)); finish rc
      else if a2 == "list" then
        ilist ← run (on_tether TetherController.getTetheredInterfaceList);
        send_all TetherInterfaceListResult ilist;; finish 0
      else sendMsg CommandParameterError "Unknown tether interface operation" false
    else syntax_error "Unknown v6rtradv cmd".
End V6RtrAdvCmd.
End V6RtrAdvCmd.

(** ** nat *)
Module NatCmd.
Section NatCmd.
Context {K : Kernel}.
Implicit Types argv : list string.

Definition finish (rc : Z) : C unit := send_result rc "Nat operation succeeded" "Nat operation failed" true.

Definition runCommand argv : C unit :=
  if argc argv <? 5 then syntax_error "Missing argument"
  else
    a1 ← arg argv 1; a2 ← arg argv 2; a3 ← arg argv 3;
    if a1 == "enable" then
      rc ← run (on_nat (NatController.enableNat a2 a3));
      if rc =? 0 then
        rc ← run (on_bandwidth BandwidthController.setGlobalAlertInForwardChain); finish rc
      else finish rc
    else if a1 == "disable" then
      rc ← run (on_bandwidth BandwidthController.removeGlobalAlertInForwardChain);
      rc' ← run (on_nat (NatController.disableNat a2 a3));
      finish (Z.lor rc rc')
    else syntax_error "Unknown nat cmd".
End NatCmd.
End NatCmd.

(** ** pppd *)
Module PppdCmd.
Section PppdCmd.
Context {K : Kernel}.
Implicit Types argv : list string.

Definition finish (rc : Z) : C unit := send_result rc "Pppd operation succeeded" "Pppd operation failed" true.

(** [if (cond && !inet_aton(argv[n], &addr)) error]; [addr] stays 0 when [cond]
    does not hold. *)
Definition with_addr (cond : bool) argv (n : nat) (what : string) (k : Z -> C unit) : C unit :=
  if cond then
    word ← arg argv n;
    match k_inet_aton word with
    | None => sendMsg CommandParameterError ("Invalid " +:+ what +:+ " address") false
    | Some addr => k addr
    end
  else k 0.

Definition runCommand argv : C unit :=
  if argc argv <? 3 then syntax_error "Missing argument"
  else
    a1 ← arg argv 1; a2 ← arg argv 2;
    if a1 == "attach" then
      with_addr true argv 3 "local" (fun l =>
      with_addr true argv 4 "remote" (fun r =>
      with_addr (3 <? argc argv) argv 5 "dns1" (fun dns1 =>
      with_addr (4 <? argc argv) argv 6 "dns2" (fun dns2 =>
        rc ← run (on_ppp (PppController.attachPppd a2 l r dns1 dns2));
        finish rc))))
    else if a1 == "detach" then rc ← run (on_ppp (PppController.detachPppd a2)); finish rc
    else syntax_error "Unknown pppd cmd".
End PppdCmd.
End PppdCmd.

(** ** softap: the constructor of CommandListener creates the controller *)
Module SoftapCmd.
Section SoftapCmd.
Context {K : Kernel}.
Implicit Types argv : list string.

Definition finish (rc : Z) : C unit :=
  if (400 <=? rc) && (rc <? 600) then sendMsg rc "SoftAP command has failed" false else sendMsg rc "Ok" false.

Definition runCommand argv : C unit :=
  if argc argv <? 2 then syntax_error "Missing argument in a SoftAP command"
  else
    a1 ← arg argv 1;
    if a1 == "startap" then rc ← run (on_softap SoftapController.startSoftap); finish rc
    else if a1 == "stopap" then rc ← run (on_softap SoftapController.stopSoftap); finish rc
    else if a1 == "fwreload" then rc ← run (on_softap (SoftapController.fwReloadSoftap argv)); finish rc
    else if a1 == "status" then
      started ← run (on_softap SoftapController.isSoftapStarted);
      sendMsg SoftapController.SoftapStatusResult
        ("Softap service " +:+ (if started : bool then "is" else "is not") +:+ " running") false
    else if a1 == "set" then
      rc ← run (on_softap (SoftapController.setSoftap argv)); rc ← deref rc; finish rc
    else syntax_error "Unrecognized SoftAP command".
End SoftapCmd.
End SoftapCmd.

(** *** QsoftapCmd.cpp: the same command in a build with the vendor's access point

    libsysutils clears its array of arguments: behind the last one are null
    pointers. *)
Module QsoftapCmd.
Section QsoftapCmd.
Context {K : Kernel} {A : Ambient}.
Implicit Types argv : list string.

Definition MAX_CMD_SIZE : Z := 256.

(** The words that fit in the [len] bytes left of the buffer, NUL included. *)
Fixpoint command_line (len : Z) (words : list string) : string :=
  match words with
  | [] => ""
  | word :: words =>
      let ret := strlen (" " +:+ word) in
      if len <=? ret then "" else " " +:+ word +:+ command_line (len - ret) words
  end.

Definition finish (rc : Z) : C unit := send_result rc "Softap operation succeeded" "Softap operation failed" true.

Definition sap_sta_concurrency (a3 : string) : C unit :=
  let sta_channel := atoi (String.substring 20 (String.length a3) a3) in
  reply ← run (sys_qsap_exec " get channel");
  sendRaw reply;;
  (* a reply of less than 16 characters: what is behind it is not known *)
  text ← deref (if strlen reply <? 16 then None else Some (String.substring 16 (String.length reply) reply));
  if sta_channel =? atoi text then mret tt
  else
    rc ← run (on_softap SoftapController.stopSoftap);
    finish rc;;
    reply ← run (sys_qsap_exec " set reset_ap=5");
    sendRaw reply.

Definition sta_assoc_complete_ind : C unit :=
  started ← run (on_softap SoftapController.isSoftapStarted);
  if started : bool then mret tt
  else
    reply ← run (sys_qsap_exec " set reset_ap=4");
    sendRaw reply;;
    rc ← run (on_softap SoftapController.startSoftap);
    finish rc.

Definition qccmd argv : C unit :=
  if argc argv <? 4 then sendMsg OperationFailed "failure: invalid arguments" true
  else
    a2 ← arg argv 2; a3 ← arg argv 3;
    if qsap_sta_concurrency && String.prefix "sap_sta_concurrency=" a3 && (a2 == "set") then sap_sta_concurrency a3
    else if qsap_sta_concurrency && (a3 == "sta_assoc_complete_ind") && (a2 == "set") then sta_assoc_complete_ind
    else
      reply ← run (sys_qsap_exec (command_line MAX_CMD_SIZE (drop 2 argv)));
      sendMsg CommandOkay reply false.

(** An operation of the library on the interface, when one is named. *)
Definition on_interface argv (op : string -> wifiop) : C unit :=
  match argv !! 2%nat with
  | None => finish 0
  | Some interface => rc ← run (sys_wifi (op interface)); finish rc
  end.

Definition runCommand argv : C unit :=
  if argc argv <? 2 then syntax_error "Softap Missing argument"
  else
    a1 ← arg argv 1;
    if a1 == "qccmd" then qccmd argv
    else if a1 == "set" then
      ath6kl_supported ← run (sys_property "wlan.driver.ath");
      if String.prefix "2" ath6kl_supported then SoftapCmd.runCommand argv
      else rc ← run (sys_wifi (QsapSet argv)); finish rc
    else if a1 == "create" then on_interface argv QsapCreate
    else if a1 == "remove" then on_interface argv QsapRemove
    else SoftapCmd.runCommand argv.

(** The command stays in its buffer, and it is a number of the words, whole; all
    of them only if they fit. *)
Definition join_words (words : list string) : string := foldr (fun w s => " " +:+ w +:+ s) "" words.

Lemma command_line_spec len words :
  0 < len -> strlen (command_line len words) < len /\
  exists n, command_line len words = join_words (take n words) /\
    ((n < length words)%nat -> len <= strlen (join_words (take (S n) words))).
Proof.
  revert len. induction words as [|w words IH]; intros len Hl; cbn [command_line].
  - split; [change (strlen "") with 0; lia|]. exists 0%nat. by split; [|intros ?%Nat.nlt_0_r].
  - cbv zeta. destruct (Z.leb_spec len (strlen (" " +:+ w))) as [H|H].
    + split; [change (strlen "") with 0; lia|]. exists 0%nat. split; [done|]. intros _. cbn [take join_words foldr].
      by rewrite append_empty_r.
    + destruct (IH (len - strlen (" " +:+ w))) as (H1 & n & H2 & H3); [lia|].
      rewrite <-(append_assoc " " w), strlen_app. split; [lia|]. exists (S n). split.
      * rewrite H2. by rewrite append_assoc.
      * intros Hn. specialize (H3 ltac:(cbn in Hn; lia)). cbn [take].
        change (join_words (w :: take (S n) words)) with (" " +:+ w +:+ join_words (take (S n) words)).
        rewrite <-(append_assoc " " w), strlen_app. lia.
Qed.

(** A command that is too long is not refused: what fits of it is run. *)
Lemma long_command_cut w : 255 <= strlen w -> command_line MAX_CMD_SIZE ["set"; w] = " set".
Proof.
  intros H. cbn [command_line]. change (strlen (" " +:+ "set")) with 4. change (MAX_CMD_SIZE <=? 4) with false.
  cbv iota zeta. rewrite (proj2 (Z.leb_le _ _)); [done|]. rewrite strlen_app. change (strlen " ") with 1.
  unfold MAX_CMD_SIZE. lia.
Qed.

End QsoftapCmd.
End QsoftapCmd.

(** ** resolver; the methods of ResolverController are single calls of libc *)
Module ResolverCmd.
Section ResolverCmd.
Context {K : Kernel}.
Implicit Types argv : list string.

Definition setDnsServers {S} (netId : Z) (domains : string) (servers : list string) : M S Z :=
  sys_resolv_set netId domains servers;; mret 0.
Definition clearDnsServers {S} (netId : Z) : M S Z := sys_resolv_set netId "" [];; mret 0.
Definition flushDnsCache {S} (netId : Z) : M S Z := sys_resolv_flush netId;; mret 0.

Definition finish (rc : Z) : C unit := send_result rc "Resolver command succeeded" "Resolver command failed" true.

Definition runCommand argv : C unit :=
  if argc argv <? 2 then syntax_error "Resolver missing arguments"
  else
    a1 ← arg argv 1;
    if a1 == "setnetdns" then
      if 5 <=? argc argv then
        a2 ← arg argv 2; a3 ← arg argv 3;
        rc ← run (setDnsServers (parse_unsigned a2) a3 (drop 4 argv)); finish rc
      else syntax_error "Wrong number of arguments to resolver setnetdns"
    else if a1 == "clearnetdns" then
      if argc argv =? 3 then
        a2 ← arg argv 2; rc ← run (clearDnsServers (parse_unsigned a2)); finish rc
      else syntax_error "Wrong number of arguments to resolver clearnetdns"
    else if a1 == "flushnet" then
      if argc argv =? 3 then
        a2 ← arg argv 2; rc ← run (flushDnsCache (parse_unsigned a2)); finish rc
      else syntax_error "Wrong number of arguments to resolver flushnet"
    else syntax_error "Resolver unknown command".
End ResolverCmd.
End ResolverCmd.

(** ** bandwidth *)
Module BandwidthControlCmd.
Section BandwidthControlCmd.
Context {K : Kernel}.
Implicit Types argv : list string.

Definition sendGenericSyntaxError (usageMsg : string) : C unit :=
  sendMsg CommandSyntaxError ("Usage: bandwidth " +:+ usageMsg) false.
Definition sendGenericOkFail (cond : Z) : C unit :=
  if cond =? 0 then sendMsg CommandOkay "Bandwidth command succeeeded" false
  else sendMsg OperationFailed "Bandwidth command failed" false.
Definition sendGenericOpFailed (errMsg : string) : C unit := sendMsg OperationFailed errMsg false.

(** Run an operation and report its result. *)
Definition generic (m : M BandwidthController.t Z) : C unit :=
  rc ← run (on_bandwidth m); sendGenericOkFail rc.

(** The word of a command and its abbreviation. *)
Definition is_cmd (a1 long short : string) : bool := (a1 == long) || (a1 == short).

Definition send_quota (m : M BandwidthController.t (option Z)) : C unit :=
  r ← run (on_bandwidth m);
  match r with
  | None => sendGenericOpFailed "Failed to get quota"
  | Some bytes => sendMsg QuotaCounterResult (print_d bytes) false
  end.

(** The loops of setquotas and removequotas: they stop at the first failure;
    [rc] is the last result, the code makes sure that there is one. *)
Fixpoint each_interface (ifaces : list string) (op : string -> M BandwidthController.t Z)
    (failed : string -> string) (rc : Z) : C unit :=
  match ifaces with
  | [] => sendGenericOkFail rc
  | iface :: ifaces =>
      rc ← run (on_bandwidth (op iface));
      if negb (rc =? 0) then sendMsg OperationFailed (failed iface) false
      else each_interface ifaces op failed rc
  end.

Definition happybox argv : C unit :=
  if argc argv <? 3 then sendGenericSyntaxError "happybox (enable | disable)"
  else
    a2 ← arg argv 2;
    if a2 == "enable" then generic BandwidthController.enableHappyBox
    else if a2 == "disable" then generic BandwidthController.disableHappyBox
    else sendGenericSyntaxError "happybox (enable | disable)".

Fixpoint send_messages (msgs : list TetherStats.message) : C unit :=
  match msgs with
  | [] => mret tt
  | (code, text) :: msgs => sendMsg code text false;; send_messages msgs
  end.

Definition gettetherstats argv : C unit :=
  if (argc argv <? 2) || (4 <? argc argv)
  then sendGenericSyntaxError "gettetherstats [<intInterface> <extInterface>]"
  else
    intIface ← (if 2 <? argc argv then arg argv 2 else mret "");
    extIface ← (if 3 <? argc argv then arg argv 3 else mret "");
    s ← run (gets id);
    if (argc argv <=? 2) && (match NatController.ifacePairList (sNatCtrl s) with [] => true | _ => false end)
    then sendMsg CommandOkay "Tethering stats list completed" false
    else
      r ← run (TetherStats.getTetherStats (TetherStats.Stats intIface extIface (-1) (-1) (-1) (-1)));
      let '(rc, msgs, extraProcessingInfo) := r in
      send_messages msgs;;
      if negb (rc =? 0) then
        sendGenericOpFailed ("Failed to get tethering stats." +:+ String newline "" +:+ extraProcessingInfo)
      else mret tt.

(** Commands with a fixed number of arguments. *)
Definition with_argc argv (n : Z) (usage : string) (k : C unit) : C unit :=
  if negb (argc argv =? n) then sendGenericSyntaxError usage else k.
Definition min_argc argv (n : Z) (usage : string) (k : C unit) : C unit :=
  if argc argv <? n then sendGenericSyntaxError usage else k.

Definition app_commands argv (a1 : string) (otherwise : C unit) : C unit :=
  let apps := drop 2 argv in
  if is_cmd a1 "addnaughtyapps" "ana" then
    min_argc argv 3 "addnaughtyapps <appUid> ..." (generic (BandwidthController.addNaughtyApps apps))
  else if is_cmd a1 "removenaughtyapps" "rna" then
    min_argc argv 3 "removenaughtyapps <appUid> ..." (generic (BandwidthController.removeNaughtyApps apps))
  else if a1 == "happybox" then happybox argv
  else if is_cmd a1 "addniceapps" "aha" then
    min_argc argv 3 "addniceapps <appUid> ..." (generic (BandwidthController.addNiceApps apps))
  else if is_cmd a1 "removeniceapps" "rha" then
    min_argc argv 3 "removeniceapps <appUid> ..." (generic (BandwidthController.removeNiceApps apps))
  else otherwise.

Definition alert_commands argv (a1 : string) (otherwise : C unit) : C unit :=
  if is_cmd a1 "setglobalalert" "sga" then
    with_argc argv 3 "setglobalalert <bytes>"
      (a2 ← arg argv 2; generic (BandwidthController.setGlobalAlert (atoll a2)))
  else if is_cmd a1 "debugsettetherglobalalert" "dstga" then
    with_argc argv 4 "debugsettetherglobalalert <interface0> <interface1>"
      (generic BandwidthController.setGlobalAlertInForwardChain)
  else if is_cmd a1 "removeglobalalert" "rga" then
    with_argc argv 2 "removeglobalalert" (generic BandwidthController.removeGlobalAlert)
  else if is_cmd a1 "debugremovetetherglobalalert" "drtga" then
    with_argc argv 4 "debugremovetetherglobalalert <interface0> <interface1>"
      (generic BandwidthController.removeGlobalAlertInForwardChain)
  else if is_cmd a1 "setsharedalert" "ssa" then
    with_argc argv 3 "setsharedalert <bytes>"
      (a2 ← arg argv 2; generic (BandwidthController.setSharedAlert (atoll a2)))
  else if is_cmd a1 "removesharedalert" "rsa" then
    with_argc argv 2 "removesharedalert" (generic BandwidthController.removeSharedAlert)
  else if is_cmd a1 "setinterfacealert" "sia" then
    with_argc argv 4 "setinterfacealert <interface> <bytes>"
      (a2 ← arg argv 2; a3 ← arg argv 3; generic (BandwidthController.setInterfaceAlert a2 (atoll a3)))
  else if is_cmd a1 "removeinterfacealert" "ria" then
    with_argc argv 3 "removeinterfacealert <interface>"
      (a2 ← arg argv 2; generic (BandwidthController.removeInterfaceAlert a2))
  else otherwise.

Definition quota_commands argv (a1 : string) (otherwise : C unit) : C unit :=
  if is_cmd a1 "removequota" "rq" then
    with_argc argv 3 "removequota <interface>"
      (a2 ← arg argv 2; generic (BandwidthController.removeInterfaceSharedQuota a2))
  else if is_cmd a1 "getquota" "gq" then
    with_argc argv 2 "getquota" (send_quota BandwidthController.getInterfaceSharedQuota)
  else if is_cmd a1 "getiquota" "giq" then
    with_argc argv 3 "getiquota <iface>"
      (a2 ← arg argv 2; send_quota (BandwidthController.getInterfaceQuota a2))
  else if is_cmd a1 "setquota" "sq" then
    with_argc argv 4 "setquota <interface> <bytes>"
      (a2 ← arg argv 2; a3 ← arg argv 3; generic (BandwidthController.setInterfaceSharedQuota a2 (atoll a3)))
  else if is_cmd a1 "setquotas" "sqs" then
    min_argc argv 4 "setquotas <bytes> <interface> ..."
      (a2 ← arg argv 2;
       each_interface (drop 3 argv) (fun iface => BandwidthController.setInterfaceSharedQuota iface (atoll a2))
         (fun iface => "bandwidth setquotas " +:+ a2 +:+ " " +:+ iface +:+ " failed") 0)
  else if is_cmd a1 "removequotas" "rqs" then
    min_argc argv 3 "removequotas <interface> ..."
      (each_interface (drop 2 argv) BandwidthController.removeInterfaceSharedQuota
         (fun iface => "bandwidth removequotas " +:+ iface +:+ " failed") 0)
  else if is_cmd a1 "removeiquota" "riq" then
    with_argc argv 3 "removeiquota <interface>"
      (a2 ← arg argv 2; generic (BandwidthController.removeInterfaceQuota a2))
  else if is_cmd a1 "setiquota" "siq" then
    with_argc argv 4 "setiquota <interface> <bytes>"
      (a2 ← arg argv 2; a3 ← arg argv 3; generic (BandwidthController.setInterfaceQuota a2 (atoll a3)))
  else otherwise.

Definition runCommand argv : C unit :=
  if argc argv <? 2 then sendGenericSyntaxError "<cmds> <args...>"
  else
    a1 ← arg argv 1;
    if a1 == "enable" then generic (BandwidthController.enableBandwidthControl true)
    else if a1 == "disable" then generic BandwidthController.disableBandwidthControl
    else
      quota_commands argv a1
        (app_commands argv a1
           (alert_commands argv a1
              (if is_cmd a1 "gettetherstats" "gts" then gettetherstats argv
               else sendMsg CommandSyntaxError "Unknown bandwidth cmd" false))).
End BandwidthControlCmd.
End BandwidthControlCmd.

(** ** idletimer *)
Module IdletimerControlCmd.
Section IdletimerControlCmd.
Context {K : Kernel}.
Implicit Types argv : list string.

Definition timer_command argv (op : string -> Z -> string -> M Z Z) (ok failed : string) : C unit :=
  if negb (argc argv =? 5) then syntax_error "Missing argument"
  else
    a2 ← arg argv 2; a3 ← arg argv 3; a4 ← arg argv 4;
    rc ← run (on_errno (op a2 (atoi a3) a4));
    send_result rc ok failed false.

Definition runCommand argv : C unit :=
  if argc argv <? 2 then syntax_error "Missing argument"
  else
    a1 ← arg argv 1;
    if a1 == "enable" then
      rc ← run (on_errno IdletimerController.enableIdletimerControl);
      if negb (rc =? 0) then syntax_error "Missing argument"
      else sendMsg CommandOkay "Enable success" false
    else if a1 == "disable" then
      rc ← run (on_errno IdletimerController.disableIdletimerControl);
      if negb (rc =? 0) then syntax_error "Missing argument"
      else sendMsg CommandOkay "Disable success" false
    else if a1 == "add" then
      timer_command argv IdletimerController.addInterfaceIdletimer "Add success" "Failed to add interface"
    else if a1 == "remove" then
      timer_command argv IdletimerController.removeInterfaceIdletimer "Remove success" "Failed to remove interface"
    else syntax_error "Unknown idletimer cmd".
End IdletimerControlCmd.
End IdletimerControlCmd.

(** ** firewall *)
Module FirewallCmd.
Section FirewallCmd.
Context {K : Kernel}.
Implicit Types argv : list string.

(** FirewallController.h *)
Definition PROTOCOL_TCP : Z := 6.
Definition PROTOCOL_UDP : Z := 17.

Definition sendGenericOkFail (cond : Z) : C unit :=
  if cond =? 0 then sendMsg CommandOkay "Firewall command succeeded" false
  else sendMsg OperationFailed "Firewall command failed" false.

Definition parseRule (word : string) : FirewallRule := if word == "allow" then ALLOW else DENY.

Definition generic (m : M Z Z) : C unit := res ← run (on_errno m); sendGenericOkFail res.

Definition runCommand argv : C unit :=
  if argc argv <? 2 then syntax_error "Missing command"
  else
    a1 ← arg argv 1;
    if a1 == "enable" then generic FirewallController.enableFirewall
    else if a1 == "disable" then generic FirewallController.disableFirewall
    else if a1 == "is_enabled" then generic FirewallController.isFirewallEnabled
    else if a1 == "set_interface_rule" then
      if negb (argc argv =? 4) then syntax_error "Usage: firewall set_interface_rule <rmnet0> <allow|deny>"
      else
        a2 ← arg argv 2; a3 ← arg argv 3;
        generic (FirewallController.setInterfaceRule a2 (parseRule a3))
    else if a1 == "set_egress_source_rule" then
      if negb (argc argv =? 4) then
        syntax_error "Usage: firewall set_egress_source_rule <192.168.0.1> <allow|deny>"
      else
        a2 ← arg argv 2; a3 ← arg argv 3;
        generic (FirewallController.setEgressSourceRule a2 (parseRule a3))
    else if a1 == "set_egress_dest_rule" then
      if negb (argc argv =? 5) then
        syntax_error "Usage: firewall set_egress_dest_rule <192.168.0.1> <80> <allow|deny>"
      else
        a2 ← arg argv 2; a3 ← arg argv 3; a4 ← arg argv 4;
        generic (FirewallController.both
          (FirewallController.setEgressDestRule a2 PROTOCOL_TCP (atoi a3) (parseRule a4))
          (FirewallController.setEgressDestRule a2 PROTOCOL_UDP (atoi a3) (parseRule a4)))
    else if a1 == "set_uid_rule" then
      if negb (argc argv =? 4) then syntax_error "Usage: firewall set_uid_rule <1000> <allow|deny>"
      else
        a2 ← arg argv 2; a3 ← arg argv 3;
        generic (FirewallController.setUidRule (atoi a2) (parseRule a3))
    else syntax_error "Unknown command".
End FirewallCmd.
End FirewallCmd.

(** ** clatd *)
Module ClatdCmd.
Section ClatdCmd.
Context {K : Kernel}.
Implicit Types argv : list string.

Definition finish (rc : Z) : C unit := send_result rc "Clatd operation succeeded" "Clatd operation failed" false.

Definition runCommand argv : C unit :=
  if argc argv <? 3 then syntax_error "Missing argument"
  else
    a1 ← arg argv 1; a2 ← arg argv 2;
    if a1 == "stop" then rc ← run (on_clatd (ClatdController.stopClatd a2)); finish rc
    else if a1 == "status" then
      started ← run (on_clatd (ClatdController.isClatdStarted a2));
      sendMsg ClatdStatusResult ("Clatd status: " +:+ (if started : bool then "started" else "stopped")) false
    else if a1 == "start" then
      s ← run (gets id);
      rc ← run (on_clatd (ClatdController.startClatd (sNetCtrl s) a2)); finish rc
    else syntax_error "Unknown clatd cmd".
End ClatdCmd.
End ClatdCmd.

(** ** network *)
Module NetworkCmd.
Section NetworkCmd.
Context {K : Kernel}.

Definition runCommand (argv : list string) : C unit :=
  r ← run (on_net (NetworkCommand.runCommand argv));
  match r with
  | None => fun c tr => (None, c, tr)
  | Some rsp => sendMsg (rsp_code rsp) (rsp_msg rsp) (match rsp_errno rsp with Some _ => true | None => false end)
  end.
End NetworkCmd.
End NetworkCmd.

(** ** route *)
Module QcRouteCmd.
Section QcRouteCmd.
Context {K : Kernel} {A : Ambient}.
Implicit Types argv : list string.

Definition isValidIface (iface : string) : C bool :=
  index ← run (sys_ifindex iface); mret (negb (index =? 0)).

Fixpoint has_space (s : string) : bool :=
  match s with EmptyString => false | String c s => isspace c || has_space s end.

Definition isValidIp (str af : string) : bool :=
  let ret :=
    if af == "v4" then k_inet_pton AF_INET str
    else if af == "v6" then k_inet_pton AF_INET6 str else None in
  match ret with Some _ => negb (has_space str) | None => false end.

(** Continue with the checks passed, or report what is wrong. *)
Definition check_iface (iface : string) (k : C unit) : C unit :=
  ok ← isValidIface iface;
  if ok : bool then k else sendMsg CommandParameterError "invalid interface" false.
Definition check_ip (str af : string) (k : C unit) : C unit :=
  if isValidIp str af then k else sendMsg CommandParameterError "invalid IP address" false.
(** [if (argc > n) gateway = argv[n]], with its check. *)
Definition with_gateway argv (n : nat) (af : string) (k : option string -> C unit) : C unit :=
  if Z.of_nat n <? argc argv then
    gateway ← arg argv n;
    if isValidIp gateway af then k (Some gateway) else sendMsg CommandParameterError "invalid gateway" false
  else k None.

(** A routing table between 1 and 252. *)
Definition check_rid (word range_error : string) (k : C unit) : C unit :=
  let '(rid, end_) := strtol word 10 in
  if negb (end_ == "") then sendMsg CommandParameterError "RouteID: invalid numerical value" false
  else if (rid <? 1) || (252 <? rid) then sendMsg CommandParameterError range_error false
  else k.

(** [if (!res.empty()) failure with the text of res, else success] *)
Definition report (res ok : string) : C unit :=
  if QcRouteController.is_empty res then sendMsg CommandOkay ok false else sendMsg OperationFailed res false.

(** The network of an IPv4 address in CIDR notation. *)
Definition network_text (addr prefix_length : Z) : string :=
  TetherController.inet_ntoa (Z.land addr (k_netmask prefix_length)) +:+ "/" +:+ print_d prefix_length.

Definition src_replace argv (af ipVer : string) : C unit :=
  if negb (argc argv =? 7) && negb (argc argv =? 8) then
    syntax_error "Usage: route replace src inet_family <interface> <ipaddr> <routeId> [<gateway>]"
  else
    iface ← arg argv 4; srcPrefix ← arg argv 5; routeId ← arg argv 6;
    check_rid routeId "0 < RouteID < 253" (
      info ← run (sys_ifc_get_info iface);
      let '(addr, prefix_length) := match info with Some (a, p, _) => (a, p) | None => stray_info end in
      check_iface iface (check_ip srcPrefix af (with_gateway argv 7 af (fun gateway =>
        res ← run (QcRouteController.repSrcRoute strerror_popen strerror_E2BIG iface srcPrefix gateway routeId ipVer);
        if negb (QcRouteController.is_empty res) then sendMsg OperationFailed res false
        else if af == "v4" then
          res ← run (QcRouteController.addDstRoute strerror_popen strerror_E2BIG iface
                       (network_text addr prefix_length) None 0 routeId);
          sendMsg CommandOkay
            (if QcRouteController.is_empty res
             then "source route replace & local subnet route add succeeded for rid: " +:+ routeId else res) false
        else sendMsg CommandOkay ("source route replace succeeded for rid:" +:+ routeId) false)))).

Definition src_del argv (ipVer : string) : C unit :=
  if negb (argc argv =? 5) then syntax_error "Usage: route del src v[4|6] <routeId>"
  else
    a4 ← arg argv 4;
    check_rid a4 "RouteID: between 0 and 253" (
      res ← run (QcRouteController.delSrcRoute strerror_popen strerror_E2BIG a4 ipVer);
      report res ("source route delete succeeded for rid:" +:+ a4)).

Definition def_replace argv (af ipVer : string) : C unit :=
  if negb (argc argv =? 5) && negb (argc argv =? 6) then
    syntax_error "Usage: route replace def v[4|6] <interface> [<gateway>]"
  else
    iface ← arg argv 4;
    check_iface iface (with_gateway argv 5 af (fun gateway =>
      res ← run (QcRouteController.replaceDefRoute strerror_popen strerror_E2BIG iface gateway ipVer);
      report res "default route replace succeeded")).

Definition def_add argv (af ipVer : string) : C unit :=
  if negb (argc argv =? 6) && negb (argc argv =? 7) then
    syntax_error "Usage: route add def v[4|6] <interface> <metric> [<gateway>]"
  else
    iface ← arg argv 4; a5 ← arg argv 5;
    check_iface iface (with_gateway argv 6 af (fun gateway =>
      res ← run (QcRouteController.addDefRoute strerror_popen strerror_E2BIG iface gateway ipVer (atoi a5)
                   QcRouteController.MAIN_TABLE);
      report res "default route add with metric succeeded")).

Definition dst_add argv (af : string) : C unit :=
  if negb (argc argv =? 7) && negb (argc argv =? 8) then
    syntax_error "Usage: route add dst v[4|6] <interface> <metric> <dstIpAddr> [<gateway>]"
  else
    iface ← arg argv 4; a5 ← arg argv 5; dstPrefix ← arg argv 6;
    check_iface iface (check_ip dstPrefix af (with_gateway argv 7 af (fun gateway =>
      res ← run (QcRouteController.addDstRoute strerror_popen strerror_E2BIG iface dstPrefix gateway (atoi a5)
                   QcRouteController.MAIN_TABLE);
      report res "destination route add succeeded"))).

Definition dst_del argv (af : string) : C unit :=
  if negb (argc argv =? 5) then syntax_error "Usage: route del dst v[4|6] <ipaddr>"
  else
    a4 ← arg argv 4;
    check_ip a4 af (
      res ← run (QcRouteController.delDstRoute strerror_popen strerror_E2BIG a4 QcRouteController.MAIN_TABLE);
      report res "destination route delete succeeded").

Definition runCommand argv : C unit :=
  if argc argv <? 5 then syntax_error "Missing argument"
  else
    a1 ← arg argv 1; a2 ← arg argv 2; a3 ← arg argv 3;
    if negb (a3 == "v4") && negb (a3 == "v6") then syntax_error "Supported family v4|v6"
    else
      let ipVer := if a3 == "v4" then "-4" else "-6" in
      if a2 == "src" then
        if a1 == "replace" then src_replace argv a3 ipVer
        else if a1 == "del" then src_del argv ipVer
        else syntax_error "permitted operation for src routes: <replace|del>"
      else if a2 == "def" then
        if a1 == "replace" then def_replace argv a3 ipVer
        else if a1 == "add" then def_add argv a3 ipVer
        else syntax_error "Permitted action for def routes <replace|add>"
      else if a2 == "dst" then
        if a1 == "add" then dst_add argv a3
        else if a1 == "del" then dst_del argv a3
        else syntax_error "permitted operation for dst routes: <add|del>"
      else sendMsg CommandParameterError "allowed route types: <src|dst|def>" false.
End QcRouteCmd.
End QcRouteCmd.

(** ** The table of commands

    What the constructor registers, in its order.  The base class,
    in libsysutils, looks [argv[0]] up in it. *)
Section Table.
Context {K : Kernel} {A : Ambient}.

Definition registered : list (string * (list string -> C unit)) :=
  [("interface", InterfaceCmd.runCommand); ("ipfwd", IpFwdCmd.runCommand); ("tether", TetherCmd.runCommand);
   ("nat", NatCmd.runCommand); ("list_ttys", ListTtysCmd.runCommand); ("pppd", PppdCmd.runCommand);
   ("softap", if qsap_wlan then QsoftapCmd.runCommand else SoftapCmd.runCommand);
   ("bandwidth", BandwidthControlCmd.runCommand); ("idletimer", IdletimerControlCmd.runCommand);
   ("resolver", ResolverCmd.runCommand); ("firewall", FirewallCmd.runCommand); ("clatd", ClatdCmd.runCommand);
   ("network", NetworkCmd.runCommand); ("route", QcRouteCmd.runCommand)].

Fixpoint find_command (name : string) (l : list (string * (list string -> C unit))) :
    option (list string -> C unit) :=
  match l with
  | [] => None
  | (n, f) :: l => if n == name then Some f else find_command name l
  end.

(** [None]: no such command. *)
Definition dispatch (argv : list string) : option (C unit) :=
  name ← head argv; f ← find_command name registered; Some (f argv).

(** The handler of a registered command satisfies what all handlers do. *)
Lemma registered_all (P : string -> (list string -> C unit) -> Prop) name f :
  find_command name registered = Some f ->
  P "interface" InterfaceCmd.runCommand -> P "ipfwd" IpFwdCmd.runCommand -> P "tether" TetherCmd.runCommand ->
  P "nat" NatCmd.runCommand -> P "list_ttys" ListTtysCmd.runCommand -> P "pppd" PppdCmd.runCommand ->
  P "softap" SoftapCmd.runCommand -> P "softap" QsoftapCmd.runCommand ->
  P "bandwidth" BandwidthControlCmd.runCommand -> P "idletimer" IdletimerControlCmd.runCommand ->
  P "resolver" ResolverCmd.runCommand -> P "firewall" FirewallCmd.runCommand -> P "clatd" ClatdCmd.runCommand ->
  P "network" NetworkCmd.runCommand -> P "route" QcRouteCmd.runCommand -> P name f.
Proof.
  intros Hf. unfold registered in Hf. cbn [find_command] in Hf. intros.
  repeat match type of Hf with
  | (if ?n == name then _ else _) = _ =>
      destruct (String.eqb_spec n name) as [<-|_]; [first [by injection Hf as <-|by revert Hf; destruct qsap_wlan; intros [= <-]]|]
  end.
  done.
Qed.

Lemma dispatch_find argv m :
  dispatch argv = Some m ->
  exists name args f, argv = name :: args /\ find_command name registered = Some f /\ m = f argv.
Proof.
  unfold dispatch. destruct argv as [|name args]; [done|]. cbn [head mbind option_bind].
  destruct (find_command name registered) as [f|] eqn:E; [|done]. intros [= <-]. by exists name, args, f.
Qed.
End Table.
