(* ===== verification/Footprint.v ===== *)
(** * Footprint: which calls each controller makes

    [emits P m]: every call a run of [m] makes satisfies [P].  With it, what one
    controller keeps true of the kernel's side survives the work of the others:
    the chains it owns are not touched, its children are left alone. *)
From S2P Require Import Prelude Platform Cstd Fwmark UidRanges Children Netlink.
From S2P Require Import NetdConstants Ledger Iptables RouteController RouteSpec Networks NetworkSpec.
From S2P Require Import NetworkController Daemon.
From S2P Require Import FirewallController NatController IdletimerController BandwidthController BandwidthSpec.
From S2P Require Import TetherStats TetherController InterfaceController.

(** ** The calls of a computation *)

Definition emits {S A} (P : event -> Prop) (m : M S A) : Prop :=
  forall s tr, wp m (fun _ _ tr' => exists evs, tr' = tr ++ evs /\ Forall P evs) s tr.

Create HintDb emits.

Section Emits.
Context {K : Kernel} {S : Type} (P : event -> Prop).

Lemma emits_ret {A} (a : A) : emits (S:=S) P (mret a).
Proof. intros s tr. exists []. by rewrite app_nil_r. Qed.
Lemma emits_gets {A} (f : S -> A) : emits P (gets f).
Proof. intros s tr. exists []. by rewrite app_nil_r. Qed.
Lemma emits_modify (f : S -> S) : emits P (modify f).
Proof. intros s tr. exists []. by rewrite app_nil_r. Qed.

Lemma emits_bind {A B} (m : M S A) (k : A -> M S B) :
  emits P m -> (forall a, emits P (k a)) -> emits P (m ≫= k).
Proof.
  intros Hm Hk s tr. apply wp_bind. eapply wp_mono; [apply Hm|]. cbn. intros a s1 tr1 (e1 & -> & H1).
  eapply wp_mono; [apply Hk|]. cbn. intros b s2 tr2 (e2 & -> & H2). exists (e1 ++ e2).
  split; [by rewrite app_assoc|]. by apply Forall_app.
Qed.

Lemma emits_orelse (m k : M S Z) : emits P m -> emits P k -> emits P (orelse m k).
Proof. intros. apply emits_bind; [done|]. intros a. case_match; [done|apply emits_ret]. Qed.

Lemma emits_if {A} (b : bool) (m1 m2 : M S A) : emits P m1 -> emits P m2 -> emits P (if b then m1 else m2).
Proof. by destruct b. Qed.

Lemma emits_for_each {A} (l : list A) (f : A -> M S Z) : (forall x, emits P (f x)) -> emits P (for_each l f).
Proof. intros. induction l; [apply emits_ret|]. by apply emits_orelse. Qed.

Lemma emits_zoom {T A} (get : S -> T) put (m : M T A) : emits P m -> emits P (zoom get put m).
Proof. intros Hm s tr. apply wp_zoom. eapply wp_mono; [apply Hm|]. done. Qed.

Lemma emits_snoc {A} (f : trace -> A) (ev : trace -> event) :
  (forall tr, P (ev tr)) -> emits (S:=S) P (fun s tr => (f tr, s, tr ++ [ev tr])).
Proof. intros H s tr. exists [ev tr]. split; [done|]. by constructor. Qed.

Lemma emits_same {A} (f : trace -> A) : emits (S:=S) P (fun s tr => (f tr, s, tr)).
Proof. intros s tr. exists []. by rewrite app_nil_r. Qed.

Lemma emits_exec_value argv : (forall r, P (EvExec argv r)) -> emits (S:=S) P (sys_exec_value argv).
Proof. intros. by apply (emits_snoc (fun tr => exec_value (k_exec tr argv)) (fun tr => EvExec argv _)). Qed.
Lemma emits_exec argv : (forall r, P (EvExec argv r)) -> emits (S:=S) P (sys_exec argv).
Proof. intros. by apply (emits_snoc (fun tr => k_exec tr argv) (fun tr => EvExec argv _)). Qed.
Lemma emits_file op : (forall r, P (EvFile op r)) -> emits (S:=S) P (sys_file op).
Proof. intros. by apply (emits_snoc (fun tr => k_file tr op) (fun tr => EvFile op _)). Qed.
Lemma emits_netlink msg : (forall r, P (EvNetlink msg r)) -> emits (S:=S) P (sys_netlink msg).
Proof. intros. by apply (emits_snoc (fun tr => k_netlink tr msg) (fun tr => EvNetlink msg _)). Qed.
Lemma emits_ifindex name : (forall r, P (EvIfIndex name r)) -> emits (S:=S) P (sys_ifindex name).
Proof. intros. by apply (emits_snoc (fun tr => k_ifindex tr name) (fun tr => EvIfIndex name _)). Qed.
Lemma emits_pipe fd data : (forall r, P (EvPipe fd data r)) -> emits (S:=S) P (sys_pipe fd data).
Proof. intros. by apply (emits_snoc (fun tr => k_pipe tr fd data) (fun tr => EvPipe fd data _)). Qed.
Lemma emits_wait pid : (forall r, P (EvWait pid r)) -> emits (S:=S) P (sys_wait pid).
Proof. intros. by apply (emits_snoc (fun tr => k_wait tr pid) (fun tr => EvWait pid _)). Qed.
Lemma emits_shell cmd : (forall r, P (EvShell cmd r)) -> emits (S:=S) P (sys_shell cmd).
Proof. intros. by apply (emits_snoc (fun tr => k_popen tr cmd) (fun tr => EvShell cmd _)). Qed.
Lemma emits_system cmd : (forall r, P (EvSystem cmd r)) -> emits (S:=S) P (sys_system cmd).
Proof. intros. by apply (emits_snoc (fun tr => k_system tr cmd) (fun tr => EvSystem cmd _)). Qed.
Lemma emits_ifc op : (forall r, P (EvIfc op r)) -> emits (S:=S) P (sys_ifc op).
Proof. intros. by apply (emits_snoc (fun tr => k_ifc tr op) (fun tr => EvIfc op _)). Qed.
Lemma emits_wifi op : (forall r, P (EvWifi op r)) -> emits (S:=S) P (sys_wifi op).
Proof. intros. by apply (emits_snoc (fun tr => k_wifi tr op) (fun tr => EvWifi op _)). Qed.
Lemma emits_qsap_exec cmd : (forall r, P (EvWifi (QsapExec cmd) r)) -> emits (S:=S) P (sys_qsap_exec cmd).
Proof. intros. by apply (emits_snoc (fun tr => k_qsap_reply tr cmd) (fun tr => EvWifi (QsapExec cmd) _)). Qed.
Lemma emits_kill pid : P (EvKill pid) -> emits (S:=S) P (sys_kill pid).
Proof. intros. by apply (emits_snoc (fun _ => tt) (fun tr => EvKill pid)). Qed.
Lemma emits_spawn argv : (forall pid, P (EvSpawn argv pid)) -> emits (S:=S) P (sys_spawn argv).
Proof.
  intros H s tr. unfold sys_spawn, wp. destruct (k_spawn tr argv) as [e|pid fd].
  - exists []. by rewrite app_nil_r.
  - exists [EvSpawn argv pid]. split; [done|]. by constructor.
Qed.
Lemma emits_resolv_delete n : P (EvResolvDelete n) -> emits (S:=S) P (sys_resolv_delete n).
Proof. intros. by apply (emits_snoc (fun _ => tt) (fun tr => EvResolvDelete n)). Qed.
Lemma emits_resolv_flush n : P (EvResolvFlush n) -> emits (S:=S) P (sys_resolv_flush n).
Proof. intros. by apply (emits_snoc (fun _ => tt) (fun tr => EvResolvFlush n)). Qed.
Lemma emits_resolv_set n d l : P (EvResolvSet n d l) -> emits (S:=S) P (sys_resolv_set n d l).
Proof. intros. by apply (emits_snoc (fun _ => tt) (fun tr => EvResolvSet n d l)). Qed.
Lemma emits_popen cmd : emits (S:=S) P (sys_popen cmd).
Proof. apply (emits_same (fun tr => k_popen tr cmd)). Qed.
Lemma emits_read path : emits (S:=S) P (sys_read path).
Proof. apply (emits_same (fun tr => k_read tr path)). Qed.
Lemma emits_readdir path : emits (S:=S) P (sys_readdir path).
Proof. apply (emits_same (fun tr => k_readdir tr path)). Qed.
Lemma emits_property key : emits (S:=S) P (sys_property key).
Proof. apply (emits_same (fun tr => k_property tr key)). Qed.
Lemma emits_ifc_get_info name : emits (S:=S) P (sys_ifc_get_info name).
Proof. apply (emits_same (fun tr => k_ifc_get_info tr name)). Qed.
Lemma emits_ifc_get_hwaddr name : emits (S:=S) P (sys_ifc_get_hwaddr name).
Proof. apply (emits_same (fun tr => k_ifc_get_hwaddr tr name)). Qed.

Lemma emits_execIptables target args :
  (forall path r, P (EvExec (path :: args) r)) -> emits (S:=S) P (execIptables target args).
Proof.
  intros H. unfold execIptables, execIptablesCommand.
  repeat first [apply emits_bind; [|intros ?] | apply emits_exec; intros; apply H | apply emits_ret | case_match].
Qed.
End Emits.

Lemma emits_mono {S A} (P Q : event -> Prop) (m : M S A) :
  (forall e, P e -> Q e) -> emits P m -> emits Q m.
Proof.
  intros HPQ Hm s tr. eapply wp_mono; [apply Hm|]. cbn. intros _ _ _ (evs & -> & H).
  exists evs. split; [done|]. by eapply Forall_impl.
Qed.

#[export] Hint Resolve emits_ret emits_gets emits_modify emits_popen emits_read emits_readdir emits_property
  emits_ifc_get_info emits_ifc_get_hwaddr : emits.

(** Walk through a computation; side conditions on events are left. *)
Ltac emits_step :=
  first
    [ solve [auto with emits nocore]
    | apply emits_bind; [|intros ?]
    | apply emits_orelse
    | apply emits_zoom
    | apply emits_for_each; intros ?
    | apply emits_file; intros ? | apply emits_netlink; intros ? | apply emits_ifindex; intros ?
    | apply emits_pipe; intros ? | apply emits_exec_value; intros ? | apply emits_exec; intros ?
    | apply emits_execIptables; intros ? ? | apply emits_resolv_delete | apply emits_resolv_flush
    | apply emits_resolv_set | apply emits_ifc; intros ? | apply emits_shell; intros ?
    | apply emits_system; intros ? | apply emits_wifi; intros ? | apply emits_qsap_exec; intros ?
    | match goal with
      | |- emits _ (match ?x with _ => _ end) => destruct x eqn:?
      | |- emits _ (let '(_, _) := ?x in _) => destruct x eqn:?
      end
    | progress cbv zeta ].
Ltac emits := repeat emits_step.

(** ** Chains and their owners *)

(** A set of chains, by table and name. *)
Definition domain : Type := string -> string -> bool.

(** An iptables command that is about a chain of [dom]; other programs are free. *)
Definition on_domain (dom : domain) (argv : list string) : Prop :=
  match argv with
  | path :: _ =>
      path = IPTABLES_PATH \/ path = IP6TABLES_PATH ->
      exists c op, parse_iptables argv = Some (c, op) /\ dom (cn_table c) (cn_name c) = true
  | [] => True
  end.

(** What a controller without children may do: iptables only on its own chains. *)
Definition permitted (dom : domain) (e : event) : Prop :=
  match e with
  | EvExec argv _ => on_domain dom argv
  | EvSpawn _ _ | EvKill _ | EvWait _ _ => False
  | _ => True
  end.

(** Only the first half: iptables only on the chains of [dom]. *)
Definition lawful (dom : domain) (e : event) : Prop :=
  match e with EvExec argv _ => on_domain dom argv | _ => True end.

(** What a controller of children may do: no commands at all. *)
Definition no_command (e : event) : Prop := match e with EvExec _ _ => False | _ => True end.

Definition prefix_domain (p : string) : domain := fun _ name => String.prefix p name.
Definition fw_domain : domain := prefix_domain "fw_".
Definition natctrl_domain : domain := prefix_domain "natctrl_".
Definition idletimer_domain : domain := prefix_domain "idletimer_".
Definition bw_domain : domain := prefix_domain "bw_".
(** The one top-level chain that is changed after the start. *)
Definition mark_domain : domain := fun table name => String.eqb table "mangle" && String.eqb name "INPUT".

Lemma permitted_mono (d1 d2 : domain) e :
  (forall table name, d1 table name = true -> d2 table name = true) -> permitted d1 e -> permitted d2 e.
Proof.
  intros H. destruct e as [|[|path args]| | | | | | | | | | | | |]; cbn; try done. intros He Hp.
  destruct (He Hp) as (c & op & E & Hd). exists c, op. split; [done|]. by apply H.
Qed.

(** A chain outside the domain is as it was. *)
Lemma lawful_chain (dom : domain) c rs evs :
  (cn_path c = IPTABLES_PATH \/ cn_path c = IP6TABLES_PATH) -> dom (cn_table c) (cn_name c) = false ->
  Forall (lawful dom) evs -> replay c rs (acked evs) = rs.
Proof.
  intros Hp Hd. induction 1 as [|e evs He _ IH]; [done|].
  change (e :: evs) with ([e] ++ evs). rewrite acked_app, replay_app.
  enough (replay c rs (acked [e]) = rs) as -> by done.
  destruct e as [|argv r| | | | | | | | | | | | |]; try done. unfold acked. cbn.
  destruct (exec_ok r); [|done]. cbn. unfold run_argv. destruct argv as [|path args]; [done|].
  destruct (parse_iptables (path :: args)) as [[c' op]|] eqn:E; [|done].
  rewrite decide_False; [done|]. intros ->. pose proof (parse_iptables_path _ _ _ _ E) as Hpath.
  cbn -[parse_iptables] in He. rewrite Hpath in Hp. destruct (He Hp) as (c2 & op2 & E2 & Hd2).
  rewrite E in E2. injection E2 as <- <-. congruence.
Qed.

Lemma permitted_lawful (d1 d2 : domain) e :
  (forall table name, d1 table name = true -> d2 table name = true) -> permitted d1 e -> lawful d2 e.
Proof. intros H He%(permitted_mono _ _ _ H). by destruct e. Qed.

Lemma no_command_lawful dom e : no_command e -> lawful dom e.
Proof. by destruct e. Qed.

Lemma no_command_acked evs : Forall no_command evs -> acked evs = [].
Proof.
  induction 1 as [|e evs He _ IH]; [done|]. change (e :: evs) with ([e] ++ evs). rewrite acked_app, IH.
  by destruct e.
Qed.

Lemma permitted_children dom evs tr : Forall (permitted dom) evs -> children (tr ++ evs) = children tr.
Proof.
  intros H. rewrite children_app. revert H. generalize (children tr) as l. induction evs as [|e evs IH]; intros l H; [done|].
  apply Forall_cons in H as [He H]. cbn. rewrite IH by done. by destruct e.
Qed.

(** *** Firewall, tethering, idle timers *)

(** The command is on a chain that the parser reads off; the domain holds it. *)
Ltac on_chain_of := intros _; eexists _, _; split; [reflexivity|reflexivity].

Section Controllers.
Context {K : Kernel}.

Lemma emits_enableFirewall : emits (permitted fw_domain) FirewallController.enableFirewall.
Proof.
  unfold FirewallController.enableFirewall, FirewallController.disableFirewall, FirewallController.both.
  emits; on_chain_of.
Qed.
Lemma emits_disableFirewall : emits (permitted fw_domain) FirewallController.disableFirewall.
Proof. unfold FirewallController.disableFirewall, FirewallController.both. emits; on_chain_of. Qed.
Lemma emits_call_rule c rule : emits (permitted fw_domain) (FirewallController.call_rule c rule).
Proof.
  destruct c; cbn; unfold FirewallController.setInterfaceRule, FirewallController.setEgressSourceRule,
    FirewallController.setEgressDestRule, FirewallController.setUidRule, FirewallController.both;
    emits; destruct rule; on_chain_of.
Qed.

Lemma emits_setDefaults : emits (permitted natctrl_domain) NatController.setDefaults.
Proof. unfold NatController.setDefaults. cbn [NatController.run_table]. unfold NatController.runCmd. emits; on_chain_of. Qed.
Hint Resolve emits_setDefaults : emits.
Lemma emits_nat_setup : emits (permitted natctrl_domain) NatController.setupIptablesHooks.
Proof.
  unfold NatController.setupIptablesHooks. cbn [NatController.run_table]. unfold NatController.runCmd.
  emits; on_chain_of.
Qed.
Lemma emits_setForwardRules add i e : emits (permitted natctrl_domain) (NatController.setForwardRules add i e).
Proof.
  unfold NatController.setForwardRules, NatController.setTetherCountingRules, NatController.add_counter,
    NatController.runCmd. destruct add; emits; on_chain_of.
Qed.
Hint Resolve emits_setForwardRules : emits.

Lemma emits_modifyTetheredNetwork dom action i e :
  emits (permitted dom) (modifyTetheredNetwork action i e).
Proof.
  unfold modifyTetheredNetwork, getRouteTableForInterface, modifyIpRule, sendNetlinkRequest. emits; exact I.
Qed.
Hint Resolve emits_modifyTetheredNetwork : emits.

Lemma emits_enableNat i e : emits (permitted natctrl_domain) (NatController.enableNat i e).
Proof.
  unfold NatController.enableNat, RouteController.enableTethering, NatController.runCmd.
  emits; on_chain_of.
Qed.
Lemma emits_disableNat i e : emits (permitted natctrl_domain) (NatController.disableNat i e).
Proof.
  unfold NatController.disableNat, RouteController.disableTethering, NatController.runCmd.
  emits; on_chain_of.
Qed.

Lemma emits_idletimer_defaults : emits (permitted idletimer_domain) IdletimerController.setDefaults.
Proof. unfold IdletimerController.setDefaults, IdletimerController.runIpxtablesCmd. emits; on_chain_of. Qed.
Lemma emits_idletimer op i n l :
  emits (permitted idletimer_domain) (IdletimerController.modifyInterfaceIdletimer op i n l).
Proof.
  unfold IdletimerController.modifyInterfaceIdletimer, IdletimerController.runIpxtablesCmd.
  emits; destruct op; on_chain_of.
Qed.
End Controllers.

(** *** BandwidthController: commands built as text *)
Section Bandwidth.
Import BandwidthController.BandwidthController.
Context {K : Kernel}.

(** A command whose text starts with an operation and a chain of the controller:
    what follows, cut anywhere, changes nothing. *)
Definition bw_command (cmd : string) : Prop :=
  forall tl path, on_domain bw_domain (path :: strsep_all (cmd +:+ tl)).

Lemma prefix_app p x : String.prefix p (p +:+ x) = true.
Proof.
  induction p as [|c p IH]; [by destruct x|].
  change (String c p +:+ x) with (String c (p +:+ x)). cbn. by destruct (ascii_dec c c).
Qed.

Lemma parse_chain_op path args args' table op chain tl :
  match args with w :: l => if String.eqb w "-w" then l else args | [] => [] end = args' ->
  (args' = "-t" :: table :: op :: chain :: tl \/
   table = "filter" /\ args' = op :: chain :: tl /\ op <> "-t") ->
  op ∈ ["-A"; "-I"; "-D"; "-F"; "-N"; "-X"] ->
  exists o, parse_iptables (path :: args) = Some (Chain path table chain, o).
Proof.
  intros Hw Hargs Hop. unfold parse_iptables. rewrite Hw.
  assert (exists o, parse_op (op :: chain :: tl) = Some (chain, o)) as [o Ho].
  { repeat (apply elem_of_cons in Hop as [->|Hop]; [cbn; repeat case_match; eauto|]). by apply not_elem_of_nil in Hop. }
  exists o. destruct Hargs as [->|(-> & -> & Hne)].
  - cbn -[parse_op]. by rewrite Ho.
  - cbn -[parse_op String.eqb]. rewrite (proj2 (String.eqb_neq _ _) Hne). by rewrite Ho.
Qed.

(** [cmd] is [op] and a word that starts with "bw_", perhaps with more behind it;
    [table] as in the code. *)
Lemma bw_command_intro pre op w rest table :
  op ∈ ["-A"; "-I"; "-D"; "-F"; "-N"; "-X"] ->
  ((pre = "" \/ pre = "-w ") /\ table = "filter" \/
   (pre = "-t raw " \/ pre = "-w -t raw ") /\ table = "raw" \/
   (pre = "-t mangle " \/ pre = "-w -t mangle ") /\ table = "mangle") ->
  bw_command (pre +:+ op +:+ " bw_" +:+ w +:+ rest).
Proof.
  intros Hop Hpre tl path _.
  rewrite !append_assoc.
  destruct (BandwidthSpec.strsep_loop_head "bw_" (w +:+ rest +:+ tl)) as (x & l & Hl).
  assert (strsep_all (op +:+ " bw_" +:+ (w +:+ (rest +:+ tl))) = op :: ("bw_" +:+ x) :: l) as Hs.
  { repeat (apply elem_of_cons in Hop as [->|Hop]; [rewrite <-Hl; reflexivity|]). by apply not_elem_of_nil in Hop. }
  enough (exists o, parse_iptables (path :: strsep_all (pre +:+ op +:+ " bw_" +:+ w +:+ rest +:+ tl)) =
    Some (Chain path table ("bw_" +:+ x), o)) as [o ->].
  { eexists _, o. split; [reflexivity|]. apply prefix_app. }
  assert (op <> "-t" /\ op <> "-w") as [Hne Hnw].
  { repeat (apply elem_of_cons in Hop as [->|Hop]; [done|]). by apply not_elem_of_nil in Hop. }
  destruct Hpre as [[Hp ->]|[[Hp ->]|[Hp ->]]]; destruct Hp as [->| ->];
    refine (parse_chain_op _ _ _ _ op ("bw_" +:+ x) l _ _ Hop).
  - change ("" +:+ op +:+ ?s) with (op +:+ s). rewrite Hs, (proj2 (String.eqb_neq _ _) Hnw). reflexivity.
  - by right.
  - change (strsep_all ("-w " +:+ ?s)) with ("-w" :: strsep_all s). rewrite Hs. cbn. reflexivity.
  - by right.
  - change (strsep_all ("-t raw " +:+ ?s)) with ("-t" :: "raw" :: strsep_all s). rewrite Hs. cbn. reflexivity.
  - by left.
  - change (strsep_all ("-w -t raw " +:+ ?s)) with ("-w" :: "-t" :: "raw" :: strsep_all s). rewrite Hs. cbn. reflexivity.
  - by left.
  - change (strsep_all ("-t mangle " +:+ ?s)) with ("-t" :: "mangle" :: strsep_all s). rewrite Hs. cbn. reflexivity.
  - by left.
  - change (strsep_all ("-w -t mangle " +:+ ?s)) with ("-w" :: "-t" :: "mangle" :: strsep_all s). rewrite Hs. cbn. reflexivity.
  - by left.
Qed.

Lemma bw_plain op rest : op ∈ ["-A"; "-I"; "-D"; "-F"; "-N"; "-X"] -> bw_command (op +:+ " bw_" +:+ rest).
Proof. intros Hop. apply (bw_command_intro "" op "" rest "filter"); auto. Qed.

Lemma substring_app n p s : (String.length p <= n)%nat -> exists s', String.substring 0 n (p +:+ s) = p +:+ s'.
Proof.
  revert n. induction p as [|c p IH]; intros n Hn; [by eexists|]. destruct n as [|n]; cbn in Hn; [lia|].
  destruct (IH n) as [s' E]; [lia|]. exists s'. change (String c p +:+ s) with (String c (p +:+ s)).
  cbn. by rewrite E.
Qed.

Lemma bw_snprintf op rest :
  op ∈ ["-A"; "-I"; "-D"; "-F"; "-N"; "-X"] -> bw_command (snprintf_cmd (op +:+ " bw_" +:+ rest)).
Proof.
  intros Hop. rewrite <-append_assoc. unfold snprintf_cmd.
  destruct (substring_app (Z.to_nat (MAX_CMD_LEN - 1)) (op +:+ " bw_") rest) as [s' ->].
  - unfold MAX_CMD_LEN. rewrite Nat2Z.inj_le. change (Z.of_nat (String.length ?x)) with (strlen x).
    rewrite strlen_app, Z2Nat.id by lia. repeat (apply elem_of_cons in Hop as [->|Hop]; [by vm_compute|]).
    by apply not_elem_of_nil in Hop.
  - rewrite append_assoc. by apply bw_plain.
Qed.

Lemma emits_runIpxtablesCmd cmd j : bw_command cmd -> emits (permitted bw_domain) (runIpxtablesCmd cmd j).
Proof.
  intros Hc. assert (forall v, emits (permitted bw_domain) (runIptablesCmd cmd j v)) as H.
  { intros v. unfold runIptablesCmd. emits. unfold full_cmd. destruct v;
      [apply (Hc _ IPTABLES_PATH)|apply (Hc _ IP6TABLES_PATH)]. }
  unfold runIpxtablesCmd. emits; apply H.
Qed.
End Bandwidth.

(** Close the side condition of a command built from an operation and a chain. *)
Ltac bw_cmd :=
  first
    [ refine (bw_plain "-A" _ _); by repeat constructor | refine (bw_plain "-I" _ _); by repeat constructor
    | refine (bw_plain "-D" _ _); by repeat constructor | refine (bw_plain "-F" _ _); by repeat constructor
    | refine (bw_plain "-N" _ _); by repeat constructor | refine (bw_plain "-X" _ _); by repeat constructor
    | refine (bw_snprintf "-A" _ _); by repeat constructor | refine (bw_snprintf "-I" _ _); by repeat constructor
    | refine (bw_snprintf "-D" _ _); by repeat constructor | refine (bw_snprintf "-F" _ _); by repeat constructor
    | refine (bw_snprintf "-N" _ _); by repeat constructor | refine (bw_snprintf "-X" _ _); by repeat constructor ].
Ltac emits_bw :=
  repeat first
    [ match goal with
      | |- emits _ (BandwidthController.BandwidthController.runIpxtablesCmd _ _) =>
          apply emits_runIpxtablesCmd; bw_cmd
      end
    | emits_step ].

Section BandwidthOperations.
Import BandwidthController.BandwidthController.
Context {K : Kernel}.
Abbreviation ok := (emits (permitted bw_domain)).

Lemma emits_commands l h : Forall bw_command l -> ok (runCommands l h).
Proof.
  induction 1 as [|cmd l Hc _ IH]; cbn [runCommands]; [apply emits_ret|].
  apply emits_bind; [by apply emits_runIpxtablesCmd|]. intros r. emits.
Qed.

Ltac with_pre pre op table :=
  refine (bw_command_intro pre op "" _ table _ _); [by repeat constructor|tauto].
Lemma table_commands :
  Forall bw_command (IPT_FLUSH_COMMANDS ++ IPT_CLEANUP_COMMANDS ++ IPT_SETUP_COMMANDS ++ IPT_BASIC_ACCOUNTING_COMMANDS).
Proof.
  repeat (apply Forall_cons_2 || apply Forall_nil_2);
    first [ bw_cmd | with_pre "-t raw " "-F" "raw" | with_pre "-t mangle " "-F" "mangle"
          | with_pre "-w " "-N" "filter" | with_pre "-w " "-A" "filter"
          | with_pre "-w -t raw " "-A" "raw" | with_pre "-w -t mangle " "-A" "mangle" ].
Qed.

Lemma emits_tables h :
  ok (runCommands IPT_FLUSH_COMMANDS h) /\ ok (runCommands IPT_CLEANUP_COMMANDS h) /\
  ok (runCommands IPT_SETUP_COMMANDS h) /\ ok (runCommands IPT_BASIC_ACCOUNTING_COMMANDS h).
Proof.
  pose proof table_commands as Ht. rewrite !Forall_app in Ht. destruct Ht as (H1 & H2 & H3 & H4).
  split_and!; by apply emits_commands.
Qed.
Lemma emits_flush_table h : ok (runCommands IPT_FLUSH_COMMANDS h).
Proof. exact (proj1 (emits_tables h)). Qed.
Lemma emits_cleanup_table h : ok (runCommands IPT_CLEANUP_COMMANDS h).
Proof. exact (proj1 (proj2 (emits_tables h))). Qed.
Lemma emits_setup_table h : ok (runCommands IPT_SETUP_COMMANDS h).
Proof. exact (proj1 (proj2 (proj2 (emits_tables h)))). Qed.
Lemma emits_accounting_table h : ok (runCommands IPT_BASIC_ACCOUNTING_COMMANDS h).
Proof. exact (proj2 (proj2 (proj2 (emits_tables h)))). Qed.
Hint Resolve emits_flush_table emits_cleanup_table emits_setup_table emits_accounting_table : emits.

Lemma emits_flush_costly b l : ok (flush_costly_lines b l).
Proof. induction l as [|line l IH]; cbn [flush_costly_lines]; emits_bw. Qed.
Hint Resolve emits_flush_costly : emits.

Lemma emits_flushCleanTables b : ok (flushCleanTables b).
Proof.
  unfold flushCleanTables, flushExistingCostlyTables, parseAndFlushCostlyTables. emits_bw.
Qed.
Hint Resolve emits_flushCleanTables : emits.

Lemma emits_bw_setup : ok setupIptablesHooks.
Proof.
  unfold setupIptablesHooks. emits_bw.
Qed.

Lemma emits_enableBandwidth force : ok (enableBandwidthControl force).
Proof.
  unfold enableBandwidthControl. emits_bw.
Qed.

Lemma emits_special l chain get put j op :
  chain = "bw_penalty_box" \/ chain = "bw_happy_box" ->
  ok (manipulateSpecialApps l chain get put j op).
Proof.
  intros Hchain. unfold manipulateSpecialApps. destruct (parse_uids l) as [uids|]; [|apply emits_ret].
  induction uids as [|uid uids IH]; cbn [manipulate_uids]; [apply emits_ret|].
  destruct op, Hchain as [-> | ->]; cbn [makeIptablesSpecialAppCmd]; emits_bw.
Qed.

Lemma emits_updateQuota n b : ok (updateQuota n b).
Proof. unfold updateQuota. emits_bw; exact I. Qed.
Hint Resolve emits_updateQuota : emits.

Lemma emits_removeSharedAlert : ok removeSharedAlert.
Proof. unfold removeSharedAlert, removeCostlyAlert, alert_cmd. emits_bw. Qed.
Hint Resolve emits_removeSharedAlert : emits.

Lemma emits_removeShared iface : ok (removeInterfaceSharedQuota iface).
Proof. unfold removeInterfaceSharedQuota, cleanupCostlyIface, makeIptablesQuotaCmd. emits_bw. Qed.
Hint Resolve emits_removeShared : emits.

Lemma emits_prep ifn q : ok (prepCostlyIface ifn q).
Proof. unfold prepCostlyIface, costly_chain. emits_bw. Qed.
Hint Resolve emits_prep : emits.

Lemma emits_setShared iface bytes : ok (setInterfaceSharedQuota iface bytes).
Proof. unfold setInterfaceSharedQuota, shared_quota_update, makeIptablesQuotaCmd. emits_bw. Qed.

(** Every operation of the controller stays on its chains. *)
Lemma emits_bandwidth (c : BandwidthSpec.call) : ok (BandwidthSpec.run_call c).
Proof.
  destruct c; cbn [BandwidthSpec.run_call];
    auto using emits_bw_setup, emits_enableBandwidth, emits_special, emits_removeShared, emits_setShared,
      emits_removeSharedAlert.
  - unfold disableBandwidthControl. emits_bw.
  - unfold setInterfaceQuota, removeInterfaceQuota, cleanupCostlyIface, costly_chain, makeIptablesQuotaCmd. emits_bw.
  - unfold removeInterfaceQuota, cleanupCostlyIface, costly_chain. emits_bw.
  - unfold enableHappyBox. emits_bw.
  - unfold disableHappyBox. emits_bw.
  - apply emits_special. by left.
  - apply emits_special. by right.
  - unfold setGlobalAlert, runIptablesAlertCmd, runIptablesAlertFwdCmd, alert_cmd. emits_bw.
  - unfold removeGlobalAlert, runIptablesAlertCmd, runIptablesAlertFwdCmd, alert_cmd. emits_bw.
  - unfold setGlobalAlertInForwardChain, runIptablesAlertFwdCmd, alert_cmd. emits_bw.
  - unfold removeGlobalAlertInForwardChain, runIptablesAlertFwdCmd, alert_cmd. emits_bw.
  - unfold setSharedAlert, setCostlyAlert, alert_cmd. emits_bw.
  - unfold setInterfaceAlert, setCostlyAlert, alert_cmd. emits_bw.
  - unfold removeInterfaceAlert, removeCostlyAlert, alert_cmd. emits_bw.
Qed.
End BandwidthOperations.

(** *** TetherController: children and messages, no commands *)
Section Tether.
Import TetherController.TetherController.
Context {K : Kernel}.
Abbreviation ok := (emits no_command).

Ltac emits_child :=
  repeat first [emits_step | apply emits_spawn; intros ? | apply emits_kill | exact I].

Lemma emits_last_index l i : ok (last_index l i).
Proof.
  revert i. induction l as [|x l IH]; intros i; cbn [last_index]; [apply emits_ret|].
  apply emits_bind; [|done]. unfold getIfaceIndexForIface. emits_child.
Qed.
Hint Resolve emits_last_index : emits.

Lemma emits_applyDns : ok applyDnsInterfaces.
Proof. unfold applyDnsInterfaces. emits_child. Qed.
Lemma emits_startRadish l n : ok (startV6RtrAdv l n).
Proof. unfold startV6RtrAdv. emits_child. Qed.
Lemma emits_stopRadish : ok stopV6RtrAdv.
Proof. unfold stopV6RtrAdv. emits_child. Qed.
Hint Resolve emits_applyDns emits_startRadish emits_stopRadish : emits.
Lemma emits_configure : ok configureV6RtrAdv.
Proof. unfold configureV6RtrAdv. emits_child. Qed.
Hint Resolve emits_configure : emits.

Lemma emits_tether (o : op) : ok (run_op o).
Proof.
  destruct o; cbn [run_op].
  - unfold startTethering. emits_child.
  - unfold stopTethering. emits_child.
  - unfold tetherInterface. emits_child.
  - unfold untetherInterface. emits_child.
  - unfold addUpstreamInterface. emits_child.
  - unfold removeUpstreamInterface. emits_child.
  - unfold setDnsForwarders. emits_child.
  - unfold setIpFwdEnabled, config_write_setting. emits_child.
Qed.
End Tether.

(** *** InterfaceController: files, and a program of its own *)
Section Interface.
Import InterfaceController.InterfaceController.
Context {K : Kernel} (dom : domain).
Abbreviation ok := (emits (permitted dom)).

Lemma emits_writeIPv6 i s v : ok (writeIPv6ProcPath i s v).
Proof. unfold writeIPv6ProcPath, writeFile. emits; exact I. Qed.
Hint Resolve emits_writeIPv6 : emits.
Lemma emits_setEnableIPv6 i b : ok (setEnableIPv6 i b).
Proof. apply emits_writeIPv6. Qed.
Lemma emits_setIPv6Privacy i b : ok (setIPv6PrivacyExtensions i b).
Proof. apply emits_writeIPv6. Qed.
Lemma emits_setMtu i m : ok (setMtu i m).
Proof. unfold setMtu, writeFile. emits; exact I. Qed.
Lemma emits_setIPv6NdOffload i b : ok (setIPv6NdOffload i b).
Proof. unfold setIPv6NdOffload. emits; first [exact I | cbn; by intros [?|?]]. Qed.
Lemma emits_write_all l f v : ok (write_all l f v).
Proof. induction l as [|[n d] l IH]; cbn [write_all]; emits. Qed.
Hint Resolve emits_write_all : emits.
Lemma emits_interface_construct : ok construct.
Proof.
  unfold construct, setAcceptRA, setAcceptRARouteTable, setIPv6OptimisticMode, setOnAllInterfaces. emits.
Qed.
End Interface.

(** *** RouteController and NetworkController *)
(** Unfold the code down to the operations with a lemma. *)
Ltac head_of m := lazymatch m with ?f _ => head_of f | _ => m end.
Ltac emits_unfold :=
  repeat first
    [ emits_step
    | match goal with |- emits _ ?m => let h := head_of m in unfold h end
    | exact I ].

Section Network.
Context {K : Kernel}.
Abbreviation ok := (emits (permitted mark_domain)).

Lemma emits_sendNetlink action flags iov : emits (S:=RouteState) (permitted mark_domain) (sendNetlinkRequest action flags iov).
Proof. unfold sendNetlinkRequest. emits; exact I. Qed.
Lemma emits_getRouteTable i : ok (getRouteTableForInterface i).
Proof. unfold getRouteTableForInterface. emits; exact I. Qed.
Hint Resolve emits_sendNetlink emits_getRouteTable : emits.
Lemma emits_modifyIpRule a p t fm m ii oi us ue : ok (modifyIpRule a p t fm m ii oi us ue).
Proof. unfold modifyIpRule. emits; exact I. Qed.
Hint Resolve emits_modifyIpRule : emits.
Lemma emits_modifyIpRoute a t i d n : ok (modifyIpRoute a t i d n).
Proof. unfold modifyIpRoute. emits; exact I. Qed.
Hint Resolve emits_modifyIpRoute : emits.
Lemma emits_modifyIncoming n i p add : ok (modifyIncomingPacketMark n i p add).
Proof. unfold modifyIncomingPacketMark. destruct add; emits; on_chain_of. Qed.
Hint Resolve emits_modifyIncoming : emits.

Lemma emits_modifyLocalNetwork n i add : ok (modifyLocalNetwork n i add).
Proof. emits_unfold. Qed.
Lemma emits_modifyPhysicalNetwork n i p add : ok (modifyPhysicalNetwork n i p add).
Proof. emits_unfold. Qed.
Lemma emits_modifyVirtualNetwork n i l secure add b : ok (modifyVirtualNetwork n i l secure add b).
Proof. emits_unfold. Qed.
Lemma emits_modifyDefaultNetwork a i p : ok (modifyDefaultNetwork a i p).
Proof. emits_unfold. Qed.
Lemma emits_modifyRoute a i d n t : ok (modifyRoute a i d n t).
Proof. emits_unfold. Qed.
Hint Resolve emits_modifyLocalNetwork emits_modifyPhysicalNetwork emits_modifyVirtualNetwork
  emits_modifyDefaultNetwork emits_modifyRoute : emits.

Lemma emits_flush_attempts n argv :
  (forall r, permitted mark_domain (EvExec argv r)) -> ok (flush_attempts n argv).
Proof. intros Hargv. induction n; cbn [flush_attempts]; emits; apply Hargv. Qed.
Lemma emits_flush_versions l t ret : ok (flush_versions l t ret).
Proof.
  revert ret. induction l as [|v l IH]; intros ret; cbn [flush_versions]; [apply emits_ret|].
  apply emits_bind; [|intros; apply IH]. apply emits_flush_attempts. intros r [?|?]; done.
Qed.
Hint Resolve emits_flush_versions : emits.
Lemma emits_flushRoutes i : ok (flushRoutes i).
Proof. emits_unfold. Qed.
Lemma emits_updateTableNames : ok updateTableNamesFile.
Proof. emits_unfold. Qed.
Hint Resolve emits_flushRoutes emits_updateTableNames : emits.

Lemma emits_Init n : ok (RouteController.Init n).
Proof.
  unfold RouteController.Init, flushRules. emits_unfold; intros [?|?]; done.
Qed.

Lemma emits_dispatch {A} (l : M (base * RouteState) A) p v : ok l -> ok p -> ok v -> ok (dispatch l p v).
Proof.
  intros Hl Hp Hv [[n|n|n] r] tr; unfold dispatch, wp; cbn.
  - specialize (Hl (n, r) tr). unfold wp in Hl. by destruct (l (n, r) tr) as [[a s'] tr'].
  - specialize (Hp (n, r) tr). unfold wp in Hp. by destruct (p (n, r) tr) as [[a s'] tr'].
  - specialize (Hv (n, r) tr). unfold wp in Hv. by destruct (v (n, r) tr) as [[a s'] tr'].
Qed.
Lemma emits_on_network {A} netId n (m : M (Network * RouteState) A) : ok m -> ok (on_network netId n m).
Proof.
  intros Hm s tr. unfold on_network, wp. specialize (Hm (n, s.2) tr). unfold wp in Hm.
  by destruct (m (n, s.2) tr) as [[a [n' r']] tr'].
Qed.
Lemma emits_on_new {N A} (n : N) (m : M (N * RouteState) A) : ok m -> ok (on_new n m).
Proof.
  intros Hm s tr. unfold on_new, wp. specialize (Hm (n, s.2) tr). unfold wp in Hm.
  by destruct (m (n, s.2) tr) as [[a [n' r']] tr'].
Qed.

Ltac emits_net :=
  repeat first
    [ emits_step
    | apply emits_dispatch | apply emits_on_network | apply emits_on_new
    | match goal with |- emits _ ?m => let h := head_of m in unfold h end
    | exact I ].

Class DelegateEmits (D : Delegate) : Prop := {
  emits_addFallthrough i p : ok (addFallthrough D i p);
  emits_removeFallthrough i p : ok (removeFallthrough D i p)
}.

#[local] Instance DelegateImpl_emits networks : DelegateEmits (DelegateImpl networks).
Proof. split; intros i p; cbn; emits_net. Qed.

Section Objects.
Context (D : Delegate) {DE : DelegateEmits D}.
Hint Resolve emits_addFallthrough emits_removeFallthrough : emits.

Lemma emits_setPermission p : ok (PhysicalNetwork.setPermission D p).
Proof. emits_net. Qed.
Lemma emits_addAsDefault : ok (PhysicalNetwork.addAsDefault D).
Proof. emits_net. Qed.
Lemma emits_removeAsDefault : ok (PhysicalNetwork.removeAsDefault D).
Proof. emits_net. Qed.
Lemma emits_addInterface i : ok (addInterface D i).
Proof. emits_net. Qed.
Lemma emits_removeInterface i : ok (removeInterface D i).
Proof. emits_net. Qed.
Hint Resolve emits_removeInterface : emits.
Lemma emits_clearInterfaces : ok (clearInterfaces D).
Proof.
  unfold clearInterfaces. apply emits_bind; [apply emits_gets|]. intros n. generalize (size (getInterfaces n)).
  intros fuel. induction fuel as [|fuel IH]; cbn [clear_loop]; [apply emits_ret|]. emits.
Qed.
End Objects.
Hint Resolve emits_setPermission emits_addAsDefault emits_removeAsDefault emits_addInterface
  emits_removeInterface emits_clearInterfaces DelegateImpl_emits : emits.

Lemma emits_network_command (c : Daemon.command) : ok (run_command c).
Proof. destruct c; cbn [run_command]; emits_net. Qed.
End Network.
