(* ===== verification/ListenerSpec.v ===== *)
(** * ListenerSpec: what holds whatever commands are run

    First the rules of the command monad: which calls a command makes ([emitsC]),
    and what it keeps true ([keepsC]).  Then, for each family of commands, that its
    calls stay on the iptables chains of the controllers behind it. *)
From S2P Require Import Prelude Platform Cstd Fwmark UidRanges Children Netlink.
From S2P Require Import NetdConstants Ledger Iptables RouteController RouteSpec Networks NetworkSpec.
From S2P Require Import NetworkController ControllerSpec Daemon NetworkCommand SampleKernel.
From S2P Require Import FirewallController NatController IdletimerController BandwidthController BandwidthSpec.
From S2P Require Import TetherStats TetherController ClatdController PppController SoftapController.
From S2P Require Import InterfaceController.
From S2P Require Import QcRouteController CommandListener Commands Footprint.

(** ** The calls a command makes *)

Definition emitsC {A} (P : event -> Prop) (m : C A) : Prop := @emits conn (option A) P m.

Create HintDb cmd.

Section EmitsC.
Context {K : Kernel} (P : event -> Prop).

Lemma emitsC_ret {A} (a : A) : emitsC P (mret a).
Proof. intros c tr. exists []. by rewrite app_nil_r. Qed.
Lemma emitsC_send code msg b : emitsC P (sendMsg code msg b).
Proof. intros c tr. exists []. by rewrite app_nil_r. Qed.
Lemma emitsC_arg argv n : emitsC P (arg argv n).
Proof. intros c tr. exists []. by rewrite app_nil_r. Qed.
Lemma emitsC_raw msg : emitsC P (sendRaw msg).
Proof. apply emitsC_send. Qed.
Lemma emitsC_deref {A} (o : option A) : emitsC P (deref o).
Proof. intros c tr. exists []. by rewrite app_nil_r. Qed.

Lemma emitsC_bind {A B} (m : C A) (k : A -> C B) : emitsC P m -> (forall a, emitsC P (k a)) -> emitsC P (m ≫= k).
Proof.
  intros Hm Hk c tr. specialize (Hm c tr). unfold wp, mbind, C_bind in *.
  destruct (m c tr) as [[[a|] c1] tr1]; [|done]. destruct Hm as (e1 & -> & H1).
  specialize (Hk a c1 (tr ++ e1)). unfold wp in Hk. destruct (k a c1 _) as [[b c2] tr2].
  destruct Hk as (e2 & -> & H2). exists (e1 ++ e2). split; [by rewrite app_assoc|]. by apply Forall_app.
Qed.

Lemma emitsC_run {A} (m : M t A) : emits P m -> emitsC P (run m).
Proof.
  intros Hm c tr. specialize (Hm (daemon c) tr). unfold wp, run in *. by destruct (m _ _) as [[a s] tr'].
Qed.

Lemma emitsC_send_all code l : emitsC P (send_all code l).
Proof. induction l; cbn [send_all]; [apply emitsC_ret|]. apply emitsC_bind; [apply emitsC_send|done]. Qed.
End EmitsC.

#[export] Hint Resolve emitsC_ret emitsC_send emitsC_raw emitsC_arg emitsC_deref emitsC_send_all : cmd.

(** Walk through a command; what the controllers do is left. *)
Ltac emitsC_step :=
  first
    [ solve [auto with cmd nocore]
    | apply emitsC_bind; [|intros ?]
    | apply emitsC_run
    | match goal with
      | |- emitsC _ (match ?x with _ => _ end) => destruct x eqn:?
      end
    | progress cbv zeta ].

(** Name the operation of BandwidthController or TetherController that a command runs. *)
Ltac as_bw_call :=
  match goal with
  | |- context [on_bandwidth (BandwidthController.enableBandwidthControl ?a)] =>
      change (BandwidthController.enableBandwidthControl a) with (BandwidthSpec.run_call (BandwidthSpec.EnableBandwidthControl a))
  | |- context [on_bandwidth BandwidthController.disableBandwidthControl] =>
      change BandwidthController.disableBandwidthControl with (BandwidthSpec.run_call BandwidthSpec.DisableBandwidthControl)
  | |- context [on_bandwidth (BandwidthController.setInterfaceSharedQuota ?a ?b)] =>
      change (BandwidthController.setInterfaceSharedQuota a b) with (BandwidthSpec.run_call (BandwidthSpec.SetInterfaceSharedQuota a b))
  | |- context [on_bandwidth (BandwidthController.removeInterfaceSharedQuota ?a)] =>
      change (BandwidthController.removeInterfaceSharedQuota a) with (BandwidthSpec.run_call (BandwidthSpec.RemoveInterfaceSharedQuota a))
  | |- context [on_bandwidth (BandwidthController.setInterfaceQuota ?a ?b)] =>
      change (BandwidthController.setInterfaceQuota a b) with (BandwidthSpec.run_call (BandwidthSpec.SetInterfaceQuota a b))
  | |- context [on_bandwidth (BandwidthController.removeInterfaceQuota ?a)] =>
      change (BandwidthController.removeInterfaceQuota a) with (BandwidthSpec.run_call (BandwidthSpec.RemoveInterfaceQuota a))
  | |- context [on_bandwidth BandwidthController.enableHappyBox] =>
      change BandwidthController.enableHappyBox with (BandwidthSpec.run_call BandwidthSpec.EnableHappyBox)
  | |- context [on_bandwidth BandwidthController.disableHappyBox] =>
      change BandwidthController.disableHappyBox with (BandwidthSpec.run_call BandwidthSpec.DisableHappyBox)
  | |- context [on_bandwidth (BandwidthController.addNaughtyApps ?a)] =>
      change (BandwidthController.addNaughtyApps a) with (BandwidthSpec.run_call (BandwidthSpec.NaughtyApps a BandwidthController.SpecialAppOpAdd))
  | |- context [on_bandwidth (BandwidthController.removeNaughtyApps ?a)] =>
      change (BandwidthController.removeNaughtyApps a) with (BandwidthSpec.run_call (BandwidthSpec.NaughtyApps a BandwidthController.SpecialAppOpRemove))
  | |- context [on_bandwidth (BandwidthController.addNiceApps ?a)] =>
      change (BandwidthController.addNiceApps a) with (BandwidthSpec.run_call (BandwidthSpec.NiceApps a BandwidthController.SpecialAppOpAdd))
  | |- context [on_bandwidth (BandwidthController.removeNiceApps ?a)] =>
      change (BandwidthController.removeNiceApps a) with (BandwidthSpec.run_call (BandwidthSpec.NiceApps a BandwidthController.SpecialAppOpRemove))
  | |- context [on_bandwidth (BandwidthController.setGlobalAlert ?a)] =>
      change (BandwidthController.setGlobalAlert a) with (BandwidthSpec.run_call (BandwidthSpec.SetGlobalAlert a))
  | |- context [on_bandwidth BandwidthController.removeGlobalAlert] =>
      change BandwidthController.removeGlobalAlert with (BandwidthSpec.run_call BandwidthSpec.RemoveGlobalAlert)
  | |- context [on_bandwidth BandwidthController.setGlobalAlertInForwardChain] =>
      change BandwidthController.setGlobalAlertInForwardChain with (BandwidthSpec.run_call BandwidthSpec.SetGlobalAlertInForwardChain)
  | |- context [on_bandwidth BandwidthController.removeGlobalAlertInForwardChain] =>
      change BandwidthController.removeGlobalAlertInForwardChain with (BandwidthSpec.run_call BandwidthSpec.RemoveGlobalAlertInForwardChain)
  | |- context [on_bandwidth (BandwidthController.setSharedAlert ?a)] =>
      change (BandwidthController.setSharedAlert a) with (BandwidthSpec.run_call (BandwidthSpec.SetSharedAlert a))
  | |- context [on_bandwidth BandwidthController.removeSharedAlert] =>
      change BandwidthController.removeSharedAlert with (BandwidthSpec.run_call BandwidthSpec.RemoveSharedAlert)
  | |- context [on_bandwidth (BandwidthController.setInterfaceAlert ?a ?b)] =>
      change (BandwidthController.setInterfaceAlert a b) with (BandwidthSpec.run_call (BandwidthSpec.SetInterfaceAlert a b))
  | |- context [on_bandwidth (BandwidthController.removeInterfaceAlert ?a)] =>
      change (BandwidthController.removeInterfaceAlert a) with (BandwidthSpec.run_call (BandwidthSpec.RemoveInterfaceAlert a))
  end.
Ltac as_tether_op :=
  match goal with
  | |- context [on_tether (TetherController.startTethering ?a)] =>
      change (TetherController.startTethering a) with (TetherController.run_op (TetherController.OStart a))
  | |- context [on_tether TetherController.stopTethering] =>
      change TetherController.stopTethering with (TetherController.run_op TetherController.OStop)
  | |- context [on_tether (TetherController.tetherInterface ?a)] =>
      change (TetherController.tetherInterface a) with (TetherController.run_op (TetherController.OTether a))
  | |- context [on_tether (TetherController.untetherInterface ?a)] =>
      change (TetherController.untetherInterface a) with (TetherController.run_op (TetherController.OUntether a))
  | |- context [on_tether (TetherController.addUpstreamInterface ?a)] =>
      change (TetherController.addUpstreamInterface a) with (TetherController.run_op (TetherController.OAddUpstream a))
  | |- context [on_tether (TetherController.removeUpstreamInterface ?a)] =>
      change (TetherController.removeUpstreamInterface a) with (TetherController.run_op (TetherController.ORemoveUpstream a))
  | |- context [on_tether (TetherController.setDnsForwarders ?a ?b)] =>
      change (TetherController.setDnsForwarders a b) with (TetherController.run_op (TetherController.OSetDns a b))
  | |- context [on_tether (TetherController.setIpFwdEnabled ?a)] =>
      change (TetherController.setIpFwdEnabled a) with (TetherController.run_op (TetherController.OSetIpFwd a))
  end.

(** ** What the commands keep true

    [keeps I m] of code of the daemon, [keepsC I m] of a command: a run from a
    state and a trace that satisfy [I] ends in such a state and trace. *)

Definition keeps {A} (I : t -> trace -> Prop) (m : M t A) : Prop :=
  forall s tr, I s tr -> wp m (fun _ s' tr' => I s' tr') s tr.
Definition keepsC {A} (I : t -> trace -> Prop) (m : C A) : Prop :=
  forall c tr, I (daemon c) tr -> @wp conn (option A) m (fun _ c' tr' => I (daemon c') tr') c tr.

Create HintDb keep.

Section Keeps.
Context (I : t -> trace -> Prop).

Lemma keeps_gets {A} (f : t -> A) : keeps I (gets f).
Proof. by intros s tr Hs. Qed.
Lemma daemon_keeps_bind {B T} (m : M t B) (k : B -> M t T) : keeps I m -> (forall a, keeps I (k a)) -> keeps I (m ≫= k).
Proof. intros Hm Hk s tr Hs. apply wp_bind. eapply wp_mono; [by apply Hm|]. cbn. intros a s' tr' Hs'. by apply Hk. Qed.

Lemma keepsC_ret {A} (a : A) : keepsC I (mret a).
Proof. by intros c tr Hc. Qed.
Lemma keepsC_send code msg b : keepsC I (sendMsg code msg b).
Proof. by intros c tr Hc. Qed.
Lemma keepsC_arg argv n : keepsC I (arg argv n).
Proof. by intros c tr Hc. Qed.
Lemma keepsC_raw msg : keepsC I (sendRaw msg).
Proof. apply keepsC_send. Qed.
Lemma keepsC_deref {A} (o : option A) : keepsC I (deref o).
Proof. by intros c tr Hc. Qed.
Lemma keepsC_run {A} (m : M t A) : keeps I m -> keepsC I (run m).
Proof. intros Hm c tr Hc. specialize (Hm _ _ Hc). unfold wp, run in *. by destruct (m _ _) as [[a s] tr']. Qed.
Lemma keepsC_bind {A B} (m : C A) (k : A -> C B) :
  keepsC I m -> (forall a, keepsC I (k a)) -> keepsC I (m ≫= k).
Proof.
  intros Hm Hk c tr Hc. specialize (Hm c tr Hc). unfold wp, mbind, C_bind in *.
  destruct (m c tr) as [[[a|] c1] tr1]; [|done]. by apply Hk.
Qed.
(** An argument is one of the words. *)
Lemma keepsC_bind_lookup {B} argv n (k : string -> C B) :
  (forall a, argv !! n = Some a -> keepsC I (k a)) -> keepsC I (arg argv n ≫= k).
Proof. intros Hk c tr Hc. unfold wp, mbind, C_bind, arg. destruct (argv !! n) as [a|] eqn:E; [by apply Hk|done]. Qed.
Lemma keepsC_bind_arg {B} argv n (k : string -> C B) :
  (forall a, a ∈ argv -> keepsC I (k a)) -> keepsC I (arg argv n ≫= k).
Proof. intros Hk. apply keepsC_bind_lookup. intros a Ha. eapply Hk, list_elem_of_lookup_2, Ha. Qed.
Lemma keepsC_send_all code l : keepsC I (send_all code l).
Proof. induction l; cbn [send_all]; [apply keepsC_ret|]. apply keepsC_bind; [apply keepsC_send|done]. Qed.
End Keeps.

#[export] Hint Resolve keepsC_ret keepsC_send keepsC_raw keepsC_send_all keepsC_arg keepsC_deref keeps_gets : keep.

Ltac keeps_step :=
  first
    [ solve [auto with keep nocore]
    | apply keepsC_bind_arg; intros ? ?
    | apply keepsC_bind; [|intros ?]
    | apply keepsC_run
    | match goal with
      | |- keepsC _ (match ?x with _ => _ end) => destruct x eqn:?
      end
    | progress cbv zeta ].

(** The commands of a family may use these chains. *)
Definition family_domain (name : string) : domain :=
  if name == "nat" then fun table chain => natctrl_domain table chain || bw_domain table chain
  else if name == "bandwidth" then bw_domain
  else if name == "idletimer" then idletimer_domain
  else if name == "firewall" then fw_domain
  else if name == "network" then mark_domain
  else fun _ _ => false.

Section Owned.
Context {K : Kernel} {A : Ambient}.

(** The code of a controller inside a command. *)
Lemma emits_part {S T B} (get : S -> T) put (d1 d2 : domain) (m : M T B) :
  emits (permitted d1) m -> (forall table name, d1 table name = true -> d2 table name = true) ->
  emits (lawful d2) (zoom get put m).
Proof. intros Hm Hd. apply emits_zoom. eapply emits_mono; [|exact Hm]. intros e. by apply permitted_lawful. Qed.

Lemma emits_quiet {S T B} (get : S -> T) put dom (m : M T B) :
  emits no_command m -> emits (lawful dom) (zoom get put m).
Proof. intros Hm. apply emits_zoom. eapply emits_mono; [|exact Hm]. apply no_command_lawful. Qed.

Ltac emitsC := repeat emitsC_step.
Ltac quiet :=
  apply emits_quiet;
  repeat first
    [ emits_step | apply emits_spawn; intros ? | apply emits_kill | apply emits_wait; intros ? | exact I
    | match goal with |- emits _ ?m => let h := head_of m in unfold h end ].

Lemma owned_interface argv : emitsC (lawful (family_domain "interface")) (InterfaceCmd.runCommand argv).
Proof.
  unfold InterfaceCmd.runCommand, InterfaceCmd.list_interfaces, InterfaceCmd.getcfg, InterfaceCmd.setcfg,
    InterfaceCmd.setting, send_result, syntax_error.
  assert (forall iface l, emitsC (lawful (family_domain "interface")) (InterfaceCmd.set_flags iface l)) as Hflags.
  { intros iface l. induction l as [|w l IH]; cbn [InterfaceCmd.set_flags]; emitsC; emits; exact I. }
  emitsC; try (by emits); try (eapply emits_part; [|done]).
  all: auto using emits_setMtu, emits_setIPv6NdOffload, emits_setEnableIPv6, emits_setIPv6Privacy.
  all: emits; exact I.
Qed.

Lemma owned_list_ttys argv : emitsC (lawful (family_domain "list_ttys")) (ListTtysCmd.runCommand argv).
Proof. unfold ListTtysCmd.runCommand. emitsC. quiet. Qed.

Lemma owned_ipfwd argv : emitsC (lawful (family_domain "ipfwd")) (IpFwdCmd.runCommand argv).
Proof.
  unfold IpFwdCmd.runCommand, IpFwdCmd.set_flag, IpFwdCmd.is_iwlan, IpFwdCmd.finish, send_result, syntax_error.
  emitsC; first [by emits | as_tether_op; apply emits_quiet, emits_tether | quiet].
Qed.

Lemma owned_tether argv : emitsC (lawful (family_domain "tether")) (TetherCmd.runCommand argv).
Proof.
  unfold TetherCmd.runCommand, TetherCmd.interface_cmd, TetherCmd.three_words, TetherCmd.finish, send_result,
    syntax_error.
  emitsC; try (by quiet).
  all: as_tether_op; apply emits_quiet, emits_tether.
Qed.

Lemma owned_nat argv : emitsC (lawful (family_domain "nat")) (NatCmd.runCommand argv).
Proof.
  unfold NatCmd.runCommand, NatCmd.finish, send_result, syntax_error.
  assert (forall table name, natctrl_domain table name = true -> family_domain "nat" table name = true) as Hn.
  { intros table name H. cbn. by rewrite H. }
  assert (forall table name, bw_domain table name = true -> family_domain "nat" table name = true) as Hb.
  { intros table name H. cbn. by rewrite H, orb_true_r. }
  emitsC; try as_bw_call; eapply emits_part; eauto using emits_enableNat, emits_disableNat, emits_bandwidth.
Qed.

Lemma owned_pppd argv : emitsC (lawful (family_domain "pppd")) (PppdCmd.runCommand argv).
Proof.
  unfold PppdCmd.runCommand, PppdCmd.with_addr, PppdCmd.finish, send_result, syntax_error. emitsC; quiet.
Qed.

Lemma owned_softap argv : emitsC (lawful (family_domain "softap")) (SoftapCmd.runCommand argv).
Proof. unfold SoftapCmd.runCommand, SoftapCmd.finish, syntax_error. emitsC; quiet. Qed.

Lemma owned_qsoftap argv : emitsC (lawful (family_domain "softap")) (QsoftapCmd.runCommand argv).
Proof.
  pose proof (owned_softap argv).
  unfold QsoftapCmd.runCommand, QsoftapCmd.qccmd, QsoftapCmd.sap_sta_concurrency, QsoftapCmd.sta_assoc_complete_ind,
    QsoftapCmd.on_interface, QsoftapCmd.finish, send_result, syntax_error.
  repeat first [assumption|emitsC_step]; first [quiet|by emits].
Qed.

Lemma owned_resolver argv : emitsC (lawful (family_domain "resolver")) (ResolverCmd.runCommand argv).
Proof.
  unfold ResolverCmd.runCommand, ResolverCmd.setDnsServers, ResolverCmd.clearDnsServers,
    ResolverCmd.flushDnsCache, ResolverCmd.finish, send_result, syntax_error.
  emitsC; emits; exact I.
Qed.

Lemma owned_idletimer argv : emitsC (lawful (family_domain "idletimer")) (IdletimerControlCmd.runCommand argv).
Proof.
  unfold IdletimerControlCmd.runCommand, IdletimerControlCmd.timer_command, send_result, syntax_error.
  emitsC; eapply emits_part; [|done| |done| |done| |done];
    first [apply emits_idletimer_defaults|apply emits_idletimer].
Qed.

Lemma owned_firewall argv : emitsC (lawful (family_domain "firewall")) (FirewallCmd.runCommand argv).
Proof.
  unfold FirewallCmd.runCommand, FirewallCmd.generic, FirewallCmd.sendGenericOkFail, syntax_error.
  emitsC; (eapply emits_part; [|done]).
  - apply emits_enableFirewall.
  - apply emits_disableFirewall.
  - apply emits_ret.
  - exact (emits_call_rule (FirewallController.InterfaceRule a0) _).
  - exact (emits_call_rule (FirewallController.EgressSourceRule a0) _).
  - apply emits_bind; [|intros ?; apply emits_bind; [|intros; apply emits_ret]].
    + exact (emits_call_rule (FirewallController.EgressDestRule a0 FirewallCmd.PROTOCOL_TCP (atoi a1)) _).
    + exact (emits_call_rule (FirewallController.EgressDestRule a0 FirewallCmd.PROTOCOL_UDP (atoi a1)) _).
  - exact (emits_call_rule (FirewallController.UidRule (atoi a0)) _).
Qed.

Lemma owned_clatd argv : emitsC (lawful (family_domain "clatd")) (ClatdCmd.runCommand argv).
Proof.
  unfold ClatdCmd.runCommand, ClatdCmd.finish, send_result, syntax_error. emitsC; first [apply emits_gets|quiet].
Qed.

Lemma owned_network argv : emitsC (lawful (family_domain "network")) (NetworkCmd.runCommand argv).
Proof.
  unfold NetworkCmd.runCommand. emitsC.
  - eapply emits_part; [|done]. unfold NetworkCommand.runCommand. emits. apply emits_network_command.
  - intros c tr. exists []. by rewrite app_nil_r.
Qed.

Lemma owned_bw_call (c : BandwidthSpec.call) :
  emits (lawful (family_domain "bandwidth")) (on_bandwidth (BandwidthSpec.run_call c)).
Proof. eapply emits_part; [apply emits_bandwidth|done]. Qed.

Lemma owned_each l op failed rc :
  (forall iface, emits (lawful bw_domain) (on_bandwidth (op iface))) ->
  emitsC (lawful bw_domain) (BandwidthControlCmd.each_interface l op failed rc).
Proof.
  intros Hop. revert rc. induction l as [|iface l IH]; intros rc; cbn [BandwidthControlCmd.each_interface];
    unfold BandwidthControlCmd.sendGenericOkFail; emitsC.
Qed.

Lemma owned_bandwidth argv : emitsC (lawful (family_domain "bandwidth")) (BandwidthControlCmd.runCommand argv).
Proof.
  change (family_domain "bandwidth") with bw_domain.
  assert (forall msgs, emitsC (lawful bw_domain) (BandwidthControlCmd.send_messages msgs)) as Hm.
  { induction msgs as [|[code text] msgs IH]; cbn [BandwidthControlCmd.send_messages]; emitsC. }
  unfold BandwidthControlCmd.runCommand, BandwidthControlCmd.quota_commands, BandwidthControlCmd.app_commands,
    BandwidthControlCmd.alert_commands, BandwidthControlCmd.with_argc, BandwidthControlCmd.min_argc,
    BandwidthControlCmd.happybox, BandwidthControlCmd.gettetherstats, BandwidthControlCmd.sendGenericSyntaxError,
    BandwidthControlCmd.generic, BandwidthControlCmd.send_quota, BandwidthControlCmd.sendGenericOpFailed,
    BandwidthControlCmd.sendGenericOkFail,
    TetherStats.getTetherStats.
  emitsC.
  all: try (apply owned_each; intros).
  all: first
    [ as_bw_call; apply owned_bw_call
    | apply emits_gets
    | apply emits_quiet; unfold BandwidthController.getInterfaceSharedQuota, BandwidthController.getInterfaceQuota;
      by emits
    | by emits ].
Qed.

Lemma owned_route argv : emitsC (lawful (family_domain "route")) (QcRouteCmd.runCommand argv).
Proof.
  assert (forall T cmd e1 e2, emits (S:=T) (lawful (family_domain "route")) (QcRouteController.runIpCmd e1 e2 cmd)) as Hip.
  { intros T cmd e1 e2. unfold QcRouteController.runIpCmd. emits; exact I. }
  unfold QcRouteCmd.runCommand, QcRouteCmd.src_replace, QcRouteCmd.src_del, QcRouteCmd.def_replace,
    QcRouteCmd.def_add, QcRouteCmd.dst_add, QcRouteCmd.dst_del, QcRouteCmd.check_rid, QcRouteCmd.check_iface,
    QcRouteCmd.check_ip, QcRouteCmd.with_gateway, QcRouteCmd.isValidIface, QcRouteCmd.report, syntax_error.
  emitsC; unfold QcRouteController.repSrcRoute, QcRouteController.addDstRoute, QcRouteController.delSrcRoute,
    QcRouteController.replaceDefRoute, QcRouteController.addDefRoute, QcRouteController.delDstRoute,
    QcRouteController.if_empty, QcRouteController.delHostRoute, QcRouteController.flushCache,
    QcRouteController.repDefRoute, QcRouteController.delDefRoute, QcRouteController.addRule,
    QcRouteController.delRule; emits; exact I.
Qed.

Lemma owned_dispatch name args m : dispatch (name :: args) = Some m -> emitsC (lawful (family_domain name)) m.
Proof.
  intros (? & ? & f & [= <- <-] & Hf & ->)%dispatch_find.
  apply (registered_all (fun name f => forall argv, emitsC (lawful (family_domain name)) (f argv)) name f Hf);
    auto using owned_interface, owned_ipfwd, owned_tether, owned_nat, owned_list_ttys, owned_pppd, owned_softap, owned_qsoftap,
      owned_bandwidth,
      owned_idletimer, owned_resolver, owned_firewall, owned_clatd, owned_network, owned_route.
Qed.
End Owned.
