(* ===== verification/ListenerReplies.v ===== *)
(** * ListenerReplies: every command is answered, once

    The protocol of the command socket: a command gets any number of messages of
    the 100 series and then exactly one final one.  [answers m] says that [m]
    keeps to it and reads its arguments within bounds, whatever the state of the
    daemon and whatever the kernel replies. *)
From S2P Require Import Prelude Platform Cstd Fwmark UidRanges Children Netlink.
From S2P Require Import NetdConstants Ledger Iptables RouteController RouteSpec Networks NetworkSpec.
From S2P Require Import NetworkController ControllerSpec Daemon NetworkCommand SampleKernel.
From S2P Require Import FirewallController NatController IdletimerController BandwidthController.
From S2P Require Import TetherStats TetherController ClatdController PppController SoftapController.
From S2P Require Import InterfaceController.
From S2P Require Import QcRouteController CommandListener Commands.

Definition interim (r : reply) : Prop := 100 <= rp_code r < 200.
Definition final (r : reply) : Prop := 200 <= rp_code r < 600.

(** Messages of the 100 series and one final message. *)
Definition complete (l : list reply) : Prop :=
  exists pre fin, l = pre ++ [fin] /\ Forall interim pre /\ final fin.

(** [sends P m]: [m] ends normally, and what it sends satisfies [P]. *)
Definition sends {A} (P : list reply -> Prop) (m : C A) : Prop :=
  forall c tr, exists a c' tr' l, m c tr = (Some a, c', tr') /\ sent c' = sent c ++ l /\ P l.

(** [returns V m]: what [m] returns satisfies [V]. *)
Definition returns {S A} (V : A -> Prop) (m : M S A) : Prop := forall s tr, wp m (fun a _ _ => V a) s tr.

Definition answers (m : C unit) : Prop := sends complete m.
Definition silent {A} (m : C A) : Prop := sends (fun l => l = []) m.
Definition informs (m : C unit) : Prop := sends (Forall interim) m.

Create HintDb replies.

Lemma silent_ret {A} (a : A) : silent (mret a).
Proof. intros c tr. exists a, c, tr, []. by rewrite app_nil_r. Qed.

Lemma silent_run {A} (m : M t A) : silent (run m).
Proof.
  intros c tr. unfold run. destruct (m (daemon c) tr) as [[a s] tr'].
  exists a, (Conn s (sent c)), tr', []. by rewrite app_nil_r.
Qed.

Lemma silent_arg argv n : Z.of_nat n < argc argv -> silent (arg argv n).
Proof.
  intros H. destruct (lookup_in_bounds argv n H) as [a Ha]. intros c tr. exists a, c, tr, [].
  unfold arg. by rewrite Ha, app_nil_r.
Qed.

Lemma sends_arg {A} P argv n (k : string -> C A) :
  Z.of_nat n < argc argv -> (forall a, argv !! n = Some a -> sends P (k a)) -> sends P (arg argv n ≫= k).
Proof.
  intros H Hk. destruct (lookup_in_bounds argv n H) as [a Ha]. intros c tr. unfold mbind, C_bind, arg.
  rewrite Ha. by apply Hk.
Qed.

Lemma informs_ret : informs (mret tt).
Proof. intros c tr. exists tt, c, tr, []. rewrite app_nil_r. split_and!; [done..|constructor]. Qed.

Lemma informs_send code msg b : 100 <= code < 200 -> informs (sendMsg code msg b).
Proof.
  intros H c tr. exists tt, (Conn (daemon c) (sent c ++ [Reply code msg b])), tr, [Reply code msg b].
  split_and!; [done..|]. by apply Forall_singleton.
Qed.

Lemma answers_send code msg b : 200 <= code < 600 -> answers (sendMsg code msg b).
Proof.
  intros H c tr. exists tt, (Conn (daemon c) (sent c ++ [Reply code msg b])), tr, [Reply code msg b].
  split_and!; [done..|]. by exists [], (Reply code msg b).
Qed.

Lemma sends_bind {A B} (P Q R : list reply -> Prop) (m : C A) (k : A -> C B) :
  sends P m -> (forall a, sends Q (k a)) -> (forall l1 l2, P l1 -> Q l2 -> R (l1 ++ l2)) -> sends R (m ≫= k).
Proof.
  intros Hm Hk HR c tr. destruct (Hm c tr) as (a & c1 & tr1 & l1 & E1 & S1 & P1).
  destruct (Hk a c1 tr1) as (b & c2 & tr2 & l2 & E2 & S2 & P2).
  exists b, c2, tr2, (l1 ++ l2). unfold mbind, C_bind. rewrite E1. split_and!; [done| |by apply HR].
  by rewrite S2, S1, app_assoc.
Qed.

Lemma sends_after_silent {A B} P (m : C A) (k : A -> C B) : silent m -> (forall a, sends P (k a)) -> sends P (m ≫= k).
Proof. intros Hm Hk. eapply sends_bind; [exact Hm|exact Hk|]. by intros ? ? ->. Qed.

Lemma sends_after_run {A B} (V : A -> Prop) P (m : M t A) (k : A -> C B) :
  returns V m -> (forall a, V a -> sends P (k a)) -> sends P (run m ≫= k).
Proof.
  intros Hm Hk c tr. specialize (Hm (daemon c) tr). unfold wp in Hm. unfold mbind, C_bind, run.
  destruct (m (daemon c) tr) as [[a s] tr']. exact (Hk a Hm (Conn s (sent c)) tr').
Qed.

Lemma answers_after_informs {A} (m : C unit) (k : unit -> C A) :
  informs m -> (forall a, sends complete (k a)) -> sends complete (m ≫= k).
Proof.
  intros Hm Hk. eapply sends_bind; [exact Hm|exact Hk|]. intros l1 l2 H1 (pre & fin & -> & H2 & H3).
  exists (l1 ++ pre), fin. split_and!; [by rewrite app_assoc|by apply Forall_app|done].
Qed.

Lemma informs_seq (m : C unit) (k : unit -> C unit) : informs m -> (forall a, informs (k a)) -> informs (m ≫= k).
Proof. intros Hm Hk. eapply sends_bind; [exact Hm|exact Hk|]. intros. by apply Forall_app. Qed.

Lemma informs_send_all code l : 100 <= code < 200 -> informs (send_all code l).
Proof.
  intros H. induction l; cbn [send_all]; [apply informs_ret|].
  apply informs_seq; [by apply informs_send|done].
Qed.

#[export] Hint Resolve silent_ret silent_run : replies.

(** Walk through a command.  Arguments are read where the conditions above bound
    their number. *)
Ltac code_range := unfold interim, final, CommandOkay, OperationFailed, CommandSyntaxError, CommandParameterError,
  InterfaceListResult, TetherInterfaceListResult, TetherDnsFwdTgtListResult, TtyListResult,
  TetherDnsFwdNetIdResult, TetherStatusResult, IpFwdStatusResult, InterfaceGetCfgResult,
  QuotaCounterResult, ClatdStatusResult, V6RtrAdvResult in *; lia.
Ltac bound := apply silent_arg; bool_to_prop; lia.
Ltac replies_step :=
  match goal with
  | |- sends _ (sendMsg _ _ _) => apply answers_send; code_range
  | |- answers _ => unfold answers
  | |- sends complete (send_all _ _ ≫= _) => apply answers_after_informs; [apply informs_send_all; code_range|intros ?]
  | |- sends _ (arg _ _ ≫= _) => apply sends_arg; [bool_to_prop; lia|intros ? ?]
  | |- sends _ (run _ ≫= _) => apply sends_after_silent; [apply silent_run|intros ?]
  | |- sends _ (if ?b then _ else _) => destruct b eqn:?
  | |- sends _ (match ?x with _ => _ end) => destruct x eqn:?
  | |- sends _ (let '(_, _) := ?x in _) => destruct x eqn:?
  | |- silent _ => unfold silent
  | |- sends _ (run _) => apply silent_run
  | |- sends _ (mret _) => first [apply silent_ret|apply informs_ret]
  | |- sends _ (arg _ _) => bound
  | |- sends complete ((if ?b then _ else _) ≫= _) => apply sends_after_silent; [|intros ?]
  | _ => progress cbv zeta
  end.
Ltac replies := repeat replies_step.

Section Answers.
Context {K : Kernel} {A : Ambient}.

Lemma answers_ipfwd argv : answers (IpFwdCmd.runCommand argv).
Proof.
  assert (forall b, silent (IpFwdCmd.set_flag argv b)) as Hf.
  { intros b. unfold IpFwdCmd.set_flag. apply sends_after_silent; [|intros ?; apply silent_run].
    unfold IpFwdCmd.is_iwlan. replies. }
  unfold IpFwdCmd.runCommand, IpFwdCmd.finish, send_result, syntax_error. replies.
  all: apply sends_after_silent; [apply Hf|intros ?]; replies.
Qed.

Lemma answers_list_ttys argv : answers (ListTtysCmd.runCommand argv).
Proof. unfold ListTtysCmd.runCommand. replies. Qed.

Lemma answers_tether argv : answers (TetherCmd.runCommand argv).
Proof.
  assert (forall a1 a2, informs (TetherCmd.three_words a1 a2)) as H3.
  { intros a1 a2. unfold TetherCmd.three_words. destruct (_ && _); [|destruct (_ && _); [|apply informs_ret]].
    - eapply sends_after_silent; [apply silent_run|]. intros l. apply informs_send_all. code_range.
    - eapply sends_after_silent; [apply silent_run|]. intros n.
      apply informs_seq; [apply informs_send; code_range|]. intros _.
      eapply sends_after_silent; [apply silent_run|]. intros l. apply informs_send_all. code_range. }
  unfold TetherCmd.runCommand, TetherCmd.interface_cmd, TetherCmd.finish, send_result, syntax_error. replies.
  all: apply answers_after_informs; [apply H3|intros ?]; replies.
Qed.

Lemma answers_nat argv : answers (NatCmd.runCommand argv).
Proof. unfold NatCmd.runCommand, NatCmd.finish, send_result, syntax_error. replies. Qed.

Lemma answers_pppd argv :
  (argv !! 1%nat = Some "attach" -> 7 <= argc argv) -> answers (PppdCmd.runCommand argv).
Proof.
  intros Hatt. unfold PppdCmd.runCommand, PppdCmd.with_addr, PppdCmd.finish, send_result, syntax_error.
  unfold answers. destruct (argc argv <? 3) eqn:E; [replies|]. do 2 replies_step.
  destruct (a == "attach") eqn:Ea; [|replies]. apply String.eqb_eq in Ea as ->. specialize (Hatt H). replies.
Qed.

(** *** softap *)

Lemma returns_bind {S B T} (V : T -> Prop) (m : M S B) (k : B -> M S T) :
  (forall b, returns V (k b)) -> returns V (m ≫= k).
Proof.
  intros Hk s tr. apply wp_bind. apply wp_intro. intros b s' tr' _. apply Hk.
Qed.
Lemma returns_ret {S T} (V : T -> Prop) (a : T) : V a -> returns V (mret (M:=M S) a).
Proof. by intros H s tr. Qed.
Lemma returns_zoom {S T B} (get : S -> T) put (V : B -> Prop) (m : M T B) : returns V m -> returns V (zoom get put m).
Proof. intros Hm s tr. apply wp_zoom. eapply wp_mono; [apply Hm|]. done. Qed.

Definition final_code (rc : Z) : Prop := 200 <= rc < 600.
Definition some_final_code (rc : option Z) : Prop := exists c, rc = Some c /\ final_code c.

Ltac returns :=
  repeat first
    [ apply returns_ret | apply returns_zoom
    | match goal with |- returns _ (match ?x with _ => _ end) => destruct x eqn:? end
    | apply returns_bind; intros ? | progress cbv zeta ];
  try (unfold final_code; repeat match goal with |- context [if ?b then _ else _] => destruct b end;
       vm_compute; split; first [discriminate|reflexivity]).

(** "set" has none or all of the words up to the channel, and a security that is
    known. *)
Definition known_security (words : list string) : Prop :=
  match words with
  | [] => True
  | [security] => security = "open"
  | security :: _ :: _ => security ∈ ["wpa-psk"; "wpa2-psk"; "open"]
  end.
Definition can_be_set (argv : list string) : Prop :=
  argv !! 1%nat = Some "set" -> argc argv < 5 \/ 6 <= argc argv /\ known_security (drop 6 argv).

Lemma returns_startSoftap : returns final_code SoftapController.startSoftap.
Proof. unfold SoftapController.startSoftap. returns. Qed.
Lemma returns_stopSoftap : returns final_code SoftapController.stopSoftap.
Proof. unfold SoftapController.stopSoftap. returns. Qed.
Lemma returns_fwReloadSoftap argv : returns final_code (SoftapController.fwReloadSoftap argv).
Proof. unfold SoftapController.fwReloadSoftap. returns. Qed.

Lemma returns_setSoftap argv :
  argc argv < 5 \/ 6 <= argc argv /\ known_security (drop 6 argv) ->
  returns some_final_code (SoftapController.setSoftap argv).
Proof.
  intros H. assert (forall rc, final_code rc -> some_final_code (Some rc)) as Hs by (intros rc ?; by exists rc).
  assert (forall text, returns final_code (SoftapController.write_config text)) as Hw.
  { intros text. unfold SoftapController.write_config. returns. }
  unfold argc in H.
  destruct argv as [|a0 [|a1 [|iface [|ssid [|a4 [|a5 words]]]]]]; cbn [SoftapController.setSoftap length] in *;
    try (apply returns_ret, Hs; unfold final_code; vm_compute; split; [discriminate|reflexivity]); [lia|].
  destruct H as [H|[_ Hk]]; [lia|]. cbn [drop] in Hk. apply returns_bind. intros fd.
  destruct (fd <? 0); [apply returns_ret, Hs; unfold final_code; vm_compute; split; [discriminate|reflexivity]|].
  destruct (SoftapController.fbuf _ _) as [text|] eqn:Ef.
  - intros s tr. apply wp_bind. eapply wp_mono; [apply Hw|]. cbn. intros rc s' tr' Hrc. by apply Hs.
  - exfalso. destruct words as [|security [|key words]]; cbn in Ef, Hk; [done|by subst|].
    apply elem_of_cons in Hk as [->|[->|[->|[]%elem_of_nil]%elem_of_cons]%elem_of_cons]; done.
Qed.

Lemma answers_softap_finish rc : final_code rc -> answers (SoftapCmd.finish rc).
Proof. intros H. unfold SoftapCmd.finish, final_code in *. case_match; by apply answers_send. Qed.

Lemma answers_softap argv : can_be_set argv -> answers (SoftapCmd.runCommand argv).
Proof.
  intros Hset. unfold SoftapCmd.runCommand, syntax_error. unfold answers. destruct (argc argv <? 2) eqn:E; [replies|].
  apply sends_arg; [bool_to_prop; lia|]. intros a1 Ha1.
  assert (forall m, returns final_code m -> answers (rc ← run (on_softap m); SoftapCmd.finish rc)) as Hrun.
  { intros m Hm. eapply sends_after_run; [by apply returns_zoom|]. intros rc. apply answers_softap_finish. }
  destruct (a1 == "startap"); [apply Hrun, returns_startSoftap|].
  destruct (a1 == "stopap"); [apply Hrun, returns_stopSoftap|].
  destruct (a1 == "fwreload"); [apply Hrun, returns_fwReloadSoftap|].
  destruct (a1 == "status").
  { apply sends_after_silent; [apply silent_run|]. intros started. by apply answers_send. }
  destruct (String.eqb_spec a1 "set") as [->|_]; [|replies].
  eapply sends_after_run; [apply returns_zoom, returns_setSoftap, Hset, Ha1|]. intros rc (c & -> & Hc).
  exact (answers_softap_finish c Hc).
Qed.

(** In a build with the vendor's access point, "qccmd" passes on what the library
    says, unless it works on both at once. *)
Definition can_be_passed_on (argv : list string) : Prop := argv !! 1%nat = Some "qccmd" -> qsap_sta_concurrency = false.

Lemma answers_qsoftap argv : can_be_set argv -> can_be_passed_on argv -> answers (QsoftapCmd.runCommand argv).
Proof.
  intros Hset Hq. unfold QsoftapCmd.runCommand, QsoftapCmd.on_interface, QsoftapCmd.finish, send_result, syntax_error.
  unfold answers. destruct (argc argv <? 2) eqn:E; [replies|].
  apply sends_arg; [bool_to_prop; lia|]. intros a1 Ha1.
  destruct (String.eqb_spec a1 "qccmd") as [->|_].
  { unfold QsoftapCmd.qccmd. rewrite (Hq Ha1). cbn [andb]. replies. }
  destruct (a1 == "set"); [|repeat case_match; replies; by apply answers_softap].
  apply sends_after_silent; [apply silent_run|]. intros p. case_match; [by apply answers_softap|replies].
Qed.

(** "setcfg" reads a fifth argument that it may not have. *)
Definition has_prefix_length argv : Prop :=
  argv !! 1%nat = Some "setcfg" -> argc argv = 4 ->
  forall a3 addr, argv !! 3%nat = Some a3 -> k_inet_aton a3 = Some addr -> addr = 0.

Lemma answers_interface argv : has_prefix_length argv -> answers (InterfaceCmd.runCommand argv).
Proof.
  intros Hset.
  assert (forall iface l, answers (InterfaceCmd.set_flags iface l)) as Hflags.
  { intros iface l. induction l as [|w l IH]; cbn [InterfaceCmd.set_flags]; replies; apply IH. }
  unfold InterfaceCmd.runCommand, InterfaceCmd.list_interfaces, InterfaceCmd.getcfg, InterfaceCmd.setcfg,
    InterfaceCmd.setting, send_result, syntax_error.
  replies; try apply Hflags.
  all: apply sends_arg; [|intros ? ?; replies; apply Hflags].
  all: repeat match goal with H : (_ == "setcfg") = true |- _ => apply String.eqb_eq in H; subst end.
  all: bool_to_prop; destruct (decide (argc argv = 4)) as [E4|]; [|lia].
  all: exfalso; by eauto.
Qed.

Lemma answers_resolver argv : answers (ResolverCmd.runCommand argv).
Proof.
  unfold ResolverCmd.runCommand, ResolverCmd.finish, send_result, syntax_error. replies.
Qed.

Lemma answers_idletimer argv : answers (IdletimerControlCmd.runCommand argv).
Proof.
  unfold IdletimerControlCmd.runCommand, IdletimerControlCmd.timer_command, send_result, syntax_error. replies.
Qed.

Lemma answers_firewall argv : answers (FirewallCmd.runCommand argv).
Proof.
  unfold FirewallCmd.runCommand, FirewallCmd.generic, FirewallCmd.sendGenericOkFail, syntax_error. replies.
Qed.

Lemma answers_clatd argv : answers (ClatdCmd.runCommand argv).
Proof. unfold ClatdCmd.runCommand, ClatdCmd.finish, send_result, syntax_error. replies. Qed.

Lemma answers_network argv : answers (NetworkCmd.runCommand argv).
Proof.
  destruct (parse_total argv) as [p Hp]. unfold NetworkCmd.runCommand, NetworkCommand.runCommand. rewrite Hp.
  intros c tr. unfold mbind, C_bind, run, on_net, zoom, M_bind.
  destruct p as [msg|cmd failed]; cbn.
  - refine (answers_send CommandSyntaxError msg false _ (Conn _ (sent c)) tr). code_range.
  - destruct (run_command cmd _ tr) as [[ret s] tr']. cbn. destruct (negb (ret =? 0)); cbn.
    + refine (answers_send OperationFailed failed true _ (Conn _ (sent c)) tr'). code_range.
    + refine (answers_send CommandOkay "success" false _ (Conn _ (sent c)) tr'). code_range.
Qed.

Lemma answers_each l op failed rc : answers (BandwidthControlCmd.each_interface l op failed rc).
Proof.
  revert rc. induction l as [|iface l IH]; intros rc; cbn [BandwidthControlCmd.each_interface];
    unfold BandwidthControlCmd.sendGenericOkFail; replies. apply IH.
Qed.

(** All bandwidth commands but the tether statistics. *)
Lemma answers_bandwidth argv :
  argv !! 1%nat <> Some "gettetherstats" -> argv !! 1%nat <> Some "gts" -> answers (BandwidthControlCmd.runCommand argv).
Proof.
  intros Hn1 Hn2.
  unfold BandwidthControlCmd.runCommand, BandwidthControlCmd.quota_commands, BandwidthControlCmd.app_commands,
    BandwidthControlCmd.alert_commands, BandwidthControlCmd.with_argc, BandwidthControlCmd.min_argc,
    BandwidthControlCmd.happybox, BandwidthControlCmd.sendGenericSyntaxError, BandwidthControlCmd.generic,
    BandwidthControlCmd.send_quota, BandwidthControlCmd.sendGenericOpFailed, BandwidthControlCmd.sendGenericOkFail.
  replies; try apply answers_each. exfalso.
  match goal with H : BandwidthControlCmd.is_cmd _ "gettetherstats" _ = true |- _ =>
    apply orb_true_iff in H as [H|H]; apply String.eqb_eq in H; subst end; done.
Qed.

Lemma answers_route argv : answers (QcRouteCmd.runCommand argv).
Proof.
  unfold QcRouteCmd.runCommand, QcRouteCmd.src_replace, QcRouteCmd.src_del, QcRouteCmd.def_replace,
    QcRouteCmd.def_add, QcRouteCmd.dst_add, QcRouteCmd.dst_del, QcRouteCmd.check_rid, QcRouteCmd.check_iface,
    QcRouteCmd.check_ip, QcRouteCmd.with_gateway, QcRouteCmd.report, syntax_error.
  assert (forall i, silent (QcRouteCmd.isValidIface i)) as Hi.
  { intros i. unfold QcRouteCmd.isValidIface. replies. }
  replies; repeat (apply sends_after_silent; [apply Hi|intros ?]; replies).
Qed.

(** The commands that the theorem is about: the three that may read past the end of
    their arguments only with enough of them, and not the tether statistics. *)
Definition well_formed argv : Prop :=
  match argv with
  | [] => True
  | name :: _ =>
      (name = "pppd" -> argv !! 1%nat = Some "attach" -> 7 <= argc argv) /\
      (name = "interface" -> has_prefix_length argv) /\
      (name = "softap" -> can_be_set argv /\ can_be_passed_on argv) /\
      (name = "bandwidth" -> argv !! 1%nat <> Some "gettetherstats" /\ argv !! 1%nat <> Some "gts")
  end.
End Answers.

(** An example of what is outside the repository, for the concrete runs. *)
Definition sample_ambient : Ambient := {|
  strerror_popen := "Cannot allocate memory";
  strerror_E2BIG := "Argument list too long";
  stray_info := (0, 0);
  qsap_wlan := false;
  qsap_sta_concurrency := false
|}.

Definition sample_listener : t :=
  set_sTetherCtrl (TetherController.State ["wlan0"; "usb0"] [] [] 0 0 (-1) 0 0)
    (init (Memory 0 0 0 0 (0, 0, 0, 0))).

(** ** Properties *)

(** What all commands do. *)
Lemma replies_once {K : Kernel} {A : Ambient} argv m c tr :
  dispatch argv = Some m -> well_formed argv ->
  exists c' tr' pre fin, m c tr = (Some tt, c', tr') /\ sent c' = sent c ++ pre ++ [fin] /\
    Forall (fun r => 100 <= rp_code r < 200) pre /\ 200 <= rp_code fin < 600.
Proof.
  intros (name & args & f & -> & Hf & ->)%dispatch_find (Hp & Hi & Hs & Hb).
  assert (answers (f (name :: args))) as Ha.
  { revert Hp Hi Hs Hb.
    apply (registered_all (fun name f => (name = "pppd" -> (name :: args) !! 1%nat = Some "attach" -> 7 <= argc (name :: args)) ->
      (name = "interface" -> has_prefix_length (name :: args)) ->
      (name = "softap" -> can_be_set (name :: args) /\ can_be_passed_on (name :: args)) ->
      (name = "bandwidth" -> (name :: args) !! 1%nat <> Some "gettetherstats" /\ (name :: args) !! 1%nat <> Some "gts") ->
      answers (f (name :: args))) name f Hf); intros Hp Hi Hs Hb;
    auto using answers_ipfwd, answers_tether, answers_nat, answers_list_ttys, answers_idletimer, answers_resolver,
      answers_firewall, answers_clatd, answers_network, answers_route, answers_pppd, answers_interface.
    - by apply answers_softap, Hs.
    - by apply answers_qsoftap; apply Hs.
    - destruct (Hb eq_refl). by apply answers_bandwidth. }
  destruct (Ha c tr) as ([] & c' & tr' & l & E & S & pre & fin & -> & H1 & H2). by exists c', tr', pre, fin.
Qed.

(** C6. Every well-formed command is answered exactly once: a registered command, in
    any state of the daemon and whatever the kernel replies, reads its arguments within
    bounds, sends any number of messages of the 100 series and then one final
    message, and nothing else.  The commands that are not [well_formed], and for which
    this fails or is not shown: the tether statistics, a pppd attach with too
    few arguments, an interface setcfg without a prefix length, a softap set without
    a channel or with an unknown security, and the vendor's command "qccmd" when its
    library works on both networks at once. *)
Theorem one_final_reply {K : Kernel} {A : Ambient} argv m c tr :
  dispatch argv = Some m -> well_formed argv ->
  exists c' tr' pre fin, m c tr = (Some tt, c', tr') /\ sent c' = sent c ++ pre ++ [fin] /\
    Forall (fun r => 100 <= rp_code r < 200) pre /\ 200 <= rp_code fin < 600.
Proof. apply replies_once. Qed.

Lemma one_final_reply_witness :
  let m := TetherCmd.runCommand (K:=good_kernel) ["tether"; "interface"; "list"] in
  sent (m (Conn sample_listener []) []).1.2 =
    [Reply 111 "wlan0" false; Reply 111 "usb0" false; Reply 200 "Tether operation succeeded" false] /\
  exists c' tr' pre fin, m (Conn sample_listener []) [] = (Some tt, c', tr') /\
    sent c' = [] ++ pre ++ [fin] /\
    Forall (fun r => 100 <= rp_code r < 200) pre /\ 200 <= rp_code fin < 600.
Proof.
  split; [vm_compute; reflexivity|].
  apply (one_final_reply (K:=good_kernel) (A:=sample_ambient) ["tether"; "interface"; "list"]); [reflexivity|].
  cbn. split_and!; discriminate.
Defined.

(** The arguments that are read without a check. *)
Lemma attach_reads_past_end {K : Kernel} c tr :
  (PppdCmd.runCommand ["pppd"; "attach"; "ttyS0"] c tr).1.1 = None.
Proof. reflexivity. Qed.

Lemma setcfg_reads_past_end :
  (InterfaceCmd.runCommand (K:=good_kernel) ["interface"; "setcfg"; "wlan0"; "192.168.42.1"]
     (Conn sample_listener []) []).1.1 = None.
Proof. vm_compute. reflexivity. Qed.

(** Three words that make no tether command are accepted. *)
Lemma unknown_tether_accepted {K : Kernel} :
  sent (TetherCmd.runCommand ["tether"; "start"; "192.168.42.1"] (Conn sample_listener []) []).1.2 =
  [Reply CommandOkay "Tether operation succeeded" false].
Proof. reflexivity. Qed.

(** Stopping the vendor's access point works, and is reported as a failure: the
    controller returns the code of a status, not 0. *)
Lemma stop_reported_failed :
  let c := Conn (set_sSoftapCtrl (SoftapController.State 77) sample_listener) [] in
  let r := (QsoftapCmd.sap_sta_concurrency (K:=good_kernel) "sap_sta_concurrency=11" c []).1.2 in
  SoftapController.mPid (sSoftapCtrl (daemon r)) = 0 /\
  sent r = [Reply 0 "success channel=6" false; Reply OperationFailed "Softap operation failed" true;
            Reply 0 "success channel=6" false].
Proof. vm_compute. split; reflexivity. Qed.

(** The counters of one pair for IPv4, none for IPv6. *)
Definition stats_kernel : Kernel := {|
  k_netlink := k_netlink (Kernel:=good_kernel);
  k_exec := k_exec (Kernel:=good_kernel);
  k_ifindex := k_ifindex (Kernel:=good_kernel);
  k_file := k_file (Kernel:=good_kernel);
  k_property := k_property (Kernel:=good_kernel);
  k_popen := fun _ cmd => Some (if String.prefix IPTABLES_PATH cmd
    then TetherStats.print_stats [TetherStats.Counters "wlan0" "rmnet0" 10 1 20 2] else TetherStats.print_stats []);
  k_read := k_read (Kernel:=good_kernel);
  k_readdir := k_readdir (Kernel:=good_kernel);
  k_spawn := k_spawn (Kernel:=good_kernel);
  k_wait := k_wait (Kernel:=good_kernel);
  k_system := k_system (Kernel:=good_kernel);
  k_ifc := k_ifc (Kernel:=good_kernel);
  k_ifc_get_info := k_ifc_get_info (Kernel:=good_kernel);
  k_ifc_get_hwaddr := k_ifc_get_hwaddr (Kernel:=good_kernel);
  k_wifi := k_wifi (Kernel:=good_kernel);
  k_qsap_reply := k_qsap_reply (Kernel:=good_kernel);
  k_wifi_fw_path := k_wifi_fw_path (Kernel:=good_kernel);
  k_pbkdf2 := k_pbkdf2 (Kernel:=good_kernel);
  k_netmask := k_netmask (Kernel:=good_kernel);
  k_pipe := k_pipe (Kernel:=good_kernel);
  k_getaddrinfo := k_getaddrinfo (Kernel:=good_kernel);
  k_inet_pton := k_inet_pton (Kernel:=good_kernel);
  k_inet_aton := k_inet_aton (Kernel:=good_kernel)
|}.

(** The tether statistics of one pair are answered twice. *)
Lemma tether_stats_answered_twice :
  sent (BandwidthControlCmd.runCommand (K:=stats_kernel) ["bandwidth"; "gettetherstats"; "wlan0"; "rmnet0"]
          (Conn sample_listener []) []).1.2 =
  [Reply 221 "wlan0 rmnet0 10 1 20 2" false; Reply 200 "Tethering stats list completed" false].
Proof. vm_compute. reflexivity. Qed.
