(* ===== verification/ListenerInvariant.v ===== *)
(** * ListenerInvariant: the daemon as a whole

    The states that the text commands lead to from the start of the daemon, and
    what is true in all of them: the invariants of the controllers, together, and
    the children, which are those that the controllers know. *)
From S2P Require Import Prelude Platform Cstd Fwmark UidRanges Children Netlink.
From S2P Require Import NetdConstants Ledger Iptables RouteController RouteSpec Networks NetworkSpec.
From S2P Require Import NetworkController ControllerSpec Daemon NetworkCommand SampleKernel.
From S2P Require Import FirewallController NatController IdletimerController BandwidthController BandwidthSpec.
From S2P Require Import TetherStats TetherController ClatdController PppController SoftapController.
From S2P Require Import InterfaceController.
From S2P Require Import QcRouteController CommandListener Commands Footprint ListenerSpec ListenerReplies.

(** ** The states *)

(** The integers that the constructors do not set, when the memory they are in was 0. *)
Definition zeroed (mem : memory) : Prop := mem_mRtrAdvPid mem = 0 /\ mem_bandwidth mem = (0, 0, 0, 0).

(** The daemon after its start and any number of commands, whatever the kernel
    replied; a command that reads past its arguments has no state after it. *)
Inductive listening {K : Kernel} {A : Ambient} : t -> trace -> Prop :=
| listening_start mem s tr :
    zeroed mem -> construct (init mem) [] = (tt, s, tr) -> listening s tr
| listening_command argv m s tr s' sent' tr' :
    listening s tr -> Forall no_nul argv -> dispatch argv = Some m ->
    m (Conn s []) tr = (Some tt, Conn s' sent', tr') -> listening s' tr'.

(** The loop of the listener over the commands it reads: an unknown command
    changes nothing. *)
Fixpoint run_all {K : Kernel} {A : Ambient} (cmds : list (list string)) (s : t) (tr : trace) : option (t * trace) :=
  match cmds with
  | [] => Some (s, tr)
  | argv :: cmds =>
      match dispatch argv with
      | None => run_all cmds s tr
      | Some m =>
          match m (Conn s []) tr with
          | (Some tt, c', tr') => run_all cmds (daemon c') tr'
          | (None, _, _) => None
          end
      end
  end.

Lemma listening_run_all {K : Kernel} {A : Ambient} cmds s tr s' tr' :
  listening s tr -> Forall (Forall no_nul) cmds -> run_all cmds s tr = Some (s', tr') -> listening s' tr'.
Proof.
  intros Hs Hnul. revert s tr Hs. induction Hnul as [|argv cmds Hargv _ IH]; intros s tr Hs; cbn [run_all].
  - by intros [= <- <-].
  - destruct (dispatch argv) as [m|] eqn:Em; [|by apply IH].
    destruct (m (Conn s []) tr) as [[[[]|] [s1 sent1]] tr1] eqn:E; [|done]. apply IH. by econstructor.
Qed.

(** The children the controllers know. *)
Definition known_children (s : t) : list (string * Z) :=
  TetherController.believed (sTetherCtrl s) ++
  ClatdController.believed (sClatdCtrl s) ++ PppController.believed (sPppCtrl s) ++
  SoftapController.believed (sSoftapCtrl s).

(** *** Code that keeps a part of the state *)

Definition stable {S A} (I : S -> Prop) (m : M S A) : Prop :=
  forall s tr, I s -> wp m (fun _ s' _ => I s') s tr.

Section Stable.
Context {K : Kernel} {S : Type} (I : S -> Prop).

Lemma stable_bind {A B} (m : M S A) (k : A -> M S B) : stable I m -> (forall a, stable I (k a)) -> stable I (m ≫= k).
Proof.
  intros Hm Hk s tr Hs. apply wp_bind. eapply wp_mono; [by apply Hm|]. cbn. intros a s' tr' Hs'. by apply Hk.
Qed.
Lemma stable_modify (f : S -> S) : (forall s, I s -> I (f s)) -> stable I (modify f).
Proof. intros Hf s tr Hs. by apply wp_modify, Hf. Qed.
Lemma stable_zoom {T A} (get : S -> T) put (J : T -> Prop) (m : M T A) :
  (forall s, I s -> J (get s)) -> (forall s x, I s -> J x -> I (put x s)) -> stable J m -> stable I (zoom get put m).
Proof.
  intros Hg Hp Hm s tr Hs. apply wp_zoom. eapply wp_mono; [by apply Hm, Hg|]. cbn. intros a x tr' Hx. by apply Hp.
Qed.
End Stable.

Ltac stable_step :=
  first
    [ apply stable_bind; [|intros ?]
    | match goal with
      | |- stable _ (match ?x with _ => _ end) => destruct x eqn:?
      end
    | apply stable_modify; by intros ? ?
    | solve [let H := fresh in intros ? ? H; exact H]
    | progress cbv zeta ].
Ltac stable := repeat stable_step.

Section Invariant.
Context {K : Kernel} {KL : KernelLaws K} (HK : pid_laws K).
(** Nothing here depends on which table an interface has. *)
#[local] Instance unsteady : Steady := False.
#[local] Instance no_index : Interfaces := fun _ => 0.
#[local] Instance unsteady_keeps : KeepsIndices K := never_steady K no_index.

Record invariant (s : t) (tr : trace) : Prop := {
  inv_networks : nc_ok (sNetCtrl s);
  inv_tables : cached_ok (NatController.routes (sNatCtrl s));
  inv_bandwidth : BandwidthSpec.invariant (sBandwidthCtrl s);
  inv_tether : TetherController.inv
    (ClatdController.believed (sClatdCtrl s) ++ PppController.believed (sPppCtrl s) ++
     SoftapController.believed (sSoftapCtrl s)) (sTetherCtrl s) tr;
  inv_clatd : map_Forall (fun _ pid => 0 < pid) (ClatdController.mClatdPids (sClatdCtrl s))
}.

Abbreviation preserves := (keeps invariant).
Abbreviation preservesC := (keepsC invariant).

(** *** The code of a controller inside the daemon *)

Lemma permitted_childless dom e : permitted dom e -> childless e.
Proof. by destruct e. Qed.

Lemma childless_children evs tr : Forall childless evs -> children (tr ++ evs) = children tr.
Proof.
  induction evs as [|e evs IH] using rev_ind; [by rewrite app_nil_r|].
  rewrite Forall_app, Forall_singleton. intros [H1 H2]. rewrite app_assoc, children_childless; auto.
Qed.

(** A call that is not about children. *)
Lemma invariant_childless s tr evs : Forall childless evs -> invariant s tr -> invariant s (tr ++ evs).
Proof.
  intros H%(childless_children _ tr) [H1 H2 H3 [[Hc Hp] Hf Hv Hu] H5].
  split; [done..| |done]. split; [split|..]; by rewrite ?H.
Qed.

(** What does not touch the fields the invariant is about. *)
Lemma preserves_part {T A} (get : t -> T) put (I : T -> Prop) (m : M T A) :
  (forall s tr, invariant s tr -> I (get s)) ->
  (forall s tr x, invariant s tr -> I x -> invariant (put x s) tr) ->
  stable I m -> emits childless m ->
  preserves (zoom get put m).
Proof.
  intros Hget Hput Hm He s tr Hs. apply wp_zoom. specialize (He (get s) tr).
  specialize (Hm (get s) tr (Hget _ _ Hs)). unfold wp in *. destruct (m (get s) tr) as [[a x] tr'].
  destruct He as (evs & -> & He). by apply Hput, Hm; apply invariant_childless.
Qed.

Lemma permitted_emits {S A} dom (m : M S A) : emits (permitted dom) m -> emits childless m.
Proof. apply emits_mono. intros e. apply permitted_childless. Qed.

Lemma preserves_errno {A} (m : M Z A) : emits childless m -> preserves (on_errno m).
Proof.
  intros Hm. apply (preserves_part _ _ (fun _ => True)); try done; last first.
  - intros x tr _. unfold wp. by destruct (m x tr) as [[? ?] ?].
  - intros s tr x [H1 H2 H3 H4 H5] _. by split.
Qed.

Lemma preserves_nat {A} dom (m : M NatController.t A) :
  stable (fun x => cached_ok (NatController.routes x)) m ->
  emits (permitted dom) m -> preserves (on_nat m).
Proof.
  intros Hm He%permitted_emits. apply (preserves_part _ _ (fun x => cached_ok (NatController.routes x))); try done.
  - by intros s tr [].
  - intros s tr x [H1 H2 H3 H4 H5] Hx. by split.
Qed.

Lemma preserves_net {A} dom (m : M NCState A) :
  stable (fun x => nc_ok x.1 /\ cached_ok x.2) m ->
  emits (permitted dom) m -> preserves (on_net m).
Proof.
  intros Hm He%permitted_emits. apply (preserves_part _ _ (fun x => nc_ok x.1 /\ cached_ok x.2)); try done.
  - by intros s tr [].
  - intros s tr x [H1 H2 H3 H4 H5] [? ?]. by split.
Qed.

Lemma preserves_bandwidth (c : BandwidthSpec.call) : preserves (on_bandwidth (BandwidthSpec.run_call c)).
Proof.
  apply (preserves_part _ _ BandwidthSpec.invariant).
  - by intros s tr [].
  - intros s tr x [H1 H2 H3 H4 H5] Hx. by split.
  - intros x tr. apply BandwidthSpec.keeps_call.
  - eapply permitted_emits, emits_bandwidth.
Qed.

Lemma preserves_tether {A} (m : M TetherController.t A) : TetherController.safe m -> preserves (on_tether m).
Proof.
  intros Hm s tr [H1 H2 H3 H4 H5]. apply wp_zoom. eapply wp_mono; [by apply Hm|]. cbn. intros _ x tr' Hx. by split.
Qed.

Lemma preserves_clatd {A} (m : M ClatdController.t A) : ClatdController.safe m -> preserves (on_clatd m).
Proof.
  intros Hm s tr [H1 H2 H3 [H4 Hf Hv Hu] H5]. apply owns_swap in H4. apply wp_zoom.
  eapply wp_mono; [apply Hm; split; [exact H4|exact H5]|]. cbn. intros _ x tr' [Ho%owns_swap Hp]. split; [done..|by split|done].
Qed.

(** The children of one controller in front. *)
Lemma owns_front (l1 l2 l3 known : list (string * Z)) tr :
  owns (l1 ++ l2 ++ l3) known tr <-> owns (known ++ l1 ++ l3) l2 tr.
Proof.
  assert (l1 ++ l2 ++ l3 ≡ₚ l2 ++ l1 ++ l3) as -> by by rewrite !(assoc_L app), (Permutation_app_comm l1).
  apply owns_swap.
Qed.

Lemma preserves_ppp {A} (m : M PppController.t A) : PppController.safe m -> preserves (on_ppp m).
Proof.
  intros Hm s tr [H1 H2 H3 [H4 Hf Hv Hu] H5]. rewrite owns_front in H4. apply wp_zoom.
  eapply wp_mono; [apply Hm, H4|]. cbn. intros _ x tr' Ho%owns_front. split; [done..|by split|done].
Qed.

Lemma preserves_softap {A} (m : M SoftapController.t A) : SoftapController.safe m -> preserves (on_softap m).
Proof.
  intros Hm s tr [H1 H2 H3 [H4 Hf Hv Hu] H5].
  rewrite (assoc_L app), <-(app_nil_r (SoftapController.believed _)) in H4. rewrite owns_front in H4. apply wp_zoom.
  eapply wp_mono; [apply Hm, H4|]. cbn. intros _ x tr' Ho%owns_front.
  rewrite app_nil_r, <-(assoc_L app) in Ho. split; [done..|by split|done].
Qed.

(** Code that changes nothing but the trace. *)
Lemma preserves_inert {A} (m : M t A) : emits childless m -> (forall s, stable (eq s) m) -> preserves m.
Proof.
  intros He Hm s tr Hs. specialize (He s tr). specialize (Hm s s tr eq_refl). unfold wp in *.
  destruct (m s tr) as [[a s'] tr']. destruct He as (evs & -> & He). subst. by apply invariant_childless.
Qed.

Lemma preserves_flag (f : t -> t) : (forall s tr, invariant s tr -> invariant (f s) tr) -> preserves (modify f).
Proof. intros Hf s tr Hs. by apply wp_modify, Hf. Qed.

(** *** NatController and NetworkController *)

Abbreviation tables_ok := (fun x => cached_ok (NatController.routes x)).

Lemma stable_tether add i e : no_nul i ->
  stable tables_ok (zoom NatController.routes NatController.set_routes (modifyTetheredNetwork (rule_type add) i e)).
Proof.
  intros Hi. apply (stable_zoom _ _ _ cached_ok); [done|done|]. intros s tr Hs.
  eapply wp_mono; [by apply (installs_tethering i e add Hi)|]. by intros ? ? ? [].
Qed.

Lemma stable_defaults : stable tables_ok NatController.setDefaults.
Proof. unfold NatController.setDefaults, orelse. cbn [NatController.run_table]. stable. Qed.

Lemma stable_forward add i e : stable tables_ok (NatController.setForwardRules add i e).
Proof.
  unfold NatController.setForwardRules, NatController.setTetherCountingRules, NatController.add_counter.
  cbv zeta. stable.
Qed.

Lemma stable_enableNat i e : no_nul i -> stable tables_ok (NatController.enableNat i e).
Proof.
  intros Hi. pose proof (stable_tether true i e Hi). pose proof stable_defaults. pose proof (stable_forward true i e).
  unfold NatController.enableNat. repeat first [assumption|stable_step].
Qed.

Lemma stable_disableNat i e : no_nul i -> stable tables_ok (NatController.disableNat i e).
Proof.
  intros Hi. pose proof (stable_tether false i e Hi). pose proof stable_defaults. pose proof (stable_forward false i e).
  unfold NatController.disableNat. repeat first [assumption|stable_step].
Qed.

Lemma stable_network argv : Forall no_nul argv ->
  stable (fun x : NCState => nc_ok x.1 /\ cached_ok x.2) (NetworkCommand.runCommand argv).
Proof.
  intros Hnul. unfold NetworkCommand.runCommand.
  destruct (parse_command argv) as [[msg|c failed]|] eqn:E; stable.
  intros [s r] tr [? ?]. by apply command_keeps_ok; [| |eapply parse_wf].
Qed.

(** *** The commands *)

Ltac inert := apply preserves_inert; [emits; exact I|intros ?; unfold orelse; stable].

Context {A : Ambient}.

Lemma preserves_interface argv : preservesC (InterfaceCmd.runCommand argv).
Proof.
  unfold InterfaceCmd.runCommand, InterfaceCmd.list_interfaces, InterfaceCmd.getcfg, InterfaceCmd.setcfg,
    InterfaceCmd.setting, send_result, syntax_error.
  assert (forall iface l, preservesC (InterfaceCmd.set_flags iface l)) as Hflags.
  { intros iface l. induction l as [|w l IH]; cbn [InterfaceCmd.set_flags]; repeat keeps_step; inert. }
  repeat keeps_step; auto; try solve [inert].
  all: apply preserves_errno, (permitted_emits mark_domain);
    auto using emits_setMtu, emits_setIPv6NdOffload, emits_setEnableIPv6, emits_setIPv6Privacy.
Qed.

Lemma preserves_list_ttys argv : preservesC (ListTtysCmd.runCommand argv).
Proof. unfold ListTtysCmd.runCommand. repeat keeps_step. apply preserves_ppp, PppController.safe_getTtyList. Qed.

Lemma preserves_softap_cmd argv : preservesC (SoftapCmd.runCommand argv).
Proof.
  unfold SoftapCmd.runCommand, SoftapCmd.finish, syntax_error.
  repeat keeps_step; apply preserves_softap;
    first [by apply SoftapController.safe_startSoftap|apply SoftapController.safe_stopSoftap
          |apply SoftapController.safe_fwReloadSoftap|apply SoftapController.safe_isSoftapStarted
          |apply SoftapController.safe_setSoftap].
Qed.

Lemma preserves_qsoftap_cmd argv : preservesC (QsoftapCmd.runCommand argv).
Proof.
  pose proof (preserves_softap_cmd argv).
  unfold QsoftapCmd.runCommand, QsoftapCmd.qccmd, QsoftapCmd.sap_sta_concurrency, QsoftapCmd.sta_assoc_complete_ind,
    QsoftapCmd.on_interface, QsoftapCmd.finish, send_result, syntax_error.
  repeat first [assumption|keeps_step];
    first [ apply preserves_softap;
            first [by apply SoftapController.safe_startSoftap|apply SoftapController.safe_stopSoftap
                  |apply SoftapController.safe_isSoftapStarted]
          | inert ].
Qed.

Ltac tether :=
  first
    [ as_tether_op; apply preserves_tether, TetherController.safe_run_op, HK
    | apply preserves_tether, TetherController.steady_safe;
      first [apply TetherController.steady_gets|unfold TetherController.getIpFwdEnabled; TetherController.steady] ].

Lemma preserves_ipfwd argv : preservesC (IpFwdCmd.runCommand argv).
Proof.
  unfold IpFwdCmd.runCommand, IpFwdCmd.set_flag, IpFwdCmd.is_iwlan, IpFwdCmd.finish, send_result, syntax_error.
  repeat keeps_step; try tether.
  all: apply preserves_flag; intros s tr [H1 H2 H3 H4 H5]; case_match; by split.
Qed.

Lemma preserves_tether_cmd argv : preservesC (TetherCmd.runCommand argv).
Proof.
  unfold TetherCmd.runCommand, TetherCmd.interface_cmd, TetherCmd.three_words, TetherCmd.finish, send_result,
    syntax_error.
  repeat keeps_step; tether.
Qed.

Lemma preserves_nat_cmd argv : Forall no_nul argv -> preservesC (NatCmd.runCommand argv).
Proof.
  intros Hnul. rewrite Forall_forall in Hnul. unfold NatCmd.runCommand, NatCmd.finish, send_result, syntax_error.
  repeat keeps_step; try (as_bw_call; apply preserves_bandwidth).
  - eapply preserves_nat; [apply stable_enableNat; auto|apply emits_enableNat].
  - eapply preserves_nat; [apply stable_disableNat; auto|apply emits_disableNat].
Qed.

Lemma preserves_pppd argv : preservesC (PppdCmd.runCommand argv).
Proof.
  unfold PppdCmd.runCommand, PppdCmd.with_addr, PppdCmd.finish, send_result, syntax_error.
  repeat keeps_step; apply preserves_ppp;
    first [apply PppController.safe_attachPppd, HK|apply PppController.safe_detachPppd].
Qed.

Lemma preserves_resolver argv : preservesC (ResolverCmd.runCommand argv).
Proof.
  unfold ResolverCmd.runCommand, ResolverCmd.setDnsServers, ResolverCmd.clearDnsServers,
    ResolverCmd.flushDnsCache, ResolverCmd.finish, send_result, syntax_error.
  repeat keeps_step; inert.
Qed.

Lemma preserves_idletimer argv : preservesC (IdletimerControlCmd.runCommand argv).
Proof.
  unfold IdletimerControlCmd.runCommand, IdletimerControlCmd.timer_command, send_result, syntax_error.
  repeat keeps_step; apply preserves_errno, (permitted_emits idletimer_domain);
    first [apply emits_idletimer_defaults|apply emits_idletimer].
Qed.

Lemma preserves_firewall argv : preservesC (FirewallCmd.runCommand argv).
Proof.
  unfold FirewallCmd.runCommand, FirewallCmd.generic, FirewallCmd.sendGenericOkFail, syntax_error.
  repeat keeps_step; apply preserves_errno, (permitted_emits fw_domain).
  - apply emits_enableFirewall.
  - apply emits_disableFirewall.
  - apply emits_ret.
  - exact (emits_call_rule (FirewallController.InterfaceRule a0) _).
  - exact (emits_call_rule (FirewallController.EgressSourceRule a0) _).
  - apply emits_bind; [|intros ?; apply emits_bind; [|intros; apply emits_ret]].
    + exact (emits_call_rule (FirewallController.EgressDestRule a0 FirewallCmd.PROTOCOL_TCP (atoi a1)) _).
    + exact (emits_call_rule (FirewallController.EgressDestRule a0 FirewallCmd.PROTOCOL_UDP (atoi a1)) _).
  - exact (emits_call_rule (FirewallController.UidRule (atoi a0)) _).
Qed.

Lemma preserves_clatd_cmd argv : preservesC (ClatdCmd.runCommand argv).
Proof.
  unfold ClatdCmd.runCommand, ClatdCmd.finish, send_result, syntax_error.
  repeat keeps_step; apply preserves_clatd.
  - apply ClatdController.safe_stopClatd.
  - apply ClatdController.safe_isClatdStarted.
  - apply ClatdController.safe_startClatd, HK.
Qed.

Lemma preserves_network argv : Forall no_nul argv -> preservesC (NetworkCmd.runCommand argv).
Proof.
  intros Hnul. unfold NetworkCmd.runCommand. repeat keeps_step.
  - eapply preserves_net; [by apply stable_network|].
    unfold NetworkCommand.runCommand. emits. apply emits_network_command.
  - by intros c tr Hc.
Qed.

Lemma preserves_bandwidth_cmd argv : preservesC (BandwidthControlCmd.runCommand argv).
Proof.
  assert (forall l op failed rc, (forall iface, preserves (on_bandwidth (op iface))) ->
    preservesC (BandwidthControlCmd.each_interface l op failed rc)) as Heach.
  { intros l op failed rc Hop. revert rc. induction l as [|iface l IH]; intros rc;
      cbn [BandwidthControlCmd.each_interface]; unfold BandwidthControlCmd.sendGenericOkFail;
      repeat keeps_step; auto. }
  assert (forall msgs, preservesC (BandwidthControlCmd.send_messages msgs)) as Hm.
  { induction msgs as [|[code text] msgs IH]; cbn [BandwidthControlCmd.send_messages]; repeat keeps_step; auto. }
  unfold BandwidthControlCmd.runCommand, BandwidthControlCmd.quota_commands, BandwidthControlCmd.app_commands,
    BandwidthControlCmd.alert_commands, BandwidthControlCmd.with_argc, BandwidthControlCmd.min_argc,
    BandwidthControlCmd.happybox, BandwidthControlCmd.gettetherstats, BandwidthControlCmd.sendGenericSyntaxError,
    BandwidthControlCmd.generic, BandwidthControlCmd.send_quota, BandwidthControlCmd.sendGenericOpFailed,
    BandwidthControlCmd.sendGenericOkFail, TetherStats.getTetherStats,
    BandwidthController.getInterfaceSharedQuota, BandwidthController.getInterfaceQuota.
  repeat keeps_step; auto.
  all: try (apply Heach; intros ?).
  all: first
    [ as_bw_call; apply preserves_bandwidth
    | apply preserves_inert; [emits|intros s];
      first
        [ solve [stable]
        | apply (stable_zoom _ _ _ (eq (sBandwidthCtrl s))); [by intros ? <-|intros ? ? <- <-; by destruct s|stable] ] ].
Qed.

Lemma preserves_route argv : preservesC (QcRouteCmd.runCommand argv).
Proof.
  unfold QcRouteCmd.runCommand, QcRouteCmd.src_replace, QcRouteCmd.src_del, QcRouteCmd.def_replace,
    QcRouteCmd.def_add, QcRouteCmd.dst_add, QcRouteCmd.dst_del, QcRouteCmd.check_rid, QcRouteCmd.check_iface,
    QcRouteCmd.check_ip, QcRouteCmd.with_gateway, QcRouteCmd.isValidIface, QcRouteCmd.report, syntax_error.
  repeat keeps_step;
    unfold QcRouteController.repSrcRoute, QcRouteController.addDstRoute, QcRouteController.delSrcRoute,
    QcRouteController.replaceDefRoute, QcRouteController.addDefRoute, QcRouteController.delDstRoute,
    QcRouteController.if_empty, QcRouteController.delHostRoute, QcRouteController.flushCache,
    QcRouteController.repDefRoute, QcRouteController.delDefRoute, QcRouteController.addRule,
    QcRouteController.delRule, QcRouteController.runIpCmd; inert.
Qed.

Lemma preserves_dispatch argv m : Forall no_nul argv -> dispatch argv = Some m -> preservesC m.
Proof.
  intros Hnul (name & args & f & -> & Hf & ->)%dispatch_find.
  apply (registered_all (fun _ f => forall argv, Forall no_nul argv -> preservesC (f argv)) name f Hf);
    auto using preserves_interface, preserves_ipfwd, preserves_tether_cmd, preserves_nat_cmd, preserves_list_ttys,
      preserves_pppd, preserves_softap_cmd, preserves_qsoftap_cmd, preserves_bandwidth_cmd, preserves_idletimer, preserves_resolver, preserves_firewall,
      preserves_clatd_cmd, preserves_network, preserves_route.
Qed.

(** *** The start *)

Lemma preserves_create_all calls : preserves (create_all calls).
Proof.
  induction calls as [|[[[target table] parent] l] calls IH]; cbn [create_all]; [by intros s tr Hs|].
  apply daemon_keeps_bind; [clear IH|done]. induction l as [|child l IH]; cbn [createChildChains]; [by intros s tr Hs|].
  apply daemon_keeps_bind; [clear IH|done]. unfold createChildChain, execIptables, execIptablesCommand. inert.
Qed.

Lemma preserves_construct : preserves construct.
Proof.
  unfold construct.
  apply daemon_keeps_bind; [|intros _].
  { eapply preserves_errno, permitted_emits, (emits_interface_construct mark_domain). }
  apply daemon_keeps_bind; [apply preserves_create_all|intros _].
  apply daemon_keeps_bind; [|intros _].
  { unfold setupOemIptablesHook, oemCleanupHooks, oemInitChains. inert. }
  apply daemon_keeps_bind; [apply preserves_errno, (permitted_emits fw_domain), emits_ret|intros _].
  apply daemon_keeps_bind; [|intros _].
  { eapply preserves_nat; [|apply emits_nat_setup]. pose proof stable_defaults.
    unfold NatController.setupIptablesHooks, orelse. cbn [NatController.run_table].
    repeat first [assumption|stable_step]. }
  apply daemon_keeps_bind; [apply (preserves_bandwidth BandwidthSpec.SetupIptablesHooks)|intros _].
  apply daemon_keeps_bind; [apply preserves_errno, (permitted_emits idletimer_domain), emits_ret|intros _].
  apply daemon_keeps_bind; [apply (preserves_bandwidth (BandwidthSpec.EnableBandwidthControl false))|intros _].
  apply daemon_keeps_bind; [|intros _; by intros s tr Hs].
  eapply preserves_net; [|apply emits_zoom, emits_Init].
  apply (stable_zoom _ _ _ cached_ok); [by intros ? []|by intros ? ? []|]. intros s tr Hs.
  eapply wp_mono; [apply (installs_Init LOCAL_NET_ID); [unfold netId_fits, LOCAL_NET_ID; lia|exact Hs]|]. by intros ? ? ? [].
Qed.

Lemma invariant_init mem : zeroed mem -> invariant (init mem) [].
Proof.
  intros [Hr Hb]. unfold init. rewrite Hb. split; cbn; try done.
  - apply nc_ok_init.
  - split; cbn; try done; constructor.
  - rewrite Hr. split; cbn; try done; [|constructor]. split; cbn; [done|constructor].
Qed.

Lemma listening_invariant s tr : listening s tr -> invariant s tr.
Proof.
  induction 1 as [mem s tr Hz Hrun|argv m s tr s' sent' tr' _ IH Hnul Hm Hrun].
  - exact (wp_run _ _ _ _ _ _ _ Hrun (preserves_construct _ _ (invariant_init mem Hz))).
  - exact (wp_run _ _ _ _ _ _ _ Hrun (preserves_dispatch argv m Hnul Hm (Conn s []) tr IH)).
Qed.
End Invariant.

(** ** Properties *)

(** The start on zeroed memory, and commands after it. *)
Definition zero_memory : memory := Memory 0 0 0 0 (0, 0, 0, 0).
Definition boot_and_run {K : Kernel} {A : Ambient} (cmds : list (list string)) : option (t * trace) :=
  let '(_, s, tr) := construct (init zero_memory) [] in run_all cmds s tr.

Lemma listening_boot {K : Kernel} {A : Ambient} cmds s tr :
  Forall (Forall no_nul) cmds -> boot_and_run cmds = Some (s, tr) -> listening s tr.
Proof.
  unfold boot_and_run. destruct (construct (init zero_memory) []) as [[[] s0] tr0] eqn:E. intros Hnul.
  apply listening_run_all; [|done]. by apply (listening_start zero_memory).
Qed.

(** C5. The daemon keeps its books, if the members its constructors do not set were 0
    ([zeroed]: otherwise the first command may already kill a process that is not
    its own).  Then, after its start and any text commands, whatever the kernel
    replied, the children that run are exactly those the controllers know, at most one
    dnsmasq, one router advertisement daemon, one pppd and one hostapd and at most one
    clatd an interface, each under a pid of its own; the invariants of the networks, the
    quotas and tethering hold, and the tables of the cached indices are 32-bit
    numbers. *)
Theorem daemon_invariant {K : Kernel} {KL : KernelLaws K} {A : Ambient} s tr :
  pid_laws K -> listening s tr ->
  children tr ≡ₚ known_children s /\ NoDup (map snd (known_children s)) /\
  nc_ok (sNetCtrl s) /\ tables_fit (NatController.routes (sNatCtrl s)) /\
  BandwidthSpec.invariant (sBandwidthCtrl s) /\
  (TetherController.mDaemonPid (sTetherCtrl s) = 0 <-> TetherController.mDaemonFd (sTetherCtrl s) = -1) /\
  Forall (fun n => isIfaceName n = true) (TetherController.mInterfaces (sTetherCtrl s)) /\
  NoDup (TetherController.mUpstreamInterfaces (sTetherCtrl s)).
Proof.
  intros HK Hs. destruct (listening_invariant HK s tr Hs) as [H1 H2 H3 [[H4 H5] H6 H7 H8] _].
  split_and!; try done. intros name table Hn. by destruct (H2 name table Hn). Qed.

(** Tethering and an IPv4-over-IPv6 translator. *)
Definition sample_session : list (list string) :=
  [["network"; "create"; "100"]; ["network"; "interface"; "add"; "100"; "wlan0"];
   ["clatd"; "start"; "wlan0"]; ["tether"; "interface"; "add"; "usb0"];
   ["tether"; "start"; "192.168.42.1"; "192.168.42.254"]; ["unknown"]].

Definition sample_result : t * trace :=
  default (init zero_memory, []) (boot_and_run (K:=good_kernel) (A:=sample_ambient) sample_session).

Lemma sample_session_run :
  boot_and_run (K:=good_kernel) (A:=sample_ambient) sample_session =
  Some (sample_result.1, sample_result.2).
Proof. vm_compute. reflexivity. Qed.

Lemma daemon_invariant_witness :
  let s := sample_result.1 in let tr := sample_result.2 in
  children tr = [("/system/bin/clatd", 101); ("/system/bin/dnsmasq", 102)] /\
  children tr ≡ₚ known_children s /\ NoDup (map snd (known_children s)) /\
  nc_ok (sNetCtrl s) /\ tables_fit (NatController.routes (sNatCtrl s)) /\
  BandwidthSpec.invariant (sBandwidthCtrl s) /\
  (TetherController.mDaemonPid (sTetherCtrl s) = 0 <-> TetherController.mDaemonFd (sTetherCtrl s) = -1) /\
  Forall (fun n => isIfaceName n = true) (TetherController.mInterfaces (sTetherCtrl s)) /\
  NoDup (TetherController.mUpstreamInterfaces (sTetherCtrl s)).
Proof.
  split; [vm_compute; reflexivity|].
  apply (daemon_invariant (K:=good_kernel) (A:=sample_ambient) sample_result.1 sample_result.2 sample_pid_laws).
  apply (listening_boot (K:=good_kernel) (A:=sample_ambient) sample_session sample_result.1 sample_result.2);
    [|exact sample_session_run].
  unfold no_nul. apply (bool_decide_unpack _). vm_compute. exact I.
Defined.
