(* ===== verification/ListenerChains.v ===== *)
(** * ListenerChains: who owns which iptables chain

    The constructor of [CommandListener] hooks one chain of each controller into
    the chains of the kernel, in an order that its comments explain; a controller
    is to touch only its own.  Here: that order is what the start leaves, whatever
    an earlier daemon left; nothing later changes it; and a firewall that has been
    enabled stays closed under every other command. *)
From S2P Require Import Prelude Platform Cstd Fwmark UidRanges Children Netlink.
From S2P Require Import NetdConstants Ledger Iptables RouteController RouteSpec Networks NetworkSpec.
From S2P Require Import NetworkController ControllerSpec Daemon NetworkCommand SampleKernel.
From S2P Require Import FirewallController NatController IdletimerController BandwidthController BandwidthSpec.
From S2P Require Import TetherStats TetherController ClatdController PppController SoftapController.
From S2P Require Import InterfaceController.
From S2P Require Import QcRouteController CommandListener Commands Footprint ListenerSpec ListenerReplies ListenerInvariant.

Definition is_iptables (path : string) : Prop := path = IPTABLES_PATH \/ path = IP6TABLES_PATH.

(** ** Chains that code leaves alone *)

Section Owners.
Context {K : Kernel}.

(** Code that stays on other chains. *)
Lemma emits_chain {S B} (dom : domain) (m : M S B) c rs :
  emits (lawful dom) m -> is_iptables (cn_path c) -> dom (cn_table c) (cn_name c) = false ->
  forall s tr, wp m (fun _ _ tr' => replay c rs (acked tr') = replay c rs (acked tr)) s tr.
Proof.
  intros Hm Hp Hd s tr. eapply wp_mono; [apply Hm|]. cbn. intros _ _ tr' (evs & -> & He).
  rewrite acked_app, replay_app. by apply (lawful_chain dom).
Qed.

Context {A : Ambient}.

(** Any commands whose families do not own the chain. *)
Lemma run_all_chain cmds s tr s' tr' c rs :
  run_all cmds s tr = Some (s', tr') -> is_iptables (cn_path c) ->
  Forall (fun argv => family_domain (default "" (head argv)) (cn_table c) (cn_name c) = false) cmds ->
  replay c rs (acked tr') = replay c rs (acked tr).
Proof.
  intros Hrun Hp Hd. revert s tr Hrun. induction Hd as [|argv cmds Hargv _ IH]; intros s tr; cbn [run_all].
  - by intros [= _ ->].
  - destruct (dispatch argv) as [m|] eqn:Em; [|apply IH].
    destruct (m (Conn s []) tr) as [[[[]|] c1] tr1] eqn:E; [|done]. intros ->%IH.
    destruct argv as [|name args]; [done|].
    exact (wp_run _ _ _ _ _ _ _ E (emits_chain _ _ c rs (owned_dispatch _ _ _ Em) Hp Hargv (Conn s []) tr)).
Qed.
End Owners.

(** ** The hooks of the start *)

(** Does a target run the program? *)
Definition targeted (target : IptablesTarget) (path : string) : bool :=
  match target with
  | V4 => path == IPTABLES_PATH
  | V6 => path == IP6TABLES_PATH
  | V4V6 => true
  end.

Definition jump (child : string) : iprule := ["-j"; child].

(** A hook that is put last, once. *)
Definition hooked (child : string) (rs : list iprule) : list iprule := remove_first (jump child) rs ++ [jump child].

Section Start.
Context {K : Kernel}.
(** The rules that each chain had when the daemon was started. *)
Context (rs0 : chain_name -> list iprule).

Definition rules (c : chain_name) (tr : trace) : list iprule := replay c (rs0 c) (acked tr).

(** What is relied on of iptables: a jump to a chain that was just created is
    added, and one that is there is deleted. *)
Definition hooks_work : Prop := forall target table parent l child path tr,
  (target, table, parent, l) ∈ child_chain_calls -> child ∈ l -> is_iptables path ->
  exec_ok (k_exec tr [path; "-w"; "-t"; table; "-A"; parent; "-j"; child]) = true /\
  (jump child ∈ rules (Chain path table parent) tr ->
   exec_ok (k_exec tr [path; "-w"; "-t"; table; "-D"; parent; "-j"; child]) = true).

Lemma rules_exec c tr argv r :
  rules c (tr ++ [EvExec argv r]) = if exec_ok r then run_argv c (rules c tr) argv else rules c tr.
Proof. unfold rules. rewrite acked_exec. destruct (exec_ok r); [|done]. by rewrite replay_app. Qed.

(** What [execIptables] does to one chain. *)
Lemma wp_exec_chain {S} target args c (Q : Z -> S -> trace -> Prop) (s : S) tr :
  is_iptables (cn_path c) ->
  (forall ret tr1 tr', rules c tr1 = rules c tr ->
    rules c tr' = (if targeted target (cn_path c) && exec_ok (k_exec tr1 (cn_path c :: args))
                   then run_argv c (rules c tr) (cn_path c :: args) else rules c tr) -> Q ret s tr') ->
  wp (execIptables target args) Q s tr.
Proof.
  intros Hp HQ.
  assert (forall path s tr, wp (S:=S) (execIptablesCommand (path :: args))
    (fun _ s' tr' => s' = s /\ tr' = tr ++ [EvExec (path :: args) (k_exec tr (path :: args))]) s tr) as Hx.
  { intros path s1 tr1. unfold execIptablesCommand. apply wp_bind. unfold sys_exec, wp at 1. by apply wp_ret. }
  assert (forall path tr, path <> cn_path c ->
    rules c (tr ++ [EvExec (path :: args) (k_exec tr (path :: args))]) = rules c tr) as Hother.
  { intros path tr1 Hne. rewrite rules_exec, run_argv_other_path by done. by case_match. }
  assert (IPTABLES_PATH <> IP6TABLES_PATH) as Hne by done.
  unfold execIptables. destruct target;
    repeat first [apply wp_bind|apply wp_ret|eapply wp_mono; [apply Hx|]; intros ? ? ? [-> ->]]; cbn [targeted].
  - apply (HQ _ tr); [done|]. destruct Hp as [Hp|Hp]; rewrite Hp in *; cbn -[run_argv]; [apply rules_exec|by apply Hother].
  - apply (HQ _ tr); [done|]. destruct Hp as [Hp|Hp]; rewrite Hp in *; cbn -[run_argv]; [by apply Hother|apply rules_exec].
  - destruct Hp as [Hp|Hp]; rewrite Hp in *; cbn -[run_argv].
    + apply (HQ _ tr); [done|]. rewrite Hother by done. apply rules_exec.
    + eapply HQ; [by apply Hother|]. rewrite rules_exec. by rewrite !Hother.
Qed.

(** The effect of one child on a chain, and of several. *)
Definition hook (c : chain_name) (target : IptablesTarget) (table parent : string) (rs : list iprule) (child : string)
    : list iprule :=
  if targeted target (cn_path c) && bool_decide (c = Chain (cn_path c) table parent) then hooked child rs else rs.

Lemma run_argv_word c rs path table op chain words o :
  parse_op (op :: chain :: words) = Some (chain, o) ->
  run_argv c rs (path :: "-w" :: "-t" :: table :: op :: chain :: words) =
  if decide (c = Chain path table chain) then run_op o rs else rs.
Proof. intros Ho. unfold run_argv. cbn -[parse_op]. by rewrite Ho. Qed.

Lemma wp_createChildChain {S} target table parent l child c (Q : unit -> S -> trace -> Prop) (s : S) tr :
  hooks_work -> (target, table, parent, l) ∈ child_chain_calls -> child ∈ l ->
  is_iptables (cn_path c) -> cn_name c <> child ->
  (forall tr', rules c tr' = hook c target table parent (rules c tr) child -> Q tt s tr') ->
  wp (createChildChain target table parent child) Q s tr.
Proof.
  intros Hw Hcall Hchild Hp Hne HQ. unfold createChildChain.
  assert (c <> Chain (cn_path c) table child) as Hc by (intros Hc; apply Hne; by rewrite Hc).
  apply wp_bind, (wp_exec_chain _ _ c); [done|]. intros r1 tr1 tr2 E1 E2.
  erewrite run_argv_word in E2 by reflexivity.
  assert (forall w x t1 t2,
    parse_op [w; child] = Some (child, OpClear) ->
    rules c t2 = (if targeted target (cn_path c) && exec_ok (k_exec t1 (cn_path c :: ["-w"; "-t"; table; w; child]))
                  then run_argv c x (cn_path c :: ["-w"; "-t"; table; w; child]) else x) ->
    rules c t2 = x) as Hother.
  { intros w x t1 t2 Ho ->. rewrite (run_argv_word _ _ _ _ _ _ _ _ Ho), decide_False by done.
    match goal with |- (if ?b then _ else _) = _ => by destruct b end. }
  apply wp_bind, (wp_exec_chain _ _ c); [done|]. intros r2 tr3 tr4 _ E4%Hother; [|done].
  apply wp_bind, (wp_exec_chain _ _ c); [done|]. intros r3 tr5 tr6 _ E6%Hother; [|done].
  apply wp_bind, (wp_exec_chain _ _ c); [done|]. intros r4 tr7 tr8 _ E8%Hother; [|done].
  apply wp_bind, (wp_exec_chain _ _ c); [done|]. intros r5 tr9 tr10 _ E10.
  erewrite run_argv_word in E10 by reflexivity. rewrite E8, E6, E4 in E10.
  apply wp_ret, HQ. rewrite E10, E2. unfold hook, hooked.
  destruct (targeted target (cn_path c)); [|done]. cbn [andb].
  destruct (Hw _ _ _ _ _ _ tr9 Hcall Hchild Hp) as [-> _]. destruct (Hw _ _ _ _ _ _ tr1 Hcall Hchild Hp) as [_ Hdel].
  destruct (decide (c = Chain (cn_path c) table parent)) as [Heq|Hn]; last first.
  { rewrite bool_decide_eq_false_2 by done. match goal with |- (if ?b then _ else _) = _ => by destruct b end. }
  rewrite bool_decide_eq_true_2 by done. rewrite <-Heq, E1 in Hdel. cbn [run_op].
  destruct (exec_ok (k_exec tr1 _)); [done|]. rewrite remove_first_notin; [done|]. by intros ?%Hdel.
Qed.

Lemma wp_createChildChains {S} target table parent l l' c (Q : unit -> S -> trace -> Prop) (s : S) tr :
  hooks_work -> (target, table, parent, l) ∈ child_chain_calls -> l' ⊆ l ->
  is_iptables (cn_path c) -> cn_name c ∉ l' ->
  (forall tr', rules c tr' = foldl (hook c target table parent) (rules c tr) l' -> Q tt s tr') ->
  wp (createChildChains target table parent l') Q s tr.
Proof.
  intros Hw Hcall Hsub Hp Hne. revert tr. induction l' as [|child l' IH]; intros tr HQ; cbn [createChildChains].
  - by apply wp_ret, HQ.
  - apply not_elem_of_cons in Hne as [Hne1 Hne2].
    apply wp_bind. eapply wp_createChildChain; [done|done|apply Hsub; by left|done|done|]. intros tr1 E1.
    apply IH; [|done|]. { intros x Hx. apply Hsub. by right. }
    intros tr' E'. apply HQ. by rewrite E', E1.
Qed.

(** The effect of all the calls of the constructor. *)
Definition all_hooks (c : chain_name) (rs : list iprule) (calls : list (IptablesTarget * string * string * list string))
    : list iprule :=
  foldl (fun rs '(target, table, parent, l) => foldl (hook c target table parent) rs l) rs calls.

Lemma wp_create_all {S} calls c (Q : unit -> S -> trace -> Prop) (s : S) tr :
  hooks_work -> calls ⊆ child_chain_calls -> is_iptables (cn_path c) ->
  Forall (fun call : IptablesTarget * string * string * list string => cn_name c ∉ call.2) calls ->
  (forall tr', rules c tr' = all_hooks c (rules c tr) calls -> Q tt s tr') ->
  wp (create_all calls) Q s tr.
Proof.
  intros Hw Hsub Hp Hne. revert tr. induction Hne as [|[[[target table] parent] l] calls Hl _ IH]; intros tr HQ; cbn [create_all].
  - by apply wp_ret, HQ.
  - apply wp_bind. eapply wp_createChildChains; [done|apply Hsub; by left|done|done|done|]. intros tr1 E1.
    apply IH. { intros x Hx. apply Hsub. by right. }
    intros tr' E'. apply HQ. by rewrite E', E1.
Qed.

(** The hooks at the end, in the order of the table; the other rules as they were. *)
Definition with_hooks (l : list string) (rs : list iprule) : list iprule :=
  filter (fun r => r ∉ map jump l) rs ++ map jump l.

Lemma remove_first_filter r (rs : list iprule) : cnt r rs <= 1 -> remove_first r rs = filter (fun x => x <> r) rs.
Proof.
  induction rs as [|x rs IH]; intros Hc; [done|]. rewrite cnt_cons in Hc. cbn [remove_first].
  pose proof (cnt_nonneg r rs). destruct (decide (r = x)) as [<-|Hne].
  - rewrite filter_cons_False by tauto. symmetry. apply filter_all. intros x Hx ->.
    apply cnt_elem_of in Hx. lia.
  - rewrite filter_cons_True by done. by rewrite IH by lia.
Qed.

Lemma cnt_filter_le (x : iprule) (P : iprule -> Prop) `{forall r, Decision (P r)} rs : cnt x (filter P rs) <= cnt x rs.
Proof.
  induction rs as [|y rs IH]; [done|]. rewrite filter_cons. case_decide; rewrite !cnt_cons; case_decide; lia.
Qed.

Lemma hooked_in_order l rs :
  NoDup l -> (forall child, child ∈ l -> cnt (jump child) rs <= 1) ->
  foldl (fun rs child => hooked child rs) rs l = with_hooks l rs.
Proof.
  intros Hl. revert rs. induction Hl as [|child l Hn _ IH]; intros rs Hc; cbn [foldl].
  - unfold with_hooks. cbn. rewrite app_nil_r. symmetry. apply filter_all. intros r _. apply not_elem_of_nil.
  - unfold hooked at 2. rewrite remove_first_filter by (apply Hc; by left).
    assert (forall x, x ∈ l -> jump x <> jump child) as Hj by (intros x Hx [= ->]; done).
    rewrite IH.
    + unfold with_hooks. rewrite filter_app, <-(assoc_L app). cbn. f_equal.
      * rewrite list_filter_filter. apply list_filter_iff. intros r. rewrite not_elem_of_cons. tauto.
      * rewrite decide_True; [done|]. intros (x & Hx & Hin)%list_elem_of_fmap. by apply (Hj x Hin).
    + intros x Hx. rewrite cnt_app, cnt_cons, cnt_nil, decide_False by auto.
      pose proof (cnt_filter_le (jump x) (fun r => r <> jump child) rs). specialize (Hc x). 
      rewrite elem_of_cons in Hc. specialize (Hc (or_intror Hx)). lia.
Qed.

Lemma own_hooks target table parent l path rs :
  (target, table, parent, l) ∈ child_chain_calls -> is_iptables path -> targeted target path = true ->
  all_hooks (Chain path table parent) rs child_chain_calls = foldl (fun rs child => hooked child rs) rs l /\
  NoDup l /\
  Forall (fun call : IptablesTarget * string * string * list string => parent ∉ call.2) child_chain_calls.
Proof.
  intros Hcall Hp Ht. unfold child_chain_calls in Hcall.
  repeat (apply elem_of_cons in Hcall as [[= -> -> -> ->]|Hcall]);
    [destruct Hp as [-> | ->]; [|try (by vm_compute in Ht)]..|by apply not_elem_of_nil in Hcall];
    (split_and!; [vm_compute; reflexivity|apply (bool_decide_unpack _); vm_compute; exact I
                 |apply (bool_decide_unpack _); vm_compute; exact I]).
Qed.

(** What the constructor does after the hooks, and any command, stays off the
    chains that are hooked into. *)
Definition later_domain : domain := fun table name =>
  prefix_domain "oem_" table name || fw_domain table name || natctrl_domain table name ||
  bw_domain table name || idletimer_domain table name || mark_domain table name.

Lemma hooked_chain_owners target table parent l name :
  (target, table, parent, l) ∈ child_chain_calls ->
  later_domain table parent = false /\ family_domain name table parent = false.
Proof.
  intros Hcall. unfold child_chain_calls in Hcall.
  repeat (apply elem_of_cons in Hcall as [[= -> -> -> ->]|Hcall]); [..|by apply not_elem_of_nil in Hcall];
    (split; [vm_compute; reflexivity|unfold family_domain; by repeat case_match]).
Qed.

Lemma emits_oem {S} : emits (S:=S) (lawful later_domain) setupOemIptablesHook.
Proof. unfold setupOemIptablesHook, oemCleanupHooks, oemInitChains. emits; first [on_chain_of|exact I]. Qed.

Local Ltac later := let H := fresh in intros table name H; unfold later_domain; rewrite H, ?orb_true_r; reflexivity.

Lemma construct_chain mem s tr c :
  hooks_work -> construct (init mem) [] = (tt, s, tr) -> is_iptables (cn_path c) ->
  Forall (fun call : IptablesTarget * string * string * list string => cn_name c ∉ call.2) child_chain_calls ->
  later_domain (cn_table c) (cn_name c) = false ->
  rules c tr = all_hooks c (rs0 c) child_chain_calls.
Proof.
  intros Hw Hrun Hp Hne Hd.
  assert (forall {B} (m : M t B) s tr, emits (lawful later_domain) m -> wp m (fun _ _ tr' => rules c tr' = rules c tr) s tr) as Hrest.
  { intros B m s1 tr1 Hm. by apply (emits_chain later_domain). }
  assert (forall {T B} (get : t -> T) put d (m : M T B), emits (permitted d) m ->
    (forall table name, d table name = true -> later_domain table name = true) -> emits (lawful later_domain) (zoom get put m)) as Hpart.
  { intros. by eapply emits_part. }
  refine (wp_run _ (fun _ _ tr => rules c tr = all_hooks c (rs0 c) child_chain_calls) _ _ _ _ _ Hrun _).
  apply wp_bind. eapply wp_mono.
  { apply Hrest, (Hpart _ _ _ _ mark_domain); [apply emits_interface_construct|].
    later. }
  cbn beta. intros _ s1 tr1 E1. apply wp_bind. eapply wp_create_all; [done|done|done|done|]. intros tr2 E2.
  eapply wp_mono; [apply Hrest|cbn beta; intros _ s3 tr3 ->; by rewrite E2, E1].
  apply emits_bind; [apply emits_oem|intros _].
  apply emits_bind; [apply (Hpart _ _ _ _ fw_domain); [apply emits_ret|later]|intros _].
  apply emits_bind; [apply (Hpart _ _ _ _ natctrl_domain); [apply emits_nat_setup|later]|intros _].
  apply emits_bind; [apply (Hpart _ _ _ _ bw_domain); [apply emits_bw_setup|later]|intros _].
  apply emits_bind; [apply (Hpart _ _ _ _ idletimer_domain); [apply emits_ret|later]|intros _].
  apply emits_bind; [apply (Hpart _ _ _ _ bw_domain); [apply emits_enableBandwidth|later]|intros _].
  apply emits_bind; [apply (Hpart _ _ _ _ mark_domain); [apply emits_zoom, emits_Init|later]|intros _].
  apply emits_ret.
Qed.
End Start.

(** ** The closed firewall *)

Section Firewall.
Context {K : Kernel} {A : Ambient}.
Context (path chain : string) (x : iprule) (Hx : FirewallController.last_rule chain = Some x).

Definition closed (tr : trace) : Prop := last (chain_rules (Chain path "filter" chain) tr) = Some x.

Lemma keeps_closed {B} (m : M Z B) :
  on_chain (Chain path "filter" chain) (fun _ rs => last rs = Some x) m (fun _ _ rs => last rs = Some x) ->
  keeps (fun _ => closed) (on_errno m).
Proof. intros Hm s tr Hs. apply wp_zoom. by apply Hm. Qed.

(** A rule command; [enable] and [disable] are not among them. *)
Lemma keeps_firewall argv :
  argv !! 1%nat <> Some "enable" -> argv !! 1%nat <> Some "disable" ->
  keepsC (fun _ => closed) (FirewallCmd.runCommand argv).
Proof.
  intros Hen Hdis.
  assert (forall c rule, keeps (fun _ => closed) (on_errno (FirewallController.call_rule c rule))) as Hrule.
  { intros c rule. by apply keeps_closed, FirewallController.call_rule_keeps. }
  unfold FirewallCmd.runCommand, FirewallCmd.generic, FirewallCmd.sendGenericOkFail, syntax_error.
  destruct (argc argv <? 2); [apply keepsC_send|]. apply keepsC_bind_lookup. intros a1 E1.
  destruct (a1 == "enable") eqn:E2; [apply String.eqb_eq in E2; congruence|].
  destruct (a1 == "disable") eqn:E3; [apply String.eqb_eq in E3; congruence|].
  repeat keeps_step.
  - by intros s1 tr1 H1.
  - apply (Hrule (FirewallController.InterfaceRule _)).
  - apply (Hrule (FirewallController.EgressSourceRule _)).
  - apply keeps_closed, FirewallController.on_chain_both.
    + by apply (FirewallController.call_rule_keeps _ _ _ _ (FirewallController.EgressDestRule _ _ _)).
    + by apply (FirewallController.call_rule_keeps _ _ _ _ (FirewallController.EgressDestRule _ _ _)).
  - apply (Hrule (FirewallController.UidRule _)).
Qed.

Lemma family_of_firewall name : name <> "firewall" -> family_domain name "filter" chain = false.
Proof.
  intros Hn. unfold FirewallController.last_rule in Hx. unfold family_domain.
  destruct (String.eqb_spec name "firewall") as [->|_]; [done|].
  destruct (String.eqb_spec chain FirewallController.LOCAL_INPUT) as [->|_]; [by repeat case_match|].
  destruct (String.eqb_spec chain FirewallController.LOCAL_OUTPUT) as [->|_]; [by repeat case_match|].
  destruct (String.eqb_spec chain FirewallController.LOCAL_FORWARD) as [->|_]; [by repeat case_match|done].
Qed.

Lemma keeps_closed_command argv m :
  is_iptables path -> dispatch argv = Some m ->
  take 2 argv <> ["firewall"; "enable"] -> take 2 argv <> ["firewall"; "disable"] ->
  keepsC (fun _ => closed) m.
Proof.
  intros Hp Hm Hen Hdis. destruct argv as [|name args]; [done|].
  destruct (decide (name = "firewall")) as [->|Hn].
  - injection Hm as <-. apply keeps_firewall; (destruct args as [|w args]; cbn; [done|]); intros [= ->]; done.
  - intros c tr Hc. eapply wp_mono.
    + by apply (emits_chain _ _ (Chain path "filter" chain) [] (owned_dispatch _ _ _ Hm) Hp (family_of_firewall name Hn)).
    + cbn beta. intros _ c' tr' E. unfold closed, chain_rules in *. cbn -[replay] in E. by rewrite E.
Qed.
End Firewall.

(** ** Properties *)


(** A chain with a rule of its own and a hook that an earlier daemon left. *)
Definition sample_rules (c : chain_name) : list iprule := [["-i"; "lo"; "-j"; "ACCEPT"]; jump "natctrl_FORWARD"].


(** C8. Once "firewall enable" has been answered 200, each chain of the firewall
    ends in its DROP or REJECT whatever other commands are run, of any family and
    failed ones included, until the next "firewall enable" or "firewall disable". *)
Theorem firewall_stays_closed {K : Kernel} {A : Ambient} path chain x s tr s1 r tr1 cmds s2 tr2 :
  is_iptables path -> FirewallController.last_rule chain = Some x ->
  FirewallCmd.runCommand ["firewall"; "enable"] (Conn s []) tr = (Some tt, Conn s1 [r], tr1) ->
  rp_code r = CommandOkay ->
  Forall (fun argv => take 2 argv <> ["firewall"; "enable"] /\ take 2 argv <> ["firewall"; "disable"]) cmds ->
  run_all cmds s1 tr1 = Some (s2, tr2) ->
  last (chain_rules (Chain path "filter" chain) tr2) = Some x.
Proof.
  intros Hp Hx Hen Hok Hcmds.
  assert (closed path chain x tr1) as H1.
  { revert Hen. change (FirewallCmd.runCommand ["firewall"; "enable"]) with
      (FirewallCmd.generic FirewallController.enableFirewall).
    unfold FirewallCmd.generic, FirewallCmd.sendGenericOkFail, sendMsg, mbind, C_bind, run, on_errno, zoom.
    cbn -[FirewallController.enableFirewall].
    pose proof (FirewallController.enableFirewall_last path chain x Hp Hx (errno s) tr) as He. unfold wp in He.
    destruct (FirewallController.enableFirewall (errno s) tr) as [[res e] tr']. cbn.
    destruct (res =? 0) eqn:E; cbn; intros Heq; simplify_eq. apply He. lia. }
  clear Hen. revert s1 tr1 H1. induction Hcmds as [|argv cmds [Ha Hb] _ IH]; intros s1 tr1 H1; cbn [run_all].
  - by intros [= _ <-].
  - destruct (dispatch argv) as [m|] eqn:Em; [|by apply IH].
    destruct (m (Conn s1 []) tr1) as [[[[]|] c'] tr'] eqn:E; [|done]. apply IH.
    exact (wp_run _ _ _ _ _ _ _ E (keeps_closed_command path chain x Hx argv m Hp Em Ha Hb (Conn s1 []) tr1 H1)).
Qed.

Definition enabled_run := FirewallCmd.runCommand (K:=good_kernel) ["firewall"; "enable"] (Conn (init zero_memory) []) [].
Definition other_commands : list (list string) :=
  [["firewall"; "set_uid_rule"; "10001"; "deny"]; ["bandwidth"; "enable"];
   ["firewall"; "set_interface_rule"; "wlan0"; "allow"]; ["network"; "create"; "100"]].
Definition closed_run : t * trace :=
  default (init zero_memory, [])
    (run_all (K:=good_kernel) (A:=sample_ambient) other_commands (daemon enabled_run.1.2) enabled_run.2).

Lemma firewall_stays_closed_witness :
  last (chain_rules (Chain IP6TABLES_PATH "filter" "fw_INPUT") closed_run.2) = Some ["-j"; "DROP"].
Proof.
  refine (firewall_stays_closed (K:=good_kernel) (A:=sample_ambient) IP6TABLES_PATH "fw_INPUT" ["-j"; "DROP"]
    (init zero_memory) [] (daemon enabled_run.1.2) (Reply CommandOkay "Firewall command succeeded" false)
    enabled_run.2 other_commands closed_run.1 closed_run.2 _ _ _ _ _ _).
  - by right.
  - reflexivity.
  - vm_compute. reflexivity.
  - reflexivity.
  - repeat constructor; discriminate.
  - vm_compute. reflexivity.
Defined.
