(* ===== verification/ShellSafety.v ===== *)
(** * ShellSafety: what the route commands give to the shell

    [QcRouteController] builds command lines from the words of the client and has
    a shell run them.  The checks of the [route] command are what keeps a client
    from running commands of its own. *)
From S2P Require Import Prelude Platform Cstd Fwmark UidRanges Children Netlink.
From S2P Require Import NetdConstants Ledger Iptables RouteController RouteSpec Networks NetworkSpec.
From S2P Require Import NetworkController ControllerSpec Daemon NetworkCommand SampleKernel.
From S2P Require Import FirewallController NatController IdletimerController BandwidthController BandwidthSpec.
From S2P Require Import TetherStats TetherController ClatdController PppController SoftapController.
From S2P Require Import InterfaceController.
From S2P Require Import QcRouteController CommandListener Commands Footprint ListenerSpec ListenerReplies.

(** Letters, digits, the blank that separates words, and signs without a meaning
    for the shell. *)
Definition harmless (c : ascii) : bool :=
  isalnum c || existsb (Ascii.eqb c) [" "; "."; ":"; "/"; "-"; "_"; "@"; "%"; "+"]%char.

Fixpoint plain (s : string) : bool :=
  match s with EmptyString => true | String c s => harmless c && plain s end.

(** The only white space in the text are blanks: it is on one line. *)
Fixpoint blanks_only (s : string) : bool :=
  match s with EmptyString => true | String c s => (negb (isspace c) || Ascii.eqb c " ") && blanks_only s end.

(** ** Plain texts *)

Lemma plain_app s1 s2 : plain (s1 +:+ s2) = plain s1 && plain s2.
Proof.
  induction s1 as [|c s1 IH]; [done|]. change (String c s1 +:+ s2) with (String c (s1 +:+ s2)).
  cbn. by rewrite IH, andb_assoc.
Qed.

Lemma plain_prefix n s : plain s = true -> plain (String.substring 0 n s) = true.
Proof.
  revert n. induction s as [|c s IH]; intros [|n]; try done. cbn.
  intros [-> H]%andb_true_iff. by apply IH.
Qed.

Lemma plain_digits fuel n acc : plain acc = true -> plain (print_digits fuel 10 n acc) = true.
Proof.
  revert n acc. induction fuel as [|fuel IH]; intros n acc Ha; [done|]. unfold print_digits; fold print_digits.
  assert (plain (String (digit_char (n mod 10)) acc) = true) as H.
  { cbn [plain]. rewrite Ha, andb_true_r. pose proof (Z.mod_pos_bound n 10 eq_refl) as Hb.
    generalize dependent (n mod 10). intros d Hd.
    assert (d = 0 \/ d = 1 \/ d = 2 \/ d = 3 \/ d = 4 \/ d = 5 \/ d = 6 \/ d = 7 \/ d = 8 \/ d = 9) as Hc by lia.
    by repeat (destruct Hc as [->|Hc]; [reflexivity|]); subst. }
  case_match; [done|by apply IH].
Qed.
Lemma plain_print_u n : plain (print_u n) = true.
Proof. by apply plain_digits. Qed.
Lemma plain_print_d n : plain (print_d n) = true.
Proof. unfold print_d. case_match; rewrite ?plain_app, ?plain_print_u; done. Qed.
Lemma plain_ntoa a : plain (TetherController.inet_ntoa a) = true.
Proof. unfold TetherController.inet_ntoa. by rewrite !plain_app, !plain_print_u. Qed.

(** A word that is a number up to its end. *)
Lemma plain_read_digits s acc v : read_digits 10 s acc = (v, "") -> plain s = true.
Proof.
  revert acc. induction s as [|c s IH]; intros acc; [done|]. cbn [read_digits].
  destruct (digit_val c) as [d|] eqn:E; [|done]. destruct (d <? 10) eqn:El; [|done]. intros Hr.
  cbn [plain]. rewrite (IH _ Hr), andb_true_r. unfold harmless, isalnum.
  enough (isdigit c = true) as -> by done. unfold digit_val in E.
  destruct (isdigit c); [done|]. repeat case_match; try done; unfold isupper, islower in *; simplify_eq; lia.
Qed.

Lemma read_base_10 s : read_base 10 s = (10, s).
Proof. destruct s as [|[[] [] [] [] [] [] [] []] [|x [|h s]]]; done. Qed.

Lemma plain_skip_spaces s : blanks_only s = true -> plain (skip_spaces s) = true -> plain s = true.
Proof.
  induction s as [|c s IH]; [done|]. cbn [skip_spaces blanks_only]. destruct (isspace c) eqn:E; [|done]. cbn.
  intros [->%Ascii.eqb_eq Hb]%andb_true_iff H. by rewrite (IH Hb H).
Qed.

Lemma plain_read_sign s : plain (read_sign s).2 = true -> plain s = true.
Proof. destruct s as [|[[] [] [] [] [] [] [] []] s]; done. Qed.

Lemma plain_strtol word rid end_ : blanks_only word = true -> strtol word 10 = (rid, end_) -> end_ = "" -> plain word = true.
Proof.
  intros Hb Hs ->. revert Hs. unfold strtol. destruct (read_integer 10 word) as [[[neg v] rest]|] eqn:E.
  - intros [= _ ->]. apply plain_skip_spaces, plain_read_sign; [done|]. unfold read_integer in E.
    destruct (read_sign (skip_spaces word)) as [neg' s1]. rewrite read_base_10 in E. cbn [snd].
    destruct s1 as [|c s1]; [done|]. destruct (is_digit_of 10 c); [|done].
    destruct (read_digits 10 (String c s1) 0) as [v' rest] eqn:Ed. injection E as <- <- ->.
    by eapply plain_read_digits.
  - by intros [= _ ->].
Qed.

(** ** The lines of the route commands *)

(** The addresses that inet_pton() accepts are written in digits, letters, points
    and colons. *)
Definition plain_addrs (K : Kernel) : Prop :=
  forall family s b, k_inet_pton family s = Some b -> plain s = true.

(** What is asked of a word of the client: it is on one line, and is not the name of
    an interface that somebody has given a name with a meaning for the shell (the
    kernel refuses only white space, slashes and colons). *)
Definition ordinary (K : Kernel) (word : string) : Prop :=
  blanks_only word = true /\ (forall tr, k_ifindex tr word <> 0 -> plain word = true).

(** A command line: one "ip" command, plain up to the redirection that the code adds. *)
Definition safe_line (e : event) : Prop :=
  match e with
  | EvShell command _ => exists args, command = "/system/bin/ip " +:+ args +:+ " 2>&1" /\ plain args = true
  | _ => True
  end.

Definition plain_opt (o : option string) : Prop := forall s, o = Some s -> plain s = true.

Section Lines.
Context {K : Kernel} (HK : plain_addrs K).
Import QcRouteController.QcRouteController.

Lemma safe_runIpCmd {S} e1 e2 cmd : plain cmd = true -> emits (S:=S) safe_line (runIpCmd e1 e2 cmd).
Proof. intros Hc. unfold runIpCmd. emits. by exists cmd. Qed.

Lemma plain_buffer s : plain s = true -> plain (snprintf_buffer s) = true.
Proof. apply plain_prefix. Qed.

Ltac plain :=
  repeat match goal with H : plain_opt (Some _) |- _ => specialize (H _ eq_refl) end;
  repeat match goal with H : plain _ = true |- _ => progress rewrite ?plain_app, ?H; revert H end;
  rewrite ?plain_app, ?plain_print_d; intros; 
  repeat match goal with H : plain _ = true |- _ => rewrite H end; reflexivity.
Ltac safe_step :=
  first
    [ apply safe_runIpCmd, plain_buffer
    | emits_step ].
Ltac safe :=
  repeat safe_step; try (case_match); plain.

Section Methods.
Context {S : Type} (e1 e2 : string).
Abbreviation ok := (emits (S:=S) safe_line).

Lemma safe_flushCache : ok (flushCache e1 e2).
Proof. apply safe_runIpCmd, plain_buffer. reflexivity. Qed.
Hint Resolve safe_flushCache : emits.
Lemma safe_if_empty res k : ok k -> ok (if_empty res k).
Proof. unfold if_empty. intros. emits; done. Qed.
Hint Resolve safe_if_empty : emits.
Lemma safe_addRule a table v : plain a = true -> plain table = true -> plain v = true -> ok (addRule e1 e2 a table v).
Proof. intros. apply safe_runIpCmd, plain_buffer. plain. Qed.
Lemma safe_delRule table v : plain table = true -> plain v = true -> ok (delRule e1 e2 table v).
Proof. intros. apply safe_runIpCmd, plain_buffer. plain. Qed.
Lemma safe_repDef i g table v :
  plain i = true -> plain_opt g -> plain table = true -> plain v = true -> ok (repDefRoute e1 e2 i g table v).
Proof. intros. apply safe_runIpCmd, plain_buffer. destruct g; plain. Qed.
Lemma safe_delDef table v i : plain table = true -> plain v = true -> plain_opt i -> ok (delDefRoute e1 e2 table v i).
Proof. intros. apply safe_runIpCmd, plain_buffer. destruct i; plain. Qed.
Lemma safe_delHost d table : plain d = true -> plain table = true -> ok (delHostRoute e1 e2 d table).
Proof. intros. apply safe_runIpCmd, plain_buffer. plain. Qed.
Hint Resolve safe_addRule safe_delRule safe_repDef safe_delDef safe_delHost : emits.

Lemma plain_none : plain_opt None.
Proof. by intros s. Qed.
Lemma plain_some s : plain s = true -> plain_opt (Some s).
Proof. by intros H ? [= <-]. Qed.
Hint Resolve plain_none plain_some : emits.
Hint Extern 1 (plain _ = true) => reflexivity : emits.

Lemma safe_repSrc i p g table v :
  plain i = true -> plain p = true -> plain_opt g -> plain table = true -> plain v = true ->
  ok (repSrcRoute e1 e2 i p g table v).
Proof. intros. unfold repSrcRoute. emits. apply safe_if_empty. emits. Qed.
Lemma safe_delSrc table v : plain table = true -> plain v = true -> ok (delSrcRoute e1 e2 table v).
Proof. intros. unfold delSrcRoute. emits. Qed.
Lemma safe_addDst i d g m table :
  plain i = true -> plain d = true -> plain_opt g -> plain table = true -> ok (addDstRoute e1 e2 i d g m table).
Proof.
  intros. unfold addDstRoute. emits. apply safe_runIpCmd, plain_buffer. destruct g; plain.
Qed.
Lemma safe_delDst d table : plain d = true -> plain table = true -> ok (delDstRoute e1 e2 d table).
Proof. intros. unfold delDstRoute. emits. Qed.
Lemma safe_replaceDef i g v : plain i = true -> plain_opt g -> plain v = true -> ok (replaceDefRoute e1 e2 i g v).
Proof. intros. unfold replaceDefRoute. emits. Qed.
Lemma safe_addDef i g v m table :
  plain i = true -> plain_opt g -> plain v = true -> plain table = true -> ok (addDefRoute e1 e2 i g v m table).
Proof.
  intros. unfold addDefRoute. emits. apply safe_runIpCmd, plain_buffer. destruct g; plain.
Qed.
End Methods.

(** The checks of the command. *)
Context {A : Ambient}.
Import QcRouteCmd.
Abbreviation okC := (emitsC safe_line).

Lemma safe_check_iface iface k : ordinary K iface -> (plain iface = true -> okC k) -> okC (check_iface iface k).
Proof.
  intros [_ Hw] Hk c tr. unfold check_iface, isValidIface, wp, mbind, C_bind, run, sys_ifindex, mret, C_ret. cbn.
  destruct (k_ifindex tr iface =? 0) eqn:E; cbn.
  - exists [EvIfIndex iface (k_ifindex tr iface)]. split; [done|]. by constructor.
  - apply Z.eqb_neq, Hw in E. specialize (Hk E (Conn (daemon c) (sent c)) (tr ++ [EvIfIndex iface (k_ifindex tr iface)])).
    unfold wp in Hk. destruct (k _ _) as [[a c'] tr']. destruct Hk as (evs & -> & H).
    exists (EvIfIndex iface (k_ifindex tr iface) :: evs). split; [by rewrite <-app_assoc|]. by constructor.
Qed.

Lemma isValidIp_plain str af : isValidIp str af = true -> plain str = true.
Proof.
  unfold isValidIp. destruct (af == "v4"); [|destruct (af == "v6"); [|done]].
  all: destruct (k_inet_pton _ str) as [b|] eqn:E; [|done]; intros _; by eapply HK.
Qed.

Lemma safe_check_ip str af k : (plain str = true -> okC k) -> okC (check_ip str af k).
Proof.
  intros Hk. unfold check_ip. destruct (isValidIp str af) eqn:E; [|apply emitsC_send].
  by eapply Hk, isValidIp_plain.
Qed.

Lemma safe_with_gateway argv n af k : (forall g, plain_opt g -> okC (k g)) -> okC (with_gateway argv n af k).
Proof.
  intros Hk. unfold with_gateway. destruct (_ <? _); [|apply Hk, plain_none].
  apply emitsC_bind; [apply emitsC_arg|]. intros g. destruct (isValidIp g af) eqn:E; [|apply emitsC_send].
  by eapply Hk, plain_some, isValidIp_plain.
Qed.

Lemma safe_check_rid word err k : ordinary K word -> (plain word = true -> okC k) -> okC (check_rid word err k).
Proof.
  intros [Hw _] Hk. unfold check_rid. destruct (strtol word 10) as [rid end_] eqn:E.
  destruct (String.eqb_spec end_ "") as [He|]; cbn [negb]; [|apply emitsC_send].
  destruct (_ || _); [apply emitsC_send|]. by eapply Hk, plain_strtol.
Qed.

Lemma safe_arg {B} (argv : list string) n (k : string -> C B) : Forall (ordinary K) argv -> (forall word, ordinary K word -> okC (k word)) -> okC (arg argv n ≫= k).
Proof.
  intros Hargv Hk c tr. unfold arg, mbind, C_bind, wp. destruct (argv !! n) as [word|] eqn:E; [|exists []; by rewrite app_nil_r].
  apply Hk. rewrite Forall_lookup in Hargv. by eapply Hargv.
Qed.

Lemma safe_route argv : Forall (ordinary K) argv -> okC (runCommand argv).
Proof.
  intros Hargv. unfold runCommand, src_replace, src_del, def_replace, def_add, dst_add, dst_del, report, syntax_error.
  assert (forall b : bool, plain (if b then "-4" else "-6") = true) as Hv by by intros [].
  repeat first
    [ apply safe_arg; [exact Hargv|intros ? ?]
    | apply safe_check_iface; [assumption|]; intros ? | apply safe_check_ip; intros ?
    | apply safe_check_rid; [assumption|]; intros ?
    | apply safe_with_gateway; intros ? ? | emitsC_step ].
  all: try (apply safe_repSrc || apply safe_delSrc || apply safe_addDst || apply safe_delDst ||
            apply safe_replaceDef || apply safe_addDef); auto using plain_none.
  all: try (by emits).
  unfold network_text. rewrite !plain_app, plain_ntoa, plain_print_d. reflexivity.
Qed.
End Lines.

(** ** Properties *)

(** C9. A client cannot have the shell run a command of its own through a "route"
    command whose words are on one line (no white space but blanks) and do not name an
    interface that exists and whose name has characters with a meaning for the shell:
    each line that the shell is given is then one call of the "ip" program whose
    arguments are letters, digits, blanks and the signs . : / - _ @ % +. *)
Theorem route_lines_plain {K : Kernel} {A : Ambient} argv c tr r c' tr' :
  plain_addrs K -> Forall (ordinary K) argv -> QcRouteCmd.runCommand argv c tr = (r, c', tr') ->
  exists evs, tr' = tr ++ evs /\
    forall line out, EvShell line out ∈ evs ->
      exists args, line = "/system/bin/ip " +:+ args +:+ " 2>&1" /\ plain args = true.
Proof.
  intros HK Hargv Hrun. destruct (wp_run _ _ _ _ _ _ _ Hrun (safe_route HK argv Hargv c tr)) as (evs & -> & H).
  exists evs. split; [done|]. intros line out Hin. rewrite Forall_forall in H. exact (H _ Hin).
Qed.

(** A kernel with one interface and one address. *)
Definition route_kernel : Kernel := {|
  k_netlink := k_netlink (Kernel:=good_kernel);
  k_exec := k_exec (Kernel:=good_kernel);
  k_ifindex := fun _ name => if name == "wlan0" then 3 else 0;
  k_file := k_file (Kernel:=good_kernel);
  k_property := k_property (Kernel:=good_kernel);
  k_popen := fun _ _ => Some "";
  k_read := k_read (Kernel:=good_kernel);
  k_readdir := k_readdir (Kernel:=good_kernel);
  k_spawn := k_spawn (Kernel:=good_kernel);
  k_wait := k_wait (Kernel:=good_kernel);
  k_system := k_system (Kernel:=good_kernel);
  k_ifc := k_ifc (Kernel:=good_kernel);
  k_ifc_get_info := k_ifc_get_info (Kernel:=good_kernel);
  k_ifc_get_hwaddr := k_ifc_get_hwaddr (Kernel:=good_kernel);
  k_wifi := k_wifi (Kernel:=good_kernel);
  k_qsap_reply := k_qsap_reply (Kernel:=good_kernel);
  k_wifi_fw_path := k_wifi_fw_path (Kernel:=good_kernel);
  k_pbkdf2 := k_pbkdf2 (Kernel:=good_kernel);
  k_netmask := k_netmask (Kernel:=good_kernel);
  k_pipe := k_pipe (Kernel:=good_kernel);
  k_getaddrinfo := k_getaddrinfo (Kernel:=good_kernel);
  k_inet_pton := k_inet_pton (Kernel:=good_kernel);
  k_inet_aton := k_inet_aton (Kernel:=good_kernel)
|}.

Lemma route_kernel_addrs : plain_addrs route_kernel.
Proof.
  intros family s b. cbn. unfold sample_inet_pton. destruct (_ && _) eqn:E; [|done].
  apply andb_true_iff in E as [_ ->%String.eqb_eq]. done.
Qed.
Lemma route_kernel_ordinary word : blanks_only word = true -> ordinary route_kernel word.
Proof. split; [done|]. intros tr. cbn. destruct (String.eqb_spec word "wlan0") as [->|]; done. Qed.

Lemma route_lines_plain_witness :
  let run := QcRouteCmd.runCommand (K:=route_kernel) (A:=sample_ambient) ["route"; "add"; "dst"; "v4"; "wlan0"; "10"; "10.0.0.1"]
    (Conn sample_listener []) [] in
  sent run.1.2 = [Reply 200 "destination route add succeeded" false] /\
  exists evs, run.2 = [] ++ evs /\
    forall line out, EvShell line out ∈ evs ->
      exists args, line = "/system/bin/ip " +:+ args +:+ " 2>&1" /\ plain args = true.
Proof.
  split; [vm_compute; reflexivity|].
  eapply (route_lines_plain (K:=route_kernel) (A:=sample_ambient) ["route"; "add"; "dst"; "v4"; "wlan0"; "10"; "10.0.0.1"]
    (Conn sample_listener []) [] _ _ _ route_kernel_addrs);
    [|vm_compute; reflexivity].
  repeat (apply Forall_cons_2; [by apply route_kernel_ordinary|]). apply Forall_nil_2.
Defined.

(** Both conditions are needed.  A table number may start with white space, a
    newline included: the shell then has a second line, of digits only. *)
Lemma newline_in_table :
  (QcRouteCmd.runCommand (K:=route_kernel) (A:=sample_ambient) ["route"; "del"; "src"; "v4"; String newline "100"]
    (Conn sample_listener []) []).2 =
  [EvShell ("/system/bin/ip -4 route del default table " +:+ String newline "100" +:+ " 2>&1") (Some "");
   EvShell ("/system/bin/ip -4 rule del table " +:+ String newline "100" +:+ " 2>&1") (Some "");
   EvShell "/system/bin/ip route flush cached 2>&1" (Some "")].
Proof. vm_compute. reflexivity. Qed.

(** The name of an interface that exists goes to the shell as it is. *)
Definition odd_name_kernel : Kernel := {|
  k_netlink := k_netlink (Kernel:=good_kernel);
  k_exec := k_exec (Kernel:=good_kernel);
  k_ifindex := fun _ name => if name == "a;reboot;" then 3 else 0;
  k_file := k_file (Kernel:=good_kernel);
  k_property := k_property (Kernel:=good_kernel);
  k_popen := fun _ _ => Some "";
  k_read := k_read (Kernel:=good_kernel);
  k_readdir := k_readdir (Kernel:=good_kernel);
  k_spawn := k_spawn (Kernel:=good_kernel);
  k_wait := k_wait (Kernel:=good_kernel);
  k_system := k_system (Kernel:=good_kernel);
  k_ifc := k_ifc (Kernel:=good_kernel);
  k_ifc_get_info := k_ifc_get_info (Kernel:=good_kernel);
  k_ifc_get_hwaddr := k_ifc_get_hwaddr (Kernel:=good_kernel);
  k_wifi := k_wifi (Kernel:=good_kernel);
  k_qsap_reply := k_qsap_reply (Kernel:=good_kernel);
  k_wifi_fw_path := k_wifi_fw_path (Kernel:=good_kernel);
  k_pbkdf2 := k_pbkdf2 (Kernel:=good_kernel);
  k_netmask := k_netmask (Kernel:=good_kernel);
  k_pipe := k_pipe (Kernel:=good_kernel);
  k_getaddrinfo := k_getaddrinfo (Kernel:=good_kernel);
  k_inet_pton := k_inet_pton (Kernel:=good_kernel);
  k_inet_aton := k_inet_aton (Kernel:=good_kernel)
|}.
Lemma name_for_the_shell :
  (QcRouteCmd.runCommand (K:=odd_name_kernel) (A:=sample_ambient) ["route"; "replace"; "def"; "v4"; "a;reboot;"]
    (Conn sample_listener []) []).2 =
  [EvIfIndex "a;reboot;" 3;
   EvShell "/system/bin/ip -4 route replace default dev a;reboot; table 254 2>&1" (Some "");
   EvShell "/system/bin/ip route flush cached 2>&1" (Some "")].
Proof. vm_compute. reflexivity. Qed.
