(* ===== verification/NetdList.v ===== *)
(** * NetdList: the doubly linked list of the daemon

    Models [server/List.h], the list behind the interfaces of TetherController and
    the terminals of PppController: nodes in a heap, linked in a circle through
    one node that holds no value.  The theorems say that the code works on nodes
    as the other files assume, on plain lists: no operation touches memory that
    is not allocated, and the loops end. *)
From S2P Require Import Prelude Platform TetherController.

(** ** Nodes and memory *)

Abbreviation loc := positive.

(** A field that has not been written is [None]. *)
Record node (T : Type) := Node { mVal : option T; mpPrev : option loc; mpNext : option loc }.
#[global] Arguments Node {T} _ _ _.
#[global] Arguments mVal {T} _.
#[global] Arguments mpPrev {T} _.
#[global] Arguments mpNext {T} _.

Abbreviation heap T := (gmap loc (node T)).

(** Code on the heap; [None]: it reads or writes what is not allocated, or
    reads what was never written. *)
Definition Mem (T A : Type) : Type := heap T -> option (A * heap T).

#[export] Instance Mem_ret {T} : MRet (Mem T) := fun A a h => Some (a, h).
#[export] Instance Mem_bind {T} : MBind (Mem T) :=
  fun A B k m h => match m h with Some (a, h') => k a h' | None => None end.

Section List.
Context {T : Type}.
Implicit Types (h : heap T) (p mid : loc).

Definition read {A} (field : node T -> option A) (p : loc) : Mem T A :=
  fun h => match h !! p with Some n => option_map (fun a => (a, h)) (field n) | None => None end.
Definition write (f : node T -> node T) (p : loc) : Mem T unit :=
  fun h => match h !! p with Some n => Some (tt, <[p := f n]> h) | None => None end.

Definition getRef : loc -> Mem T T := read mVal.
Definition getPrev : loc -> Mem T loc := read mpPrev.
Definition getNext : loc -> Mem T loc := read mpNext.
Definition setVal (p : loc) (x : T) : Mem T unit := write (fun n => Node (Some x) (mpPrev n) (mpNext n)) p.
Definition setPrev (p q : loc) : Mem T unit := write (fun n => Node (mVal n) (Some q) (mpNext n)) p.
Definition setNext (p q : loc) : Mem T unit := write (fun n => Node (mVal n) (mpPrev n) (Some q)) p.

(** new and delete; the address is one that is not in use. *)
Definition alloc (n : node T) : Mem T loc :=
  fun h => let p := fresh (dom h) in Some (p, <[p := n]> h).
Definition new_Node (val : T) : Mem T loc := alloc (Node (Some val) None None).
Definition delete_Node (p : loc) : Mem T unit :=
  fun h => match h !! p with Some _ => Some (tt, delete p h) | None => None end.

(** ** The operations; [mid] is [mpMiddle] *)

(** [prep()]: memory without a value. *)
Definition prep : Mem T loc :=
  mid ← alloc (Node None None None);
  setPrev mid mid;; setNext mid mid;;
  mret mid.

Definition begin_ (mid : loc) : Mem T loc := getNext mid.
Definition end_ (mid : loc) : loc := mid.
Definition empty (mid : loc) : Mem T bool := n ← getNext mid; mret (bool_decide (n = mid)).

Definition insert (posn : loc) (val : T) : Mem T loc :=
  newNode ← new_Node val;
  setNext newNode posn;;
  prev ← getPrev posn;
  setPrev newNode prev;;
  prev ← getPrev posn;
  setNext prev newNode;;
  setPrev posn newNode;;
  mret newNode.

Definition push_front (mid : loc) (val : T) : Mem T unit := b ← begin_ mid; insert b val;; mret tt.
Definition push_back (mid : loc) (val : T) : Mem T unit := insert (end_ mid) val;; mret tt.

Definition erase (posn : loc) : Mem T loc :=
  pNext ← getNext posn;
  pPrev ← getPrev posn;
  setNext pPrev pNext;;
  setPrev pNext pPrev;;
  delete_Node posn;;
  mret pNext.

(** The loops; [fuel] bounds the number of rounds. *)
Fixpoint insert_loop (fuel : nat) (posn first last : loc) : Mem T unit :=
  match fuel with
  | O => fun _ => None
  | S fuel =>
      if bool_decide (first = last) then mret tt
      else x ← getRef first; insert posn x;; first ← getNext first; insert_loop fuel posn first last
  end.
Fixpoint erase_loop (fuel : nat) (first last : loc) : Mem T loc :=
  match fuel with
  | O => fun _ => None
  | S fuel =>
      if bool_decide (first = last) then mret last
      else next ← getNext first; erase first;; erase_loop fuel next last
  end.
Fixpoint clear_loop (fuel : nat) (mid pCurrent : loc) : Mem T unit :=
  match fuel with
  | O => fun _ => None
  | S fuel =>
      if bool_decide (pCurrent = mid) then mret tt
      else pNext ← getNext pCurrent; delete_Node pCurrent;; clear_loop fuel mid pNext
  end.
(** [for (it = begin(); it != end(); ++it) if (found) ...]: the iterator the loop
    stops at, which is [last] when nothing was found. *)
Fixpoint find_loop (found : T -> bool) (fuel : nat) (it last : loc) : Mem T loc :=
  match fuel with
  | O => fun _ => None
  | S fuel =>
      if bool_decide (it = last) then mret it
      else x ← getRef it;
           if found x then mret it else it ← getNext it; find_loop found fuel it last
  end.
Fixpoint distance_loop (fuel : nat) (first last : loc) (count : Z) : Mem T Z :=
  match fuel with
  | O => fun _ => None
  | S fuel =>
      if bool_decide (first = last) then mret count
      else first ← getNext first; distance_loop fuel first last (count + 1)
  end.

(** A list cannot have more nodes than are allocated. *)
Definition with_fuel {A} (m : nat -> Mem T A) : Mem T A := fun h => m (Datatypes.S (base.size h)) h.

(** [insert(posn, first, last)], [erase(first, last)], [clear()], [distance] *)
Definition insert_range (posn first last : loc) : Mem T unit := with_fuel (fun fuel => insert_loop fuel posn first last).
Definition erase_range (first last : loc) : Mem T loc := with_fuel (fun fuel => erase_loop fuel first last).
Definition clear (mid : loc) : Mem T unit :=
  pCurrent ← getNext mid;
  with_fuel (fun fuel => clear_loop fuel mid pCurrent);;
  setPrev mid mid;;
  setNext mid mid.
Definition distance (first last : loc) : Mem T Z := with_fuel (fun fuel => distance_loop fuel first last 0).
Definition find (found : T -> bool) (mid : loc) : Mem T loc :=
  it ← begin_ mid; with_fuel (fun fuel => find_loop found fuel it (end_ mid)).
(** The loops of TetherController that remove the first entry found. *)
Definition find_erase (found : T -> bool) (mid : loc) : Mem T unit :=
  it ← find found mid;
  if bool_decide (it = end_ mid) then mret tt else erase it;; mret tt.
Definition size_ (mid : loc) : Mem T Z := b ← begin_ mid; distance b (end_ mid).

(** The copy constructor and the destructor. *)
Definition copy (src : loc) : Mem T loc :=
  mid ← prep;
  posn ← begin_ mid;
  first ← begin_ src;
  insert_range posn first (end_ src);;
  mret mid.
Definition destroy (mid : loc) : Mem T unit := clear mid;; delete_Node mid.

(** The first loop of the assignment operator: the elements that both lists have
    are overwritten; where it stopped. *)
Fixpoint assign_loop (fuel : nat) (firstDst lastDst firstSrc lastSrc : loc) : Mem T (loc * loc) :=
  match fuel with
  | O => fun _ => None
  | S fuel =>
      if negb (bool_decide (firstSrc = lastSrc)) && negb (bool_decide (firstDst = lastDst)) then
        x ← getRef firstSrc; nextDst ← getNext firstDst; nextSrc ← getNext firstSrc;
        setVal firstDst x;;
        assign_loop fuel nextDst lastDst nextSrc lastSrc
      else mret (firstDst, firstSrc)
  end.

Definition assign (dst src : loc) : Mem T unit :=
  if bool_decide (dst = src) then mret tt
  else
    firstDst ← begin_ dst;
    firstSrc ← begin_ src;
    stop ← with_fuel (fun fuel => assign_loop fuel firstDst (end_ dst) firstSrc (end_ src));
    let '(firstDst, firstSrc) := stop in
    if bool_decide (firstSrc = end_ src)
    then erase_range firstDst (end_ dst);; mret tt
    else insert_range (end_ dst) firstSrc (end_ src).
(** A loop over the elements, as those that list the interfaces and terminals. *)
Fixpoint collect_loop (fuel : nat) (it last : loc) : Mem T (list T) :=
  match fuel with
  | O => fun _ => None
  | S fuel =>
      if bool_decide (it = last) then mret []
      else x ← getRef it; it ← getNext it; xs ← collect_loop fuel it last; mret (x :: xs)
  end.
Definition collect (mid : loc) : Mem T (list T) :=
  it ← begin_ mid; with_fuel (fun fuel => collect_loop fuel it (end_ mid)).
(** An iterator after [i] increments. *)
Fixpoint advance (i : nat) (it : loc) : Mem T loc :=
  match i with O => mret it | S i => it ← getNext it; advance i it end.
End List.

(** ** Programs that use lists

    [op v] on the list in the variable [v]; [step] does it on nodes, [spec_step]
    on plain lists ([None]: the program is not one C++ gives a meaning to, for it
    uses a variable without a list or erases at the end). *)

Inductive op (T : Type) :=
| Declare_ (v : nat)
| Copy (v w : nat)
| Assign (v w : nat)
| Destroy (v : nat)
| Push_back (v : nat) (x : T)
| Push_front (v : nat) (x : T)
| Insert_at (v i : nat) (x : T)
| Erase_at (v i : nat)
| Find_erase (v : nat) (found : T -> bool)
| Clear (v : nat).
#[global] Arguments Declare_ {T} _.
#[global] Arguments Copy {T} _ _.
#[global] Arguments Assign {T} _ _.
#[global] Arguments Destroy {T} _.
#[global] Arguments Push_back {T} _ _.
#[global] Arguments Push_front {T} _ _.
#[global] Arguments Insert_at {T} _ _ _.
#[global] Arguments Erase_at {T} _ _.
#[global] Arguments Find_erase {T} _ _.
#[global] Arguments Clear {T} _.

Section Programs.
Context {T : Type}.

Definition var (vars : gmap nat loc) (v : nat) : Mem T loc :=
  fun h => option_map (fun mid => (mid, h)) (vars !! v).

Definition step (vars : gmap nat loc) (o : op T) : Mem T (gmap nat loc) :=
  match o with
  | Declare_ v => mid ← prep; mret (<[v := mid]> vars)
  | Copy v w => src ← var vars w; mid ← copy src; mret (<[v := mid]> vars)
  | Assign v w => dst ← var vars v; src ← var vars w; assign dst src;; mret vars
  | Destroy v => mid ← var vars v; destroy mid;; mret (delete v vars)
  | Push_back v x => mid ← var vars v; push_back mid x;; mret vars
  | Push_front v x => mid ← var vars v; push_front mid x;; mret vars
  | Insert_at v i x => mid ← var vars v; b ← begin_ mid; it ← advance i b; insert it x;; mret vars
  | Erase_at v i => mid ← var vars v; b ← begin_ mid; it ← advance i b; erase it;; mret vars
  | Find_erase v found => mid ← var vars v; find_erase found mid;; mret vars
  | Clear v => mid ← var vars v; clear mid;; mret vars
  end.
Fixpoint run (vars : gmap nat loc) (os : list (op T)) : Mem T (gmap nat loc) :=
  match os with [] => mret vars | o :: os => vars ← step vars o; run vars os end.

Fixpoint remove_first (found : T -> bool) (l : list T) : list T :=
  match l with [] => [] | x :: l => if found x then l else x :: remove_first found l end.

Definition spec_step (A : gmap nat (list T)) (o : op T) : option (gmap nat (list T)) :=
  match o with
  | Declare_ v => match A !! v with None => Some (<[v := []]> A) | Some _ => None end
  | Copy v w => match A !! v, A !! w with None, Some l => Some (<[v := l]> A) | _, _ => None end
  | Assign v w => match A !! v, A !! w with Some _, Some l => Some (<[v := l]> A) | _, _ => None end
  | Destroy v => match A !! v with Some _ => Some (delete v A) | None => None end
  | Push_back v x => option_map (fun l => <[v := l ++ [x]]> A) (A !! v)
  | Push_front v x => option_map (fun l => <[v := x :: l]> A) (A !! v)
  | Insert_at v i x =>
      match A !! v with
      | Some l => if (i <=? length l)%nat then Some (<[v := take i l ++ x :: drop i l]> A) else None
      | None => None
      end
  | Erase_at v i =>
      match A !! v with
      | Some l => if (i <? length l)%nat then Some (<[v := take i l ++ drop (Datatypes.S i) l]> A) else None
      | None => None
      end
  | Find_erase v found => option_map (fun l => <[v := remove_first found l]> A) (A !! v)
  | Clear v => option_map (fun _ => <[v := []]> A) (A !! v)
  end.
Fixpoint spec (A : gmap nat (list T)) (os : list (op T)) : option (gmap nat (list T)) :=
  match os with [] => Some A | o :: os => match spec_step A o with Some A => spec A os | None => None end end.
End Programs.

(** ** Links *)

(** The pairs of neighbours from [a] through [l] to [b]. *)
Fixpoint links (a : loc) (l : list loc) (b : loc) : list (loc * loc) :=
  match l with [] => [(a, b)] | c :: l => (a, c) :: links c l b end.

Lemma links_fst a l b : map fst (links a l b) = a :: l.
Proof. revert a. induction l as [|c l IH]; intros a; [done|]. cbn. by rewrite IH. Qed.
Lemma links_snd a l b : map snd (links a l b) = l ++ [b].
Proof. revert a. induction l as [|c l IH]; intros a; [done|]. cbn. by rewrite IH. Qed.

(** The link across a place in the list, and the links of one more node there. *)
Lemma links_split a l1 l2 b : exists x L1 L2, let y := default b (head l2) in
  links a (l1 ++ l2) b = L1 ++ (x, y) :: L2 /\
  forall p, links a (l1 ++ p :: l2) b = L1 ++ (x, p) :: (p, y) :: L2.
Proof.
  revert a. induction l1 as [|c l1 IH]; intros a.
  - destruct l2 as [|y l2]; [by exists a, [], []|]. exists a, [], (links y l2 b). done.
  - destruct (IH c) as (x & L1 & L2 & E1 & E2). exists x, ((a, c) :: L1), L2. cbn. rewrite E1.
    split; [done|]. intros p. by rewrite E2.
Qed.

Section Rep.
Context {T : Type}.
Implicit Types (h : heap T) (p mid : loc).

Definition next h p : option loc := h !! p ≫= mpNext.
Definition prev h p : option loc := h !! p ≫= mpPrev.
Definition val h p : option T := h !! p ≫= mVal.

Definition linked h (e : loc * loc) : Prop := next h e.1 = Some e.2 /\ prev h e.2 = Some e.1.

(** [rep h mid l]: from [mid] the heap holds the nodes [l] with their values, in
    a circle through [mid]. *)
Record rep h mid (l : list (loc * T)) : Prop := {
  rep_nodup : NoDup (mid :: l.*1);
  rep_links : Forall (linked h) (links mid l.*1 mid);
  rep_vals : Forall (fun e => val h e.1 = Some e.2) l
}.

(** A heap that is the same but on the nodes [ps]. *)
Definition same_but (ps : list loc) h h' : Prop := forall q, q ∉ ps -> h' !! q = h !! q.

Lemma same_but_sub ps ps' h h' : ps ⊆ ps' -> same_but ps h h' -> same_but ps' h h'.
Proof. intros Hs H q Hq. apply H. set_solver. Qed.
Lemma same_but_trans ps h1 h2 h3 : same_but ps h1 h2 -> same_but ps h2 h3 -> same_but ps h1 h3.
Proof. intros H1 H2 q Hq. by rewrite H2, H1. Qed.

Lemma linked_same h h' e : h' !! e.1 = h !! e.1 -> h' !! e.2 = h !! e.2 -> linked h e -> linked h' e.
Proof. unfold linked, next, prev. by intros -> ->. Qed.

Lemma links_in a l b e : e ∈ links a l b -> e.1 ∈ a :: l /\ e.2 ∈ l ++ [b].
Proof.
  intros He. rewrite <-(links_fst a l b), <-(links_snd a l b).
  split; apply list_elem_of_fmap; by exists e.
Qed.

Lemma links_circle mid l e : e ∈ links mid l mid -> e.1 ∈ mid :: l /\ e.2 ∈ mid :: l.
Proof.
  intros [H1 H2]%links_in. split; [done|]. by rewrite <-Permutation_cons_append in H2.
Qed.

(** A list is not affected by what happens elsewhere. *)
Lemma rep_frame ps h h' mid l :
  same_but ps h h' -> (forall q, q ∈ mid :: l.*1 -> q ∉ ps) -> rep h mid l -> rep h' mid l.
Proof.
  intros Hs Hd [H1 H2 H3]. split; [done|..].
  - rewrite Forall_forall in H2 |- *. intros e He. pose proof (links_circle _ _ _ He) as [He1 He2].
    apply (linked_same h); [by apply Hs, Hd|by apply Hs, Hd|by apply H2].
  - apply Forall_forall. intros e He. rewrite Forall_forall in H3. unfold val. rewrite Hs; [by apply H3|].
    apply Hd. right. apply list_elem_of_fmap. by exists e.
Qed.

Lemma rep_mid h mid l : rep h mid l -> is_Some (h !! mid).
Proof.
  intros [_ Hl _]. destruct l as [|[c x] l]; cbn in Hl; apply Forall_cons in Hl as [[H _] _]; cbn in H;
    unfold next in H; destruct (h !! mid); [eauto|done|eauto|done].
Qed.
Lemma rep_alloc h mid l q : rep h mid l -> q ∈ mid :: l.*1 -> is_Some (h !! q).
Proof.
  intros Hr [->|Hq]%elem_of_cons; [by eapply rep_mid|]. apply list_elem_of_fmap in Hq as (e & -> & He).
  destruct Hr as [_ _ Hv]. rewrite Forall_forall in Hv. specialize (Hv e He). unfold val in Hv.
  destruct (h !! e.1); [eauto|done].
Qed.

(** *** Single reads and writes *)

Lemma read_eq {A} (field : node T -> option A) p h a :
  h !! p ≫= field = Some a -> read field p h = Some (a, h).
Proof. unfold read. destruct (h !! p); cbn; [|done]. by intros ->. Qed.
Lemma getNext_eq p h q : next h p = Some q -> getNext p h = Some (q, h).
Proof. apply read_eq. Qed.
Lemma getPrev_eq p h q : prev h p = Some q -> getPrev p h = Some (q, h).
Proof. apply read_eq. Qed.
Lemma getRef_eq p h x : val h p = Some x -> getRef p h = Some (x, h).
Proof. apply read_eq. Qed.

Lemma write_eq f p h : is_Some (h !! p) -> write f p h = Some (tt, alter f p h).
Proof.
  intros [n Hn]. unfold write. rewrite Hn. do 2 f_equal. apply map_eq. intros q.
  destruct (decide (q = p)) as [->|Hne]; [by rewrite lookup_insert_eq, lookup_alter_eq, Hn|].
  by rewrite lookup_insert_ne, lookup_alter_ne.
Qed.

Definition with_next (q : loc) (n : node T) : node T := Node (mVal n) (mpPrev n) (Some q).
Definition with_prev (q : loc) (n : node T) : node T := Node (mVal n) (Some q) (mpNext n).
Definition with_val (x : T) (n : node T) : node T := Node (Some x) (mpPrev n) (mpNext n).

Lemma setNext_eq p q h : is_Some (h !! p) -> setNext p q h = Some (tt, alter (with_next q) p h).
Proof. apply write_eq. Qed.
Lemma setPrev_eq p q h : is_Some (h !! p) -> setPrev p q h = Some (tt, alter (with_prev q) p h).
Proof. apply write_eq. Qed.
Lemma setVal_eq p x h : is_Some (h !! p) -> setVal p x h = Some (tt, alter (with_val x) p h).
Proof. apply write_eq. Qed.

Lemma is_Some_alter f p q h : is_Some (h !! q) -> is_Some (alter f p h !! q).
Proof. intros. destruct (decide (q = p)) as [->|]; [rewrite lookup_alter_eq|rewrite lookup_alter_ne by done]; by rewrite ?fmap_is_Some. Qed.

Lemma next_with_next p q h r : is_Some (h !! p) -> next (alter (with_next q) p h) r = if decide (r = p) then Some q else next h r.
Proof. intros [n Hn]. unfold next. case_decide; [subst; by rewrite lookup_alter_eq, Hn|by rewrite lookup_alter_ne]. Qed.
Lemma prev_with_next p q h r : prev (alter (with_next q) p h) r = prev h r.
Proof.
  unfold prev. destruct (decide (r = p)) as [->|]; [rewrite lookup_alter_eq|by rewrite lookup_alter_ne].
  by destruct (h !! p).
Qed.
Lemma val_with_next p q h r : val (alter (with_next q) p h) r = val h r.
Proof.
  unfold val. destruct (decide (r = p)) as [->|]; [rewrite lookup_alter_eq|by rewrite lookup_alter_ne].
  by destruct (h !! p).
Qed.
Lemma prev_with_prev p q h r : is_Some (h !! p) -> prev (alter (with_prev q) p h) r = if decide (r = p) then Some q else prev h r.
Proof. intros [n Hn]. unfold prev. case_decide; [subst; by rewrite lookup_alter_eq, Hn|by rewrite lookup_alter_ne]. Qed.
Lemma next_with_prev p q h r : next (alter (with_prev q) p h) r = next h r.
Proof.
  unfold next. destruct (decide (r = p)) as [->|]; [rewrite lookup_alter_eq|by rewrite lookup_alter_ne].
  by destruct (h !! p).
Qed.
Lemma val_with_prev p q h r : val (alter (with_prev q) p h) r = val h r.
Proof.
  unfold val. destruct (decide (r = p)) as [->|]; [rewrite lookup_alter_eq|by rewrite lookup_alter_ne].
  by destruct (h !! p).
Qed.
Lemma same_but_alter f p h : same_but [p] h (alter f p h).
Proof. intros q Hq. rewrite lookup_alter_ne; [done|]. set_solver. Qed.

(** The links of a list that a change leaves alone. *)
Lemma linked_kept h h' L L' :
  Forall (linked h) L ->
  (forall e, e ∈ L' -> e ∈ L /\ next h' e.1 = next h e.1 /\ prev h' e.2 = prev h e.2) -> Forall (linked h') L'.
Proof.
  rewrite !Forall_forall. intros Hl Hk e He. destruct (Hk e He) as (Hin & Hn & Hp).
  unfold linked. rewrite Hn, Hp. by apply Hl.
Qed.
End Rep.

#[export] Hint Resolve is_Some_alter : core.
Ltac heap_simp :=
  repeat first
    [ rewrite next_with_prev | rewrite prev_with_next | rewrite val_with_next | rewrite val_with_prev
    | rewrite next_with_next by auto | rewrite prev_with_prev by auto ].

Ltac list_in := repeat rewrite ?elem_of_app, ?elem_of_cons, ?list_elem_of_singleton; tauto.

(** ** The operations on a represented list *)

Section Specs.
Context {T : Type}.
Implicit Types (h : heap T) (p mid : loc) (l : list (loc * T)).

(** The node an iterator after [l1] in [l1 ++ l2] is on. *)
Definition at_ mid l2 : loc := default mid (head l2.*1).

Definition nodes mid l : list loc := mid :: l.*1.

Lemma nodes_split mid l1 p x l2 : nodes mid (l1 ++ (p, x) :: l2) ≡ₚ p :: nodes mid (l1 ++ l2).
Proof. unfold nodes. rewrite !fmap_app. cbn. solve_Permutation. Qed.

(** The links beside one are between other pairs of neighbours. *)
Lemma links_other (a b : loc) L L1 q y L2 e :
  NoDup (a :: L) -> NoDup (L ++ [b]) -> links a L b = L1 ++ (q, y) :: L2 -> e ∈ L1 ++ L2 -> e.1 <> q /\ e.2 <> y.
Proof.
  intros Ha Hb E He. rewrite <-(links_fst a L b), E in Ha. rewrite <-(links_snd a L b), E in Hb.
  rewrite map_app in Ha, Hb. cbn in Ha, Hb.
  apply NoDup_app in Ha as (_ & Ha1 & Ha2). apply NoDup_app in Hb as (_ & Hb1 & Hb2).
  apply NoDup_cons in Ha2 as [Ha2 _]. apply NoDup_cons in Hb2 as [Hb2 _].
  apply elem_of_app in He as [He|He].
  - apply (list_elem_of_fmap_2 fst) in He as H1. apply (list_elem_of_fmap_2 snd) in He as H2.
    specialize (Ha1 _ H1). specialize (Hb1 _ H2). set_solver.
  - apply (list_elem_of_fmap_2 fst) in He as H1. apply (list_elem_of_fmap_2 snd) in He as H2.
    split; [intros <-; by apply Ha2|intros <-; by apply Hb2].
Qed.

Lemma rep_at h mid l1 l2 : rep h mid (l1 ++ l2) -> exists q L1 L2,
  links mid (l1 ++ l2).*1 mid = L1 ++ (q, at_ mid l2) :: L2 /\
  (forall p x, links mid (l1 ++ (p, x) :: l2).*1 mid = L1 ++ (q, p) :: (p, at_ mid l2) :: L2) /\
  q ∈ nodes mid (l1 ++ l2) /\ at_ mid l2 ∈ nodes mid (l1 ++ l2) /\ linked h (q, at_ mid l2) /\
  (forall e, e ∈ L1 ++ L2 -> linked h e /\ e.1 <> q /\ e.2 <> at_ mid l2 /\ e.1 ∈ nodes mid (l1 ++ l2) /\ e.2 ∈ nodes mid (l1 ++ l2)).
Proof.
  intros [Hd Hl _]. destruct (links_split mid l1.*1 l2.*1 mid) as (q & L1 & L2 & E & E').
  exists q, L1, L2. rewrite <-fmap_app in E. rewrite E in Hl. apply Forall_app in Hl as [Hl1 Hl2].
  apply Forall_cons in Hl2 as [Hqy Hl2]. rewrite Forall_forall in Hl1, Hl2.
  assert (Hin : forall e, e ∈ L1 ++ (q, at_ mid l2) :: L2 -> e.1 ∈ nodes mid (l1 ++ l2) /\ e.2 ∈ nodes mid (l1 ++ l2)).
  { intros e. unfold at_. rewrite <-E. apply links_circle. }
  split; [done|]. split; [intros p x; rewrite fmap_app; apply E'|].
  assert (Hqi : (q, at_ mid l2) ∈ L1 ++ (q, at_ mid l2) :: L2) by set_solver. apply Hin in Hqi as [Hq Hy].
  split; [done|]. split; [done|]. split; [done|]. intros e He.
  split; [set_solver|].
  edestruct (links_other mid mid (l1 ++ l2).*1 L1 q (at_ mid l2) L2 e) as [? ?]; [done| |done|done|].
  - by rewrite <-Permutation_cons_append.
  - split; [done|]. split; [done|]. apply Hin. set_solver.
Qed.

Lemma sub3 (S : list loc) p q y : p ∈ S -> q ∈ S -> y ∈ S -> [p; q; y] ⊆ S.
Proof. intros ??? r [->|[->|[->|[]%not_elem_of_nil]%elem_of_cons]%elem_of_cons]%elem_of_cons; done. Qed.

(** What insert() writes: the new node and two fields around it. *)
Lemma insert_steps h y q x : prev h y = Some q -> is_Some (h !! q) -> exists p h',
  insert y x h = Some (p, h') /\ h !! p = None /\
  (forall r, next h' r = if decide (r = q) then Some p else if decide (r = p) then Some y else next h r) /\
  (forall r, prev h' r = if decide (r = y) then Some p else if decide (r = p) then Some q else prev h r) /\
  (forall r, val h' r = if decide (r = p) then Some x else val h r) /\ same_but [p; q; y] h h'.
Proof.
  intros Hqy [nq Hq]. set (p := fresh (dom h)).
  assert (Hp : h !! p = None) by (apply not_elem_of_dom, is_fresh).
  set (h1 := <[p := Node (Some x) None None]> h).
  assert (Hy : is_Some (h !! y)) by (unfold prev in Hqy; destruct (h !! y); [eauto|done]).
  assert (Hyp : y <> p) by (intros ->; destruct Hy; congruence).
  assert (Hqp : q <> p) by congruence.
  assert (Hp1 : h1 !! p = Some (Node (Some x) None None)) by (unfold h1; apply lookup_insert_eq).
  assert (Hs : forall r, r <> p -> h1 !! r = h !! r) by (intros r Hr; by apply lookup_insert_ne).
  assert (is_Some (h1 !! p)) by (rewrite Hp1; eauto). assert (is_Some (h1 !! y)) by (by rewrite Hs).
  assert (is_Some (h1 !! q)) by (rewrite Hs by done; eauto).
  assert (H1p : prev h1 y = Some q) by (unfold prev; by rewrite Hs).
  exists p, (alter (with_prev p) y (alter (with_next p) q (alter (with_prev q) p (alter (with_next y) p h1)))).
  split; [|split; [done|split; [|split; [|split]]]].
  - unfold insert, new_Node, alloc, mbind, Mem_bind. fold p h1. rewrite setNext_eq by auto.
    erewrite getPrev_eq by (heap_simp; done). rewrite setPrev_eq by auto.
    erewrite getPrev_eq by (heap_simp; rewrite decide_False by auto; done).
    rewrite setNext_eq by auto. rewrite setPrev_eq by auto. done.
  - intros r. heap_simp. repeat case_decide; try done. unfold next. by rewrite Hs.
  - intros r. heap_simp. repeat case_decide; try done. unfold prev. by rewrite Hs.
  - intros r. heap_simp. unfold val. case_decide as Hr; [by rewrite Hr, Hp1|by rewrite Hs].
  - intros r Hr. apply not_elem_of_cons in Hr as [? [? [? _]%not_elem_of_cons]%not_elem_of_cons].
    rewrite !lookup_alter_ne by done. by apply Hs.
Qed.

(** insert() puts one new node before the position and touches only the list. *)
Lemma insert_rep h mid l1 l2 x :
  rep h mid (l1 ++ l2) -> exists p h',
    insert (at_ mid l2) x h = Some (p, h') /\ h !! p = None /\
    rep h' mid (l1 ++ (p, x) :: l2) /\ same_but (p :: nodes mid (l1 ++ l2)) h h'.
Proof.
  intros Hr. pose proof Hr as [Hd Hl Hv].
  destruct (rep_at _ _ _ _ Hr) as (q & L1 & L2 & E & E' & Hq & Hy & [Hqn Hyp] & Ho).
  destruct (insert_steps h (at_ mid l2) q x) as (p & h' & Hi & Hp & Hn' & Hp' & Hv' & Hs); [done|by eapply rep_alloc|].
  assert (Hne : forall r, r ∈ nodes mid (l1 ++ l2) -> r <> p).
  { intros r Hin ->. destruct (rep_alloc _ _ _ _ Hr Hin); congruence. }
  exists p, h'. split; [done|]. split; [done|]. split; [split|].
  - change (NoDup (nodes mid (l1 ++ (p, x) :: l2))). rewrite nodes_split. apply NoDup_cons.
    split; [|done]. intros Hin. by apply Hne in Hin.
  - rewrite E'. assert (Forall (linked h') (L1 ++ L2)) as [HL1 HL2]%Forall_app.
    { apply (linked_kept h _ (L1 ++ L2)); [apply Forall_forall; intros e He; by apply Ho|].
      intros e He. destruct (Ho e He) as (_ & ? & ? & ?%Hne & ?%Hne). split; [done|].
      rewrite Hn', Hp', !decide_False by done. done. }
    apply Forall_app. split; [done|]. repeat apply Forall_cons_2; [| |done]; split; cbn.
    + rewrite Hn'. by rewrite decide_True.
    + rewrite Hp', decide_False by (intros ->; by apply Hne in Hy). by rewrite decide_True.
    + rewrite Hn', decide_False by (intros ->; by apply Hne in Hq). by rewrite decide_True.
    + rewrite Hp'. by rewrite decide_True.
  - rewrite Forall_forall in Hv |- *. intros e He. rewrite Hv'.
    apply elem_of_app in He. rewrite elem_of_cons in He.
    assert (e = (p, x) \/ e ∈ l1 ++ l2) as [->|He'] by list_in; [by rewrite decide_True|].
    rewrite decide_False; [by apply Hv|]. apply Hne. apply list_elem_of_further, list_elem_of_fmap. by exists e.
  - eapply same_but_sub; [|exact Hs]. apply sub3; list_in.
Qed.

(** What erase() writes. *)
Lemma erase_steps h p q y :
  next h p = Some y -> prev h p = Some q -> is_Some (h !! q) -> is_Some (h !! y) -> p <> q -> p <> y -> exists h',
  erase p h = Some (y, h') /\ h' !! p = None /\
  (forall r, r <> p -> next h' r = if decide (r = q) then Some y else next h r) /\
  (forall r, r <> p -> prev h' r = if decide (r = y) then Some q else prev h r) /\
  (forall r, r <> p -> val h' r = val h r) /\ same_but [p; q; y] h h'.
Proof.
  intros Hn Hp Hq Hy Hpq Hpy. exists (delete p (alter (with_prev q) y (alter (with_next y) q h))).
  split; [|split; [apply lookup_delete_eq|split; [|split; [|split]]]].
  - unfold erase, mbind, Mem_bind, delete_Node. rewrite (getNext_eq _ _ _ Hn), (getPrev_eq _ _ _ Hp).
    rewrite setNext_eq, setPrev_eq by auto. rewrite !lookup_alter_ne by done. unfold next in Hn.
    by destruct (h !! p).
  - intros r Hr. unfold next at 1. rewrite lookup_delete_ne by done. fold (next (T := T)).
    change (next (alter (with_prev q) y (alter (with_next y) q h)) r = if decide (r = q) then Some y else next h r).
    by heap_simp.
  - intros r Hr. unfold prev at 1. rewrite lookup_delete_ne by done.
    change (prev (alter (with_prev q) y (alter (with_next y) q h)) r = if decide (r = y) then Some q else prev h r).
    by heap_simp.
  - intros r Hr. unfold val at 1. rewrite lookup_delete_ne by done.
    change (val (alter (with_prev q) y (alter (with_next y) q h)) r = val h r). by heap_simp.
  - intros r Hr. apply not_elem_of_cons in Hr as [? [? [? _]%not_elem_of_cons]%not_elem_of_cons].
    by rewrite lookup_delete_ne, !lookup_alter_ne by done.
Qed.

Lemma erase_rep h mid l1 p x l2 :
  rep h mid (l1 ++ (p, x) :: l2) -> exists h',
    erase p h = Some (at_ mid l2, h') /\ h' !! p = None /\
    rep h' mid (l1 ++ l2) /\ same_but (nodes mid (l1 ++ (p, x) :: l2)) h h'.
Proof.
  intros Hr. pose proof Hr as [Hd Hl Hv]. change (NoDup (nodes mid (l1 ++ (p, x) :: l2))) in Hd.
  destruct (links_split mid l1.*1 l2.*1 mid) as (q & L1 & L2 & E & E'). specialize (E' p).
  rewrite <-fmap_app in E. change p with ((p, x).1) in E' at 1. rewrite <-fmap_cons, <-fmap_app in E'.
  fold (at_ mid l2) in E, E'. cbn [fst] in E'.
  assert (Hin : forall e, e ∈ links mid (l1 ++ (p, x) :: l2).*1 mid ->
    linked h e /\ e.1 ∈ nodes mid (l1 ++ (p, x) :: l2) /\ e.2 ∈ nodes mid (l1 ++ (p, x) :: l2)).
  { intros e He. rewrite Forall_forall in Hl. split; [by apply Hl|]. by apply links_circle. }
  assert (Hds : NoDup ((l1 ++ (p, x) :: l2).*1 ++ [mid])) by (by rewrite <-Permutation_cons_append).
  assert (Ho1 : forall e, e ∈ L1 ++ (p, at_ mid l2) :: L2 -> e.1 <> q /\ e.2 <> p) by (intros e; by apply (links_other mid mid (l1 ++ (p, x) :: l2).*1)).
  assert (Ho2 : forall e, e ∈ (L1 ++ [(q, p)]) ++ L2 -> e.1 <> p /\ e.2 <> at_ mid l2).
  { intros e. apply (links_other mid mid (l1 ++ (p, x) :: l2).*1); [done..|]. rewrite E'. by rewrite <-app_assoc. }
  rewrite E' in Hin.
  destruct (Hin (q, p)) as ([_ Hp] & Hq & _); [list_in|]. destruct (Hin (p, at_ mid l2)) as ([Hn _] & _ & Hy); [list_in|].
  destruct (Ho2 (q, p)) as [Hqp _]; [list_in|]. destruct (Ho1 (p, at_ mid l2)) as [_ Hyp]; [list_in|].
  cbn in Hp, Hn, Hq, Hy, Hqp, Hyp.
  destruct (erase_steps h p q (at_ mid l2)) as (h' & He & Hg & Hn' & Hp' & Hv' & Hs);
    [done|done|by eapply rep_alloc|by eapply rep_alloc|done|done|].
  rewrite nodes_split in Hd. apply NoDup_cons in Hd as [Hpd Hd].
  exists h'. split; [done|]. split; [done|]. split; [split; [done| |]|].
  - rewrite E. assert (Forall (linked h') (L1 ++ L2)) as [HL1 HL2]%Forall_app.
    { apply (linked_kept h _ (L1 ++ L2)); [apply Forall_forall; intros e Hel%elem_of_app; apply Hin; list_in|].
      intros e Hel%elem_of_app. destruct (Ho1 e) as [? ?]; [list_in|]. destruct (Ho2 e) as [? ?]; [list_in|].
      split; [list_in|]. rewrite Hn', Hp', !decide_False by done. done. }
    apply Forall_app. split; [done|]. apply Forall_cons_2; [|done]. split; cbn; [rewrite Hn'|rewrite Hp']; by rewrite ?decide_True.
  - rewrite Forall_forall in Hv |- *. intros e Hel. rewrite Hv'; [apply Hv; apply elem_of_app in Hel; list_in|].
    intros <-. apply Hpd, list_elem_of_further, list_elem_of_fmap. by exists e.
  - eapply same_but_sub; [|exact Hs]. apply sub3; [|done..]. rewrite nodes_split. list_in.
Qed.

(** *** Walking along the nodes *)

(** From the first of [l] the next pointers lead through [l] to [b]. *)
Fixpoint chain h (b : loc) l : Prop :=
  match l with [] => True | c :: l => next h c.1 = Some (at_ b l) /\ val h c.1 = Some c.2 /\ chain h b l end.

Lemma chain_links h a b l :
  Forall (linked h) (links a l.*1 b) -> Forall (fun e => val h e.1 = Some e.2) l -> next h a = Some (at_ b l) /\ chain h b l.
Proof.
  revert a. induction l as [|c l IH]; intros a; cbn; intros [Hc Hl]%Forall_cons Hv; [by destruct Hc|].
  apply Forall_cons in Hv as [Hcv Hv]. destruct (IH _ Hl Hv). destruct Hc. done.
Qed.
Lemma chain_app h b l1 l2 : chain h b (l1 ++ l2) -> chain h b l2.
Proof. induction l1; cbn; [done|]. intros (_ & _ & H). auto. Qed.
Lemma rep_chain h mid l : rep h mid l -> next h mid = Some (at_ mid l) /\ chain h mid l.
Proof. intros [_ ? ?]. by apply chain_links. Qed.
Lemma chain_frame ps h h' b l : same_but ps h h' -> (forall q, q ∈ l.*1 -> q ∉ ps) -> chain h b l -> chain h' b l.
Proof.
  intros Hs. induction l as [|c l IH]; cbn; [done|]. intros Hd (Hn & Hv & Hl).
  unfold next, val. rewrite Hs by (apply Hd, list_elem_of_here). split; [done|]. split; [done|].
  apply IH; [|done]. intros q Hq. apply Hd. by apply list_elem_of_further.
Qed.
Lemma chain_alloc h b l q : chain h b l -> q ∈ l.*1 -> is_Some (h !! q).
Proof.
  induction l as [|c l IH]; cbn; [by intros _ ?%not_elem_of_nil|]. intros (_ & Hv & Hc) [->|Hq]%elem_of_cons; [|auto].
  unfold val in Hv. destruct (h !! c.1); [eauto|done].
Qed.

(** An iterator inside the list is not at its end. *)
Lemma nodes_cons b c l : NoDup (nodes b (c :: l)) -> (c.1 <> b) /\ (c.1 ∉ l.*1) /\ NoDup (nodes b l).
Proof.
  unfold nodes. cbn. intros [Hb [Hc Hd]%NoDup_cons]%NoDup_cons. apply not_elem_of_cons in Hb as [Hne Hb].
  split; [done|]. split; [done|]. by apply NoDup_cons.
Qed.

Lemma chain_length h b l : NoDup l.*1 -> chain h b l -> (length l <= base.size h)%nat.
Proof.
  intros Hd Hc. rewrite <-size_dom, <-(length_fmap fst), <-(size_list_to_set (C := gset loc)) by done.
  apply subseteq_size. intros p Hp%elem_of_list_to_set. apply elem_of_dom. by eapply chain_alloc.
Qed.

(** [distance(begin(), end())] counts the elements. *)
Lemma distance_loop_eq fuel h mid l count :
  NoDup (nodes mid l) -> chain h mid l -> (length l < fuel)%nat ->
  distance_loop fuel (at_ mid l) mid count h = Some (count + Z.of_nat (length l), h).
Proof.
  revert fuel count. induction l as [|c l IH]; intros [|fuel] count Hd Hc Hf; try (cbn in Hf; lia).
  - cbn. rewrite bool_decide_true by done. by rewrite Z.add_0_r.
  - apply nodes_cons in Hd as (Hne & _ & Hd). destruct Hc as (Hn & _ & Hc).
    cbn [distance_loop]. change (at_ mid (c :: l)) with (c.1). rewrite bool_decide_false by done.
    unfold mbind, Mem_bind. rewrite (getNext_eq _ _ _ Hn), IH by (done || cbn in Hf; lia).
    do 2 f_equal. cbn [length]. lia.
Qed.
Lemma size_eq h mid l : rep h mid l -> size_ mid h = Some (Z.of_nat (length l), h).
Proof.
  intros Hr. destruct (rep_chain _ _ _ Hr) as [Hn Hc]. unfold size_, begin_, end_, distance, with_fuel, mbind, Mem_bind.
  rewrite (getNext_eq _ _ _ Hn). apply distance_loop_eq; [by destruct Hr|done|].
  apply Nat.lt_succ_r, (chain_length _ mid); [|done]. destruct Hr as [[_ Hd]%NoDup_cons _ _]. done.
Qed.

Lemma rep_fuel h mid l : rep h mid l -> (length l < Datatypes.S (base.size h))%nat.
Proof.
  intros Hr. apply Nat.lt_succ_r, (chain_length _ mid); [|by apply rep_chain].
  by destruct Hr as [[_ Hd]%NoDup_cons _ _].
Qed.

(** *** The loops *)

Lemma clear_loop_eq fuel h mid l :
  NoDup (nodes mid l) -> chain h mid l -> (length l < fuel)%nat -> exists h',
  clear_loop fuel mid (at_ mid l) h = Some (tt, h') /\ (forall q, q ∈ l.*1 -> h' !! q = None) /\ same_but l.*1 h h'.
Proof.
  revert fuel h. induction l as [|c l IH]; intros [|fuel] h Hd Hc Hf; try (cbn in Hf; lia).
  - exists h. cbn. rewrite bool_decide_true by done. split; [done|]. split; [by intros q ?%not_elem_of_nil|done].
  - apply nodes_cons in Hd as (Hne & Hni & Hd). destruct Hc as (Hn & _ & Hc).
    assert (Hs : same_but [c.1] h (delete c.1 h)) by (intros q [Hq _]%not_elem_of_cons; by apply lookup_delete_ne).
    destruct (IH fuel (delete c.1 h)) as (h' & He & Hg & Hs'); [done| |cbn in Hf; lia|].
    { apply (chain_frame _ _ _ _ _ Hs); [|done]. intros q Hq ->%list_elem_of_singleton. done. }
    exists h'. cbn [clear_loop]. change (at_ mid (c :: l)) with (c.1). rewrite bool_decide_false by done.
    unfold mbind, Mem_bind, delete_Node. rewrite (getNext_eq _ _ _ Hn). unfold next in Hn.
    destruct (h !! c.1); [|done]. split; [done|]. split.
    + intros q [->|Hq]%elem_of_cons; [|auto]. rewrite Hs' by done. apply lookup_delete_eq.
    + intros q [Hq Hq']%not_elem_of_cons. rewrite Hs' by done. by apply lookup_delete_ne.
Qed.

Lemma rep_nil h mid : is_Some (h !! mid) -> rep (alter (with_next mid) mid (alter (with_prev mid) mid h)) mid [].
Proof.
  intros Hm. split; [apply NoDup_singleton| |done]. apply Forall_singleton. split; cbn; heap_simp; by rewrite decide_True.
Qed.

Lemma clear_rep h mid l : rep h mid l -> exists h',
  clear mid h = Some (tt, h') /\ rep h' mid [] /\ (forall q, q ∈ l.*1 -> h' !! q = None) /\ same_but (nodes mid l) h h'.
Proof.
  intros Hr. destruct (rep_chain _ _ _ Hr) as [Hn Hc]. pose proof (rep_mid _ _ _ Hr) as Hm.
  pose proof Hr as [Hd _ _]. assert (mid ∉ l.*1) as Hml by (by apply NoDup_cons in Hd as [? _]).
  destruct (clear_loop_eq _ _ _ _ Hd Hc (rep_fuel _ _ _ Hr)) as (h1 & He & Hg & Hs).
  assert (Hm1 : is_Some (h1 !! mid)) by (by rewrite Hs).
  exists (alter (with_next mid) mid (alter (with_prev mid) mid h1)).
  unfold clear, mbind, Mem_bind, with_fuel. rewrite (getNext_eq _ _ _ Hn), He, setPrev_eq, setNext_eq by auto.
  split; [done|]. split; [by apply rep_nil|]. split.
  - intros q Hq. rewrite !lookup_alter_ne by congruence. auto.
  - intros q [Hq Hq']%not_elem_of_cons. rewrite !lookup_alter_ne by done. auto.
Qed.

(** The destructor frees every node. *)
Lemma destroy_rep h mid l : rep h mid l -> exists h',
  destroy mid h = Some (tt, h') /\ (forall q, q ∈ nodes mid l -> h' !! q = None) /\ same_but (nodes mid l) h h'.
Proof.
  intros Hr. destruct (clear_rep _ _ _ Hr) as (h1 & He & [n Hm]%rep_mid & Hg & Hs).
  exists (delete mid h1). unfold destroy, mbind, Mem_bind, delete_Node. rewrite He, Hm. split; [done|]. split.
  - intros q [->|Hq]%elem_of_cons; [apply lookup_delete_eq|]. rewrite lookup_delete_None. auto.
  - intros q Hq. pose proof Hq as [Hq' _]%not_elem_of_cons. rewrite lookup_delete_ne by done. auto.
Qed.

Lemma prep_rep h : exists mid h', prep h = Some (mid, h') /\ h !! mid = None /\ rep h' mid [] /\ same_but [mid] h h'.
Proof.
  set (mid := fresh (dom h)). assert (Hm : h !! mid = None) by (apply not_elem_of_dom, is_fresh).
  set (h1 := <[mid := Node None None None]> h).
  assert (Hm1 : is_Some (h1 !! mid)) by (unfold h1; rewrite lookup_insert_eq; eauto).
  exists mid, (alter (with_next mid) mid (alter (with_prev mid) mid h1)). unfold prep, mbind, Mem_bind, alloc. fold mid h1.
  rewrite setPrev_eq, setNext_eq by auto. split; [done|]. split; [done|]. split; [by apply rep_nil|].
  intros q [Hq _]%not_elem_of_cons. rewrite !lookup_alter_ne by done. by apply lookup_insert_ne.
Qed.

(** A suffix of a represented list: its first node is where an iterator after
    [l1] is, and it is not the end. *)
Lemma rep_suffix h mid l1 c l2 :
  rep h mid (l1 ++ c :: l2) ->
  c.1 <> mid /\ next h c.1 = Some (at_ mid l2) /\ val h c.1 = Some c.2 /\ (c.1 ∉ nodes mid (l1 ++ l2)).
Proof.
  intros Hr. destruct (rep_chain _ _ _ Hr) as [_ Hc%chain_app]. destruct Hc as (Hn & Hv & _).
  destruct Hr as [Hd _ _]. change (NoDup (nodes mid (l1 ++ c :: l2))) in Hd.
  destruct c as [p x]. rewrite nodes_split in Hd. apply NoDup_cons in Hd as [Hni _].
  split; [|done]. cbn. intros ->. apply Hni, list_elem_of_here.
Qed.
Lemma rep_not_end h mid l1 c l2 l3 : rep h mid (l1 ++ c :: l2 ++ l3) -> c.1 <> at_ mid l3.
Proof.
  intros (Hne & _ & _ & Hni)%rep_suffix E. apply Hni. destruct l3 as [|d l3]; [done|].
  unfold nodes. rewrite !fmap_app. cbn in *. rewrite E. list_in.
Qed.

Lemma find_loop_eq found fuel h mid l1 l2 l3 :
  rep h mid (l1 ++ l2 ++ l3) -> Forall (fun c => found c.2 = false) l2 -> match l3 with [] => True | c :: _ => found c.2 = true end ->
  (length l2 < fuel)%nat -> find_loop found fuel (at_ mid (l2 ++ l3)) mid h = Some (at_ mid l3, h).
Proof.
  revert fuel l1. induction l2 as [|c l2 IH]; intros [|fuel] l1 Hr H2 H3 Hf; try (cbn in Hf; lia).
  - destruct l3 as [|c l3]; cbn [app find_loop]; [by rewrite bool_decide_true|].
    destruct (rep_suffix _ _ _ _ _ Hr) as (Hne & _ & Hv & _). change (at_ mid (c :: l3)) with (c.1).
    rewrite bool_decide_false by done. unfold mbind, Mem_bind. by rewrite (getRef_eq _ _ _ Hv), H3.
  - apply Forall_cons in H2 as [Hfc H2]. cbn [app] in *. destruct (rep_suffix _ _ _ _ _ Hr) as (Hne & Hn & Hv & _).
    cbn [find_loop]. change (at_ mid (c :: l2 ++ l3)) with (c.1).
    rewrite bool_decide_false by done. unfold mbind, Mem_bind. rewrite (getRef_eq _ _ _ Hv), Hfc, (getNext_eq _ _ _ Hn).
    apply (IH fuel (l1 ++ [c])); [by rewrite <-app_assoc|done|done|cbn in Hf; lia].
Qed.

(** *** One list changes, the others do not *)

(** The list of [mid] has become [l'] and nothing else has changed: nodes that
    left it are free, nodes that joined it were. *)
Record updates h h' mid (l l' : list (loc * T)) : Prop := {
  up_rep : rep h' mid l';
  up_same : forall q, q ∉ nodes mid l -> q ∉ nodes mid l' -> h' !! q = h !! q;
  up_gone : forall q, q ∈ nodes mid l -> q ∉ nodes mid l' -> h' !! q = None;
  up_new : forall q, q ∈ nodes mid l' -> q ∉ nodes mid l -> h !! q = None
}.

Lemma updates_refl h mid l : rep h mid l -> updates h h mid l l.
Proof. by split. Qed.
Lemma updates_trans h1 h2 h3 mid l1 l2 l3 : updates h1 h2 mid l1 l2 -> updates h2 h3 mid l2 l3 -> updates h1 h3 mid l1 l3.
Proof.
  intros [_ Hs Hg Hn] [Hr Hs' Hg' Hn']. split; [done|..]; intros q; destruct (decide (q ∈ nodes mid l2)) as [H2|H2]; intros Ha Hb.
  - by rewrite Hn, Hg'.
  - by rewrite Hs', Hs.
  - auto.
  - rewrite Hs' by done. auto.
  - auto.
  - rewrite <-Hs by done. auto.
Qed.

(** What is allocated elsewhere stays as it is, and apart. *)
Lemma updates_away h h' mid l l' q : updates h h' mid l l' -> is_Some (h !! q) -> q ∉ nodes mid l -> h' !! q = h !! q /\ q ∉ nodes mid l'.
Proof.
  intros [_ Hs _ Hn] [n Hq] Hl. assert (Hl' : q ∉ nodes mid l') by (intros Hin; specialize (Hn q Hin Hl); congruence).
  split; [by apply Hs|done].
Qed.
Lemma updates_rep h h' mid l l' mid' s :
  updates h h' mid l l' -> rep h mid' s -> (forall q, q ∈ nodes mid' s -> q ∉ nodes mid l) ->
  rep h' mid' s /\ (forall q, q ∈ nodes mid' s -> q ∉ nodes mid l').
Proof.
  intros Hu Hs Hd.
  assert (Ha : forall q, q ∈ nodes mid' s -> h' !! q = h !! q /\ q ∉ nodes mid l').
  { intros q Hq. eapply updates_away; [exact Hu| |by apply Hd]. by eapply rep_alloc. }
  split; [|intros; by apply Ha]. pose proof (up_same _ _ _ _ _ Hu) as Hsame.
  apply (rep_frame (filter (.∉ nodes mid' s) (nodes mid l ++ nodes mid l')) h); [|intros q Hq Hin|done].
  - intros q Hq. destruct (decide (q ∈ nodes mid' s)) as [Hin|Hin]; [by apply Ha|].
    rewrite list_elem_of_filter, elem_of_app in Hq. apply Hsame; tauto.
  - by apply list_elem_of_filter in Hin as [? _].
Qed.

Lemma insert_updates h mid l1 l2 x : rep h mid (l1 ++ l2) -> exists p h',
  insert (at_ mid l2) x h = Some (p, h') /\ updates h h' mid (l1 ++ l2) (l1 ++ (p, x) :: l2).
Proof.
  intros Hr. destruct (insert_rep _ _ _ _ x Hr) as (p & h' & He & Hp & Hr' & Hs). exists p, h'. split; [done|].
  split; [done|..]; intros q; rewrite nodes_split, elem_of_cons.
  - intros ??. apply Hs. list_in.
  - tauto.
  - by intros [->|?].
Qed.
Lemma erase_updates h mid l1 p x l2 : rep h mid (l1 ++ (p, x) :: l2) -> exists h',
  erase p h = Some (at_ mid l2, h') /\ updates h h' mid (l1 ++ (p, x) :: l2) (l1 ++ l2).
Proof.
  intros Hr. destruct (erase_rep _ _ _ _ _ _ Hr) as (h' & He & Hp & Hr' & Hs). exists h'. split; [done|].
  split; [done|intros q|intros q; rewrite nodes_split, elem_of_cons..].
  - intros ? _. by apply Hs.
  - by intros [->|?].
  - tauto.
Qed.

Lemma erase_loop_eq fuel h mid l1 l2 l3 :
  rep h mid (l1 ++ l2 ++ l3) -> (length l2 < fuel)%nat -> exists h',
  erase_loop fuel (at_ mid (l2 ++ l3)) (at_ mid l3) h = Some (at_ mid l3, h') /\ updates h h' mid (l1 ++ l2 ++ l3) (l1 ++ l3).
Proof.
  revert fuel h. induction l2 as [|c l2 IH]; intros [|fuel] h Hr Hf; try (cbn in Hf; lia).
  - exists h. cbn. rewrite bool_decide_true by done. split; [done|]. by apply updates_refl.
  - cbn [app] in *. pose proof (rep_not_end _ _ _ _ _ _ Hr) as Hne. destruct (rep_suffix _ _ _ _ _ Hr) as (_ & Hn & _).
    destruct c as [p x]. destruct (erase_updates _ _ _ _ _ _ Hr) as (h1 & He & Hu).
    destruct (IH fuel h1 (up_rep _ _ _ _ _ Hu)) as (h' & He' & Hu'); [cbn in Hf; lia|].
    exists h'. cbn [erase_loop]. change (at_ mid ((p, x) :: l2 ++ l3)) with p. rewrite bool_decide_false by done.
    unfold mbind, Mem_bind. cbn [fst] in Hn. rewrite (getNext_eq _ _ _ Hn), He, He'. split; [done|]. by eapply updates_trans.
Qed.

(** Copying a range of another list ([s2] of [s1 ++ s2]) into this one. *)
Lemma insert_loop_eq fuel h mid l1 l2 src s1 s2 :
  rep h mid (l1 ++ l2) -> rep h src (s1 ++ s2) -> (forall q, q ∈ nodes src (s1 ++ s2) -> q ∉ nodes mid (l1 ++ l2)) ->
  (length s2 < fuel)%nat -> exists new h',
  insert_loop fuel (at_ mid l2) (at_ src s2) src h = Some (tt, h') /\ new.*2 = s2.*2 /\
  updates h h' mid (l1 ++ l2) (l1 ++ new ++ l2).
Proof.
  revert fuel h l1 s1. induction s2 as [|c s2 IH]; intros [|fuel] h l1 s1 Hr Hs Hd Hf; try (cbn in Hf; lia).
  - exists [], h. cbn. rewrite bool_decide_true by done. split; [done|]. split; [done|]. by apply updates_refl.
  - destruct (rep_suffix _ _ _ _ _ Hs) as (Hne & _ & Hv & _).
    destruct (insert_updates h mid l1 l2 c.2 Hr) as (p & h1 & Hi & Hu).
    destruct (updates_rep _ _ _ _ _ _ _ Hu Hs Hd) as [Hs1 Hd1]. destruct (rep_suffix _ _ _ _ _ Hs1) as (_ & Hn & _).
    destruct (IH fuel h1 (l1 ++ [(p, c.2)]) (s1 ++ [c])) as (new & h' & He & H2 & Hu'); rewrite <-?app_assoc.
    + by destruct Hu.
    + done.
    + done.
    + cbn in Hf. lia.
    + exists ((p, c.2) :: new), h'. cbn [insert_loop]. change (at_ src (c :: s2)) with (c.1). rewrite bool_decide_false by done.
      unfold mbind, Mem_bind. rewrite (getRef_eq _ _ _ Hv), Hi, (getNext_eq _ _ _ Hn), He.
      split; [done|]. split; [cbn; by rewrite H2|]. rewrite <-!app_assoc in Hu'. by eapply updates_trans.
Qed.

(** *** The operations of the class *)

Lemma push_back_updates h mid l x : rep h mid l -> exists p h',
  push_back mid x h = Some (tt, h') /\ updates h h' mid l (l ++ [(p, x)]).
Proof.
  intros Hr. rewrite <-(app_nil_r l) in Hr. destruct (insert_updates _ _ _ _ x Hr) as (p & h' & He & H).
  rewrite app_nil_r in H. exists p, h'. unfold push_back, end_, mbind, Mem_bind. change (at_ mid []) with mid in He. by rewrite He.
Qed.
Lemma push_front_updates h mid l x : rep h mid l -> exists p h',
  push_front mid x h = Some (tt, h') /\ updates h h' mid l ((p, x) :: l).
Proof.
  intros Hr. destruct (insert_updates _ _ [] _ x Hr) as (p & h' & He & H). destruct (rep_chain _ _ _ Hr) as [Hn _].
  exists p, h'. unfold push_front, begin_, mbind, Mem_bind. by rewrite (getNext_eq _ _ _ Hn), He.
Qed.
Lemma clear_updates h mid l : rep h mid l -> exists h', clear mid h = Some (tt, h') /\ updates h h' mid l [].
Proof.
  intros Hr. destruct (clear_rep _ _ _ Hr) as (h' & He & Hr' & Hg & Hs). exists h'. split; [done|].
  split; [done|intros q; by auto|..]; intros q; unfold nodes; rewrite fmap_nil, list_elem_of_singleton, elem_of_cons; [|tauto].
  intros [->|Hq]; [done|auto].
Qed.
Lemma empty_rep h mid l : rep h mid l -> empty mid h = Some (match l with [] => true | _ => false end, h).
Proof.
  intros Hr. destruct (rep_chain _ _ _ Hr) as [Hn _]. unfold empty, mbind, Mem_bind. rewrite (getNext_eq _ _ _ Hn).
  destruct l as [|c l]; [by rewrite bool_decide_true|]. destruct (rep_suffix _ _ [] _ _ Hr) as (Hne & _).
  change (at_ mid (c :: l)) with (c.1). by rewrite bool_decide_false.
Qed.

(** Assigning through an iterator. *)
Lemma setVal_rep h mid l1 p y x l2 :
  rep h mid (l1 ++ (p, y) :: l2) -> rep (alter (with_val x) p h) mid (l1 ++ (p, x) :: l2).
Proof.
  intros [Hd Hl Hv]. rewrite fmap_app, fmap_cons in *. split; rewrite ?fmap_app, ?fmap_cons; [done| |].
  - apply (linked_kept h _ _ _ Hl). intros e He. split; [done|]. unfold next, prev.
    split; [destruct (decide (e.1 = p)) as [->|]|destruct (decide (e.2 = p)) as [->|]];
      rewrite ?lookup_alter_eq, ?lookup_alter_ne by done; by destruct (h !! p).
  - rewrite Forall_forall in Hv |- *. intros e He. unfold val.
    change (NoDup (mid :: l1.*1 ++ p :: l2.*1)) in Hd. apply NoDup_cons in Hd as [_ Hd].
    assert (Hp : is_Some (h !! p)).
    { assert (Hpv : val h p = Some y) by (apply (Hv (p, y)); list_in). unfold val in Hpv. by destruct (h !! p). }
    apply elem_of_app in He. rewrite elem_of_cons in He.
    assert (e = (p, x) \/ e ∈ l1 ++ l2) as [->|He'] by list_in.
    + cbn. rewrite lookup_alter_eq. by destruct Hp as [n ->].
    + rewrite lookup_alter_ne; [apply Hv; apply elem_of_app in He'; list_in|].
      intros ->. rewrite <-Permutation_middle in Hd. apply NoDup_cons in Hd as [Hd _]. apply Hd.
      rewrite <-fmap_app. apply list_elem_of_fmap. eauto.
Qed.

Lemma setVal_updates h mid l1 p y x l2 : rep h mid (l1 ++ (p, y) :: l2) -> exists h',
  setVal p x h = Some (tt, h') /\ updates h h' mid (l1 ++ (p, y) :: l2) (l1 ++ (p, x) :: l2).
Proof.
  intros Hr. assert (Hp : is_Some (h !! p)).
  { eapply rep_alloc; [exact Hr|]. change (p ∈ nodes mid (l1 ++ (p, y) :: l2)). rewrite nodes_split. list_in. }
  exists (alter (with_val x) p h). rewrite setVal_eq by done. split; [done|].
  split; [by eapply setVal_rep|..]; intros q; rewrite !nodes_split; [|done..].
  intros [Hq _]%not_elem_of_cons _. by apply lookup_alter_ne.
Qed.

Lemma assign_loop_eq fuel h dst src l1 l2 s1 s2 :
  rep h dst (l1 ++ l2) -> rep h src (s1 ++ s2) -> (forall q, q ∈ nodes src (s1 ++ s2) -> q ∉ nodes dst (l1 ++ l2)) ->
  (length l2 < fuel)%nat -> exists pre l3 sp s3 h',
  assign_loop fuel (at_ dst l2) dst (at_ src s2) src h = Some ((at_ dst l3, at_ src s3), h') /\
  s2 = sp ++ s3 /\ pre.*2 = sp.*2 /\ pre.*1 ++ l3.*1 = l2.*1 /\ (l3 = [] \/ s3 = []) /\
  updates h h' dst (l1 ++ l2) (l1 ++ pre ++ l3).
Proof.
  revert fuel h l1 s1 s2. induction l2 as [|c l2 IH]; intros [|fuel] h l1 s1 s2 Hr Hs Hd Hf; try (cbn in Hf; lia).
  { exists [], [], [], s2, h. cbn. rewrite (bool_decide_true (dst = dst)), andb_false_r by done.
    split_and!; auto. by apply updates_refl. }
  destruct s2 as [|[ps x] s2].
  { exists [], (c :: l2), [], [], h. cbn. rewrite (bool_decide_true (src = src)) by done.
    split_and!; auto. by apply updates_refl. }
  destruct c as [p y]. destruct (rep_suffix _ _ _ _ _ Hr) as (Hne & Hn & _).
  destruct (rep_suffix _ _ _ _ _ Hs) as (Hnes & Hns & Hvs & _). destruct (setVal_updates _ _ _ _ _ x _ Hr) as (h1 & Hw & Hu).
  destruct (updates_rep _ _ _ _ _ _ _ Hu Hs Hd) as [Hs1 Hd1].
  destruct (IH fuel h1 (l1 ++ [(p, x)]) (s1 ++ [(ps, x)]) s2) as (pre & l3 & sp & s3 & h' & He & E1 & E2 & E3 & E4 & Hu');
    rewrite <-?app_assoc; [by destruct Hu|done|done|cbn in Hf; lia|].
  exists ((p, x) :: pre), l3, ((ps, x) :: sp), s3, h'. cbn [assign_loop].
  change (at_ dst ((p, y) :: l2)) with p. change (at_ src ((ps, x) :: s2)) with ps. cbn in Hne, Hnes, Hn, Hns, Hvs.
  rewrite !bool_decide_false by done. cbn [negb andb]. unfold mbind, Mem_bind.
  rewrite (getRef_eq _ _ _ Hvs), (getNext_eq _ _ _ Hn), (getNext_eq _ _ _ Hns), Hw, He.
  split; [done|]. split; [by rewrite E1|]. split; [cbn; by rewrite E2|]. split; [cbn; by rewrite E3|]. split; [done|].
  rewrite <-!app_assoc in Hu'. by eapply updates_trans.
Qed.

Lemma rep_begin h mid l : rep h mid l -> begin_ mid h = Some (at_ mid l, h).
Proof. intros Hr. destruct (rep_chain _ _ _ Hr) as [Hn _]. by apply getNext_eq. Qed.

Lemma erase_to_end h mid l1 l2 : rep h mid (l1 ++ l2) -> exists h',
  erase_range (at_ mid l2) mid h = Some (mid, h') /\ updates h h' mid (l1 ++ l2) l1.
Proof.
  intros Hr. pose proof (rep_fuel _ _ _ Hr) as Hf. rewrite length_app in Hf.
  destruct (erase_loop_eq (Datatypes.S (base.size h)) h mid l1 l2 []) as (h' & He & Hu); rewrite ?app_nil_r in *; [done|lia|eauto].
Qed.
Lemma insert_at_end h mid l src s1 s2 :
  rep h mid l -> rep h src (s1 ++ s2) -> (forall q, q ∈ nodes src (s1 ++ s2) -> q ∉ nodes mid l) -> exists new h',
  insert_range mid (at_ src s2) src h = Some (tt, h') /\ new.*2 = s2.*2 /\ updates h h' mid l (l ++ new).
Proof.
  intros Hr Hs Hd. pose proof (rep_fuel _ _ _ Hs) as Hf. rewrite length_app in Hf.
  destruct (insert_loop_eq (Datatypes.S (base.size h)) h mid l [] src s1 s2) as (new & h' & He & H); rewrite ?app_nil_r in *; [done..|lia|eauto].
Qed.

(** The assignment operator. *)
Lemma assign_updates h dst src l s :
  rep h dst l -> rep h src s -> (forall q, q ∈ nodes src s -> q ∉ nodes dst l) -> exists l' h',
  assign dst src h = Some (tt, h') /\ l'.*2 = s.*2 /\ updates h h' dst l l'.
Proof.
  intros Hr Hs Hd.
  destruct (assign_loop_eq (Datatypes.S (base.size h)) h dst src [] l [] s) as (pre & l3 & sp & s3 & h1 & He & E1 & E2 & _ & E4 & Hu);
    [done|done|done|by eapply rep_fuel|].
  cbn [app] in Hu. pose proof Hu as [Hr1 _ _ _]. destruct (updates_rep _ _ _ _ _ _ _ Hu Hs Hd) as [Hs1 Hd1].
  assert (Hne : dst <> src) by (intros ->; apply (Hd src); apply list_elem_of_here).
  unfold assign. rewrite bool_decide_false by done. unfold mbind, Mem_bind.
  rewrite (rep_begin _ _ _ Hr), (rep_begin _ _ _ Hs). unfold with_fuel at 1, end_. rewrite He.
  destruct s3 as [|c s3].
  - rewrite bool_decide_true by done. rewrite app_nil_r in E1. subst sp.
    destruct (erase_to_end _ _ _ _ Hr1) as (h' & He' & Hu'). exists pre, h'. rewrite He'.
    split; [done|]. split; [done|]. by eapply updates_trans.
  - destruct E4 as [->|]; [|done]. rewrite app_nil_r in Hr1, Hd1, Hu. rewrite E1 in Hs1, Hd1.
    destruct (rep_suffix _ _ _ _ _ Hs1) as (Hnc & _). change (at_ src (c :: s3)) with (c.1). rewrite bool_decide_false by done.
    destruct (insert_at_end _ _ _ _ _ _ Hr1 Hs1 Hd1) as (new & h' & He' & E' & Hu').
    exists (pre ++ new), h'. change (c.1) with (at_ src (c :: s3)). rewrite He'.
    split; [done|]. split; [by rewrite fmap_app, E1, fmap_app, E2, E'|]. by eapply updates_trans.
Qed.

Lemma remove_first_split (found : T -> bool) l : exists l2 l3,
  l = l2 ++ l3 /\ Forall (fun c => found c.2 = false) l2 /\
  match l3 with
  | [] => remove_first found l.*2 = l.*2
  | c :: l4 => found c.2 = true /\ remove_first found l.*2 = (l2 ++ l4).*2
  end.
Proof.
  induction l as [|c l (l2 & l3 & -> & H2 & H3)]; [by exists [], []|].
  destruct (found c.2) eqn:Hc; [exists [], (c :: l2 ++ l3); cbn; by rewrite Hc|].
  exists (c :: l2), l3. split; [done|]. split; [by constructor|]. cbn. rewrite Hc.
  destruct l3; cbn in *; [by rewrite H3|]. destruct H3 as [? ->]. done.
Qed.

Lemma find_erase_updates found h mid l : rep h mid l -> exists l' h',
  find_erase found mid h = Some (tt, h') /\ l'.*2 = remove_first found l.*2 /\ updates h h' mid l l'.
Proof.
  intros Hr. destruct (remove_first_split found l) as (l2 & l3 & -> & H2 & H3).
  pose proof (rep_fuel _ _ _ Hr) as Hf. rewrite length_app in Hf.
  assert (Hfind : find found mid h = Some (at_ mid l3, h)).
  { unfold find, mbind, Mem_bind. rewrite (rep_begin _ _ _ Hr). apply (find_loop_eq found _ h mid [] l2 l3); [done|done| |lia].
    by destruct l3 as [|c l4]; [|destruct H3]. }
  unfold find_erase, end_, mbind, Mem_bind. rewrite Hfind. destruct l3 as [|[p x] l4].
  - exists (l2 ++ []), h. rewrite bool_decide_true by done. split; [done|]. split; [done|]. by apply updates_refl.
  - destruct (rep_suffix _ _ _ _ _ Hr) as (Hne & _). destruct (erase_updates _ _ _ _ _ _ Hr) as (h' & He & Hu).
    exists (l2 ++ l4), h'. change (at_ mid ((p, x) :: l4)) with p. rewrite bool_decide_false, He by done. split; [done|].
    by destruct H3.
Qed.

Lemma advance_eq h mid l1 l2 l3 : rep h mid (l1 ++ l2 ++ l3) -> advance (length l2) (at_ mid (l2 ++ l3)) h = Some (at_ mid l3, h).
Proof.
  revert l1. induction l2 as [|c l2 IH]; intros l1 Hr; [done|]. destruct (rep_suffix _ _ _ _ _ Hr) as (_ & Hn & _).
  cbn [advance length app]. change (at_ mid (c :: l2 ++ l3)) with (c.1). unfold mbind, Mem_bind.
  rewrite (getNext_eq _ _ _ Hn). apply (IH (l1 ++ [c])). by rewrite <-app_assoc.
Qed.
Lemma advance_begin h mid l (i : nat) : rep h mid l -> (i <= length l)%nat -> exists b,
  begin_ mid h = Some (b, h) /\ advance i b h = Some (at_ mid (drop i l), h).
Proof.
  intros Hr Hi. exists (at_ mid l). split; [by apply rep_begin|]. pose proof (take_drop i l) as E. rewrite <-E in Hr.
  apply (advance_eq h mid []) in Hr. rewrite length_take, Nat.min_l, E in Hr by lia. done.
Qed.

Lemma collect_eq h mid l : rep h mid l -> collect mid h = Some (l.*2, h).
Proof.
  intros Hr. unfold collect, end_, with_fuel, mbind, Mem_bind. rewrite (rep_begin _ _ _ Hr).
  pose proof (rep_fuel _ _ _ Hr) as Hf. revert Hf. generalize (Datatypes.S (base.size h)). 
  change l with ([] ++ l) in Hr. revert Hr. generalize (@nil (loc * T)). induction l as [|c l IH]; intros l1 Hr [|fuel] Hf; try (cbn in Hf; lia).
  - cbn. by rewrite bool_decide_true.
  - destruct (rep_suffix _ _ _ _ _ Hr) as (Hne & Hn & Hv & _). cbn [collect_loop]. change (at_ mid (c :: l)) with (c.1).
    rewrite bool_decide_false by done. unfold mbind, Mem_bind. rewrite (getRef_eq _ _ _ Hv), (getNext_eq _ _ _ Hn).
    rewrite (IH (l1 ++ [c])); [done|by rewrite <-app_assoc|cbn in Hf; lia].
Qed.

Lemma copy_eq h src s : rep h src s -> exists mid h1 new h',
  copy src h = Some (mid, h') /\ new.*2 = s.*2 /\
  h !! mid = None /\ rep h1 mid [] /\ same_but [mid] h h1 /\ updates h1 h' mid [] new.
Proof.
  intros Hs. destruct (prep_rep h) as (mid & h1 & He & Hm & Hr & Hsame).
  assert (Hd : forall q, q ∈ nodes src s -> q ∉ nodes mid []).
  { intros q Hq ->%list_elem_of_singleton. destruct (rep_alloc _ _ _ _ Hs Hq). congruence. }
  assert (Hs1 : rep h1 src s) by (by eapply rep_frame).
  destruct (insert_at_end h1 mid [] src [] s Hr Hs1 Hd) as (new & h' & He' & E & Hu).
  exists mid, h1, new, h'. split; [|done]. unfold copy, end_, mbind, Mem_bind.
  rewrite He, (rep_begin _ _ _ Hr), (rep_begin _ _ _ Hs1). change (at_ mid []) with mid. by rewrite He'.
Qed.
End Specs.

(** ** Several lists in one memory *)

Section System.
Context {T : Type}.
Implicit Types (h : gmap loc (node T)) (vars : gmap nat loc) (A : gmap nat (list T)) (G : gmap nat (loc * list (loc * T))).

(** [G] gives each variable its nodes: every list is well formed, no two share a
    node, and there is nothing else in memory. *)
Record sys vars h A G : Prop := {
  sys_vars : vars = fst <$> G;
  sys_lists : A = (fun e => e.2.*2) <$> G;
  sys_rep : forall v mid l, G !! v = Some (mid, l) -> rep h mid l;
  sys_apart : forall v w mid l mid' l' q, v <> w -> G !! v = Some (mid, l) -> G !! w = Some (mid', l') ->
    q ∈ nodes mid l -> q ∉ nodes mid' l';
  sys_all : forall q, is_Some (h !! q) -> exists v mid l, G !! v = Some (mid, l) /\ q ∈ nodes mid l
}.

Lemma sys_lookup vars h A G v l : sys vars h A G -> A !! v = Some l -> exists mid ps,
  G !! v = Some (mid, ps) /\ l = ps.*2 /\ vars !! v = Some mid /\ rep h mid ps.
Proof.
  intros [-> -> Hr _ _]. rewrite !lookup_fmap. intros E. destruct (G !! v) as [[mid ps]|] eqn:Hg; [|done].
  injection E as <-. exists mid, ps. split_and!; try done. by apply (Hr v).
Qed.
Lemma sys_lookup_none vars h A G v : sys vars h A G -> A !! v = None -> G !! v = None.
Proof. intros [_ -> _ _ _]. rewrite lookup_fmap. by destruct (G !! v). Qed.

(** One list is changed. *)
Lemma sys_update vars h h' A G v mid l l' :
  sys vars h A G -> G !! v = Some (mid, l) -> updates h h' mid l l' -> sys vars h' (<[v := l'.*2]> A) (<[v := (mid, l')]> G).
Proof.
  intros [Ev Ea Hr Hd Ha] Hg Hu.
  assert (Hother : forall w mid' s, w <> v -> G !! w = Some (mid', s) -> rep h' mid' s /\ (forall q, q ∈ nodes mid' s -> q ∉ nodes mid l')).
  { intros w mid' s Hw Hgw. eapply updates_rep; [exact Hu|by apply (Hr w)|]. intros q Hq. by eapply (Hd w v). }
  split.
  - rewrite fmap_insert, <-Ev. cbn. rewrite insert_id; [done|]. by rewrite Ev, lookup_fmap, Hg.
  - by rewrite fmap_insert, <-Ea.
  - intros w mid' s. destruct (decide (w = v)) as [->|Hw].
    + rewrite lookup_insert_eq. intros [= <- <-]. by destruct Hu.
    + rewrite lookup_insert_ne by done. intros Hgw. by eapply Hother.
  - intros w1 w2 m1 s1 m2 s2 q Hw [[<- [= <- <-]]|[Hw1 H1]]%lookup_insert_Some [[<- [= <- <-]]|[Hw2 H2]]%lookup_insert_Some Hq Hq2; try done.
    + destruct (Hother w2 m2 s2) as [_ Ho]; [done|done|]. by apply (Ho q).
    + destruct (Hother w1 m1 s1) as [_ Ho]; [done|done|]. by apply (Ho q).
    + by apply (Hd w1 w2 m1 s1 m2 s2 q).
  - intros q Hq. destruct (decide (q ∈ nodes mid l')) as [Hin|Hin]; [exists v, mid, l'; by rewrite lookup_insert_eq|].
    destruct (decide (q ∈ nodes mid l)) as [Hin'|Hin'].
    { rewrite (up_gone _ _ _ _ _ Hu) in Hq by done. by destruct Hq. }
    rewrite (up_same _ _ _ _ _ Hu) in Hq by done. destruct (Ha q Hq) as (w & mid' & s & Hgw & Hqw).
    exists w, mid', s. split; [|done]. rewrite lookup_insert_ne; [done|]. intros <-. rewrite Hg in Hgw. injection Hgw as <- <-. done.
Qed.

(** A list is made. *)
Lemma sys_declare vars h h' A G v mid :
  sys vars h A G -> A !! v = None -> h !! mid = None -> rep h' mid [] -> same_but [mid] h h' ->
  sys (<[v := mid]> vars) h' (<[v := []]> A) (<[v := (mid, [])]> G).
Proof.
  intros Hsys Hv Hm Hr' Hs. pose proof (sys_lookup_none _ _ _ _ _ Hsys Hv) as Hg. destruct Hsys as [Ev Ea Hr Hd Ha].
  assert (Hne : forall w mid' s q, G !! w = Some (mid', s) -> q ∈ nodes mid' s -> q ∉ [mid]).
  { intros w mid' s q Hgw Hq ->%list_elem_of_singleton. destruct (rep_alloc _ _ _ _ (Hr _ _ _ Hgw) Hq). congruence. }
  split.
  - by rewrite fmap_insert, <-Ev.
  - by rewrite fmap_insert, <-Ea.
  - intros w mid' s [[<- [= <- <-]]|[Hw Hgw]]%lookup_insert_Some; [done|]. eapply rep_frame; [exact Hs| |by apply (Hr w)].
    intros q. by apply (Hne w).
  - intros w1 w2 m1 s1 m2 s2 q Hw [[<- [= <- <-]]|[Hw1 H1]]%lookup_insert_Some [[<- [= <- <-]]|[Hw2 H2]]%lookup_insert_Some Hq Hq2; try done.
    + by apply (Hne w2 m2 s2 q).
    + by apply (Hne w1 m1 s1 q).
    + by apply (Hd w1 w2 m1 s1 m2 s2 q).
  - intros q Hq. destruct (decide (q ∈ [mid])) as [Hin|Hin]; [exists v, mid, []; by rewrite lookup_insert_eq|].
    rewrite Hs in Hq by done. destruct (Ha q Hq) as (w & mid' & s & Hgw & Hqw). exists w, mid', s.
    split; [|done]. rewrite lookup_insert_ne; [done|]. by intros <-; rewrite Hg in Hgw.
Qed.

(** A list is destroyed. *)
Lemma sys_destroy vars h h' A G v mid l :
  sys vars h A G -> G !! v = Some (mid, l) -> (forall q, q ∈ nodes mid l -> h' !! q = None) -> same_but (nodes mid l) h h' ->
  sys (delete v vars) h' (delete v A) (delete v G).
Proof.
  intros [Ev Ea Hr Hd Ha] Hg Hgone Hs. split.
  - by rewrite fmap_delete, <-Ev.
  - by rewrite fmap_delete, <-Ea.
  - intros w mid' s [Hw Hgw]%lookup_delete_Some. eapply rep_frame; [exact Hs| |by apply (Hr w)].
    intros q Hq. by eapply (Hd w v).
  - intros w1 w2 m1 s1 m2 s2 q Hw [_ H1]%lookup_delete_Some [_ H2]%lookup_delete_Some. by apply (Hd w1 w2 m1 s1 m2 s2 q).
  - intros q Hq. destruct (decide (q ∈ nodes mid l)) as [Hin|Hin]; [rewrite Hgone in Hq by done; by destruct Hq|].
    rewrite Hs in Hq by done. destruct (Ha q Hq) as (w & mid' & s & Hgw & Hqw). exists w, mid', s.
    split; [|done]. rewrite lookup_delete_ne; [done|]. intros <-. rewrite Hg in Hgw. injection Hgw as <- <-. done.
Qed.

(** One step of a program. *)
Lemma step_refines vars h A G o A' :
  sys vars h A G -> spec_step A o = Some A' -> exists vars' h' G', step vars o h = Some (vars', h') /\ sys vars' h' A' G'.
Proof.
  intros Hs. assert (Hfind := fun v l => sys_lookup _ _ _ _ v l Hs).
  destruct o as [v|v w|v w|v|v x|v x|v i x|v i|v found|v]; cbn -[Nat.ltb Nat.leb]; unfold mbind, Mem_bind, var;
    try (destruct (A !! v) as [l|] eqn:Hv; cbn -[Nat.ltb Nat.leb]; [|done]; destruct (Hfind _ _ Hv) as (mid & ps & Hg & -> & Hvar & Hr);
      rewrite Hvar; cbn -[Nat.ltb Nat.leb]).
  - destruct (A !! v) eqn:Hv; [done|]. intros [= <-]. destruct (prep_rep h) as (mid & h' & -> & Hm & Hr & Hsame).
    do 3 eexists. split; [done|]. by eapply sys_declare.
  - destruct (A !! v) eqn:Hv; [done|]. destruct (A !! w) as [l|] eqn:Hw; [|done]. intros [= <-].
    destruct (Hfind _ _ Hw) as (src & ps & Hg & -> & -> & Hr). cbn.
    destruct (copy_eq _ _ _ Hr) as (mid & h1 & new & h' & -> & <- & Hm & Hr1 & Hsame & Hu).
    pose proof (sys_declare _ _ _ _ _ _ _ Hs Hv Hm Hr1 Hsame) as Hs1.
    eapply sys_update in Hs1; [|apply lookup_insert_eq|exact Hu]. rewrite !insert_insert_eq in Hs1.
    do 3 eexists. split; [done|]. exact Hs1.
  - destruct (A !! w) as [l|] eqn:Hw; [|done]. intros [= <-]. destruct (Hfind _ _ Hw) as (src & s & Hgw & -> & -> & Hrs). cbn.
    destruct (decide (v = w)) as [<-|Hne].
    + rewrite Hg in Hgw. injection Hgw as <- <-. unfold assign. rewrite bool_decide_true by done.
      rewrite insert_id by done. do 3 eexists. split; [done|]. exact Hs.
    + destruct (assign_updates h mid src ps s Hr Hrs) as (l' & h' & -> & <- & Hu).
      { intros q. by apply (sys_apart _ _ _ _ Hs w v). }
      do 3 eexists. split; [done|]. by eapply sys_update.
  - intros [= <-]. destruct (destroy_rep _ _ _ Hr) as (h' & -> & Hgone & Hsame).
    do 3 eexists. split; [done|]. by eapply sys_destroy.
  - intros [= <-]. destruct (push_back_updates _ _ _ x Hr) as (p & h' & -> & Hu). do 3 eexists. split; [done|].
    pose proof (sys_update _ _ _ _ _ _ _ _ _ Hs Hg Hu) as H. rewrite fmap_app in H. exact H.
  - intros [= <-]. destruct (push_front_updates _ _ _ x Hr) as (p & h' & -> & Hu). do 3 eexists. split; [done|].
    exact (sys_update _ _ _ _ _ _ _ _ _ Hs Hg Hu).
  - destruct (Nat.leb_spec i (length ps.*2)) as [Hi|]; [|done]. intros [= <-]. rewrite length_fmap in Hi.
    destruct (advance_begin _ _ _ i Hr Hi) as (b & -> & ->). rewrite <-(take_drop i ps) in Hr.
    destruct (insert_updates _ _ _ _ x Hr) as (p & h' & -> & Hu). rewrite take_drop in Hu. do 3 eexists. split; [done|].
    pose proof (sys_update _ _ _ _ _ _ _ _ _ Hs Hg Hu) as H.
    rewrite fmap_app, fmap_take, fmap_cons, fmap_drop in H. exact H.
  - destruct (Nat.ltb_spec i (length ps.*2)) as [Hi|]; [|done]. intros [= <-]. rewrite length_fmap in Hi.
    destruct (advance_begin _ _ _ i Hr) as (b & -> & ->); [lia|]. destruct (lookup_lt_is_Some_2 ps i Hi) as [[p x] Hc].
    rewrite (drop_S _ _ _ Hc). rewrite <-(take_drop i ps), (drop_S _ _ _ Hc) in Hr.
    destruct (erase_updates _ _ _ _ _ _ Hr) as (h' & He & Hu). change (at_ mid ((p, x) :: drop (Datatypes.S i) ps)) with p. rewrite He.
    rewrite <-(drop_S _ _ _ Hc), take_drop in Hu. do 3 eexists. split; [done|].
    pose proof (sys_update _ _ _ _ _ _ _ _ _ Hs Hg Hu) as H. rewrite fmap_app, fmap_take, fmap_drop in H. exact H.
  - intros [= <-]. destruct (find_erase_updates found _ _ _ Hr) as (l' & h' & -> & <- & Hu). do 3 eexists. split; [done|].
    by eapply sys_update.
  - intros [= <-]. destruct (clear_updates _ _ _ Hr) as (h' & -> & Hu). do 3 eexists. split; [done|].
    exact (sys_update _ _ _ _ _ _ _ _ _ Hs Hg Hu).
Qed.

Lemma run_refines vars h A G os A' :
  sys vars h A G -> spec A os = Some A' -> exists vars' h' G', run vars os h = Some (vars', h') /\ sys vars' h' A' G'.
Proof.
  revert vars h A G. induction os as [|o os IH]; intros vars h A G Hs; cbn; [intros [= <-]; eauto 10|].
  destruct (spec_step A o) as [A1|] eqn:Ho; [|done]. intros Hos.
  destruct (step_refines _ _ _ _ _ _ Hs Ho) as (vars1 & h1 & G1 & He & Hs1). unfold mbind, Mem_bind. rewrite He. by eapply IH.
Qed.

Lemma sys_empty : sys ∅ ∅ ∅ ∅.
Proof.
  split; [by rewrite fmap_empty|by rewrite fmap_empty|..].
  - by intros v mid l ?%lookup_empty_Some.
  - by intros v w mid l mid' l' q _ ?%lookup_empty_Some.
  - by intros q [n ?%lookup_empty_Some].
Qed.

(** C35. The linked lists are lists.  Whatever a program does with any number of
    lists - making, copying, assigning and destroying them, inserting and
    erasing anywhere, searching, clearing - no operation touches memory that is
    not allocated or reads what was not written, every loop ends, each list then
    has exactly the elements the operations on plain lists give, [size()] and
    [empty()] agree with them, and when all lists are destroyed no node is left. *)
Theorem list_refines (os : list (op T)) A :
  spec ∅ os = Some A -> exists vars h, run ∅ os ∅ = Some (vars, h) /\ dom vars = dom A /\
  (forall v l, A !! v = Some l -> exists mid, vars !! v = Some mid /\
    collect mid h = Some (l, h) /\ size_ mid h = Some (Z.of_nat (length l), h) /\
    empty mid h = Some (match l with [] => true | _ => false end, h)) /\
  (A = ∅ -> h = ∅).
Proof.
  intros Ha. destruct (run_refines _ _ _ _ _ _ sys_empty Ha) as (vars & h & G & He & Hs). exists vars, h.
  split; [done|]. split; [|split].
  - destruct Hs as [-> -> _ _ _]. by rewrite !dom_fmap_L.
  - intros v l Hv. destruct (sys_lookup _ _ _ _ _ _ Hs Hv) as (mid & ps & _ & -> & Hvar & Hr). exists mid.
    rewrite (collect_eq _ _ _ Hr), (size_eq _ _ _ Hr), (empty_rep _ _ _ Hr), length_fmap. by destruct ps.
  - intros ->. destruct Hs as [_ Hl _ _ Hall]. apply map_empty. intros q. destruct (h !! q) as [n|] eqn:Hq; [|done].
    destruct (Hall q) as (v & mid & l & Hg & _); [eauto|]. symmetry in Hl. apply fmap_empty_inv in Hl. by rewrite Hl in Hg.
Qed.
End System.

(** The loops of TetherController over its interfaces: [erase_first], with which
    TetherController is modelled, is what [find_erase] does on the nodes. *)
Lemma erase_first_remove name l : TetherController.erase_first name l = remove_first (String.eqb name) l.
Proof. induction l as [|x l IH]; cbn; [done|]. by rewrite IH. Qed.
Corollary erase_first_on_nodes name h mid (l : list (loc * string)) : rep h mid l -> exists l' h',
  find_erase (String.eqb name) mid h = Some (tt, h') /\ l'.*2 = TetherController.erase_first name l.*2 /\ updates h h' mid l l'.
Proof. rewrite erase_first_remove. apply find_erase_updates. Qed.

Definition sample_program : list (op string) :=
  [Declare_ 0; Push_back 0 "rndis0"; Push_back 0 "wlan0"; Push_front 0 "bt-pan"; Copy 1 0; Find_erase 1 (String.eqb "wlan0");
   Insert_at 1 1 "usb0"; Assign 0 1; Erase_at 0 0; Push_back 1 "rmnet0"; Clear 0; Destroy 0]%string.
Lemma list_refines_witness : exists vars h, run ∅ sample_program ∅ = Some (vars, h) /\
  exists mid, vars !! 1%nat = Some mid /\ collect mid h = Some (["bt-pan"; "usb0"; "rndis0"; "rmnet0"]%string, h).
Proof.
  destruct (list_refines sample_program {[ 1%nat := ["bt-pan"; "usb0"; "rndis0"; "rmnet0"]%string ]}) as (vars & h & He & _ & Hl & _);
    [vm_compute; reflexivity|].
  exists vars, h. split; [exact He|]. destruct (Hl 1%nat _ eq_refl) as (mid & Hm & Hc & _). eauto.
Defined.
