(* ===== verification/Mdns.v ===== *)
(** * Mdns: service discovery

    Models [server/MDnsSdListener.cpp]: the commands that start and stop requests
    to the DNS service discovery library, the table of requests in progress
    (class Monitor) and the thread that polls their sockets.  The two threads
    interleave at the critical sections of [mHeadMutex]; the library is a
    parameter. *)
From S2P Require Import Prelude Platform Cstd NetworkCommand CommandListener.

Module Mdns.

Definition ServiceStartFailed : Z := 402.
Definition ServiceStopFailed : Z := 403.
Definition ServiceDiscoveryFailed : Z := 602.
Definition ServiceDiscoveryServiceAdded : Z := 603.
Definition ServiceDiscoveryServiceRemoved : Z := 604.
Definition ServiceRegistrationFailed : Z := 605.
Definition ServiceRegistrationSucceeded : Z := 606.
Definition ServiceResolveFailed : Z := 607.
Definition ServiceResolveSuccess : Z := 608.
Definition ServiceSetHostnameFailed : Z := 609.
Definition ServiceSetHostnameSuccess : Z := 610.
Definition ServiceGetAddrInfoFailed : Z := 611.
Definition ServiceGetAddrInfoSuccess : Z := 612.

(** ** The library *)

(** The requests, with the arguments in the order the code gives them; [None] is NULL. *)
Inductive request :=
| DNSServiceBrowse (flags interface : Z) (regType : string) (domain : option string)
| DNSServiceRegister (arg1 arg2 : Z) (serviceName serviceType : string) (domain host : option string)
    (port txtLen : Z) (txtRecord : string)
| DNSServiceResolve (flags interface : Z) (serviceName regType domain : string)
| DNSServiceGetAddrInfo (flags interface protocol : Z) (hostname : string)
| DNSSetHostname (flags : Z) (hostname : string).

(** What the library reports through the callbacks. *)
Inductive callback :=
| DiscoverCallback (flags errorCode : Z) (serviceName regType replyDomain : string)
| RegisterCallback (errorCode : Z) (serviceName : string)
| ResolveCallback (errorCode : Z) (fullname hosttarget : string) (port txtLen : Z)
| GetAddrInfoCallback (errorCode : Z) (hostname : string) (sa_family : Z) (address : list Z) (ttl : Z)
| SetHostnameCallback (errorCode : Z) (hostname : string).

(** What happens, oldest first. *)
Inductive happening :=
| Requested (r : request) (result ref : Z)
| Deallocated (ref : Z)
| Processed (ref : Z)
| SentBroadcast (code : Z) (msg : string)
| SentReply (code : Z) (msg : string)
| Property (key value : string)
| Nap.
Definition history := list happening.

Class Library := {
  (** The result of a request; 0 is [kDNSServiceErr_NoError]. *)
  lib_request : history -> request -> Z;
  (** The [DNSServiceRef] a successful request stores. *)
  lib_ref : history -> Z;
  lib_sockFD : Z -> Z;
  (** The callbacks [DNSServiceProcessResult] makes. *)
  lib_process : history -> Z -> list callback;
  (** The value of a system property, empty when it is not set. *)
  property_get : history -> string -> string;
  (** [SocketClient::quoteArg] *)
  quoteArg : string -> string;
  inet_ntop : Z -> list Z -> string
}.

Definition kDNSServiceErr_NoError : Z := 0.
Definition kDNSServiceFlagsAdd : Z := 2.
Definition AF_INET : Z := 2.

(** ** The callbacks: the broadcast for each report *)
Section Callbacks.
Context {L : Library}.

Definition ntohs (port : Z) : Z := port mod 256 * 256 + port / 256 mod 256.
Definition htons (port : Z) : Z := ntohs (u16 port).

Definition failure (code refNumber errorCode : Z) : Z * string := (code, print_d refNumber +:+ " " +:+ print_d errorCode).

Definition MDnsSdListenerDiscoverCallback (refNumber flags errorCode : Z) (serviceName regType replyDomain : string) : Z * string :=
  if negb (errorCode =? kDNSServiceErr_NoError) then failure ServiceDiscoveryFailed refNumber errorCode
  else
    (if negb (Z.land flags kDNSServiceFlagsAdd =? 0) then ServiceDiscoveryServiceAdded else ServiceDiscoveryServiceRemoved,
     print_d refNumber +:+ " " +:+ quoteArg serviceName +:+ " " +:+ regType +:+ " " +:+ replyDomain).

Definition MDnsSdListenerRegisterCallback (refNumber errorCode : Z) (serviceName : string) : Z * string :=
  if negb (errorCode =? kDNSServiceErr_NoError) then failure ServiceRegistrationFailed refNumber errorCode
  else (ServiceRegistrationSucceeded, print_d refNumber +:+ " " +:+ quoteArg serviceName).

Definition MDnsSdListenerResolveCallback (refNumber errorCode : Z) (fullname hosttarget : string) (port txtLen : Z) : Z * string :=
  if negb (errorCode =? kDNSServiceErr_NoError) then failure ServiceResolveFailed refNumber errorCode
  else
    (ServiceResolveSuccess,
     print_d refNumber +:+ " " +:+ quoteArg fullname +:+ " " +:+ quoteArg hosttarget +:+ " " +:+
     print_d (ntohs port) +:+ " " +:+ print_d txtLen).

Definition MDnsSdListenerGetAddrInfoCallback (refNumber errorCode : Z) (hostname : string) (sa_family : Z) (address : list Z) (ttl : Z) : Z * string :=
  if negb (errorCode =? kDNSServiceErr_NoError) then failure ServiceGetAddrInfoFailed refNumber errorCode
  else
    (ServiceGetAddrInfoSuccess,
     print_d refNumber +:+ " " +:+ quoteArg hostname +:+ " " +:+ print_d (s32 ttl) +:+ " " +:+ inet_ntop sa_family address).

Definition MDnsSdListenerSetHostnameCallback (refNumber errorCode : Z) (hostname : string) : Z * string :=
  if negb (errorCode =? kDNSServiceErr_NoError) then failure ServiceSetHostnameFailed refNumber errorCode
  else (ServiceSetHostnameSuccess, print_d refNumber +:+ " " +:+ quoteArg hostname).

Definition broadcast (refNumber : Z) (c : callback) : Z * string :=
  match c with
  | DiscoverCallback flags err name ty dom => MDnsSdListenerDiscoverCallback refNumber flags err name ty dom
  | RegisterCallback err name => MDnsSdListenerRegisterCallback refNumber err name
  | ResolveCallback err name host port len => MDnsSdListenerResolveCallback refNumber err name host port len
  | GetAddrInfoCallback err host family addr ttl => MDnsSdListenerGetAddrInfoCallback refNumber err host family addr ttl
  | SetHostnameCallback err host => MDnsSdListenerSetHostnameCallback refNumber err host
  end.
End Callbacks.

(** ** The monitor *)

(** The variable of type [DNSServiceRef] in an element: not set until the library
    has stored a reference; the reference stays there when it is deallocated. *)
Inductive DNSServiceRef := Unset | Live (ref : Z) | Freed (ref : Z).
#[export] Instance DNSServiceRef_eq_dec : EqDecision DNSServiceRef.
Proof. solve_decision. Defined.

(** An element of the list, with the address it is allocated at; [mContext] is
    the [mRefNumber] of the context. *)
Record Element := MkElement { address : positive; mId : Z; mRef : DNSServiceRef; mContext : Z; mReady : Z }.
#[export] Instance Element_eq_dec : EqDecision Element.
Proof. solve_decision. Defined.
Definition set_mRef (r : DNSServiceRef) (e : Element) : Element := MkElement (address e) (mId e) r (mContext e) (mReady e).
Definition set_mReady (r : Z) (e : Element) : Element := MkElement (address e) (mId e) (mRef e) (mContext e) r.

Record pollfd := MkPollfd { fd : Z; events : Z; revents : Z }.
Definition POLLIN : Z := 1.
Definition no_pollfd : pollfd := MkPollfd 0 0 0.

(** [mPollRefs] holds the addresses of elements, for the address of [mRef] in them. *)
Record Monitor := MkMonitor {
  mHead : list Element; mLiveCount : Z; mPollFds : list pollfd; mPollRefs : list (option positive);
  mPollSize : Z; mCtrlSocket : Z
}.

(** Where the poll thread is: in [poll], looking at entry [i], or about to
    rescan after it has read a byte. *)
Inductive place := Polling | Processing (i : nat) | Rescanning.

(** Everything the threads share, with the bytes waiting in the control socket,
    the poll thread's [pollCount] and the next address [new] gives. *)
Record World := MkWorld {
  monitor : Monitor; control : nat; pollCount : Z; at_ : place; log : history; fresh_address : positive
}.

Definition set_monitor (f : Monitor -> Monitor) (w : World) : World :=
  MkWorld (f (monitor w)) (control w) (pollCount w) (at_ w) (log w) (fresh_address w).
Definition set_mHead (els : list Element) (m : Monitor) : Monitor :=
  MkMonitor els (mLiveCount m) (mPollFds m) (mPollRefs m) (mPollSize m) (mCtrlSocket m).
Definition set_mLiveCount (n : Z) (m : Monitor) : Monitor :=
  MkMonitor (mHead m) n (mPollFds m) (mPollRefs m) (mPollSize m) (mCtrlSocket m).
Definition set_mPollFds (fds : list pollfd) (m : Monitor) : Monitor :=
  MkMonitor (mHead m) (mLiveCount m) fds (mPollRefs m) (mPollSize m) (mCtrlSocket m).
Definition happens (ev : history) (w : World) : World :=
  MkWorld (monitor w) (control w) (pollCount w) (at_ w) (log w ++ ev) (fresh_address w).
Definition goes (p : place) (w : World) : World :=
  MkWorld (monitor w) (control w) (pollCount w) p (log w) (fresh_address w).
(** [write(mCtrlSocketPair[1], RESCAN, 1)] *)
Definition notify (w : World) : World :=
  MkWorld (monitor w) (Datatypes.S (control w)) (pollCount w) (at_ w) (log w) (fresh_address w).
Definition read_control (w : World) : World :=
  MkWorld (monitor w) (pred (control w)) (pollCount w) (at_ w) (log w) (fresh_address w).

(** The constructor and the start of [run()]. *)
Definition init (ctrl : Z) : World :=
  MkWorld
    (MkMonitor [] 0 (MkPollfd ctrl POLLIN 0 :: repeat no_pollfd 9) (repeat None 10) 10 ctrl)
    0 1 Polling [] 1.

Definition has_id (id : Z) (e : Element) : bool := mId e =? id.
Definition find_id (id : Z) (els : list Element) : option Element := List.find (has_id id) els.
Definition at_address (p : positive) (e : Element) : bool := bool_decide (address e = p).
(** The element behind a pointer. *)
Definition deref (p : positive) (w : World) : option Element := List.find (at_address p) (mHead (monitor w)).

(** Change or remove the first element with this id. *)
Fixpoint update_id (id : Z) (f : Element -> Element) (els : list Element) : list Element :=
  match els with [] => [] | e :: els => if has_id id e then f e :: els else e :: update_id id f els end.
Fixpoint remove_id (id : Z) (els : list Element) : list Element :=
  match els with [] => [] | e :: els => if has_id id e then els else e :: remove_id id els end.

(** ** The critical sections *)

(** What a thread does next that others can see. *)
Inductive act : Set -> Type :=
| Lookup (id : Z) : act (option positive)          (** lookupServiceRef *)
| Insert (id : Z) : act positive                   (** the new element of allocateServiceRef *)
| Ask (r : request) (p : positive) : act Z         (** a call of the library *)
| Deallocate (p : positive) : act unit             (** DNSServiceRefDeallocate *)
| Mark (id : Z) : act bool                         (** startMonitoring, up to the unlock *)
| Notify : act unit                                (** startMonitoring, the write *)
| Free (id : Z) : act unit                         (** freeServiceRef *)
| StartService : act Z
| StopService : act Z
| Reply (code : Z) (msg : string) : act unit
| Overrun : act unit.                              (** a write past the end of [txtRecord] *)

(** A thread: it ends with a result or does something and goes on. *)
Inductive prog (R : Type) : Type :=
| Ret (r : R)
| Do {A : Set} (a : act A) (k : A -> prog R).
Arguments Ret {R} _.
Arguments Do {R A} _ _.

Fixpoint prog_bind {R S} (k : R -> prog S) (m : prog R) : prog S :=
  match m with Ret r => k r | Do a k' => Do a (fun x => prog_bind k (k' x)) end.
#[export] Instance prog_ret : MRet prog := @Ret.
#[export] Instance prog_mbind : MBind prog := @prog_bind.
Definition do {A : Set} (a : act A) : prog A := Do a Ret.

(** What can go wrong. *)
Inductive fault :=
| BadPointer               (** a pointer to a deleted element, a null pointer, or a reference never stored *)
| DeadReference (ref : Z)  (** the library is given a reference that has been deallocated *)
| PastEnd                  (** [mPollFds] or [mPollRefs] past its end *)
| Endless                  (** the loop of [rescan()] stays at an element *)
| TxtOverrun.              (** a write past the end of [txtRecord] *)

(** A result, or undefined behaviour with what happened before. *)
Inductive outcome (A : Type) : Type := Ok (a : A) (w : World) | Undefined (f : fault) (h : history).
Arguments Ok {A} _ _.
Arguments Undefined {A} _ _.

Section Perform.
Context {L : Library}.

Definition lookupServiceRef (id : Z) (w : World) : option positive :=
  option_map address (find_id id (mHead (monitor w))).

Definition insert (id : Z) (w : World) : World :=
  let m := monitor w in
  MkWorld (set_mHead (MkElement (fresh_address w) id Unset id 0 :: mHead m) m)
    (control w) (pollCount w) (at_ w) (log w) (Pos.succ (fresh_address w)).

(** startMonitoring up to the unlock; whether it goes on to write. *)
Definition mark (id : Z) (w : World) : bool * World :=
  let m := monitor w in
  match find_id id (mHead m) with
  | Some _ => (true, set_monitor (fun _ => set_mLiveCount (s32 (mLiveCount m + 1)) (set_mHead (update_id id (set_mReady 1) (mHead m)) m)) w)
  | None => (false, w)
  end.

Definition freeServiceRef (id : Z) (w : World) : World :=
  let m := monitor w in
  match find_id id (mHead m) with
  | None => w
  | Some cur =>
      let m := set_mLiveCount (s32 (mLiveCount m - 1)) m in
      if mReady cur =? 1 then notify (set_monitor (fun _ => set_mHead (update_id id (set_mReady (-1)) (mHead m)) m) w)
      else set_monitor (fun _ => set_mHead (remove_id id (mHead m)) m) w
  end.

Definition ask (r : request) (p : positive) (w : World) : outcome Z :=
  match deref p w with
  | None => Undefined BadPointer (log w)
  | Some e =>
      let result := lib_request (log w) r in
      let ref := lib_ref (log w) in
      let store e' := if at_address p e' && (result =? kDNSServiceErr_NoError) then set_mRef (Live ref) e' else e' in
      Ok result (happens [Requested r result ref] (set_monitor (fun m => set_mHead (map store (mHead m)) m) w))
  end.

Definition deallocate (p : positive) (w : World) : outcome unit :=
  match option_map mRef (deref p w) with
  | Some (Live ref) =>
      let free e := if at_address p e then set_mRef (Freed ref) e else e in
      Ok tt (happens [Deallocated ref] (set_monitor (fun m => set_mHead (map free (mHead m)) m) w))
  | Some (Freed ref) => Undefined (DeadReference ref) (log w)
  | Some Unset | None => Undefined BadPointer (log w)
  end.

(** [wait_for_property]: at most [naps] naps of 200 ms. *)
Fixpoint wait_for_property_loop (name desired_value : string) (naps : nat) (w : World) : Z * World :=
  match naps with
  | O => (-1, w)
  | Datatypes.S naps =>
      let w := happens [Nap] w in
      let value := property_get (log w) name in
      if negb (String.eqb value "") && String.eqb value desired_value then (0, w)
      else wait_for_property_loop name desired_value naps w
  end.
Definition wait_for_property (name desired_value : string) (maxwait : Z) (w : World) : Z * World :=
  wait_for_property_loop name desired_value (Z.to_nat (Z.max 1 (maxwait * 1000 / 200))) w.

Definition MDNS_SERVICE_NAME : string := "mdnsd".
Definition MDNS_SERVICE_STATUS : string := "init.svc.mdnsd".

Definition startService (w : World) : Z * World :=
  if negb (String.eqb "running" (property_get (log w) MDNS_SERVICE_STATUS))
  then (-1, (wait_for_property MDNS_SERVICE_STATUS "running" 5 (happens [Property "ctl.start" MDNS_SERVICE_NAME] w)).2)
  else (0, w).
Definition stopService (w : World) : Z * World :=
  match mHead (monitor w) with
  | [] => (-1, (wait_for_property MDNS_SERVICE_STATUS "stopped" 5 (happens [Property "ctl.stop" MDNS_SERVICE_NAME] w)).2)
  | _ => (0, w)
  end.

Definition perform {A} (a : act A) (w : World) : outcome A :=
  match a in act A return outcome A with
  | Lookup id => Ok (lookupServiceRef id w) w
  | Insert id => Ok (fresh_address w) (insert id w)
  | Ask r p => ask r p w
  | Deallocate p => deallocate p w
  | Mark id => let '(found, w) := mark id w in Ok found w
  | Notify => Ok tt (notify w)
  | Free id => Ok tt (freeServiceRef id w)
  | StartService => let '(r, w) := startService w in Ok r w
  | StopService => let '(r, w) := stopService w in Ok r w
  | Reply code msg => Ok tt (happens [SentReply code msg] w)
  | Overrun => Undefined TxtOverrun (log w)
  end.
End Perform.

(** ** The commands *)

Section Handler.
Implicit Types (argv : list string) (requestId : Z).

Definition allocateServiceRef (id : Z) : prog (option positive) :=
  found ← do (Lookup id);
  match found with
  | Some _ => mret None
  | None => e ← do (Insert id); mret (Some e)
  end.
Definition startMonitoring (id : Z) : prog unit :=
  found ← do (Mark id);
  if found : bool then do Notify else mret tt.

Definition parameter_error (msg : string) : prog unit := do (Reply CommandParameterError msg).

(** The body the five kinds of requests share: the texts of its errors and of
    its success, and the call of the library. *)
Definition start_request requestId (inUse failed started : string) (r : request) : prog unit :=
  ref ← allocateServiceRef requestId;
  match ref with
  | None => parameter_error inUse
  | Some ref =>
      result ← do (Ask r ref);
      if negb (result =? kDNSServiceErr_NoError) then do (Free requestId);; parameter_error failed
      else startMonitoring requestId;; do (Reply CommandOkay started)
  end.

Definition ifaceNameToI (iface : option string) : Z := 0.
Definition iToFlags (i : Z) : Z := 0.

Definition discover (iface : option string) (regType : string) (domain : option string) requestId (requestFlags : Z) : prog unit :=
  start_request requestId "RequestId already in use during discover call"
    "Discover request got an error from DNSServiceBrowse" "Discover operation started"
    (DNSServiceBrowse (iToFlags requestFlags) (ifaceNameToI iface) regType domain).

Definition serviceRegister requestId (interfaceName : option string) (serviceName serviceType : string)
    (domain host : option string) (port txtLen : Z) (txtRecord : string) : prog unit :=
  start_request requestId "RequestId already in use during register call"
    "serviceRegister request got an error from DNSServiceRegister" "serviceRegister started"
    (DNSServiceRegister (ifaceNameToI interfaceName) 0 serviceName serviceType domain host (htons port) txtLen txtRecord).

Definition resolveService requestId (interfaceName : option string) (serviceName regType domain : string) : prog unit :=
  start_request requestId "RequestId already in use during resolve call"
    "resolveService got an error from DNSServiceResolve" "resolveService started"
    (DNSServiceResolve 0 (ifaceNameToI interfaceName) serviceName regType domain).

Definition getAddrInfo requestId (interfaceName : option string) (protocol : Z) (hostname : string) : prog unit :=
  start_request requestId "RequestId already in use during getAddrInfo call"
    "getAddrInfo request got an error from DNSServiceGetAddrInfo" "getAddrInfo started"
    (DNSServiceGetAddrInfo 0 (ifaceNameToI interfaceName) protocol hostname).

Definition setHostname requestId (hostname : string) : prog unit :=
  start_request requestId "RequestId already in use during setHostname call"
    "setHostname got an error from DNSSetHostname" "setHostname started" (DNSSetHostname 0 hostname).

Definition stop argv (str : string) : prog unit :=
  match argv with
  | [_; _; a2] =>
      let requestId := atoi a2 in
      ref ← do (Lookup requestId);
      match ref with
      | None => parameter_error "Unknown requestId"
      | Some ref =>
          do (Deallocate ref);;
          do (Free requestId);;
          do (Reply CommandOkay (str +:+ " stopped"))
      end
  | _ => parameter_error ("Invalid number of arguments to " +:+ str)
  end.

(** *** The TXT record of a registration *)

Inductive txt := Txt (record : string) | FieldTooLong | RecordTooLong.
Definition TXT_RECORD_SIZE : Z := 2048.

(** The bytes from [txtRecord] to [ptr] are [used], and [top] is the highest index
    written: [strcpy] also writes the zero after the field, at [ptr + dataLength]. *)
Fixpoint txt_record (used : string) (top : Z) (args : list string) : txt * Z :=
  match args with
  | [] => (Txt used, top)
  | a :: args =>
      let dataLength := strlen a in
      if dataLength <? 1 then txt_record used top args
      else if 255 <? dataLength then (FieldTooLong, top)
      else if TXT_RECORD_SIZE <? strlen used + dataLength + 1 then (RecordTooLong, top)
      else
        txt_record (used +:+ String (Ascii.ascii_of_nat (String.length a)) a)
          (Z.max top (strlen used + 1 + dataLength)) args
  end.

Definition register argv : prog unit :=
  match argv with
  | _ :: _ :: a2 :: serviceName :: serviceType :: a5 :: fields =>
      let '(record, top) := txt_record "" 0 fields in
      if TXT_RECORD_SIZE <=? top then do Overrun
      else
        match record with
        | FieldTooLong => parameter_error "TXT record fields must not be longer than 255 characters"
        | RecordTooLong => parameter_error "Total length of TXT record must be smaller than 2048 bytes"
        | Txt txtRecord =>
            serviceRegister (atoi a2) None serviceName serviceType None None (atoi a5) (strlen txtRecord) txtRecord
        end
  | _ => parameter_error "Invalid number of arguments to mdnssd register"
  end.

(** *** The dispatch *)

Definition service (r : Z) (ok : string) (code : Z) (failed : string) : prog unit :=
  if negb (r =? 0) then do (Reply CommandOkay ok) else do (Reply code failed).

Definition runCommand argv : prog Z :=
  match argv with
  | [] | [_] =>
      parameter_error ("Invalid number of arguments to mdnssd: " +:+ print_d (Z.of_nat (length argv)));; mret (-1)
  | _ :: cmd :: args =>
      (if String.eqb cmd "discover" then
         match args with
         | [a2; serviceType] => discover None serviceType None (atoi a2) 0
         | _ => parameter_error "Invalid number of arguments to mdnssd discover"
         end
       else if String.eqb cmd "stop-discover" then stop argv "discover"
       else if String.eqb cmd "register" then register argv
       else if String.eqb cmd "stop-register" then stop argv "register"
       else if String.eqb cmd "resolve" then
         match args with
         | [a2; serviceName; regType; domain] => resolveService (atoi a2) None serviceName regType domain
         | _ => parameter_error "Invalid number of arguments to mdnssd resolve"
         end
       else if String.eqb cmd "stop-resolve" then stop argv "resolve"
       else if String.eqb cmd "start-service" then
         r ← do StartService; service r "Service Started" ServiceStartFailed "Service already running"
       else if String.eqb cmd "stop-service" then
         r ← do StopService; service r "Service Stopped" ServiceStopFailed "Service still in use"
       else if String.eqb cmd "sethostname" then
         match args with
         | [a2; hostname] => setHostname (atoi a2) hostname
         | _ => parameter_error "Invalid number of arguments to mdnssd sethostname"
         end
       else if String.eqb cmd "stop-sethostname" then stop argv "sethostname"
       else if String.eqb cmd "getaddrinfo" then
         match args with
         | [a2; hostname] => getAddrInfo (atoi a2) None 0 hostname
         | _ => parameter_error "Invalid number of arguments to mdnssd getaddrinfo"
         end
       else if String.eqb cmd "stop-getaddrinfo" then stop argv "getaddrinfo"
       else do (Reply CommandSyntaxError "Unknown mdnssd cmd"));;
      mret 0
  end.
End Handler.

(** ** The poll thread *)

Section Poll.
Context {L : Library}.

(** The loop of [rescan()] over the list: the elements kept, [i], and the two
    arrays. *)
Definition rescanned : Type := list Element * nat * list pollfd * list (option positive).
Definition keep (e : Element) (r : fault + rescanned) : fault + rescanned :=
  match r with inl f => inl f | inr (els, i, fds, refs) => inr (e :: els, i, fds, refs) end.
Fixpoint rescan_loop (els : list Element) (i : nat) (fds : list pollfd) (refs : list (option positive)) : fault + rescanned :=
  match els with
  | [] => inr ([], i, fds, refs)
  | e :: els =>
      if mReady e =? 1 then
        match mRef e with
        | Unset => inl BadPointer
        | Freed ref => inl (DeadReference ref)
        | Live ref =>
            let fd := lib_sockFD ref in
            if negb (fd =? -1) then
              if (i <? length fds)%nat && (i <? length refs)%nat then
                keep e (rescan_loop els (Datatypes.S i) (<[i := MkPollfd fd POLLIN 0]> fds) (<[i := Some (address e)]> refs))
              else inl PastEnd
            else keep e (rescan_loop els i fds refs)
        end
      else if mReady e =? -1 then rescan_loop els i fds refs
      else if mReady e =? 0 then keep e (rescan_loop els i fds refs)
      else inl Endless
  end.

Definition rescan (w : World) : outcome unit :=
  let m := monitor w in
  let size := if mPollSize m <=? mLiveCount m then mLiveCount m + 5 else mPollSize m in
  let fds := repeat no_pollfd (Z.to_nat size) in
  let refs := repeat None (Z.to_nat size) in
  match rescan_loop (mHead m) 1 (<[0%nat := MkPollfd (mCtrlSocket m) POLLIN 0]> fds) refs with
  | inl f => Undefined f (log w)
  | inr (els, i, fds, refs) =>
      Ok tt (MkWorld (MkMonitor els (mLiveCount m) fds refs size (mCtrlSocket m)) (control w) (Z.of_nat i) (at_ w) (log w) (fresh_address w))
  end.

Definition clear_revents (i : nat) (w : World) : World :=
  set_monitor (fun m => set_mPollFds (alter (fun p => MkPollfd (fd p) (events p) 0) i (mPollFds m)) m) w.

(** One step; [found] is what [poll] reports, for each of its entries, when it
    is in [poll] (all zero: a timeout or an error). *)
Definition poll_step (found : list Z) (w : World) : outcome unit :=
  let m := monitor w in
  match at_ w with
  | Polling =>
      if Z.of_nat (length (mPollFds m)) <? pollCount w then Undefined PastEnd (log w)
      else if forallb (Z.eqb 0) found then Ok tt w
      else
        let fds := zip_with (fun p r => MkPollfd (fd p) (events p) r) (take (Z.to_nat (pollCount w)) (mPollFds m)) found ++
                   drop (Z.to_nat (pollCount w)) (mPollFds m) in
        Ok tt (goes (Processing 1) (set_monitor (set_mPollFds fds) w))
  | Processing i =>
      if Z.of_nat i <? pollCount w then
        match mPollFds m !! i with
        | None => Undefined PastEnd (log w)
        | Some p =>
            if negb (revents p =? 0) then
              match mPollRefs m !! i with
              | Some (Some a) =>
                  match deref a w with
                  | Some e =>
                      match mRef e with
                      | Live ref =>
                          let msgs := map (broadcast (mContext e)) (lib_process (log w) ref) in
                          Ok tt (goes (Processing (Datatypes.S i))
                            (clear_revents i (happens (Processed ref :: map (fun c => SentBroadcast c.1 c.2) msgs) w)))
                      | Freed ref => Undefined (DeadReference ref) (log w)
                      | Unset => Undefined BadPointer (log w)
                      end
                  | None => Undefined BadPointer (log w)
                  end
              | Some None => Undefined BadPointer (log w)
              | None => Undefined PastEnd (log w)
              end
            else Ok tt (goes (Processing (Datatypes.S i)) w)
        end
      else
        match mPollFds m !! 0%nat with
        | None => Undefined PastEnd (log w)
        | Some p =>
            if revents p =? POLLIN then Ok tt (goes Rescanning (read_control w))
            else Ok tt (goes Polling (clear_revents 0 w))
        end
  | Rescanning =>
      match rescan w with
      | Ok _ w => Ok tt (goes Polling (clear_revents 0 w))
      | Undefined f h => Undefined f h
      end
  end.

(** What the kernel may report: one word per entry; the control socket is
    readable only when a byte waits in it. *)
Definition may_find (found : list Z) (w : World) : bool :=
  (Z.of_nat (length found) =? pollCount w) &&
  match found with r :: _ => (r =? 0) || (r =? POLLIN) && (0 <? control w)%nat | [] => false end.
End Poll.

(** ** Both threads *)

Inductive state := Running (w : World) (p : prog Z) | Stuck (f : fault) (h : history).

Section System.
Context {L : Library}.
(** The commands clients send in a state. *)
Context (sends : World -> list string -> bool).

(** A client's command is taken when the one before is done; the command thread
    goes on; the poll thread goes on. *)
Inductive choice := Command (argv : list string) | Act | Poll (found : list Z).

Definition move (c : choice) (s : state) : option state :=
  match s with
  | Stuck _ _ => None
  | Running w p =>
      match c with
      | Command argv =>
          match p with Ret _ => if sends w argv then Some (Running w (runCommand argv)) else None | Do _ _ => None end
      | Act =>
          match p with
          | Ret _ => None
          | Do a k => Some match perform a w with Ok x w => Running w (k x) | Undefined f h => Stuck f h end
          end
      | Poll found =>
          if match at_ w with Polling => may_find found w | _ => true end
          then Some match poll_step found w with Ok _ w => Running w p | Undefined f h => Stuck f h end
          else None
      end
  end.

Fixpoint moves (cs : list choice) (s : state) : option state :=
  match cs with [] => Some s | c :: cs => match move c s with Some s => moves cs s | None => None end end.

Definition start (ctrl : Z) : state := Running (init ctrl) (Ret 0).
Definition reachable (ctrl : Z) (s : state) : Prop := exists cs, moves cs (start ctrl) = Some s.
End System.
End Mdns.

(** A library for examples: requests of the service type "bad" fail; each report
    is of a service found. *)
#[export] Instance sample_library : Mdns.Library := {|
  Mdns.lib_request h r := match r with Mdns.DNSServiceBrowse _ _ "bad" _ => -65540 | _ => 0 end;
  Mdns.lib_ref h := Z.of_nat (length h);
  Mdns.lib_sockFD ref := 100 + ref;
  Mdns.lib_process h ref := [Mdns.DiscoverCallback 2 0 "printer" "_ipp._tcp" "local."];
  Mdns.property_get h name := "running";
  Mdns.quoteArg s := String "034" (s +:+ String "034" "");
  Mdns.inet_ntop family a := "0.0.0.0"
|}.
