(* ===== verification/MdnsSpec.v ===== *)
(** * MdnsSpec: what the two threads of service discovery keep

    Theorems on Mdns.v that hold in every interleaving of the command thread and
    the poll thread.  The poll thread may take any number of steps before each
    action of a command: [env] is what those steps can change, and a command is
    proved against it action by action ([safe]). *)
From S2P Require Import Prelude Platform Cstd NetworkCommand CommandListener Mdns.
Import Mdns.

Section Spec.
Context {L : Library}.
Implicit Types (w : World) (els : list Element) (id : Z) (p : positive).

(** ** The invariant *)

Definition live (e : Element) : bool := mReady e =? 1.
Definition kept (e : Element) : bool := negb (mReady e =? -1).
Definition has_ref (e : Element) : bool := match mRef e with Unset => false | _ => true end.
Definition socket (e : Element) : Z := match mRef e with Unset => -1 | Live ref | Freed ref => lib_sockFD ref end.
(** Watched by the poll thread once it has rescanned: the pointer and the socket. *)
Definition monitored (e : Element) : bool := live e && negb (socket e =? -1).
Definition wanted els : list (option positive) := map (fun e => Some (address e)) (List.filter monitored els).
Definition wanted_fds els : list (Z * Z) := map (fun e => (socket e, POLLIN)) (List.filter monitored els).

(** The entries of [mPollRefs] the poll thread looks at, and what it asks [poll]
    for: the sockets and the events, first of all of the control socket. *)
Definition watched w : list (option positive) := take (Z.to_nat (pollCount w) - 1) (drop 1 (mPollRefs (monitor w))).
Definition entry (p : pollfd) : Z * Z := (fd p, events p).
Definition polled w : list (Z * Z) := map entry (take (Z.to_nat (pollCount w)) (mPollFds (monitor w))).

Definition requests (h : history) : list happening :=
  List.filter (fun x => match x with Requested _ _ _ => true | _ => false end) h.
(** No request has failed, and there have not been 2^31 of them. *)
Definition calm (h : history) : Prop :=
  Forall (fun x => match x with Requested _ result _ => result = 0 | _ => True end) (requests h) /\
  Z.of_nat (length (requests h)) < 2 ^ 31.

Definition count (P : Element -> bool) els : nat := length (List.filter P els).

Definition ready_ok (e : Element) : Prop := mReady e = 0 \/ (mReady e = 1 \/ mReady e = -1) /\ has_ref e = true.

Record good els : Prop := {
  g_ids : NoDup (map mId els);
  g_addresses : NoDup (map address els);
  g_ready : Forall ready_ok els
}.

(** A reference that is no longer live has been deallocated. *)
Definition freed_ok (h : history) els : Prop := Forall (fun e => forall ref, mRef e = Freed ref -> In (Deallocated ref) h) els.
(** What may go wrong: references deallocated under the poll thread, and, once a
    request has failed, the ends of the two arrays. *)
Definition tolerated (f : fault) (h : history) : Prop :=
  f = TxtOverrun \/ (exists ref, f = DeadReference ref /\ In (Deallocated ref) h) \/ f = PastEnd /\ ~ calm h.

Definition points_in els (o : option positive) : Prop := exists e, In e els /\ o = Some (address e) /\ mReady e <> 0.

Definition place_ok (a : place) : Prop := match a with Processing i => (1 <= i)%nat | _ => True end.

Record inv w : Prop := {
  i_place : place_ok (at_ w);
  i_good : good (mHead (monitor w));
  i_fresh : Forall (fun e => (address e < fresh_address w)%positive) (mHead (monitor w));
  i_fds : Z.of_nat (length (mPollFds (monitor w))) = mPollSize (monitor w);
  i_refs : Z.of_nat (length (mPollRefs (monitor w))) = mPollSize (monitor w);
  i_poll : 1 <= pollCount w <= mPollSize (monitor w);
  i_points : Forall (points_in (mHead (monitor w))) (watched w);
  i_few : (count has_ref (mHead (monitor w)) <= length (requests (log w)))%nat;
  i_ctrl : hd_error (polled w) = Some (mCtrlSocket (monitor w), POLLIN);
  i_freed : freed_ok (log w) (mHead (monitor w));
  i_count : calm (log w) -> mLiveCount (monitor w) = Z.of_nat (count live (mHead (monitor w)))
}.

(** The poll thread watches exactly the requests in progress, or is going to rescan. *)
Definition up_to_date w : Prop :=
  watched w = wanted (mHead (monitor w)) /\ tl (polled w) = wanted_fds (mHead (monitor w)) /\
  Forall (fun e => kept e = true) (mHead (monitor w)).
Definition synced w : Prop := up_to_date w \/ (0 < control w)%nat \/ at_ w = Rescanning.

(** What the poll thread can do to what the commands use. *)
Definition env w w' : Prop :=
  (mHead (monitor w') = mHead (monitor w) \/ mHead (monitor w') = List.filter kept (mHead (monitor w))) /\
  fresh_address w' = fresh_address w /\ requests (log w') = requests (log w).

Lemma env_refl w : env w w.
Proof. split; auto. Qed.
Lemma filter_idem els : List.filter kept (List.filter kept els) = List.filter kept els.
Proof. induction els as [|e els IH]; [done|]. cbn. destruct (kept e) eqn:He; [|done]. cbn. by rewrite He, IH. Qed.
Lemma env_trans w1 w2 w3 : env w1 w2 -> env w2 w3 -> env w1 w3.
Proof.
  intros [[E1|E1] [F1 R1]] [[E2|E2] [F2 R2]]; (split; [|by rewrite F2, R2]); rewrite E2, E1; rewrite ?filter_idem; auto.
Qed.
Lemma env_in w w' e : env w w' -> In e (mHead (monitor w')) -> In e (mHead (monitor w)).
Proof. intros [[->| ->] _] H; [done|]. by apply filter_In in H as [H _]. Qed.
Lemma env_kept w w' e : env w w' -> In e (mHead (monitor w)) -> kept e = true -> In e (mHead (monitor w')).
Proof. intros [[->| ->] _] H K; [done|]. by apply filter_In. Qed.

(** ** Lists of elements *)

Lemma NoDup_map_filter {B} (f : Element -> B) P els : NoDup (map f els) -> NoDup (map f (List.filter P els)).
Proof.
  induction els as [|e els IH]; [done|]. cbn. intros [Hn Hd]%NoDup_cons. destruct (P e); [|auto].
  cbn. constructor; [|auto]. intros Hin. apply Hn. rewrite list_elem_of_In in *. apply in_map_iff in Hin as (x & <- & Hx).
  apply filter_In in Hx as [Hx _]. by apply in_map.
Qed.
Lemma good_filter P els : good els -> good (List.filter P els).
Proof.
  intros [H1 H2 H3]. split; [by apply NoDup_map_filter..|]. rewrite List.Forall_forall in *.
  intros e [He _]%filter_In. by apply H3.
Qed.
Lemma count_filter_le P Q els : (count P (List.filter Q els) <= count P els)%nat.
Proof.
  unfold count. induction els as [|e els IH]; [done|]. cbn. destruct (Q e); cbn; destruct (P e); cbn; lia.
Qed.
Lemma count_le (P Q : Element -> bool) els : (forall e, In e els -> P e = true -> Q e = true) -> (count P els <= count Q els)%nat.
Proof.
  unfold count. induction els as [|e els IH]; [done|]. intros H. assert (IH' := IH (fun x Hx => H x (or_intror Hx))).
  specialize (H e (or_introl eq_refl)). cbn. destruct (P e); cbn; [rewrite H by done; cbn; lia|]. destruct (Q e); cbn; lia.
Qed.
Lemma live_kept_count els : count live (List.filter kept els) = count live els.
Proof.
  unfold count, live, kept. induction els as [|e els IH]; [done|]. cbn. destruct (Z.eqb_spec (mReady e) (-1)) as [E|E]; cbn.
  - by rewrite E.
  - destruct (mReady e =? 1); cbn; by rewrite IH.
Qed.
Lemma live_has_ref els : good els -> (count live els <= count has_ref els)%nat.
Proof.
  intros [_ _ Hr]. apply count_le. intros e He Hl. rewrite List.Forall_forall in Hr. apply Z.eqb_eq in Hl.
  destruct (Hr e He) as [?|[_ ?]]; [lia|done].
Qed.
Lemma good_in els e e' : good els -> In e els -> In e' els -> mId e = mId e' \/ address e = address e' -> e = e'.
Proof.
  intros [H1 H2 _]. induction els as [|x els IH]; [done|]. cbn in H1, H2.
  apply NoDup_cons in H1 as [Hi H1], H2 as [Ha H2]. rewrite list_elem_of_In, in_map_iff in Hi. rewrite list_elem_of_In, in_map_iff in Ha.
  intros [->|He] [->|He'] E; [done|..|auto]; exfalso; destruct E as [E|E]; [apply Hi|apply Ha|apply Hi|apply Ha]; eauto.
Qed.

(** ** Rescanning *)

Lemma take_insert_S {X} (i : nat) (x : X) (l : list X) : (i < length l)%nat -> take (Datatypes.S i) (<[i := x]> l) = take i l ++ [x].
Proof.
  intros Hi. rewrite (take_S_r _ _ x) by (by apply list_lookup_insert_eq). by rewrite take_insert_ge.
Qed.

(** The three kinds of elements, as the loop tells them apart. *)
Lemma ready_cases e : ready_ok e ->
  (mReady e = 0 /\ live e = false /\ kept e = true /\ monitored e = false) \/
  (mReady e = -1 /\ live e = false /\ kept e = false /\ monitored e = false) \/
  (mReady e = 1 /\ live e = true /\ kept e = true /\
    exists ref, (mRef e = Live ref \/ mRef e = Freed ref) /\ socket e = lib_sockFD ref /\ monitored e = negb (lib_sockFD ref =? -1)).
Proof.
  unfold ready_ok, monitored, live, kept, has_ref, socket. intros [E|[[E|E] H]]; rewrite E; [by left|right; right|by right; left].
  destruct (mRef e) as [|ref|ref]; [done|..]; (split; [done|]; split; [done|]; split; [done|]; exists ref; auto).
Qed.

Lemma rescan_loop_ok els i fds refs els' j fds' refs' :
  Forall ready_ok els -> length fds = length refs -> (i <= length refs)%nat ->
  rescan_loop els i fds refs = inr (els', j, fds', refs') ->
  els' = List.filter kept els /\ j = (i + length (wanted els))%nat /\ (j <= length refs')%nat /\
  length fds' = length fds /\ length refs' = length refs /\ take j refs' = take i refs ++ wanted els /\
  map entry (take j fds') = map entry (take i fds) ++ wanted_fds els.
Proof.
  revert i fds refs els'. induction els as [|e els IH]; intros i fds refs els' Hr Hl Hi.
  { cbn. intros [= <- <- <- <-]. by rewrite Nat.add_0_r, !app_nil_r. }
  apply Forall_cons in Hr as [He Hr]. unfold wanted, wanted_fds in *. cbn -[Nat.ltb].
  assert (Hkeep : forall i fds refs, keep e (rescan_loop els i fds refs) = inr (els', j, fds', refs') ->
    exists els1, rescan_loop els i fds refs = inr (els1, j, fds', refs') /\ els' = e :: els1).
  { intros i' fds1 refs1. destruct (rescan_loop els i' fds1 refs1) as [|[[[els1 j1] fds2] refs2]]; [done|]. cbn. intros [= <- <- <- <-]. eauto. }
  destruct (ready_cases e He) as [(E & _ & -> & ->)|[(E & _ & -> & ->)|(E & _ & -> & ref & Href & Hsock & ->)]]; rewrite E; cbn -[Nat.ltb].
  - intros (els1 & H & ->)%Hkeep. apply IH in H as (-> & H); [|done..]. done.
  - by apply IH.
  - destruct Href as [-> | ->]; [|done]. destruct (lib_sockFD ref =? -1) eqn:Hfd; cbn -[Nat.ltb].
    + intros (els1 & H & ->)%Hkeep. apply IH in H as (-> & H); [|done..]. done.
    + destruct (Nat.ltb_spec i (length fds)) as [Hlt|]; [|done]. destruct (Nat.ltb_spec i (length refs)); [|done]. cbn.
      intros (els1 & H' & ->)%Hkeep. apply IH in H' as (-> & -> & H1 & H2 & H3 & H4 & H5); [|done|by rewrite !length_insert|rewrite length_insert; lia].
      rewrite length_insert in H2. rewrite length_insert in H3. rewrite Nat.add_succ_r. split; [done|]. split; [done|]. split; [done|].
      split; [done|]. split; [done|]. rewrite take_insert_S, <-app_assoc in H4 by done. split; [exact H4|].
      rewrite take_insert_S, map_app, <-app_assoc in H5 by done. rewrite Hsock. exact H5.
Qed.

(** What stops the loop: no room for every live element, or a reference that has
    been deallocated. *)
Lemma rescan_loop_fault els i fds refs f :
  Forall ready_ok els -> length fds = length refs -> rescan_loop els i fds refs = inl f ->
  f = PastEnd /\ (length refs < i + count live els)%nat \/ exists e ref, In e els /\ mRef e = Freed ref /\ f = DeadReference ref.
Proof.
  revert i fds refs. induction els as [|e els IH]; intros i fds refs Hr Hl; [done|].
  apply Forall_cons in Hr as [He Hr]. unfold count in *. cbn -[Nat.ltb].
  assert (Hkeep : forall i fds refs, keep e (rescan_loop els i fds refs) = inl f -> rescan_loop els i fds refs = inl f).
  { intros i' fds1 refs1. by destruct (rescan_loop els i' fds1 refs1) as [|[[[els1 j1] fds2] refs2]]. }
  assert (Hmore : (exists e ref, In e els /\ mRef e = Freed ref /\ f = DeadReference ref) ->
    exists e' ref, (e = e' \/ In e' els) /\ mRef e' = Freed ref /\ f = DeadReference ref).
  { intros (e' & ref & Hin & H). exists e', ref. split; [by right|done]. }
  destruct (ready_cases e He) as [(E & -> & _)|[(E & -> & _)|(E & -> & _ & ref & Href & _)]]; rewrite E; cbn -[Nat.ltb].
  - intros H%Hkeep. apply IH in H as [H|H]; auto.
  - intros H. apply IH in H as [H|H]; auto.
  - destruct Href as [-> | Href]; [|rewrite Href; intros [= <-]; right; exists e, ref; auto].
    destruct (lib_sockFD ref =? -1); cbn -[Nat.ltb].
    + intros H%Hkeep. apply IH in H as [[-> H]|H]; auto. left. split; [done|lia].
    + destruct (Nat.ltb_spec i (length fds)) as [Hlt|]; [|intros [= <-]; left; split; [done|lia]].
      destruct (Nat.ltb_spec i (length refs)); [|lia]. cbn.
      intros H'%Hkeep. apply IH in H' as [[-> H']|H']; [|by auto|done|by rewrite !length_insert]. rewrite length_insert in H'. left. split; [done|lia].
Qed.

(** *** The poll thread *)

Lemma watched_same w w' : pollCount w' = pollCount w -> mPollRefs (monitor w') = mPollRefs (monitor w) -> watched w' = watched w.
Proof. unfold watched. by intros -> ->. Qed.
Lemma polled_same w w' :
  pollCount w' = pollCount w -> map entry (mPollFds (monitor w')) = map entry (mPollFds (monitor w)) -> polled w' = polled w.
Proof. unfold polled. rewrite <-!firstn_map. by intros -> ->. Qed.
Lemma freed_log h h' els : (forall x, In x h -> In x h') -> freed_ok h els -> freed_ok h' els.
Proof. intros Hh H. eapply Forall_impl; [exact H|]. cbn. auto. Qed.

(** A step that leaves the monitor's list, references and counters alone. *)
Record quiet w w' : Prop := {
  q_head : mHead (monitor w') = mHead (monitor w);
  q_refs : mPollRefs (monitor w') = mPollRefs (monitor w);
  q_live : mLiveCount (monitor w') = mLiveCount (monitor w);
  q_size : mPollSize (monitor w') = mPollSize (monitor w);
  q_ctrl : mCtrlSocket (monitor w') = mCtrlSocket (monitor w);
  q_fds : map entry (mPollFds (monitor w')) = map entry (mPollFds (monitor w));
  q_count : pollCount w' = pollCount w;
  q_fresh : fresh_address w' = fresh_address w;
  q_requests : requests (log w') = requests (log w);
  q_log : forall x, In x (log w) -> In x (log w')
}.
Lemma inv_quiet w w' : quiet w w' -> place_ok (at_ w') -> inv w -> inv w' /\ env w w' /\ (up_to_date w -> up_to_date w').
Proof.
  intros [Eh Er Ec Es Ect Ef Ep Ea El Hlog] Hpl [_ H1 H2 H3 H4 H5 H6 H7 H8 H9 H10].
  assert (Elen : length (mPollFds (monitor w')) = length (mPollFds (monitor w))).
  { rewrite <-(length_map entry (mPollFds (monitor w'))), Ef. apply length_map. }
  split; [|split].
  - split; rewrite ?Eh, ?Er, ?Ec, ?Es, ?Elen, ?Ep, ?Ea, ?El, ?Ect, ?(watched_same _ _ Ep Er), ?(polled_same _ _ Ep Ef); try done.
    + by eapply freed_log.
    + intros Hc. apply H10. unfold calm. by rewrite <-El.
  - split; auto.
  - unfold up_to_date. by rewrite (watched_same _ _ Ep Er), (polled_same _ _ Ep Ef), Eh.
Qed.

Lemma requests_app h h' : requests (h ++ h') = requests h ++ requests h'.
Proof. apply List.filter_app. Qed.
Lemma requests_broadcasts l : requests (map (fun c : Z * string => SentBroadcast c.1 c.2) l) = [].
Proof. by induction l. Qed.

Lemma monitored_kept els : List.filter monitored (List.filter kept els) = List.filter monitored els.
Proof.
  induction els as [|e els IH]; [done|]. cbn. destruct (kept e) eqn:Hk; cbn.
  - by destruct (monitored e); cbn; rewrite IH.
  - assert (monitored e = false) as -> by (unfold monitored, live, kept in *; apply negb_false_iff, Z.eqb_eq in Hk; by rewrite Hk).
    done.
Qed.

(** Rescanning brings the poll thread up to date. *)
Lemma rescan_ok w w' : inv w -> rescan w = Ok tt w' -> inv w' /\ env w w' /\ up_to_date w'.
Proof.
  intros [Hpl Hg Hfr Hf Hr Hp Hpt Hfew Hct Hfd Hc]. unfold rescan. set (m := monitor w) in *.
  set (size := if mPollSize m <=? mLiveCount m then mLiveCount m + 5 else mPollSize m).
  assert (Hs : 0 < size) by (unfold size; destruct (Z.leb_spec (mPollSize m) (mLiveCount m)); lia).
  destruct (rescan_loop _ _ _ _) as [|[[[els j] fds'] refs']] eqn:Hl; [done|]. intros [= <-].
  apply rescan_loop_ok in Hl as (-> & -> & Hj & H1 & H2 & H3 & H4);
    [|by destruct Hg|by rewrite length_insert, !repeat_length|rewrite repeat_length; lia].
  rewrite length_insert, repeat_length in H1. rewrite repeat_length in H2.
  set (w' := MkWorld _ _ _ _ _ _).
  assert (Hwatch : watched w' = wanted (mHead m)).
  { unfold watched. cbn -[take drop]. rewrite Nat2Z.id. cbn [Nat.sub]. rewrite Nat.sub_0_r, take_drop_commute, H3.
    apply drop_app_length'. rewrite length_take, repeat_length. lia. }
  assert (Hpolled : polled w' = (mCtrlSocket m, POLLIN) :: wanted_fds (mHead m)).
  { unfold polled. change (pollCount w') with (Z.of_nat (1 + length (wanted (mHead m)))). change (mPollFds (monitor w')) with fds'.
    rewrite Nat2Z.id, H4. by destruct (Z.to_nat size) eqn:E; [lia|]. }
  assert (Hw2 : wanted (mHead (monitor w')) = wanted (mHead m)) by (unfold wanted; cbn; by rewrite monitored_kept).
  assert (Hw3 : wanted_fds (mHead (monitor w')) = wanted_fds (mHead m)) by (unfold wanted_fds; cbn; by rewrite monitored_kept).
  split; [split|split].
  - done.
  - by apply good_filter.
  - rewrite List.Forall_forall in *. intros e [He _]%filter_In. by apply Hfr.
  - cbn. rewrite H1. lia.
  - cbn. rewrite H2. lia.
  - cbn -[Z.of_nat]. lia.
  - rewrite Hwatch, <-Hw2. apply List.Forall_forall. intros o [e [<- He]]%in_map_iff. apply filter_In in He as [He Hm].
    exists e. split; [done|]. split; [done|]. unfold monitored, live in Hm. apply andb_true_iff in Hm as [Hm _]. apply Z.eqb_eq in Hm. lia.
  - cbn. etrans; [apply count_filter_le|done].
  - by rewrite Hpolled.
  - unfold freed_ok in *. rewrite List.Forall_forall in *. intros e [He _]%filter_In. by apply Hfd.
  - cbn [monitor mHead mLiveCount log w']. by rewrite live_kept_count.
  - split; [by right|done].
  - split; [by rewrite Hwatch, Hw2|]. split; [by rewrite Hpolled, Hw3|]. apply List.Forall_forall. by intros e [_ He]%filter_In.
Qed.

(** It does not write past the arrays unless a request has failed. *)
Lemma rescan_fault w f h : inv w -> rescan w = Undefined f h -> h = log w /\ tolerated f h.
Proof.
  intros [Hpl Hg Hfr Hf Hr Hp Hpt Hfew Hct Hfd Hc]. unfold rescan. set (m := monitor w) in *.
  set (size := if mPollSize m <=? mLiveCount m then mLiveCount m + 5 else mPollSize m).
  destruct (rescan_loop _ _ _ _) as [f'|[[[els j] fds'] refs']] eqn:Hl; [|done]. intros [= <- <-]. split; [done|].
  apply rescan_loop_fault in Hl as [[-> Hl]|(e & ref & He & Hre & ->)]; [| |by destruct Hg|by rewrite length_insert, !repeat_length].
  - right. right. split; [done|]. intros Hcalm. specialize (Hc Hcalm). rewrite repeat_length in Hl.
    assert (mLiveCount m < size /\ 0 < size) by (unfold size; destruct (Z.leb_spec (mPollSize m) (mLiveCount m)); lia). lia.
  - right. left. exists ref. split; [done|]. unfold freed_ok in Hfd. rewrite List.Forall_forall in Hfd. by apply (Hfd e He).
Qed.

Lemma deref_in p w e : deref p w = Some e -> In e (mHead (monitor w)) /\ address e = p.
Proof. unfold deref. intros [He Ha]%List.find_some. unfold at_address in Ha. by apply bool_decide_eq_true in Ha. Qed.
Lemma deref_good w e : good (mHead (monitor w)) -> In e (mHead (monitor w)) -> deref (address e) w = Some e.
Proof.
  intros Hg He. destruct (deref (address e) w) as [e'|] eqn:Hd.
  - destruct (deref_in _ _ _ Hd) as [He' Ha]. f_equal. apply (good_in _ _ _ Hg); auto.
  - unfold deref in Hd. eapply List.find_none in Hd; [|exact He]. unfold at_address in Hd. by rewrite bool_decide_eq_false in Hd.
Qed.

Lemma watched_lookup w i : inv w -> (1 <= i)%nat /\ Z.of_nat i < pollCount w -> exists e,
  In e (mHead (monitor w)) /\ mPollRefs (monitor w) !! i = Some (Some (address e)) /\ mReady e <> 0.
Proof.
  intros [_ _ _ _ Hr Hp Hpt _ _] [H1 Hi]. rewrite Forall_lookup in Hpt.
  destruct (mPollRefs (monitor w) !! i) as [o|] eqn:Ho; [|apply lookup_ge_None in Ho; lia].
  destruct (Hpt (i - 1)%nat o) as (e & He & -> & Hne); [|eauto].
  unfold watched. rewrite lookup_take_lt by lia. rewrite lookup_drop. by replace (1 + (i - 1))%nat with i by lia.
Qed.

(** What [poll] reports changes no entry but for [revents]. *)
Lemma entry_zip (fds : list pollfd) (found : list Z) :
  length found = length fds -> map entry (zip_with (fun q r => MkPollfd (fd q) (events q) r) fds found) = map entry fds.
Proof. revert found. induction fds as [|q fds IH]; intros [|r found]; [done..|]. cbn. intros [= H]. by rewrite IH. Qed.
Lemma entry_revents i (fds : list pollfd) : map entry (alter (fun q => MkPollfd (fd q) (events q) 0) i fds) = map entry fds.
Proof. revert i. induction fds as [|q fds IH]; intros [|i]; [done..|]. cbn. f_equal. apply IH. Qed.

(** The poll thread keeps the invariant, or goes wrong in a tolerated way. *)
Lemma poll_step_spec w found :
  inv w -> (at_ w = Polling -> may_find found w = true) ->
  match poll_step found w with
  | Ok _ w' => inv w' /\ env w w' /\ (synced w -> synced w')
  | Undefined f h => h = log w /\ tolerated f h
  end.
Proof.
  intros Hi Hmay. pose proof Hi as [Hpl Hg Hfr Hf Hr Hp Hpt Hfew Hct Hfd Hc]. unfold poll_step.
  assert (Hquiet : forall w', quiet w w' -> place_ok (at_ w') ->
    at_ w' = Rescanning \/ (control w' = control w /\ at_ w <> Rescanning) ->
    inv w' /\ env w w' /\ (synced w -> synced w')).
  { intros w' Hq Hpl' E9. destruct (inv_quiet w w' Hq Hpl' Hi) as (Hi' & He & Hu).
    split; [done|]. split; [done|]. unfold synced. destruct E9 as [->|[-> Hn]]; [auto|]. intros [H|[H|H]]; [auto|auto|done]. }
  destruct (at_ w) as [|i|] eqn:Ha.
  - destruct (Z.ltb_spec (Z.of_nat (length (mPollFds (monitor w)))) (pollCount w)); [lia|].
    destruct (forallb (Z.eqb 0) found).
    { split; [done|]. split; [apply env_refl|done]. }
    specialize (Hmay eq_refl). unfold may_find in Hmay. apply andb_true_iff in Hmay as [Hl _]. apply Z.eqb_eq in Hl.
    apply Hquiet; [|cbn; lia|by right]. split; cbn; try done.
    rewrite map_app, entry_zip, <-map_app by (rewrite length_take; lia). by rewrite take_drop.
  - cbn in Hpl. destruct (Z.ltb_spec (Z.of_nat i) (pollCount w)) as [Hlt|Hge].
    + destruct (mPollFds (monitor w) !! i) as [p|] eqn:Hfi; [|apply lookup_ge_None in Hfi; lia].
      destruct (negb (revents p =? 0)); [|apply Hquiet; [done|cbn; lia|by right]].
      destruct (watched_lookup w i Hi) as (e & He & Hri & Hne); [lia|]. rewrite Hri, (deref_good _ _ Hg He).
      destruct Hg as [_ _ Hready]. rewrite List.Forall_forall in Hready. destruct (Hready e He) as [?|[_ Href]]; [done|].
      unfold has_ref in Href. destruct (mRef e) as [|ref|ref] eqn:Hre; [done|..].
      * apply Hquiet; [|cbn; lia|by right]. split; cbn; try done; [apply entry_revents| |].
        -- rewrite requests_app. cbn. rewrite requests_broadcasts. by rewrite app_nil_r.
        -- intros x Hx. apply in_or_app. by left.
      * split; [done|]. right. left. exists ref. split; [done|]. unfold freed_ok in Hfd. rewrite List.Forall_forall in Hfd. by apply (Hfd e He).
    + destruct (mPollFds (monitor w) !! 0%nat) as [p|] eqn:Hfi; [|apply lookup_ge_None in Hfi; lia].
      destruct (revents p =? POLLIN); apply Hquiet; try done; [by left| |by right].
      split; cbn; try done. apply entry_revents.
  - destruct (rescan w) as [[] w'|f h] eqn:He; [|by apply rescan_fault].
    destruct (rescan_ok w w' Hi He) as (Hi' & Hen & Hu).
    destruct (inv_quiet w' (goes Polling (clear_revents 0 w'))) as (Hi2 & He2 & Hu2); [|done|done|].
    { split; cbn; try done. apply entry_revents. }
    split; [done|]. split; [by eapply env_trans|]. intros _. left. auto.
Qed.

(** ** Finding, changing and removing an element *)

Lemma find_id_in id els e : find_id id els = Some e -> In e els /\ mId e = id.
Proof. unfold find_id, has_id. by intros [He E%Z.eqb_eq]%List.find_some. Qed.
Lemma find_id_none id els e : find_id id els = None -> In e els -> mId e <> id.
Proof. unfold find_id, has_id. intros Hn He. eapply List.find_none in Hn; [|exact He]. by apply Z.eqb_neq in Hn. Qed.
Lemma find_id_good els e : good els -> In e els -> find_id (mId e) els = Some e.
Proof.
  intros Hg He. destruct (find_id (mId e) els) as [e'|] eqn:Hf.
  - apply find_id_in in Hf as [He' Hid]. f_equal. apply (good_in _ _ _ Hg); auto.
  - by destruct (find_id_none _ _ _ Hf He).
Qed.

Definition change_at id (f : Element -> Element) (e : Element) : Element := if has_id id e then f e else e.
Lemma update_id_map id f els : NoDup (map mId els) -> update_id id f els = map (change_at id f) els.
Proof.
  unfold change_at. induction els as [|e els IH]; [done|]. cbn. intros [Hn Hd]%NoDup_cons.
  destruct (has_id id e) eqn:He; [|by rewrite IH]. f_equal. symmetry. rewrite <-map_id. apply List.map_ext_in.
  intros x Hx. destruct (has_id id x) eqn:Hx'; [|done]. unfold has_id in *. apply Z.eqb_eq in He, Hx'. subst id.
  destruct Hn. rewrite list_elem_of_In, <-Hx'. by apply in_map.
Qed.
Lemma remove_id_filter id els : NoDup (map mId els) -> remove_id id els = List.filter (fun e => negb (has_id id e)) els.
Proof.
  induction els as [|e els IH]; [done|]. cbn. intros [Hn Hd]%NoDup_cons. destruct (has_id id e) eqn:He; cbn; [|by rewrite IH].
  rewrite <-IH by done. clear IH. induction els as [|x els IH]; [done|]. cbn. destruct (has_id id x) eqn:Hx.
  - unfold has_id in *. apply Z.eqb_eq in He, Hx. subst id. destruct Hn. rewrite list_elem_of_In. left. done.
  - f_equal. apply IH; [|by apply NoDup_cons in Hd as [_ Hd]]. intros Hin. apply Hn. by right.
Qed.

Lemma good_map f els :
  good els -> (forall e, In e els -> mId (f e) = mId e /\ address (f e) = address e /\ ready_ok (f e)) -> good (map f els).
Proof.
  intros [H1 H2 _] Hf. split; rewrite ?List.map_map.
  - erewrite List.map_ext_in; [exact H1|]. intros e He. by apply Hf.
  - erewrite List.map_ext_in; [exact H2|]. intros e He. by apply Hf.
  - rewrite List.Forall_forall. intros e [x [<- Hx]]%in_map_iff. by apply Hf.
Qed.
Lemma count_map_one P f els e :
  NoDup els -> In e els -> (forall x, In x els -> x <> e -> P (f x) = P x) ->
  (count P (map f els) + Nat.b2n (P e) = count P els + Nat.b2n (P (f e)))%nat.
Proof.
  unfold count. induction els as [|x els IH]; [done|]. intros [Hn Hd]%NoDup_cons He Hf. cbn.
  destruct He as [->|He].
  - assert (E : length (List.filter P (map f els)) = length (List.filter P els)).
    { assert (Hf' : forall x, In x els -> P (f x) = P x).
      { intros x Hx. apply Hf; [by right|]. intros ->. apply Hn. by rewrite list_elem_of_In. }
      clear -Hf'. induction els as [|x els IH]; [done|]. cbn. rewrite Hf' by (by left).
      destruct (P x); cbn; rewrite IH; try done; intros y Hy; apply Hf'; by right. }
    destruct (P (f e)), (P e); cbn; lia.
  - rewrite (Hf x) by ((by left) || (intros ->; apply Hn; by rewrite list_elem_of_In)).
    assert (IH' := IH Hd He (fun y Hy => Hf y (or_intror Hy))). destruct (P x); cbn; lia.
Qed.
(** What the poll thread is to watch does not change. *)
Definition same_wanted els els' : Prop := wanted els' = wanted els /\ wanted_fds els' = wanted_fds els.
Lemma wanted_map f els :
  (forall e, In e els -> monitored (f e) = monitored e /\ address (f e) = address e /\ (monitored e = true -> socket (f e) = socket e)) ->
  same_wanted els (map f els).
Proof.
  unfold same_wanted, wanted, wanted_fds. induction els as [|e els IH]; [done|]. intros Hf.
  destruct (Hf e (or_introl eq_refl)) as (Hm & Ha & Hs). specialize (IH (fun x Hx => Hf x (or_intror Hx))) as [IH1 IH2]. cbn. rewrite Hm.
  destruct (monitored e); cbn; rewrite ?Ha, ?Hs, ?IH1, ?IH2 by done; done.
Qed.
Lemma wanted_filter P els : (forall e, In e els -> P e = false -> monitored e = false) -> same_wanted els (List.filter P els).
Proof.
  intros H. assert (E : List.filter monitored (List.filter P els) = List.filter monitored els).
  { induction els as [|e els IH]; [done|]. specialize (IH (fun x Hx => H x (or_intror Hx))). cbn.
    destruct (P e) eqn:Hp; cbn; [by destruct (monitored e); cbn; rewrite IH|]. by rewrite (H e (or_introl eq_refl) Hp). }
  unfold same_wanted, wanted, wanted_fds. by rewrite E.
Qed.
Lemma points_map f els o :
  (forall e, In e els -> address (f e) = address e /\ (mReady e <> 0 -> mReady (f e) <> 0)) -> points_in els o -> points_in (map f els) o.
Proof.
  intros Hf (e & He & -> & Hr). destruct (Hf e He) as [Ha Hn]. exists (f e). split; [by apply in_map|]. rewrite Ha. auto.
Qed.
Lemma points_filter P els o : (forall e, In e els -> mReady e <> 0 -> P e = true) -> points_in els o -> points_in (List.filter P els) o.
Proof. intros Hp (e & He & -> & Hr). exists e. split; [apply filter_In; auto|done]. Qed.

(** ** Commands, action by action *)

Definition owes {A} (a : act A) : bool := match a with Notify => true | _ => false end.

(** [safe p Q w]: whatever the poll thread does in between, every action of [p]
    is defined, or goes wrong in a tolerated way, and keeps the invariant, the poll
    thread stays in sync but between a mark and its notification, and [p] ends in [Q]. *)
Fixpoint safe {R} (p : prog R) (Q : R -> World -> Prop) w : Prop :=
  match p with
  | Ret r => Q r w
  | Do a k =>
      (owes a = true \/ synced w) /\
      forall w', env w w' -> inv w' -> (synced w -> synced w') ->
        match perform a w' with Ok x w'' => inv w'' /\ safe (k x) Q w'' | Undefined f h => tolerated f h end
  end.

Lemma prog_safe_bind {R S} (p : prog R) (k : R -> prog S) Q w : safe p (fun r => safe (k r) Q) w -> safe (p ≫= k) Q w.
Proof.
  revert w. induction p as [r|A a k' IH]; intros w; [done|]. cbn. intros [Ho H]. split; [done|].
  intros w' He Hi Hs. specialize (H w' He Hi Hs). destruct (perform a w'); [|done]. destruct H. split; [done|]. by apply IH.
Qed.
Lemma safe_do {A : Set} (a : act A) (Q : A -> World -> Prop) w :
  (owes a = true \/ synced w) ->
  (forall w', env w w' -> inv w' -> (synced w -> synced w') ->
    match perform a w' with Ok x w'' => inv w'' /\ Q x w'' | Undefined f h => tolerated f h end) -> safe (do a) Q w.
Proof. split; done. Qed.

(** A command's action leads from one state that keeps the invariant to another. *)
Definition stable_under_polls {R} (Q : R -> World -> Prop) : Prop :=
  forall r w w', Q r w -> env w w' -> inv w' -> (synced w -> synced w') -> Q r w'.
Lemma safe_poll {R} (p : prog R) Q w w' :
  stable_under_polls Q -> safe p Q w -> env w w' -> inv w' -> (synced w -> synced w') -> safe p Q w'.
Proof.
  intros HQ. destruct p as [r|A a k]; cbn; [intros H; by apply (HQ r w)|]. intros [Ho H] He Hi Hs. split; [tauto|].
  intros w'' He' Hi' Hs'. apply H; [by eapply env_trans|done|auto].
Qed.

(** No request is being made or stopped. *)
Definition settled (e : Element) : Prop := mReady e <> 0 /\ (mReady e = 1 -> exists ref, mRef e = Live ref).
Definition idle w : Prop := Forall settled (mHead (monitor w)).
Lemma idle_env w w' : idle w -> env w w' -> idle w'.
Proof. unfold idle. rewrite !List.Forall_forall. intros H He e Hin. by apply H, (env_in w w'). Qed.
Definition rest {R} (_ : R) w : Prop := idle w /\ synced w.
Lemma rest_stable {R} : stable_under_polls (@rest R).
Proof. intros r w w' [Hd Hs] He Hi Hs'. split; [by eapply idle_env|auto]. Qed.

(** *** Each action on the monitor *)

(** Only the list, the counter, the log and the bytes in the control socket change. *)
Record same_polls w w' : Prop := {
  sp_fds : mPollFds (monitor w') = mPollFds (monitor w);
  sp_refs : mPollRefs (monitor w') = mPollRefs (monitor w);
  sp_ctrl : mCtrlSocket (monitor w') = mCtrlSocket (monitor w);
  sp_size : mPollSize (monitor w') = mPollSize (monitor w);
  sp_count : pollCount w' = pollCount w;
  sp_at : at_ w' = at_ w
}.
Lemma inv_change w w' :
  inv w -> same_polls w w' -> good (mHead (monitor w')) ->
  Forall (fun e => (address e < fresh_address w')%positive) (mHead (monitor w')) ->
  (forall o, points_in (mHead (monitor w)) o -> points_in (mHead (monitor w')) o) ->
  (count has_ref (mHead (monitor w')) <= length (requests (log w')))%nat ->
  freed_ok (log w') (mHead (monitor w')) ->
  (calm (log w') -> mLiveCount (monitor w') = Z.of_nat (count live (mHead (monitor w')))) -> inv w'.
Proof.
  intros [H1 H2 H3 H4 H5 H6 H7 H8 H9 H10 H11] [E1 E2 E6 E3 E4 E5] Hg Hf Hp Hfew Hfr Hc.
  split; rewrite ?E1, ?E2, ?E3, ?E4, ?E5, ?E6, ?(polled_same w w' E4 (f_equal _ E1)); try done.
  rewrite (watched_same _ _ E4 E2). eapply Forall_impl; [exact H7|done].
Qed.
Lemma synced_change w w' :
  same_polls w w' -> (control w <= control w')%nat -> same_wanted (mHead (monitor w)) (mHead (monitor w')) ->
  (Forall (fun e => kept e = true) (mHead (monitor w)) -> Forall (fun e => kept e = true) (mHead (monitor w'))) ->
  synced w -> synced w'.
Proof.
  intros [E1 E2 E6 E3 E4 E5] Hc [Hw Hw2] Hk. unfold synced, up_to_date.
  rewrite (watched_same _ _ E4 E2), (polled_same w w' E4 (f_equal _ E1)), Hw, Hw2, E5.
  intros [(H1 & H2 & H3)|[H|H]]; [left; auto|right; left; lia|auto].
Qed.

(** A request being made: its element, the only one that is not settled. *)
Definition ref_state (asked : bool) (e : Element) : Prop := if asked then exists ref, mRef e = Live ref else mRef e = Unset.
Lemma ref_state_has asked e : ref_state asked e -> has_ref e = asked.
Proof. unfold has_ref. destruct asked; [intros [ref ->]|intros ->]; done. Qed.
Record pending w id p (asked : bool) : Prop := {
  pd_element : exists e, In e (mHead (monitor w)) /\ mId e = id /\ address e = p /\ mReady e = 0 /\ ref_state asked e;
  pd_only : forall e, In e (mHead (monitor w)) -> address e <> p -> settled e
}.
Lemma pending_env w w' id p asked : pending w id p asked -> env w w' -> pending w' id p asked.
Proof.
  intros [(e & He & H1 & H2 & H3 & H4) Ho] Hen. split; [|intros x Hx; apply Ho; by apply (env_in w w')].
  exists e. split; [|done]. apply (env_kept w w' e Hen He). unfold kept. by rewrite H3.
Qed.

Lemma insert_spec w id :
  inv w -> synced w -> idle w -> find_id id (mHead (monitor w)) = None ->
  inv (insert id w) /\ synced (insert id w) /\ pending (insert id w) id (fresh_address w) false.
Proof.
  intros Hi Hs Hd Hn. pose proof Hi as [_ Hg Hf _ _ _ _ Hfew _ Hfd Hc]. rewrite List.Forall_forall in Hf.
  assert (Hsp : same_polls w (insert id w)) by done. split; [|split].
  - apply (inv_change w); [done|done| | |intros o (e & He & H); exists e; split; [by right|done]|done|by constructor|done].
    + destruct Hg as [H1 H2 H3]. split; cbn; constructor; try done.
      * rewrite list_elem_of_In, in_map_iff. intros (e & E & He). by apply (find_id_none _ _ _ Hn He).
      * rewrite list_elem_of_In, in_map_iff. intros (e & E & He). specialize (Hf e He). lia.
      * by left.
    + cbn. constructor; [cbn; lia|]. apply List.Forall_forall. intros e He. specialize (Hf e He). lia.
  - apply (synced_change w); [done|done|done| |done]. intros Hk. constructor; done.
  - split; [|intros e [<-|He] Hr; [done|]].
    + eexists. split; [by left|]. done.
    + unfold idle in Hd. rewrite List.Forall_forall in Hd. by apply Hd.
Qed.

Lemma pending_find w id p asked : inv w -> pending w id p asked -> exists e,
  deref p w = Some e /\ find_id id (mHead (monitor w)) = Some e /\ In e (mHead (monitor w)) /\ mReady e = 0 /\ ref_state asked e /\
  (forall e', In e' (mHead (monitor w)) -> e' <> e -> mId e' <> id /\ address e' <> p /\ settled e').
Proof.
  intros Hi [(e & He & <- & <- & Hr & Hh) Ho]. pose proof (i_good _ Hi) as Hg. exists e.
  split; [by apply deref_good|]. split; [by apply find_id_good|]. split; [done|]. split; [done|]. split; [done|].
  intros e' He' Hne. split; [intros E; apply Hne; apply (good_in _ _ _ Hg); auto|].
  assert (address e' <> address e) by (intros E; apply Hne; apply (good_in _ _ _ Hg); auto). split; [done|]. by apply Ho.
Qed.

Lemma inv_NoDup w : inv w -> NoDup (mHead (monitor w)).
Proof. intros [_ [H _ _] _ _ _ _ _ _ _]. by eapply NoDup_fmap_1. Qed.

(** Storing a reference in an element, or the deallocation of the one it holds. *)
Definition change_ref p (r : DNSServiceRef) (x : Element) : Element := if at_address p x then set_mRef r x else x.
Lemma ref_change w e r :
  inv w -> In e (mHead (monitor w)) -> r <> Unset -> mReady e = 0 \/ socket (set_mRef r e) = socket e ->
  let f := change_ref (address e) r in
  f e = set_mRef r e /\
  (forall x, In x (mHead (monitor w)) -> x <> e -> f x = x) /\
  (forall x, In x (mHead (monitor w)) -> mId (f x) = mId x /\ address (f x) = address x /\ mReady (f x) = mReady x) /\
  same_wanted (mHead (monitor w)) (map f (mHead (monitor w))) /\
  good (map f (mHead (monitor w))) /\
  Forall (fun x => (address x < fresh_address w)%positive) (map f (mHead (monitor w))) /\
  (count has_ref (map f (mHead (monitor w))) + Nat.b2n (has_ref e) = count has_ref (mHead (monitor w)) + 1)%nat /\
  count live (map f (mHead (monitor w))) = count live (mHead (monitor w)).
Proof.
  intros Hi He Hne Hsock f. pose proof (i_good _ Hi) as Hg. pose proof (i_fresh _ Hi) as Hf.
  assert (Hfe : f e = set_mRef r e) by (unfold f, change_ref, at_address; by rewrite bool_decide_eq_true_2).
  assert (Hfo : forall x, In x (mHead (monitor w)) -> x <> e -> f x = x).
  { intros x Hx Hxe. unfold f, change_ref, at_address. rewrite bool_decide_eq_false_2; [done|]. intros E. apply Hxe, (good_in _ _ _ Hg); auto. }
  assert (Hfx : forall x, In x (mHead (monitor w)) -> mId (f x) = mId x /\ address (f x) = address x /\ mReady (f x) = mReady x).
  { intros x Hx. destruct (decide (x = e)) as [->|Hxe]; [by rewrite Hfe|by rewrite Hfo]. }
  assert (Hhas : has_ref (set_mRef r e) = true) by (by destruct r).
  split; [done|]. split; [done|]. split; [done|]. split; [|split; [|split; [|split]]].
  - apply wanted_map. intros x Hx. destruct (Hfx x Hx) as (_ & Ha & _). destruct (decide (x = e)) as [->|Hxe]; [|by rewrite Hfo].
    rewrite Hfe. unfold monitored, live. cbn [mReady set_mRef]. destruct Hsock as [-> | ->]; done.
  - apply good_map; [done|]. intros x Hx. destruct (Hfx x Hx) as (-> & -> & Hrx). split; [done|]. split; [done|].
    destruct Hg as [_ _ Hg]. rewrite List.Forall_forall in Hg. specialize (Hg x Hx).
    destruct (decide (x = e)) as [->|Hxe]; [|by rewrite Hfo]. unfold ready_ok in *. rewrite Hfe, Hhas. cbn. tauto.
  - rewrite List.Forall_forall in *. intros y [x [<- Hx]]%in_map_iff. destruct (Hfx x Hx) as (_ & -> & _). by apply Hf.
  - pose proof (count_map_one has_ref f (mHead (monitor w)) e (inv_NoDup w Hi) He ltac:(intros x Hx Hxe; by rewrite Hfo)) as H.
    rewrite Hfe, Hhas in H. exact H.
  - pose proof (count_map_one live f (mHead (monitor w)) e (inv_NoDup w Hi) He ltac:(intros x Hx Hxe; by rewrite Hfo)) as H.
    unfold live in H at 2 4. destruct (Hfx e He) as (_ & _ & E). rewrite E in H. lia.
Qed.

Lemma freed_map f h els :
  freed_ok h els -> (forall e ref, In e els -> mRef (f e) = Freed ref -> mRef e = Freed ref \/ In (Deallocated ref) h) -> freed_ok h (map f els).
Proof.
  unfold freed_ok. rewrite !List.Forall_forall. intros H Hf y [x [<- Hx]]%in_map_iff ref Hr.
  destruct (Hf x ref Hx Hr); [by apply (H x)|done].
Qed.
Lemma kept_map f els :
  (forall e, In e els -> mReady (f e) = mReady e) ->
  Forall (fun e => kept e = true) els -> Forall (fun e => kept e = true) (map f els).
Proof.
  rewrite !List.Forall_forall. intros Hf Hk y [x [<- Hx]]%in_map_iff. unfold kept. rewrite Hf by done. by apply Hk.
Qed.

Lemma calm_requested h r result ref : calm (h ++ [Requested r result ref]) -> calm h /\ result = 0.
Proof.
  unfold calm. rewrite requests_app, length_app. cbn. intros [[Hfa Hr0]%Forall_app Hlen]. apply Forall_cons in Hr0 as [Hr0 _].
  split; [split; [done|lia]|done].
Qed.

(** The library's answer: a request that fails, and one that succeeds, whose
    reference is stored. *)
Lemma ask_failed w id p r :
  inv w -> synced w -> pending w id p false ->
  let w' := happens [Requested r (lib_request (log w) r) (lib_ref (log w))] w in
  lib_request (log w) r <> 0 -> inv w' /\ synced w' /\ pending w' id p false /\ ~ calm (log w').
Proof.
  intros Hi Hs Hp w' Hne. assert (Hn : ~ calm (log w')) by (by intros [_ ?]%calm_requested).
  split; [|split; [|split; [|done]]]; [|by apply (synced_change w)|by destruct Hp].
  pose proof Hi as [_ Hg Hf _ _ _ _ Hfew _ Hfd _]. apply (inv_change w); try done.
  - cbn. rewrite requests_app, length_app. lia.
  - eapply freed_log; [|exact Hfd]. intros x Hx. apply in_or_app. by left.
Qed.
Lemma ask_spec w id p r :
  inv w -> synced w -> pending w id p false -> exists result w',
  ask r p w = Ok result w' /\ inv w' /\ synced w' /\
  (if result =? 0 then pending w' id p true else pending w' id p false /\ ~ calm (log w')).
Proof.
  intros Hi Hs Hp. destruct (pending_find _ _ _ _ Hi Hp) as (e & Hd & Hfi & He & Hr & Hh & Ho).
  destruct (deref_in _ _ _ Hd) as [_ <-]. unfold ask. rewrite Hd. unfold kDNSServiceErr_NoError, set_monitor. cbv beta zeta.
  destruct (Z.eqb_spec (lib_request (log w) r) 0) as [E|E].
  2: { rewrite (List.map_ext _ (fun x => x)) by (intros x; by rewrite andb_false_r). rewrite List.map_id.
    do 2 eexists. split; [reflexivity|]. rewrite (proj2 (Z.eqb_neq _ _) E).
    destruct (ask_failed w id (address e) r Hi Hs Hp E) as (H1 & H2 & H3 & H4). by destruct w as [[]]. }
  pose proof Hi as [_ _ _ _ _ _ _ Hfew _ Hfd Hc].
  rewrite (List.map_ext _ (change_ref (address e) (Live (lib_ref (log w))))) by (intros x; by rewrite andb_true_r).
  destruct (ref_change w e (Live (lib_ref (log w))) Hi He ltac:(done) ltac:(by left)) as (Hfe & Hfo & Hfx & Hw & Hg & Hf & Hn & Hl).
  set (f := change_ref (address e) (Live (lib_ref (log w)))) in *. rewrite (ref_state_has _ _ Hh) in Hn. cbn in Hn.
  set (w' := happens _ _). exists (lib_request (log w) r), w'. split; [done|]. rewrite E. cbn [Z.eqb].
  assert (Hh' : mHead (monitor w') = map f (mHead (monitor w))) by done.
  assert (Hsp : same_polls w w') by done.
  split; [|split].
  - apply (inv_change w); [done|done|..]; rewrite ?Hh'; [done|done| | | |].
    + intros o. apply points_map. intros x Hx. by destruct (Hfx x Hx) as (_ & -> & ->).
    + cbn. rewrite requests_app, length_app. cbn. lia.
    + apply freed_map; [eapply freed_log; [|exact Hfd]; intros x Hx; apply in_or_app; by left|].
      intros x ref Hx. destruct (decide (x = e)) as [->|Hxe]; [by rewrite Hfe|]. rewrite Hfo by done. auto.
    + intros [Hc' _]%calm_requested. rewrite Hl. by apply Hc.
  - apply (synced_change w); [done|done|by rewrite Hh'| |done]; rewrite Hh'. apply kept_map. by apply Hfx.
  - destruct (Hfx e He) as (E1 & E2 & E3). split; rewrite Hh'.
    + exists (f e). split; [by apply in_map|]. rewrite E1, E2, E3. split; [by destruct (find_id_in _ _ _ Hfi)|]. split; [done|]. split; [done|].
      rewrite Hfe. by eexists.
    + intros y [x [<- Hx]]%in_map_iff Hne. destruct (decide (x = e)) as [->|Hxe]; [by rewrite E2 in Hne|]. rewrite Hfo by done. by apply Ho.
Qed.

(** [stop()] deallocates the reference of a request in progress. *)
Lemma deallocate_spec w e ref :
  inv w -> synced w -> In e (mHead (monitor w)) -> mRef e = Live ref ->
  (forall x, In x (mHead (monitor w)) -> x <> e -> settled x) -> exists w',
  deallocate (address e) w = Ok tt w' /\ inv w' /\ synced w' /\ In (set_mRef (Freed ref) e) (mHead (monitor w')) /\
  (forall x, In x (mHead (monitor w')) -> x <> set_mRef (Freed ref) e -> settled x).
Proof.
  intros Hi Hs He Hre Ho. pose proof Hi as [_ Hg0 _ _ _ _ _ Hfew _ Hfd Hc]. unfold deallocate.
  rewrite (deref_good _ _ Hg0 He). cbn [option_map]. rewrite Hre.
  destruct (ref_change w e (Freed ref) Hi He ltac:(done)) as (Hfe & Hfo & Hfx & Hw & Hg & Hf & Hn & Hl).
  { right. unfold socket. cbn. by rewrite Hre. }
  assert (has_ref e = true) as Hhe by (unfold has_ref; by rewrite Hre). rewrite Hhe in Hn. cbn in Hn.
  eexists. split; [reflexivity|]. set (f := change_ref (address e) (Freed ref)) in *. set (w' := happens _ _).
  assert (Hh' : mHead (monitor w') = map f (mHead (monitor w))) by done.
  assert (Hreq : requests (log w') = requests (log w)) by (cbn; by rewrite requests_app, app_nil_r).
  split; [|split; [|split]].
  - apply (inv_change w); [done|done|..]; rewrite ?Hh', ?Hreq; [done|done| |lia| |].
    + intros o. apply points_map. intros x Hx. by destruct (Hfx x Hx) as (_ & -> & ->).
    + apply freed_map; [eapply freed_log; [|exact Hfd]; intros x Hx; apply in_or_app; by left|].
      intros x ref' Hx. destruct (decide (x = e)) as [->|Hxe]; [|rewrite Hfo by done; auto].
      rewrite Hfe. intros [= <-]. right. apply in_or_app. right. by left.
    + rewrite Hl. unfold calm. rewrite Hreq. exact Hc.
  - apply (synced_change w); [done|done|by rewrite Hh'| |done]; rewrite Hh'. apply kept_map. by apply Hfx.
  - rewrite Hh', <-Hfe. by apply in_map.
  - rewrite Hh'. intros y [x [<- Hx]]%in_map_iff Hne. destruct (decide (x = e)) as [->|Hxe]; [done|]. rewrite Hfo by done. by apply Ho.
Qed.

(** A change of one element's [mReady] to a value that is not 0. *)
Lemma ready_change w e r :
  inv w -> In e (mHead (monitor w)) -> has_ref e = true -> r = 1 \/ r = -1 ->
  let f := change_at (mId e) (set_mReady r) in
  update_id (mId e) (set_mReady r) (mHead (monitor w)) = map f (mHead (monitor w)) /\
  f e = set_mReady r e /\ (forall x, In x (mHead (monitor w)) -> x <> e -> f x = x) /\
  freed_ok (log w) (map f (mHead (monitor w))) /\
  good (map f (mHead (monitor w))) /\
  Forall (fun x => (address x < fresh_address w)%positive) (map f (mHead (monitor w))) /\
  (forall o, points_in (mHead (monitor w)) o -> points_in (map f (mHead (monitor w))) o) /\
  count has_ref (map f (mHead (monitor w))) = count has_ref (mHead (monitor w)) /\
  (count live (map f (mHead (monitor w))) + Nat.b2n (live e) = count live (mHead (monitor w)) + Nat.b2n (r =? 1)%Z)%nat.
Proof.
  intros Hi He Hh Hr f. pose proof (i_good _ Hi) as Hg. pose proof (i_fresh _ Hi) as Hf.
  assert (Hfe : f e = set_mReady r e) by (unfold f, change_at, has_id; by rewrite Z.eqb_refl).
  assert (Hfo : forall x, In x (mHead (monitor w)) -> x <> e -> f x = x).
  { intros x Hx Hne. unfold f, change_at, has_id. destruct (Z.eqb_spec (mId x) (mId e)); [|done].
    destruct Hne. apply (good_in _ _ _ Hg); auto. }
  assert (Hfx : forall x, In x (mHead (monitor w)) -> mId (f x) = mId x /\ address (f x) = address x /\ has_ref (f x) = has_ref x).
  { intros x Hx. destruct (decide (x = e)) as [->|Hne]; [by rewrite Hfe|by rewrite Hfo]. }
  split; [apply update_id_map; by destruct Hg|]. split; [done|]. split; [done|]. split; [|split; [|split; [|split; [|split]]]].
  - apply freed_map; [apply Hi|]. intros x ref Hx. destruct (decide (x = e)) as [->|Hne]; [rewrite Hfe|rewrite Hfo by done]; auto.
  - apply good_map; [done|]. intros x Hx. destruct (Hfx x Hx) as (-> & -> & _). split; [done|]. split; [done|].
    destruct (decide (x = e)) as [->|Hne]; [rewrite Hfe; by right|]. rewrite Hfo by done.
    destruct Hg as [_ _ Hg]. rewrite List.Forall_forall in Hg. by apply Hg.
  - rewrite List.Forall_forall in *. intros y [x [<- Hx]]%in_map_iff. destruct (Hfx x Hx) as (_ & -> & _). by apply Hf.
  - intros o. apply points_map. intros x Hx. destruct (Hfx x Hx) as (_ & Ha & _). split; [done|].
    destruct (decide (x = e)) as [->|Hne]; [rewrite Hfe; cbn; intros _; lia|by rewrite Hfo].
  - pose proof (count_map_one has_ref f (mHead (monitor w)) e (inv_NoDup w Hi) He ltac:(intros x Hx _; by apply Hfx)) as H.
    destruct (Hfx e He) as (_ & _ & E). rewrite E in H. lia.
  - pose proof (count_map_one live f (mHead (monitor w)) e (inv_NoDup w Hi) He ltac:(intros x Hx Hne; by rewrite Hfo)) as H.
    rewrite Hfe in H. exact H.
Qed.

Lemma count_has_ref_more els e : good els -> In e els -> has_ref e = true -> live e = false -> (count live els + 1 <= count has_ref els)%nat.
Proof.
  intros Hg He Hh Hl. pose proof (live_has_ref els Hg) as H. unfold count in *.
  assert (Hle : forall l, (forall x, In x l -> In x els) -> (length (List.filter live l) <= length (List.filter has_ref l))%nat).
  { intros l Hl'. apply (count_le live has_ref). intros x Hx Hlx. destruct Hg as [_ _ Hg]. rewrite List.Forall_forall in Hg.
    destruct (ready_cases x (Hg x (Hl' x Hx))) as [(_ & E & _)|[(_ & E & _)|(_ & _ & _ & ref & E & _)]]; [congruence|congruence|].
    unfold has_ref. by destruct E as [-> | ->]. }
  apply in_split in He as (l1 & l2 & ->). rewrite !List.filter_app, !length_app. cbn. rewrite Hh, Hl. cbn.
  assert (H1 := Hle l1 ltac:(intros x Hx; apply in_or_app; by left)).
  assert (H2 := Hle l2 ltac:(intros x Hx; apply in_or_app; right; by right)). lia.
Qed.

Lemma s32_count n : Z.of_nat n < 2 ^ 31 -> s32 (Z.of_nat n) = Z.of_nat n.
Proof. intros. apply s32_small. lia. Qed.

Lemma mark_spec w id p :
  inv w -> pending w id p true -> exists w', mark id w = (true, w') /\ inv w' /\ idle w' .
Proof.
  intros Hi Hp. destruct (pending_find _ _ _ _ Hi Hp) as (e & _ & Hfi & He & Hr & Hh & Ho).
  pose proof Hi as [_ Hg _ _ _ _ _ Hfew _ _ Hc]. destruct (find_id_in _ _ _ Hfi) as [_ Hid]. pose proof (ref_state_has _ _ Hh) as Hhr.
  destruct (ready_change w e 1 Hi He Hhr ltac:(by left)) as (Eu & Hfe & Hfo & Hfd' & Hg' & Hf' & Hp' & Hc1 & Hc2). rewrite Hid in *.
  unfold mark. rewrite Hfi. eexists. split; [done|]. split.
  - apply (inv_change w); [done|done|..]; cbn [monitor set_monitor set_mLiveCount set_mHead mHead mLiveCount log fresh_address]; rewrite Eu; try done.
    + by rewrite Hc1.
    + intros Hcalm. rewrite Hc by done. assert (live e = false) as Hl by (unfold live; by rewrite Hr). rewrite Hl in Hc2. cbn in Hc2.
      pose proof (count_has_ref_more _ _ Hg He Hhr Hl). destruct Hcalm as [_ Hlen].
      replace (Z.of_nat (count live (mHead (monitor w))) + 1) with (Z.of_nat (count live (map (change_at id (set_mReady 1)) (mHead (monitor w))))) by lia.
      apply s32_count. lia.
  - unfold idle. cbn [monitor set_monitor set_mLiveCount set_mHead mHead]. rewrite Eu. rewrite List.Forall_forall.
    intros y [x [<- Hx]]%in_map_iff. destruct (decide (x = e)) as [->|Hne]; [by rewrite Hfe|]. rewrite Hfo by done. by apply Ho.
Qed.

Lemma inv_quiet' w w' :
  inv w -> same_polls w w' -> mHead (monitor w') = mHead (monitor w) -> mLiveCount (monitor w') = mLiveCount (monitor w) ->
  fresh_address w' = fresh_address w -> requests (log w') = requests (log w) -> (forall x, In x (log w) -> In x (log w')) -> inv w'.
Proof.
  intros Hi [E1 E2 E6 E3 E4 E5] Eh Ec Ef Er El. apply (inv_quiet w); [|rewrite E5; apply Hi|done]. split; congruence || done.
Qed.
Lemma synced_quiet w w' :
  same_polls w w' -> mHead (monitor w') = mHead (monitor w) -> (control w <= control w')%nat -> synced w -> synced w'.
Proof. intros Hsp Eh Hc. apply synced_change; [done|done|by rewrite Eh|by rewrite Eh]. Qed.

(** Giving up a request that failed. *)
Lemma free_failed w id p :
  inv w -> synced w -> pending w id p false -> ~ calm (log w) ->
  inv (freeServiceRef id w) /\ synced (freeServiceRef id w) /\ idle (freeServiceRef id w).
Proof.
  intros Hi Hs Hp Hn. destruct (pending_find _ _ _ _ Hi Hp) as (e & _ & Hfi & He & Hr & Hh & Ho).
  pose proof Hi as [_ Hg Hf _ _ _ _ Hfew _ Hfd Hc]. unfold freeServiceRef. rewrite Hfi, Hr. cbn [Z.eqb].
  set (w' := set_monitor _ w).
  assert (Eh : mHead (monitor w') = List.filter (fun x => negb (has_id id x)) (mHead (monitor w))) by (apply remove_id_filter; by destruct Hg).
  assert (Hout : forall x, In x (mHead (monitor w)) -> negb (has_id id x) = false -> x = e).
  { intros x Hx Hid. destruct (decide (x = e)) as [|Hne]; [done|]. destruct (Ho x Hx Hne) as (Hid' & _).
    apply negb_false_iff, Z.eqb_eq in Hid. done. }
  split; [|split].
  - apply (inv_change w); [done|done|..]; rewrite ?Eh.
    + by apply good_filter.
    + rewrite List.Forall_forall in *. intros x [Hx _]%filter_In. by apply Hf.
    + intros o. apply points_filter. intros x Hx Hrx. destruct (negb (has_id id x)) eqn:Hid; [done|]. by rewrite (Hout x Hx Hid) in Hrx.
    + etrans; [apply count_filter_le|done].
    + unfold freed_ok in *. rewrite List.Forall_forall in *. intros x [Hx _]%filter_In. by apply Hfd.
    + done.
  - apply (synced_change w); [done|done|rewrite Eh|rewrite Eh|done].
    + apply wanted_filter. intros x Hx Hid. rewrite (Hout x Hx Hid). unfold monitored, live. by rewrite Hr.
    + rewrite !List.Forall_forall. intros Hk x [Hx _]%filter_In. by apply Hk.
  - unfold idle. rewrite Eh, List.Forall_forall. intros x [Hx Hid]%filter_In. destruct (decide (x = e)) as [->|Hne]; [|by apply Ho].
    apply negb_true_iff, Z.eqb_neq in Hid. by destruct (find_id_in _ _ _ Hfi).
Qed.

(** Stopping a request in progress. *)
Lemma free_live w id e :
  inv w -> (forall x, In x (mHead (monitor w)) -> x <> e -> settled x) -> find_id id (mHead (monitor w)) = Some e -> mReady e = 1 ->
  inv (freeServiceRef id w) /\ synced (freeServiceRef id w) /\ idle (freeServiceRef id w).
Proof.
  intros Hi Hd Hfi Hr. destruct (find_id_in _ _ _ Hfi) as [He Hid]. pose proof Hi as [_ Hg _ _ _ _ _ Hfew _ _ Hc].
  assert (Hh : has_ref e = true).
  { destruct Hg as [_ _ Hg]. rewrite List.Forall_forall in Hg. destruct (Hg e He) as [?|[_ ?]]; [lia|done]. }
  destruct (ready_change w e (-1) Hi He Hh ltac:(by right)) as (Eu & Hfe & Hfo & Hfd' & Hg' & Hf' & Hp' & Hc1 & Hc2). rewrite Hid in *.
  unfold freeServiceRef. rewrite Hfi, Hr. cbn [Z.eqb Pos.eqb]. split; [|split].
  - apply (inv_change w); [done|done|..];
      cbn [monitor notify set_monitor set_mLiveCount set_mHead mHead mLiveCount log fresh_address]; rewrite Eu; try done.
    + by rewrite Hc1.
    + intros Hcalm. rewrite Hc by done. assert (live e = true) as Hl by (unfold live; by rewrite Hr). rewrite Hl in Hc2. cbn in Hc2.
      pose proof (live_has_ref _ Hg). destruct Hcalm as [_ Hlen].
      replace (Z.of_nat (count live (mHead (monitor w))) - 1) with (Z.of_nat (count live (map (change_at id (set_mReady (-1))) (mHead (monitor w))))) by lia.
      apply s32_count. lia.
  - right. left. cbn. lia.
  - unfold idle. cbn [monitor notify set_monitor set_mLiveCount set_mHead mHead]. rewrite Eu. rewrite List.Forall_forall.
    intros y [x [<- Hx]]%in_map_iff. destruct (decide (x = e)) as [->|Hne]; [by rewrite Hfe|]. rewrite Hfo by done. by apply Hd.
Qed.

(** *** The commands *)

Lemma idle_same w w' : mHead (monitor w') = mHead (monitor w) -> idle w -> idle w'.
Proof. unfold idle. by intros ->. Qed.

Lemma safe_quiet {A : Set} (a : act A) w :
  (forall w', exists x w'', perform a w' = Ok x w'' /\ same_polls w' w'' /\ mHead (monitor w'') = mHead (monitor w') /\
    mLiveCount (monitor w'') = mLiveCount (monitor w') /\ fresh_address w'' = fresh_address w' /\
    requests (log w'') = requests (log w') /\ (forall x, In x (log w') -> In x (log w'')) /\ (control w' <= control w'')%nat) ->
  idle w -> synced w -> safe (do a) rest w.
Proof.
  intros Ha Hd Hs. apply safe_do; [auto|]. intros w' He Hi Hs'. destruct (Ha w') as (x & w'' & -> & Hsp & E1 & E2 & E3 & E4 & E6 & E5).
  split; [by eapply inv_quiet'|]. split; [eapply idle_same; [done|]; by eapply idle_env|]. eapply synced_quiet; [done..|]. auto.
Qed.
Lemma safe_reply code msg w : idle w -> synced w -> safe (do (Reply code msg)) rest w.
Proof.
  apply safe_quiet. intros w'. eexists tt, _. split; [done|].
  split_and!; try done; [cbn; by rewrite requests_app, app_nil_r|]. intros x Hx. apply in_or_app. by left.
Qed.

Lemma wait_quiet name desired naps w : exists h, requests h = [] /\ (wait_for_property_loop name desired naps w).2 = happens h w.
Proof.
  revert w. induction naps as [|naps IH]; intros w; cbn -[happens].
  - exists []. split; [done|]. unfold happens. rewrite app_nil_r. by destruct w.
  - destruct (negb _ && _); [by exists [Nap]|]. destruct (IH (happens [Nap] w)) as (h & Hh & ->). exists (Nap :: h).
    split; [done|]. unfold happens. cbn. by rewrite <-app_assoc.
Qed.
Lemma safe_service (a : act Z) w :
  (forall w', exists r h, perform a w' = Ok r (happens h w') /\ requests h = []) -> idle w -> synced w -> safe (do a) rest w.
Proof.
  intros Ha. apply safe_quiet. intros w'. destruct (Ha w') as (r & h & -> & Hh). eexists r, _. split; [done|].
  split_and!; try done; [cbn; by rewrite requests_app, Hh, app_nil_r|]. intros x Hx. apply in_or_app. by left.
Qed.
Lemma startService_quiet w : exists r h, perform StartService w = Ok r (happens h w) /\ requests h = [].
Proof.
  cbn. unfold startService, wait_for_property. destruct (negb _).
  - destruct (wait_quiet MDNS_SERVICE_STATUS "running" (Z.to_nat (Z.max 1 (5 * 1000 / 200))) (happens [Property "ctl.start" MDNS_SERVICE_NAME] w)) as (h & Hh & ->).
    exists (-1), (Property "ctl.start" MDNS_SERVICE_NAME :: h). split; [|done]. unfold happens. cbn. by rewrite <-app_assoc.
  - exists 0, []. split; [|done]. unfold happens. rewrite app_nil_r. by destruct w.
Qed.
Lemma stopService_quiet w : exists r h, perform StopService w = Ok r (happens h w) /\ requests h = [].
Proof.
  cbn. unfold stopService, wait_for_property. destruct (mHead (monitor w)).
  - destruct (wait_quiet MDNS_SERVICE_STATUS "stopped" (Z.to_nat (Z.max 1 (5 * 1000 / 200))) (happens [Property "ctl.stop" MDNS_SERVICE_NAME] w)) as (h & Hh & ->).
    exists (-1), (Property "ctl.stop" MDNS_SERVICE_NAME :: h). split; [|done]. unfold happens. cbn. by rewrite <-app_assoc.
  - exists 0, []. split; [|done]. unfold happens. rewrite app_nil_r. by destruct w.
Qed.

Lemma safe_start_monitoring w id p (k : prog unit) :
  pending w id p true -> synced w -> (forall w', idle w' -> synced w' -> safe k rest w') -> safe (startMonitoring id;; k) rest w.
Proof.
  intros Hp Hs Hk. cbn. split; [auto|]. intros w1 He1 Hi1 Hs1.
  destruct (mark_spec w1 id p Hi1) as (w1' & -> & Hi1' & Hd1); [by eapply pending_env|]. split; [done|].
  cbn. split; [by left|]. intros w2 He2 Hi2 _. split; [|apply Hk].
  - by apply (inv_quiet' w2).
  - apply (idle_same w2); [done|]. by eapply idle_env.
  - right. left. cbn. lia.
Qed.

Lemma safe_start_request w id inUse failed started r :
  idle w -> synced w -> safe (start_request id inUse failed started r) rest w.
Proof.
  intros Hd Hs. cbn. split; [auto|]. intros w1 He1 Hi1 Hs1. pose proof (idle_env _ _ Hd He1) as Hd1. split; [done|].
  unfold lookupServiceRef. destruct (find_id id (mHead (monitor w1))) as [e|] eqn:Hf; [by apply safe_reply; auto|].
  cbn. split; [auto|]. intros w2 He2 Hi2 Hs2. pose proof (idle_env _ _ Hd1 He2) as Hd2.
  assert (Hf2 : find_id id (mHead (monitor w2)) = None).
  { destruct (find_id id (mHead (monitor w2))) as [e|] eqn:Hfe; [|done]. apply find_id_in in Hfe as [Hin Hid].
    by destruct (find_id_none _ _ _ Hf (env_in _ _ _ He2 Hin)). }
  destruct (insert_spec w2 id Hi2 ltac:(auto) Hd2 Hf2) as (Hi2' & Hs2' & Hp2). split; [done|].
  split; [by right|]. intros w3 He3 Hi3 Hs3. pose proof (pending_env _ _ _ _ _ Hp2 He3) as Hp3.
  destruct (ask_spec w3 id (fresh_address w2) r Hi3 ltac:(auto) Hp3) as (result & w3' & -> & Hi3' & Hs3' & Hp3').
  split; [done|]. unfold kDNSServiceErr_NoError. destruct (result =? 0); cbn [negb].
  - apply safe_start_monitoring with (p := fresh_address w2); [done|done|]. intros w4 Hd4 Hs4. by apply safe_reply.
  - destruct Hp3' as [Hp4 Hn]. cbn. split; [auto|]. intros w4 He4 Hi4 Hs4.
    destruct (free_failed w4 id (fresh_address w2) Hi4 ltac:(auto)) as (Hi5 & Hs5 & Hd5); [by eapply pending_env| |].
    { destruct He4 as (_ & _ & Hreq). unfold calm. by rewrite Hreq. }
    split; [done|]. by apply (safe_reply CommandParameterError failed).
Qed.

(** A client does not stop what it has stopped. *)
Definition not_stopped w id : Prop := forall e, find_id id (mHead (monitor w)) = Some e -> mReady e <> -1.

Lemma safe_stop w argv str :
  idle w -> synced w -> inv w ->
  match argv with [_; _; a2] => not_stopped w (atoi a2) | _ => True end -> safe (stop argv str) rest w.
Proof.
  intros Hd Hs Hi Hn. unfold stop. destruct argv as [|a0 [|a1 [|a2 [|]]]]; try by apply safe_reply.
  cbn. split; [auto|]. intros w1 He1 Hi1 Hs1. pose proof (idle_env _ _ Hd He1) as Hd1. split; [done|].
  unfold lookupServiceRef. destruct (find_id (atoi a2) (mHead (monitor w1))) as [e|] eqn:Hf; [|by apply safe_reply; auto].
  apply find_id_in in Hf as [Hin Hid].
  assert (Hset : settled e) by (unfold idle in Hd1; rewrite List.Forall_forall in Hd1; by apply Hd1).
  assert (Hr : mReady e = 1).
  { pose proof (env_in _ _ _ He1 Hin) as Hin0. specialize (Hn e). rewrite <-Hid in Hn.
    specialize (Hn (find_id_good _ _ (i_good _ Hi) Hin0)).
    destruct (i_good _ Hi) as [_ _ Hg]. rewrite List.Forall_forall in Hg. destruct (Hg e Hin0) as [?|[[?|?] _]]; [|done..]. by destruct Hset. }
  destruct Hset as [_ [ref Href]%(fun H => H Hr)].
  cbn. split; [auto|]. intros w2 He2 Hi2 Hs2. pose proof (idle_env _ _ Hd1 He2) as Hd2.
  assert (Hin2 : In e (mHead (monitor w2))) by (apply (env_kept w1); [done..|unfold kept; by rewrite Hr]).
  unfold idle in Hd2. rewrite List.Forall_forall in Hd2.
  destruct (deallocate_spec w2 e ref Hi2 ltac:(auto) Hin2 Href ltac:(auto)) as (w2' & -> & Hi2' & Hs2' & Hin2' & Ho2).
  split; [done|]. split; [by right|]. intros w3 He3 Hi3 Hs3. set (e' := set_mRef (Freed ref) e) in *.
  assert (Hin3 : In e' (mHead (monitor w3))) by (apply (env_kept _ _ _ He3); [done|unfold kept; cbn; by rewrite Hr]).
  destruct (free_live w3 (atoi a2) e' Hi3) as (Hi4 & Hs4 & Hd4); [|rewrite <-Hid; apply (find_id_good _ e'); [apply i_good|]; done|done|].
  { intros x Hx. apply Ho2. by apply (env_in _ _ _ He3). }
  split; [done|]. by apply (safe_reply CommandOkay (str +:+ " stopped")).
Qed.

(** What the safety of the monitor needs of its clients: no id is stopped whose
    request has been stopped and not yet removed. *)
Definition stop_commands : list string := ["stop-discover"; "stop-register"; "stop-resolve"; "stop-sethostname"; "stop-getaddrinfo"].
Definition polite w (argv : list string) : bool :=
  match argv with
  | [_; cmd; a2] =>
      negb (existsb (String.eqb cmd) stop_commands) ||
      match find_id (atoi a2) (mHead (monitor w)) with Some e => negb (mReady e =? -1) | None => true end
  | _ => true
  end.

Lemma polite_stop w argv cmd : polite w argv = true -> nth 1 argv "" = cmd -> existsb (String.eqb cmd) stop_commands = true ->
  match argv with [_; _; a2] => not_stopped w (atoi a2) | _ => True end.
Proof.
  destruct argv as [|a0 [|a1 [|a2 [|]]]]; cbn -[stop_commands]; try done. intros Hp -> Hs. rewrite Hs in Hp. cbn in Hp.
  intros e He Hr. by rewrite He, Hr in Hp.
Qed.

Lemma safe_mono {R} (p : prog R) (Q Q' : R -> World -> Prop) w : (forall r w, Q r w -> Q' r w) -> safe p Q w -> safe p Q' w.
Proof.
  intros HQ. revert w. induction p as [r|A a k IH]; intros w; cbn; [auto|]. intros [Ho H]. split; [done|].
  intros w' He Hi Hs. specialize (H w' He Hi Hs). destruct (perform a w'); [|done]. destruct H. split; [done|]. by apply IH.
Qed.
Lemma safe_after {R S} (p : prog R) (k : R -> prog S) w :
  safe p rest w -> (forall r w, idle w -> synced w -> safe (k r) rest w) -> safe (p ≫= k) rest w.
Proof. intros Hp Hk. apply prog_safe_bind. eapply safe_mono; [|exact Hp]. intros r w' [? ?]. by apply Hk. Qed.

Lemma safe_register w argv : idle w -> synced w -> safe (register argv) rest w.
Proof.
  intros Hd Hs. unfold register. destruct argv as [|a0 [|a1 [|a2 [|a3 [|a4 [|a5 fields]]]]]]; try by apply safe_reply.
  destruct (txt_record "" 0 fields) as [record top]. destruct (TXT_RECORD_SIZE <=? top).
  { cbn. split; [auto|]. intros w' _ _ _. by left. }
  destruct record; [|by apply safe_reply..]. by apply safe_start_request.
Qed.

Lemma safe_runCommand w argv : inv w -> idle w -> synced w -> polite w argv = true -> safe (runCommand argv) rest w.
Proof.
  intros Hi Hd Hs Hp. destruct argv as [|a0 [|cmd args]]; [by apply safe_after; [apply safe_reply|]..|].
  assert (Hstop : existsb (String.eqb cmd) stop_commands = true -> forall str, safe (stop (a0 :: cmd :: args) str) rest w).
  { intros H str. apply safe_stop; [done..|]. exact (polite_stop w (a0 :: cmd :: args) cmd Hp eq_refl H). }
  unfold runCommand. apply safe_after; [|done].
  repeat match goal with |- context [String.eqb cmd ?s] => destruct (String.eqb_spec cmd s) as [->|?] end;
    try (by apply Hstop); try (by apply safe_register);
    try (apply safe_after; [apply safe_service; [apply startService_quiet || apply stopService_quiet|done|done]|];
      intros r w' ? ?; unfold service; destruct (negb _); by apply safe_reply);
    repeat (destruct args as [|? args]; try by apply safe_reply); by apply safe_start_request || by apply safe_reply.
Qed.
End Spec.

(** ** The two threads together *)

Section Threads.
Context {L : Library}.
Context (sends : World -> list string -> bool).
Hypothesis clients : forall w argv, sends w argv = true -> polite w argv = true.

Definition sound (s : state) : Prop :=
  match s with Running w p => inv w /\ safe p rest w | Stuck f h => tolerated f h end.

Lemma init_inv ctrl : inv (init ctrl).
Proof.
  split; cbn; try done; try lia; try (by constructor).
  split; constructor.
Qed.

Lemma move_sound c s s' : move sends c s = Some s' -> sound s -> sound s'.
Proof.
  destruct s as [w p|f h]; [|done]. destruct c as [argv| |found]; cbn.
  - destruct p as [r|]; [|done]. destruct (sends w argv) eqn:Hs; [|done]. intros [= <-] [Hi [Hd Hsy]]. split; [done|].
    by apply safe_runCommand; auto.
  - destruct p as [r|A a k]; [done|]. intros [= <-] [Hi [Ho H]]. specialize (H w (env_refl w) Hi ltac:(done)).
    by destruct (perform a w).
  - intros Hm [Hi Hp]. assert (Hf : at_ w = Polling -> may_find found w = true) by (intros E; rewrite E in Hm; by destruct (may_find found w)).
    pose proof (poll_step_spec w found Hi Hf) as H.
    destruct (match at_ w with Polling => may_find found w | _ => true end); [|done]. injection Hm as <-.
    destruct (poll_step found w) as [[] w'|f h].
    + destruct H as (Hi' & He & Hs). split; [done|]. eapply safe_poll; [apply rest_stable|exact Hp|done..].
    + by destruct H.
Qed.
Lemma moves_sound cs s s' : moves sends cs s = Some s' -> sound s -> sound s'.
Proof.
  revert s. induction cs as [|c cs IH]; intros s; cbn; [by intros [= <-]|].
  destruct (move sends c s) as [s1|] eqn:Hm; [|done]. intros H Hs. apply (IH s1 H). by eapply move_sound.
Qed.
Lemma reachable_sound ctrl s : reachable sends ctrl s -> sound s.
Proof.
  intros [cs H]. apply (moves_sound _ _ _ H). split; [apply init_inv|]. split; [constructor|]. left. split; [done|]. split; [done|constructor].
Qed.

(** C10. What can go wrong in service discovery, and what is kept.  In every
    interleaving of the commands with the poll thread, whatever the library and the
    kernel answer, when clients do not stop a request again that they have stopped
    and that is still in the list ([polite]): no thread follows a pointer to a deleted
    element, and every loop ends.  What can go wrong is that stop() deallocates a
    reference the poll thread still uses, that rescanning writes past the arrays
    after a request has failed, and that a TXT record fills its array.  As long as
    nothing has, ids are unique, every entry the poll thread looks at points to an
    element with a reference, and, if no request has failed, [mLiveCount] is the
    number of requests in progress. *)
Theorem monitor_safe ctrl s : reachable sends ctrl s ->
  match s with
  | Stuck f h =>
      f = TxtOverrun \/ (exists ref, f = DeadReference ref /\ In (Deallocated ref) h) \/ f = PastEnd /\ ~ calm h
  | Running w _ =>
      NoDup (map mId (mHead (monitor w))) /\
      (calm (log w) -> mLiveCount (monitor w) = Z.of_nat (count live (mHead (monitor w)))) /\
      (forall i, (1 <= i)%nat -> Z.of_nat i < pollCount w -> is_Some (mPollFds (monitor w) !! i) /\
        exists e, mPollRefs (monitor w) !! i = Some (Some (address e)) /\ deref (address e) w = Some e /\
          exists ref, mRef e = Live ref \/ mRef e = Freed ref /\ In (Deallocated ref) (log w))
  end.
Proof.
  intros Hr%reachable_sound. destruct s as [w p|f h]; [|done]. destruct Hr as [Hi _]. split; [by destruct (i_good _ Hi)|].
  split; [apply Hi|]. intros i H1 H2. destruct (watched_lookup w i Hi (conj H1 H2)) as (e & He & Href & Hne). split.
  - apply lookup_lt_is_Some. pose proof (i_fds _ Hi). pose proof (i_poll _ Hi). lia.
  - destruct (i_good _ Hi) as [_ _ Hg]. rewrite List.Forall_forall in Hg. destruct (Hg e He) as [?|[_ Hh]]; [done|].
    pose proof (i_freed _ Hi) as Hf. unfold freed_ok in Hf. rewrite List.Forall_forall in Hf.
    exists e. split; [done|]. split; [by apply deref_good; [apply Hi|]|].
    unfold has_ref in Hh. destruct (mRef e) as [|ref|ref] eqn:Hm; [done|..]; exists ref; [by left|right; split; [done|by apply (Hf e)]].
Qed.

(** C11. No wakeup is lost.  With such clients the first entry the poll thread gives
    to [poll] is always the control socket, for reading.  When a command is done, no
    byte waits in that socket and the poll thread is not about to rescan, it polls
    besides exactly the sockets of the requests in progress, for reading, in the
    order of the list; the entries of [mPollRefs] are those requests; and every
    element of the list is a request in progress with a reference that has not been
    deallocated. *)
Theorem no_lost_wakeup ctrl w p : reachable sends ctrl (Running w p) ->
  hd_error (polled w) = Some (mCtrlSocket (monitor w), POLLIN) /\
  ((exists r, p = Ret r) -> control w = 0%nat -> at_ w <> Rescanning ->
   polled w = (mCtrlSocket (monitor w), POLLIN) :: wanted_fds (mHead (monitor w)) /\
   watched w = wanted (mHead (monitor w)) /\
   Forall (fun e => mReady e = 1 /\ exists ref, mRef e = Live ref) (mHead (monitor w))).
Proof.
  intros [Hi Hsafe]%reachable_sound. pose proof (i_ctrl _ Hi) as Hctrl. split; [done|]. intros [r ->] Hc Ha.
  destruct Hsafe as [Hd Hs]. destruct Hs as [(Hw & Hp & Hk)|[?|?]]; [|lia|done]. split; [|split; [done|]].
  - rewrite <-Hp. destruct (polled w); [done|]. by injection Hctrl as ->.
  - unfold idle in Hd. destruct (i_good _ Hi) as [_ _ Hg]. rewrite List.Forall_forall in *. intros e He.
    destruct (Hd e He) as [H0 H1]. specialize (Hk e He). destruct (Hg e He) as [?|[[?|E] _]]; [done|auto|]. unfold kept in Hk. by rewrite E in Hk.
Qed.
End Threads.

(** ** One reply per command *)

(** Exactly [n] replies on every path. *)
Fixpoint replies {R} (p : prog R) (n : nat) : Prop :=
  match p with
  | Ret _ => n = 0%nat
  | Do a k =>
      match a with Reply _ _ => exists m, n = Datatypes.S m /\ forall x, replies (k x) m | Overrun => True | _ => forall x, replies (k x) n end
  end.
Lemma replies_bind {R S} (p : prog R) (k : R -> prog S) n : replies p n -> (forall r, replies (k r) 0) -> replies (p ≫= k) n.
Proof.
  intros Hp Hk. revert n Hp. induction p as [r|A a k' IH]; intros n; cbn; [by intros ->|].
  destruct a; cbn; try (intros H x; by apply IH); [|done]. intros (m & -> & H). exists m. split; [done|]. intros x. by apply IH.
Qed.
Lemma replies_error msg : replies (parameter_error msg) 1.
Proof. by exists 0%nat. Qed.
Lemma replies_start id a b c r : replies (start_request id a b c r) 1.
Proof.
  cbn. intros [p|]; [by apply replies_error|]. intros p result. destruct (negb _); cbn.
  - intros _. by exists 0%nat.
  - intros [|]; cbn; [intros _|]; by exists 0%nat.
Qed.
Lemma replies_stop argv str : replies (stop argv str) 1.
Proof.
  unfold stop. destruct argv as [|a0 [|a1 [|a2 [|]]]]; try apply replies_error. cbn. intros [p|]; [|apply replies_error].
  cbn. intros _ _. by exists 0%nat.
Qed.
Lemma replies_service r x c y : replies (service r x c y) 1.
Proof. unfold service. destruct (negb _); by exists 0%nat. Qed.
Lemma replies_register argv : replies (register argv) 1.
Proof.
  unfold register. destruct argv as [|a0 [|a1 [|a2 [|a3 [|a4 [|a5 fields]]]]]]; try apply replies_error.
  destruct (txt_record "" 0 fields) as [record top]. destruct (TXT_RECORD_SIZE <=? top); [done|].
  destruct record; [apply replies_start|apply replies_error..].
Qed.

(** Every command of service discovery is answered by exactly one message,
    on every branch and whatever the library answers. *)
Theorem one_reply argv : replies (runCommand argv) 1.
Proof.
  destruct argv as [|a0 [|cmd args]]; [apply (replies_bind (parameter_error _)); [apply replies_error|done]..|].
  unfold runCommand. apply (replies_bind (if String.eqb cmd "discover" then _ else _)); [|done].
  repeat match goal with |- context [String.eqb cmd ?s] => destruct (String.eqb cmd s) end;
    try apply replies_stop; try apply replies_register; try (intros r; apply replies_service); try (by exists 0%nat);
    repeat (destruct args as [|? args]; try apply replies_error); apply replies_start || apply replies_error.
Qed.

(** ** The TXT record *)

(** The fields of a TXT record: a byte with the length, then that many bytes. *)
Fixpoint split_at (n : nat) (s : string) : string * string :=
  match n, s with
  | Datatypes.S n, String c s => let '(a, b) := split_at n s in (String c a, b)
  | _, _ => (EmptyString, s)
  end.
Fixpoint txt_fields (fuel : nat) (s : string) : option (list string) :=
  match fuel, s with
  | _, EmptyString => Some []
  | O, _ => None
  | Datatypes.S fuel, String n s =>
      let len := Ascii.nat_of_ascii n in
      if (len <=? String.length s)%nat
      then let '(field, s) := split_at len s in option_map (cons field) (txt_fields fuel s)
      else None
  end.

Definition txt_field (a : string) : string := String (Ascii.ascii_of_nat (String.length a)) a.
Definition nonempty (a : string) : bool := negb (String.eqb a "").

Lemma split_at_app a r : split_at (String.length a) (a +:+ r) = (a, r).
Proof. induction a as [|c a IH]; [by destruct r|]. change (split_at (String.length (String c a)) (String c a +:+ r)) with (let '(x, y) := split_at (String.length a) (a +:+ r) in (String c x, y)). by rewrite IH. Qed.
Lemma txt_fields_cons fuel a r : strlen a <= 255 ->
  txt_fields (Datatypes.S fuel) (txt_field a +:+ r) = option_map (cons a) (txt_fields fuel r).
Proof.
  unfold strlen. intros Ha. unfold txt_field.
  change (String (Ascii.ascii_of_nat (String.length a)) a +:+ r) with (String (Ascii.ascii_of_nat (String.length a)) (a +:+ r)).
  cbn [txt_fields]. rewrite Ascii.nat_ascii_embedding by lia. rewrite split_at_app.
  destruct (Nat.leb_spec (String.length a) (String.length (a +:+ r))) as [|H]; [done|].
  pose proof (strlen_app a r) as E. unfold strlen in E. lia.
Qed.

(** The fields fit: each into its length byte, and all of them into the array. *)
Definition txt_length (args : list string) : Z := foldr (fun a n => 1 + strlen a + n) 0 (List.filter nonempty args).
Definition fields_fit (args : list string) : Prop := Forall (fun a => strlen a <= 255) args /\ txt_length args <= TXT_RECORD_SIZE.

Lemma txt_length_nonneg args : 0 <= txt_length args.
Proof.
  unfold txt_length. induction (List.filter nonempty args) as [|a l IH]; [done|]. cbn [foldr].
  assert (0 <= strlen a) by (unfold strlen; lia). lia.
Qed.
Lemma strlen_field a : strlen (txt_field a) = 1 + strlen a.
Proof. unfold strlen, txt_field. cbn [String.length]. lia. Qed.

(** The loop accepts exactly the fields that fit in what is left of the array, and
    never writes beyond the byte after the record. *)
Lemma txt_record_spec used args :
  strlen used <= TXT_RECORD_SIZE ->
  let '(t, top) := txt_record used (strlen used) args in
  top <= TXT_RECORD_SIZE /\
  match t with
  | Txt r =>
      Forall (fun a => strlen a <= 255) args /\ strlen used + txt_length args <= TXT_RECORD_SIZE /\ top = strlen r /\
      r = foldl (fun s a => s +:+ txt_field a) used (List.filter nonempty args)
  | _ => ~ (Forall (fun a => strlen a <= 255) args /\ strlen used + txt_length args <= TXT_RECORD_SIZE)
  end.
Proof.
  revert used. induction args as [|a args IH]; intros used Hu; cbn -[TXT_RECORD_SIZE Z.add txt_length List.filter].
  { repeat split; [done|constructor|unfold txt_length; cbn; lia]. }
  destruct (Z.ltb_spec (strlen a) 1) as [H1|H1].
  { assert (a = "") as -> by (destruct a; [done|unfold strlen in H1; cbn in H1; lia]). specialize (IH used Hu).
    change (txt_length ("" :: args)) with (txt_length args). change (List.filter nonempty ("" :: args)) with (List.filter nonempty args).
    destruct (txt_record used (strlen used) args) as [[r| |] top]; (split; [apply IH|]).
    - destruct IH as (_ & H & H'). split; [by constructor|done].
    - intros [[_ H]%Forall_cons H']. by apply IH.
    - intros [[_ H]%Forall_cons H']. by apply IH. }
  assert (Hn : nonempty a = true) by (unfold nonempty; destruct a; [unfold strlen in H1; cbn in H1; lia|done]).
  assert (Hl : txt_length (a :: args) = 1 + strlen a + txt_length args) by (unfold txt_length; cbn; by rewrite Hn).
  assert (Hfil : List.filter nonempty (a :: args) = a :: List.filter nonempty args) by (cbn; by rewrite Hn).
  pose proof (txt_length_nonneg args) as Hpos. rewrite Hl, Hfil.
  destruct (Z.ltb_spec 255 (strlen a)); [split; [done|]; intros [[H' _]%Forall_cons _]; lia|].
  destruct (Z.ltb_spec TXT_RECORD_SIZE (strlen used + strlen a + 1)); [split; [done|]; intros [_ H']; lia|].
  change (String (Ascii.ascii_of_nat (String.length a)) a) with (txt_field a).
  assert (E : strlen (used +:+ txt_field a) = strlen used + 1 + strlen a) by (rewrite strlen_app, strlen_field; lia).
  replace (Z.max (strlen used) (strlen used + 1 + strlen a)) with (strlen (used +:+ txt_field a)) by lia.
  specialize (IH (used +:+ txt_field a) ltac:(lia)). rewrite E in IH. rewrite E.
  destruct (txt_record (used +:+ txt_field a) _ args) as [[r| |] top]; (split; [apply IH|]).
  - destruct IH as (_ & H2 & H3 & H4). split; [by constructor|]. split; [lia|done].
  - intros [[_ H2]%Forall_cons H3]. apply IH. split; [done|lia].
  - intros [[_ H2]%Forall_cons H3]. apply IH. split; [done|lia].
Qed.
Lemma foldl_fields used l : foldl (fun s a => s +:+ txt_field a) used l = used +:+ foldr (fun a s => txt_field a +:+ s) "" l.
Proof.
  revert used. induction l as [|a l IH]; intros used; cbn [foldl foldr]; [by rewrite append_empty_r|].
  by rewrite IH, append_assoc.
Qed.

Lemma strlen_fields l : strlen (foldr (fun a s => txt_field a +:+ s) "" l) = foldr (fun a n => 1 + strlen a + n) 0 l.
Proof. induction l as [|a l IH]; [done|]. cbn [foldr]. by rewrite strlen_app, strlen_field, IH. Qed.
Lemma txt_fields_more n s l : txt_fields n s = Some l -> txt_fields (Datatypes.S n) s = Some l.
Proof.
  revert s l. induction n as [|n IHn]; intros s l; [by destruct s|]. destruct s as [|c s]; [done|]. cbn -[split_at].
  destruct (_ <=? _)%nat; [|done]. destruct (split_at (Ascii.nat_of_ascii c) s) as [f s'].
  destruct (txt_fields n s') as [l1|] eqn:E; [|done]. specialize (IHn _ _ E). cbn -[split_at] in IHn. rewrite IHn. done.
Qed.
Lemma txt_fields_of args :
  Forall (fun a => strlen a <= 255) args ->
  txt_fields (length args) (foldr (fun a s => txt_field a +:+ s) "" (List.filter nonempty args)) = Some (List.filter nonempty args).
Proof.
  induction 1 as [|a l Ha Hl IH]; [done|]. cbn [List.filter length]. destruct (nonempty a); [|by apply txt_fields_more].
  cbn [foldr]. rewrite txt_fields_cons by done. by rewrite IH.
Qed.

(** C36. The TXT record of a registration.  The fields are accepted exactly when each
    that is not empty fits its length byte and their total, with those bytes, fits the
    2048 bytes of the array.  Then reading the record as DNS does (a byte with the
    length of each field, then the field) gives back the fields of the command that
    are not empty, in order.  Accepted or not, the highest index written is at most
    2048, and for an accepted record it is its length: [strcpy]'s zero is one byte past
    the end of the array when, and only when, the record fills it. *)
Theorem txt_round_trip fields :
  let '(t, top) := txt_record "" 0 fields in
  top <= TXT_RECORD_SIZE /\
  match t with
  | Txt r =>
      fields_fit fields /\ top = strlen r /\ strlen r = txt_length fields /\
      txt_fields (length fields) r = Some (List.filter nonempty fields)
  | _ => ~ fields_fit fields
  end.
Proof.
  pose proof (txt_record_spec "" fields ltac:(done)) as H. change (strlen "") with 0 in H.
  destruct (txt_record "" 0 fields) as [[r| |] top]; [|exact H..].
  destruct H as (Htop & Hf & Hlen & Ht & ->). rewrite foldl_fields in *. change ("" +:+ ?x) with x in *.
  split; [done|]. split; [by split|]. split; [done|]. split; [|by apply txt_fields_of].
  apply strlen_fields.
Qed.

(** Eight fields of 255 bytes are accepted, and byte 2048 of the array is written. *)
Definition bytes (n : nat) : string := String.concat "" (repeat "x" n).
Lemma txt_overrun : (txt_record "" 0 (repeat (bytes 255) 8)).2 = TXT_RECORD_SIZE /\ fields_fit (repeat (bytes 255) 8).
Proof. split; [vm_compute; reflexivity|]. split; [by repeat constructor|done]. Qed.

(** ** Runs *)

Definition acts (n : nat) : list choice := repeat Act n.
Definition discover_ (id : string) : list choice := Command ["mdnssd"; "discover"; id; "_ipp._tcp"] :: acts 6.
Definition stop_ (id : string) : list choice := Command ["mdnssd"; "stop-discover"; id] :: acts 4.
(** The poll thread takes the byte that waits and rescans. *)
Definition rescans (others : list Z) : list choice := Poll (POLLIN :: others) :: repeat (Poll []) (2 + length others).

(** Two requests, reports for the first, which is then stopped. *)
Definition sample_run : list choice :=
  discover_ "1" ++ discover_ "2" ++ rescans [] ++ rescans [0; 0] ++ [Poll [0; 0; 1]; Poll []; Poll []; Poll []] ++ stop_ "1" ++ rescans [0; 0].
Lemma monitor_safe_witness :
  NoDup [2] /\ 1 = Z.of_nat (count live [MkElement 2 2 (Live 2) 2 1]).
Proof.
  destruct (moves (L := sample_library) polite sample_run (start 5)) as [[w p|f h]|] eqn:E; [|vm_compute in E; discriminate E..].
  pose proof (monitor_safe (L := sample_library) polite (fun _ _ H => H) 5 (Running w p) (ex_intro _ _ E)) as H.
  vm_compute in E. injection E as <- <-. destruct H as (H1 & H2 & _). split; [exact H1|]. apply H2. split; [by repeat constructor|done].
Defined.
Lemma no_lost_wakeup_witness : exists w : World, polled w = [(5, POLLIN); (102, POLLIN)] /\ watched w = [Some 2%positive].
Proof.
  destruct (moves (L := sample_library) polite sample_run (start 5)) as [[w [r|]|f h]|] eqn:E; [|vm_compute in E; discriminate E..].
  pose proof (no_lost_wakeup (L := sample_library) polite (fun _ _ H => H) 5 w (Ret r) (ex_intro _ _ E)) as [_ H].
  vm_compute in E. injection E as <- <-. destruct H as (H1 & H2 & _); [by eexists|reflexivity|discriminate|].
  eexists. split; [exact H1|exact H2].
Defined.

(** A request that fails is subtracted from [mLiveCount] though it was never
    added: after one failure and ten requests that succeed the count is 9, the
    arrays keep ten entries, and rescanning writes an eleventh. *)
Lemma failed_request_overruns : exists h,
  moves (L := sample_library) polite
    (Command ["mdnssd"; "discover"; "0"; "bad"] :: acts 5 ++
     concat (map discover_ ["1"; "2"; "3"; "4"; "5"; "6"; "7"; "8"; "9"; "10"]) ++ rescans []) (start 5) = Some (Stuck PastEnd h).
Proof. eexists. vm_compute. reflexivity. Qed.

(** [stop] deallocates the reference before the poll thread has rescanned: when
    the closed socket is reported, the poll thread has the library process the
    reference. *)
Lemma processed_after_deallocation : exists h,
  moves (L := sample_library) polite (discover_ "1" ++ rescans [] ++ stop_ "1" ++ [Poll [POLLIN; 32]; Poll []]) (start 5) =
    Some (Stuck (DeadReference 0) h).
Proof. eexists. vm_compute. reflexivity. Qed.

(** Stopping twice: when the poll thread has not rescanned the reference is
    deallocated twice; when it rescans after the second lookup, the command thread
    follows a pointer to the element it has deleted. *)
Lemma stopped_twice :
  (exists h, moves (L := sample_library) (fun _ _ => true) (discover_ "1" ++ stop_ "1" ++
     Command ["mdnssd"; "stop-discover"; "1"] :: [Act; Act]) (start 5) = Some (Stuck (DeadReference 0) h)) /\
  (exists h, moves (L := sample_library) (fun _ _ => true) (discover_ "1" ++ stop_ "1" ++
     Command ["mdnssd"; "stop-discover"; "1"] :: Act :: rescans [] ++ [Act]) (start 5) = Some (Stuck BadPointer h)).
Proof. split; eexists; vm_compute; reflexivity. Qed.
