(* ===== verification/DnsProxy.v ===== *)
(** * DnsProxy: the resolver daemon's socket

    Models [server/DnsProxyListener.cpp]: the three commands of the socket
    dnsproxyd, which network and mark each query gets, and what is written to the
    client.  The resolver functions of bionic and the client's socket are
    parameters.  The theorems say which network a query goes to, and that a
    client that follows the format reads back what the resolver returned. *)
From S2P Require Import Prelude Platform Cstd Fwmark UidRanges Netlink NetdConstants.
From S2P Require Import RouteController RouteSpec Networks NetworkSpec NetworkController ControllerSpec.
From S2P Require Import Daemon SampleKernel Access NetworkCommand CommandListener.

Module DnsProxy.

Definition DnsProxyQueryResult : Z := 222.
Definition DnsProxyOperationFailed : Z := 401.
Definition AI_ADDRCONFIG : Z := 1024.

(** ** The resolver *)

Record hints := Hints { ai_flags : Z; ai_family : Z; ai_socktype : Z; ai_protocol : Z }.

(** An entry of the list [getaddrinfo] returns: the bytes of the struct in
    memory, the address it points to and the canonical name. *)
Record addrinfo := AddrInfo { ai_struct : list Z; ai_addr : list Z; ai_canonname : option string }.
Definition ai_addrlen (ai : addrinfo) : Z := Z.of_nat (length (ai_addr ai)).

(** [h_addr_list]: what is in memory at each of the pointers. *)
Record hostent := HostEnt {
  h_name : option string; h_aliases : list string; h_addrtype : Z; h_length : Z; h_addr_list : list (list Z)
}.

Class Resolver := {
  android_getaddrinfofornet : option string -> option string -> option hints -> Z -> Z -> Z * list addrinfo;
  android_gethostbynamefornet : option string -> Z -> Z -> Z -> option hostent;
  android_gethostbyaddrfornet : list Z -> Z -> Z -> Z -> Z -> option hostent;
  (** [inet_pton]: 1 and the address, or the value returned. *)
  inet_pton : Z -> string -> Z * list Z;
  (** [strerror(errno)] after it *)
  strerror_inet_pton : Z -> string -> string
}.

(** ** The client's socket *)

(** What is handed to the methods of [SocketClient]. *)
Inductive item := Code (code : Z) | Binary (code : Z) (data : list Z) | Data (data : list Z).

(** Whether a method succeeds, given what was handed over before. *)
Definition client := list (item * bool) -> item -> bool.

(** Code that writes to the client. *)
Definition W (A : Type) : Type := list (item * bool) -> A * list (item * bool).
#[export] Instance W_ret : MRet W := fun A a h => (a, h).
#[export] Instance W_bind : MBind W := fun A B k m h => let '(a, h) := m h in k a h.

Section Writing.
Context (cli : client).

Definition send (i : item) : W bool := fun h => let ok := cli h i in (ok, h ++ [(i, ok)]).

(** [htonl] *)
Definition be32 (x : Z) : list Z := rev (le32 (u32 x)).

Definition sendLenAndData (len : Z) (data : list Z) : W bool :=
  ok ← send (Data (be32 len));
  if ok : bool then if len =? 0 then mret true else send (Data (take (Z.to_nat len) data)) else mret false.

(** [for (...) success &= f(x);] *)
Fixpoint send_each {A} (f : A -> W bool) (l : list A) (success : bool) : W bool :=
  match l with [] => mret success | x :: l => ok ← f x; send_each f l (success && ok) end.

Definition sendhostent (hp : hostent) : W bool :=
  success ← match h_name hp with
            | Some name => sendLenAndData (strlen name + 1) (cbytes_of name)
            | None => ok ← sendLenAndData 0 []; mret (negb ok)
            end;
  success ← send_each (fun a => sendLenAndData (strlen a + 1) (cbytes_of a)) (h_aliases hp) success;
  ok ← sendLenAndData 0 [];
  ok2 ← send (Data (be32 (h_addrtype hp)));
  ok3 ← send (Data (be32 (h_length hp)));
  success ← send_each (fun a => sendLenAndData 16 a) (h_addr_list hp) (success && ok && ok2 && ok3);
  ok ← sendLenAndData 0 [];
  mret (success && ok).

Definition send_addrinfo (ai : addrinfo) : W bool :=
  ok ← sendLenAndData (Z.of_nat (length (ai_struct ai))) (ai_struct ai);
  if negb ok then mret false
  else
    ok ← sendLenAndData (ai_addrlen ai) (ai_addr ai);
    if negb ok then mret false
    else
      match ai_canonname ai with
      | Some name => sendLenAndData (strlen name + 1) (cbytes_of name)
      | None => sendLenAndData 0 []
      end.

(** [while (ai && success)] *)
Fixpoint send_addrinfos (l : list addrinfo) (success : bool) : W bool :=
  match l with
  | [] => mret success
  | ai :: l => if success then ok ← send_addrinfo ai; send_addrinfos l ok else mret false
  end.
End Writing.

(** ** The handlers: what the threads of the queries do *)

Inductive handler :=
| GetAddrInfoHandler (mHost mService : option string) (mHints : option hints) (mNetId mMark : Z)
| GetHostByNameHandler (mName : option string) (mAf mNetId mMark : Z)
| GetHostByAddrHandler (mAddress : list Z) (mAddressLen mAddressFamily mNetId mMark : Z).

Section Handlers.
Context {R : Resolver} (cli : client).

(** The end of both handlers of host entries. *)
Definition answer_hostent (hp : option hostent) : W bool :=
  match hp with
  | Some hp => ok ← send cli (Code DnsProxyQueryResult); ok2 ← sendhostent cli hp; mret (ok && ok2)
  | None => send cli (Binary DnsProxyOperationFailed [])
  end.

Definition GetAddrInfoHandler_run (mHost mService : option string) (mHints : option hints) (mNetId mMark : Z) : W bool :=
  let '(rv, result) := android_getaddrinfofornet mHost mService mHints mNetId mMark in
  if negb (u32 rv =? 0) then send cli (Binary DnsProxyOperationFailed (le32 (u32 rv)))
  else
    ok ← send cli (Code DnsProxyQueryResult);
    success ← send_addrinfos cli result ok;
    if success : bool then sendLenAndData cli 0 [] else mret false.
Definition GetHostByNameHandler_run (mName : option string) (mAf mNetId mMark : Z) : W bool :=
  answer_hostent (android_gethostbynamefornet mName mAf mNetId mMark).
Definition GetHostByAddrHandler_run (mAddress : list Z) (mAddressLen mAddressFamily mNetId mMark : Z) : W bool :=
  answer_hostent (android_gethostbyaddrfornet mAddress mAddressLen mAddressFamily mNetId mMark).

Definition run (h : handler) : W bool :=
  match h with
  | GetAddrInfoHandler host service hints netId mark => GetAddrInfoHandler_run host service hints netId mark
  | GetHostByNameHandler name af netId mark => GetHostByNameHandler_run name af netId mark
  | GetHostByAddrHandler addr len family netId mark => GetHostByAddrHandler_run addr len family netId mark
  end.
End Handlers.

(** ** The commands *)

(** A message sent to the client, or the handler started. *)
Inductive result := Refused (code : Z) (msg : string) | Started (h : handler).

Section Commands.
Context {R : Resolver} (stray : Network -> Z).
Implicit Types (s : NC) (uid : Z) (argv : list string).

(** "^" stands for NULL. *)
Definition caret (w : string) : option string := if String.eqb "^" w then None else Some w.

Definition bad_arguments (cmd : string) argv : result :=
  Refused CommandParameterError ("Invalid number of arguments to " +:+ cmd +:+ ": " +:+ print_d (Z.of_nat (length argv))).

Definition make_hints s (netId flags family socktype protocol : Z) : option hints :=
  if negb (flags =? -1) || negb (family =? -1) || negb (socktype =? -1) || negb (protocol =? -1) then
    Some (Hints (if negb (Z.land flags AI_ADDRCONFIG =? 0) && negb (netId =? mDefaultNetId s)
                 then Z.land flags (Z.lnot AI_ADDRCONFIG) else flags)
                family socktype protocol)
  else None.

Definition GetAddrInfoCmd_runCommand s uid argv : result :=
  match argv with
  | [_; name; service; a3; a4; a5; a6; a7] =>
      let '(netId, mark) := getNetworkForDns stray s (u32 (strtoul a7 10).1) uid in
      Started (GetAddrInfoHandler (caret name) (caret service) (make_hints s netId (atoi a3) (atoi a4) (atoi a5) (atoi a6)) netId mark)
  | _ => bad_arguments "getaddrinfo" argv
  end.

Definition GetHostByNameCmd_runCommand s uid argv : result :=
  match argv with
  | [_; a1; name; a3] =>
      let '(netId, mark) := getNetworkForDns stray s (u32 (strtoul a1 10).1) uid in
      Started (GetHostByNameHandler (caret name) (atoi a3) netId mark)
  | _ => bad_arguments "gethostbyname" argv
  end.

Definition GetHostByAddrCmd_runCommand s uid argv : result :=
  match argv with
  | [_; addrStr; a2; a3; a4] =>
      let '(ret, addr) := inet_pton (atoi a3) addrStr in
      if ret <=? 0
      then Refused OperationFailed
             ("inet_pton(" +:+ String "034" (addrStr +:+ String "034" (") failed " +:+ strerror_inet_pton (atoi a3) addrStr)))
      else
        let '(netId, mark) := getNetworkForDns stray s (u32 (strtoul a4 10).1) uid in
        Started (GetHostByAddrHandler addr (atoi a2) (atoi a3) netId mark)
  | _ => bad_arguments "gethostbyaddr" argv
  end.

(** The command registered under the first word, if any. *)
Definition dispatch s uid argv : option result :=
  match argv with
  | cmd :: _ =>
      if String.eqb cmd "getaddrinfo" then Some (GetAddrInfoCmd_runCommand s uid argv)
      else if String.eqb cmd "gethostbyaddr" then Some (GetHostByAddrCmd_runCommand s uid argv)
      else if String.eqb cmd "gethostbyname" then Some (GetHostByNameCmd_runCommand s uid argv)
      else None
  | [] => None
  end.
End Commands.

Definition mNetId (h : handler) : Z :=
  match h with GetAddrInfoHandler _ _ _ n _ | GetHostByNameHandler _ _ n _ | GetHostByAddrHandler _ _ _ n _ => n end.
Definition mMark (h : handler) : Z :=
  match h with GetAddrInfoHandler _ _ _ _ m | GetHostByNameHandler _ _ _ m | GetHostByAddrHandler _ _ _ _ m => m end.
Definition mHints (h : handler) : option hints := match h with GetAddrInfoHandler _ _ x _ _ => x | _ => None end.
End DnsProxy.
Import DnsProxy.

(** ** The client's side *)

Definition rd_be32 (l : list Z) : option (Z * list Z) :=
  match l with a :: b :: c :: d :: l => Some (((a * 256 + b) * 256 + c) * 256 + d, l) | _ => None end.
(** A length and as many bytes. *)
Definition rd_frame (l : list Z) : option (list Z * list Z) :=
  match rd_be32 l with
  | Some (n, l) => if (Z.to_nat n <=? length l)%nat then Some (take (Z.to_nat n) l, drop (Z.to_nat n) l) else None
  | None => None
  end.
Definition rd_name (f : list Z) : option string := match f with [] => None | _ => Some (string_of_cbytes f) end.

(** Frames up to an empty one. *)
Fixpoint rd_frames (fuel : nat) (l : list Z) : option (list (list Z) * list Z) :=
  match fuel with
  | O => None
  | Datatypes.S fuel =>
      match rd_frame l with
      | Some ([], l) => Some ([], l)
      | Some (f, l) => match rd_frames fuel l with Some (fs, l) => Some (f :: fs, l) | None => None end
      | None => None
      end
  end.

Definition rd_hostent (fuel : nat) (l : list Z) : option (hostent * list Z) :=
  match rd_frame l with
  | Some (name, l) =>
      match rd_frames fuel l with
      | Some (aliases, l) =>
          match rd_be32 l with
          | Some (addrtype, l) =>
              match rd_be32 l with
              | Some (len, l) =>
                  match rd_frames fuel l with
                  | Some (addrs, l) =>
                      Some (HostEnt (rd_name name) (map string_of_cbytes aliases) (s32 addrtype) (s32 len) addrs, l)
                  | None => None
                  end
              | None => None
              end
          | None => None
          end
      | None => None
      end
  | None => None
  end.

Fixpoint rd_addrinfos (fuel : nat) (l : list Z) : option (list addrinfo * list Z) :=
  match fuel with
  | O => None
  | Datatypes.S fuel =>
      match rd_frame l with
      | Some ([], l) => Some ([], l)
      | Some (st, l) =>
          match rd_frame l with
          | Some (addr, l) =>
              match rd_frame l with
              | Some (name, l) =>
                  match rd_addrinfos fuel l with
                  | Some (ais, l) => Some (AddrInfo st addr (rd_name name) :: ais, l)
                  | None => None
                  end
              | None => None
              end
          | None => None
          end
      | None => None
      end
  end.

(** The bytes a client receives after the code. *)
Definition wire (h : list (item * bool)) : list Z :=
  concat (map (fun x => match x.1 with Data d => d | _ => [] end) h).

(** ** What is written, when every write succeeds *)

Definition accept : client := fun _ _ => true.
Definition frame (d : list Z) : list Z := be32 (Z.of_nat (length d)) ++ d.

(** [m] returns [ok] and writes the bytes [b]. *)
Definition emits (m : W bool) (ok : bool) (b : list Z) : Prop := forall h, exists l, m h = (ok, h ++ l) /\ wire l = b.

Lemma wire_app l1 l2 : wire (l1 ++ l2) = wire l1 ++ wire l2.
Proof. unfold wire. by rewrite map_app, concat_app. Qed.
Lemma writes_ret ok : emits (mret ok) ok [].
Proof. intros h. exists []. by rewrite app_nil_r. Qed.
Lemma emits_send d : emits (send accept (Data d)) true d.
Proof. intros h. exists [(Data d, true)]. split; [done|]. unfold wire. cbn. by rewrite app_nil_r. Qed.
Lemma writes_bind m k ok ok' b b' : emits m ok b -> emits (k ok) ok' b' -> emits (m ≫= k) ok' (b ++ b').
Proof.
  intros Hm Hk h. destruct (Hm h) as (l & E & Hl). destruct (Hk (h ++ l)) as (l' & E' & Hl'). exists (l ++ l').
  unfold mbind, W_bind. rewrite E, E'. split; [by rewrite app_assoc|]. by rewrite wire_app, Hl, Hl'.
Qed.
Lemma emits_frame d : Z.of_nat (length d) < 2 ^ 32 -> emits (sendLenAndData accept (Z.of_nat (length d)) d) true (frame d).
Proof.
  intros Hd. unfold sendLenAndData, frame. eapply writes_bind; [apply emits_send|]. cbn.
  destruct (Z.eqb_spec (Z.of_nat (length d)) 0) as [E|E].
  - destruct d; [apply writes_ret|done].
  - rewrite Nat2Z.id, firstn_all. apply emits_send.
Qed.
Lemma emits_empty : emits (sendLenAndData accept 0 []) true (frame []).
Proof. by apply (emits_frame []). Qed.
Lemma emits_name name : strlen name + 1 < 2 ^ 32 -> emits (sendLenAndData accept (strlen name + 1) (cbytes_of name)) true (frame (cbytes_of name)).
Proof. rewrite <-length_cbytes_of. apply emits_frame. Qed.
Lemma emits_16 a : (16 <= length a)%nat -> emits (sendLenAndData accept 16 a) true (frame (take 16 a)).
Proof.
  intros Ha. assert (E : length (take 16 a) = 16%nat) by (rewrite length_take; lia).
  pose proof (emits_frame (take 16 a)) as H. rewrite E in H. specialize (H ltac:(done)).
  unfold sendLenAndData in *. change (Z.of_nat 16) with 16 in H. change (Z.to_nat 16) with 16%nat in *. by rewrite take_idemp in H.
Qed.
Lemma emits_each {A} (f : A -> W bool) (g : A -> list Z) l ok :
  Forall (fun x => emits (f x) true (g x)) l -> emits (send_each f l ok) ok (concat (map g l)).
Proof.
  intros H. revert ok. induction H as [|x l Hx Hl IH]; intros ok; [apply writes_ret|]. cbn [send_each map concat].
  eapply writes_bind; [exact Hx|]. cbn. rewrite andb_true_r. apply IH.
Qed.

(** ** What is read *)

Lemma rd_be32_be32 x l : 0 <= x < 2 ^ 32 -> rd_be32 (be32 x ++ l) = Some (x, l).
Proof.
  intros Hx. unfold be32. rewrite u32_small by done. unfold le32. cbn -[Z.div Z.modulo]. do 2 f_equal.
  pose proof (rd32_le32 x) as H. unfold rd32 in H. rewrite u32_small in H by done. lia.
Qed.
Lemma rd_be32_s32 x l : - 2 ^ 31 <= x < 2 ^ 31 -> exists y, rd_be32 (be32 x ++ l) = Some (y, l) /\ s32 y = x.
Proof.
  intros Hx. exists (u32 x). split.
  - rewrite <-(rd_be32_be32 (u32 x) l) by apply u32_range. unfold be32. by rewrite u32_idemp.
  - unfold u32, s32. rewrite Zplus_mod_idemp_l, Z.mod_small; lia.
Qed.
Lemma rd_frame_frame d l : Z.of_nat (length d) < 2 ^ 32 -> rd_frame (frame d ++ l) = Some (d, l).
Proof.
  intros Hd. unfold rd_frame, frame. rewrite <-app_assoc, rd_be32_be32 by lia. rewrite Nat2Z.id, length_app.
  destruct (Nat.leb_spec (length d) (length d + length l)); [|lia]. by rewrite take_app_length, drop_app_length.
Qed.
Lemma rd_frames_frames (fs : list (list Z)) l fuel :
  Forall (fun f => f <> [] /\ Z.of_nat (length f) < 2 ^ 32) fs -> (length fs < fuel)%nat ->
  rd_frames fuel (concat (map frame fs) ++ frame [] ++ l) = Some (fs, l).
Proof.
  intros H. revert fuel. induction H as [|f fs [Hn Hf] _ IH]; intros [|fuel] Hl; try (cbn in Hl; lia).
  - cbn [map concat app rd_frames]. rewrite rd_frame_frame by done. done.
  - cbn [map concat rd_frames]. rewrite <-app_assoc, rd_frame_frame by done.
    destruct f; [done|]. rewrite IH; [done|]. cbn in Hl. lia.
Qed.

Definition valid_name (s : string) : Prop := no_nul s /\ strlen s + 1 < 2 ^ 32.
Lemma valid_frame s : valid_name s -> cbytes_of s <> [] /\ Z.of_nat (length (cbytes_of s)) < 2 ^ 32.
Proof. intros [_ H]. rewrite length_cbytes_of. split; [|done]. unfold cbytes_of. by destruct (bytes_of s). Qed.
Lemma rd_name_valid name : match name with Some s => valid_name s | None => True end ->
  rd_name (match name with Some s => cbytes_of s | None => [] end) = name.
Proof.
  destruct name as [s|]; [|done]. intros [H H']. unfold rd_name. destruct (valid_frame s (conj H H')) as [Hn _].
  destruct (cbytes_of s) eqn:E; [done|]. rewrite <-E. by rewrite string_of_cbytes_of.
Qed.

(** What the resolver promises of its results. *)
Definition valid_hostent (hp : hostent) : Prop :=
  match h_name hp with Some s => valid_name s | None => True end /\
  Forall valid_name (h_aliases hp) /\
  - 2 ^ 31 <= h_addrtype hp < 2 ^ 31 /\ - 2 ^ 31 <= h_length hp < 2 ^ 31 /\
  Forall (fun a => (16 <= length a)%nat) (h_addr_list hp).
Definition valid_addrinfo (ai : addrinfo) : Prop :=
  ai_struct ai <> [] /\ Z.of_nat (length (ai_struct ai)) < 2 ^ 32 /\ Z.of_nat (length (ai_addr ai)) < 2 ^ 32 /\
  match ai_canonname ai with Some s => valid_name s | None => True end.

(** ** Host entries *)

Definition is_some {A} (o : option A) : bool := match o with Some _ => true | None => false end.

Definition hostent_bytes (hp : hostent) : list Z :=
  frame (match h_name hp with Some s => cbytes_of s | None => [] end) ++
  concat (map frame (map cbytes_of (h_aliases hp))) ++ frame [] ++
  be32 (h_addrtype hp) ++ be32 (h_length hp) ++
  concat (map frame (map (take 16) (h_addr_list hp))) ++ frame [].

Lemma emits_hostent hp : valid_hostent hp -> emits (sendhostent accept hp) (is_some (h_name hp)) (hostent_bytes hp).
Proof.
  intros (Hn & Ha & Ht & Hl & Hd). unfold sendhostent, hostent_bytes. eapply (writes_bind _ _ (is_some (h_name hp))).
  { destruct (h_name hp) as [name|]; [by apply emits_name; destruct Hn|].
    rewrite <-(app_nil_r (frame [])). eapply writes_bind; [apply emits_empty|]. apply writes_ret. }
  eapply writes_bind.
  { rewrite List.map_map. apply emits_each. eapply Forall_impl; [exact Ha|]. intros s [_ Hs]. by apply emits_name. }
  eapply writes_bind; [apply emits_empty|]. eapply writes_bind; [apply emits_send|]. eapply writes_bind; [apply emits_send|].
  rewrite !andb_true_r. eapply writes_bind.
  { rewrite List.map_map. apply emits_each. eapply Forall_impl; [exact Hd|]. cbn. intros a H16.
    by apply emits_16. }
  rewrite <-(app_nil_r (frame [])). eapply writes_bind; [apply emits_empty|]. rewrite andb_true_r. apply writes_ret.
Qed.

Lemma rd_hostent_bytes hp l fuel :
  valid_hostent hp -> (length (h_aliases hp) < fuel)%nat -> (length (h_addr_list hp) < fuel)%nat ->
  rd_hostent fuel (hostent_bytes hp ++ l) =
  Some (HostEnt (h_name hp) (h_aliases hp) (h_addrtype hp) (h_length hp) (map (take 16) (h_addr_list hp)), l).
Proof.
  intros (Hn & Ha & Ht & Hl & Hd) Hf1 Hf2. unfold rd_hostent, hostent_bytes. rewrite <-!app_assoc.
  rewrite rd_frame_frame by (destruct (h_name hp); [by apply valid_frame|done]).
  rewrite rd_frames_frames; [| |by rewrite length_map].
  2: { apply Forall_map. eapply Forall_impl; [exact Ha|]. intros s Hs. by apply valid_frame. }
  destruct (rd_be32_s32 (h_addrtype hp) (be32 (h_length hp) ++ concat (map frame (map (take 16) (h_addr_list hp))) ++ frame [] ++ l) Ht) as (y & -> & Hy).
  destruct (rd_be32_s32 (h_length hp) (concat (map frame (map (take 16) (h_addr_list hp))) ++ frame [] ++ l) Hl) as (z & -> & Hz).
  rewrite rd_frames_frames; [| |by rewrite length_map].
  2: { apply Forall_map. eapply Forall_impl; [exact Hd|]. cbn. intros a H16. rewrite length_take. split; [|lia].
       intros E. apply (f_equal length) in E. rewrite length_take, Nat.min_l in E by lia. done. }
  rewrite rd_name_valid, Hy, Hz by done. do 3 f_equal. rewrite List.map_map. rewrite <-(map_id (h_aliases hp)) at 2.
  apply List.map_ext_in. intros s Hs. apply string_of_cbytes_of. rewrite List.Forall_forall in Ha. by destruct (Ha s Hs).
Qed.

(** ** Address infos *)

Definition addrinfo_bytes (ai : addrinfo) : list Z :=
  frame (ai_struct ai) ++ frame (ai_addr ai) ++ frame (match ai_canonname ai with Some s => cbytes_of s | None => [] end).

Lemma emits_addrinfo ai : valid_addrinfo ai -> emits (send_addrinfo accept ai) true (addrinfo_bytes ai).
Proof.
  intros (Hs & Hl & Ha & Hn). unfold send_addrinfo, addrinfo_bytes. eapply writes_bind; [by apply emits_frame|]. cbn [negb].
  eapply writes_bind; [by apply emits_frame|]. cbn [negb]. destruct (ai_canonname ai) as [s|]; [|apply emits_empty].
  apply emits_name. by destruct Hn.
Qed.
Lemma emits_addrinfos ais : Forall valid_addrinfo ais -> emits (send_addrinfos accept ais true) true (concat (map addrinfo_bytes ais)).
Proof.
  induction 1 as [|ai ais Hai _ IH]; [apply writes_ret|]. cbn [send_addrinfos map concat]. eapply writes_bind; [by apply emits_addrinfo|exact IH].
Qed.
Lemma rd_addrinfos_bytes ais l fuel : Forall valid_addrinfo ais -> (length ais < fuel)%nat ->
  rd_addrinfos fuel (concat (map addrinfo_bytes ais) ++ frame [] ++ l) = Some (ais, l).
Proof.
  intros H. revert fuel. induction H as [|ai ais (Hs & Hl & Ha & Hn) _ IH]; intros [|fuel] Hf; try (cbn in Hf; lia).
  - cbn [map concat app rd_addrinfos]. by rewrite rd_frame_frame.
  - cbn [map concat rd_addrinfos]. unfold addrinfo_bytes at 1. rewrite <-!app_assoc, rd_frame_frame by done.
    destruct (ai_struct ai) eqn:E; [done|]. rewrite <-E, rd_frame_frame by done.
    rewrite rd_frame_frame by (destruct (ai_canonname ai); [by apply valid_frame|done]).
    rewrite IH by (cbn in Hf; lia). rewrite rd_name_valid by done. by destruct ai.
Qed.

(** ** Theorems *)

Section Properties.
Context {R : Resolver}.

Lemma emits_run (m : W bool) ok b h : emits m ok b -> exists l, m h = (ok, h ++ l) /\ wire l = b.
Proof. intros H. apply H. Qed.

(** C32. What a client reads back of an answer.  When every write succeeds, a
    client that reads the length-prefixed format gets, after the code of success
    and with nothing left over: for getaddrinfo exactly the list of results -
    structure, address and canonical name of each; for a host entry its name,
    aliases, address type and length, and the 16 bytes in memory at each of its
    addresses, whatever the length of an address is.  So the theorem is about
    entries with 16 readable bytes at each address ([valid_hostent]; the entry of
    an IPv4 host need not have them).  The handler reports success for these
    answers except for an entry without a name, which is written in full and
    reported as failed. *)
Theorem answers_read_back h : 
  match h with
  | GetAddrInfoHandler host service hints netId mark =>
      let '(rv, ais) := android_getaddrinfofornet host service hints netId mark in
      Forall valid_addrinfo ais -> u32 rv = 0 -> exists l,
        run accept h [] = (true, (Code DnsProxyQueryResult, true) :: l) /\
        rd_addrinfos (Datatypes.S (length ais)) (wire l) = Some (ais, [])
  | GetHostByNameHandler _ _ _ _ | GetHostByAddrHandler _ _ _ _ _ =>
      forall hp, valid_hostent hp ->
      match h with
      | GetHostByNameHandler name af netId mark => android_gethostbynamefornet name af netId mark
      | GetHostByAddrHandler addr len family netId mark => android_gethostbyaddrfornet addr len family netId mark
      | _ => None
      end = Some hp -> exists l,
        run accept h [] = (is_some (h_name hp), (Code DnsProxyQueryResult, true) :: l) /\
        rd_hostent (Datatypes.S (length (h_aliases hp) + length (h_addr_list hp))) (wire l) =
        Some (HostEnt (h_name hp) (h_aliases hp) (h_addrtype hp) (h_length hp) (map (take 16) (h_addr_list hp)), [])
  end.
Proof.
  assert (Hhost : forall hp, valid_hostent hp -> exists l,
    answer_hostent accept (Some hp) [] = (is_some (h_name hp), (Code DnsProxyQueryResult, true) :: l) /\
    rd_hostent (Datatypes.S (length (h_aliases hp) + length (h_addr_list hp))) (wire l) =
    Some (HostEnt (h_name hp) (h_aliases hp) (h_addrtype hp) (h_length hp) (map (take 16) (h_addr_list hp)), [])).
  { intros hp Hv. destruct (emits_hostent hp Hv [(Code DnsProxyQueryResult, true)]) as (l & E & Hl). exists l. split.
    - change (answer_hostent accept (Some hp) []) with
        ((ok2 ← sendhostent accept hp; mret (true && ok2) : W bool) [(Code DnsProxyQueryResult, true)]).
      unfold mbind, W_bind. by rewrite E.
    - rewrite Hl, <-(app_nil_r (hostent_bytes hp)). apply rd_hostent_bytes; [done|lia|lia]. }
  destruct h as [host service hints netId mark|name af netId mark|addr len family netId mark]; cbn [run].
  - unfold GetAddrInfoHandler_run. destruct (android_getaddrinfofornet host service hints netId mark) as [rv ais].
    intros Hv Hrv. rewrite Hrv. cbn [negb Z.eqb].
    destruct (emits_addrinfos ais Hv [(Code DnsProxyQueryResult, true)]) as (l & E & Hl).
    destruct (emits_empty ((Code DnsProxyQueryResult, true) :: l)) as (l2 & E2 & Hl2). exists (l ++ l2). split.
    + match goal with |- _ = ?r => change ((success ← send_addrinfos accept ais true;
        if success : bool then sendLenAndData accept 0 [] else mret false : W bool) [(Code DnsProxyQueryResult, true)] = r) end.
      unfold mbind, W_bind. rewrite E. cbn [app]. cbn [app] in E2. by rewrite E2.
    + rewrite wire_app, Hl, Hl2, <-(app_nil_r (frame [])). apply rd_addrinfos_bytes; [done|lia].
  - intros hp Hv Hhp. unfold GetHostByNameHandler_run. rewrite Hhp. by apply Hhost.
  - intros hp Hv Hhp. unfold GetHostByAddrHandler_run. rewrite Hhp. by apply Hhost.
Qed.

(** The hints of a query: none when all four numbers are -1, else these numbers,
    with AI_ADDRCONFIG taken out of the flags off the default network. *)
Definition hints_asked s (netId flags family socktype protocol : Z) (x : option hints) : Prop :=
  match x with
  | None => flags = -1 /\ family = -1 /\ socktype = -1 /\ protocol = -1
  | Some x =>
      ~ (flags = -1 /\ family = -1 /\ socktype = -1 /\ protocol = -1) /\
      ai_family x = family /\ ai_socktype x = socktype /\ ai_protocol x = protocol /\
      Z.ldiff (ai_flags x) AI_ADDRCONFIG = Z.ldiff flags AI_ADDRCONFIG /\
      (netId = mDefaultNetId s -> ai_flags x = flags) /\
      (netId <> mDefaultNetId s -> Z.land (ai_flags x) AI_ADDRCONFIG = 0)
  end.
Lemma make_hints_spec s netId flags family socktype protocol :
  hints_asked s netId flags family socktype protocol (make_hints s netId flags family socktype protocol).
Proof.
  unfold make_hints. destruct (negb (flags =? -1) || _ || _ || _) eqn:E; cbn [hints_asked]; [|lia].
  split; [lia|]. split; [done|]. split; [done|]. split; [done|]. cbn [ai_flags].
  destruct (Z.eqb_spec netId (mDefaultNetId s)) as [->|Hne]; cbn [negb andb].
  { rewrite andb_false_r. done. }
  rewrite andb_true_r. destruct (negb (Z.land flags AI_ADDRCONFIG =? 0)) eqn:Hf.
  - rewrite <-Z.ldiff_land. split; [|split; [done|intros _]].
    + by rewrite Z.ldiff_ldiff_l, Z.lor_diag.
    + rewrite Z.ldiff_land, <-Z.land_assoc. change (Z.land (Z.lnot AI_ADDRCONFIG) AI_ADDRCONFIG) with 0. apply Z.land_0_r.
  - apply negb_false_iff, Z.eqb_eq in Hf. done.
Qed.

(** A word of a command, and the netId it asks for: the last word of
    getaddrinfo and gethostbyaddr, the first argument of gethostbyname, read as
    strtoul does and cut to 32 bits. *)
Definition word argv (i : nat) : string := nth i argv "".
Definition asked_netId argv : Z :=
  u32 (strtoul (word argv (if String.eqb (word argv 0) "getaddrinfo" then 7%nat
                           else if String.eqb (word argv 0) "gethostbyaddr" then 4%nat else 1%nat)) 10).1.

(** What a query asks the resolver is what the words of the command say. *)
Definition asks_for s argv (h : handler) : Prop :=
  match h with
  | GetAddrInfoHandler host service hints netId _ =>
      word argv 0 = "getaddrinfo" /\ length argv = 8%nat /\ host = caret (word argv 1) /\ service = caret (word argv 2) /\
      hints_asked s netId (atoi (word argv 3)) (atoi (word argv 4)) (atoi (word argv 5)) (atoi (word argv 6)) hints
  | GetHostByNameHandler name af _ _ =>
      word argv 0 = "gethostbyname" /\ length argv = 4%nat /\ name = caret (word argv 2) /\ af = atoi (word argv 3)
  | GetHostByAddrHandler addr len family _ _ =>
      word argv 0 = "gethostbyaddr" /\ length argv = 5%nat /\ len = atoi (word argv 2) /\ family = atoi (word argv 3) /\
      0 < (inet_pton family (word argv 1)).1 /\ addr = (inet_pton family (word argv 1)).2
  end.
Lemma dispatch_query stray s uid argv h : dispatch stray s uid argv = Some (Started h) ->
  (mNetId h, mMark h) = getNetworkForDns stray s (asked_netId argv) uid /\ asks_for s argv h.
Proof.
  unfold dispatch. destruct argv as [|cmd args]; [done|]. intros Hd.
  repeat (match type of Hd with context [String.eqb cmd ?w] => destruct (String.eqb_spec cmd w) as [->|] end;
    [injection Hd as Hd|]); [..|done];
    unfold GetAddrInfoCmd_runCommand, GetHostByAddrCmd_runCommand, GetHostByNameCmd_runCommand in Hd;
    repeat match type of Hd with context [match ?x with _ => _ end] => destruct x eqn:?; try discriminate Hd end;
    injection Hd as <-; (split; [symmetry; eassumption|]); cbn [asks_for word nth length].
  - repeat (split; [done|]). apply make_hints_spec.
  - repeat (split; [done|]). repeat match goal with H : inet_pton _ _ = _ |- _ => rewrite H end. cbn [fst snd]. split; [lia|done].
  - done.
Qed.

(** C30. Where DNS queries go.  The query a command starts asks the resolver
    what the words of the command say, on the network [getNetworkForDns] chooses
    for the user and the netId the command asks for - the last word of
    getaddrinfo and gethostbyaddr, the first argument of gethostbyname: that
    netId itself if the user may use it, else his VPN if it has DNS servers, else the default network.  The query's mark has the netId of the
    query and the system's permission, and is protected from VPNs.
    AI_ADDRCONFIG is left in the hints only on the default network. *)
Theorem query_network stray s uid argv h :
  nc_ok s -> dispatch stray s uid argv = Some (Started h) ->
  let asked := asked_netId argv in
  (mNetId h, mMark h) = getNetworkForDns stray s asked uid /\
  (mNetId h = asked /\ checkUserNetworkAccess stray s uid asked = 0 \/
   checkUserNetworkAccess stray s uid asked <> 0 /\
   mNetId h = match getVirtualNetworkForUserLocked s uid with
              | Some v => if VirtualNetwork.mHasDns v then virtual_netId v else mDefaultNetId s
              | None => mDefaultNetId s
              end) /\
  fwmark_netId (mMark h) = mNetId h /\ fwmark_permission (mMark h) = PERMISSION_SYSTEM /\
  fwmark_protectedFromVpn (mMark h) = true /\
  (fwmark_explicitlySelected (mMark h) = true <-> checkUserNetworkAccess stray s uid asked = 0) /\
  asks_for s argv h.
Proof.
  intros Hok Hd asked. apply dispatch_query in Hd as [E Hh]. fold asked in E. pose proof (dns_network_and_mark stray s asked uid Hok) as (H1 & H2 & H3 & H4 & H5).
  rewrite <-E in H1, H2, H3, H4, H5. cbn [fst snd] in H1, H2, H3, H4, H5. rewrite <-E. split; [done|]. split; [|done].
  destruct (Z.eqb_spec (checkUserNetworkAccess stray s uid asked) 0) as [H0|H0]; [by left|right]. split; [done|].
  destruct (getVirtualNetworkForUserLocked s uid) as [v|]; done.
Qed.
End Properties.

(** ** Examples *)

Definition sample_hostent : hostent :=
  HostEnt (Some "host.example") ["www.example"] 2 4 [[192; 0; 2; 1; 0; 0; 0; 0; 0; 0; 0; 0; 0; 0; 0; 0]].
Definition sample_addrinfo : addrinfo := AddrInfo (repeat 7 48) (repeat 1 16) (Some "host.example").
#[export] Instance sample_resolver : Resolver := {|
  android_getaddrinfofornet host service hints netId mark := (0, [sample_addrinfo; sample_addrinfo]);
  android_gethostbynamefornet name af netId mark := match name with Some _ => Some sample_hostent | None => None end;
  android_gethostbyaddrfornet addr len family netId mark := Some (HostEnt None [] 2 4 []);
  inet_pton family s := (1, [192; 0; 2; 1]);
  strerror_inet_pton family s := "Success"
|}.

Lemma no_nul_of_list s : forallb (fun b => negb (b =? 0)) (bytes_of s) = true -> no_nul s.
Proof.
  unfold no_nul. rewrite forallb_forall, List.Forall_forall. intros H b Hb. specialize (H b Hb).
  by apply negb_true_iff, Z.eqb_neq in H.
Qed.
Lemma valid_name_of s : forallb (fun b => negb (b =? 0)) (bytes_of s) && (strlen s + 1 <? 2 ^ 32) = true -> valid_name s.
Proof. intros [H1 H2]%andb_true_iff. split; [by apply no_nul_of_list|lia]. Qed.
Lemma sample_hostent_valid : valid_hostent sample_hostent.
Proof.
  split; [by apply valid_name_of|]. split; [constructor; [by apply valid_name_of|constructor]|].
  split; [cbn; lia|]. split; [cbn; lia|]. constructor; [cbn; lia|constructor].
Qed.
Lemma sample_addrinfo_valid : valid_addrinfo sample_addrinfo.
Proof. split; [done|]. split; [cbn; lia|]. split; [cbn; lia|]. by apply valid_name_of. Qed.
Lemma answers_read_back_witness :
  (exists l, run accept (GetHostByNameHandler (Some "host.example") 2 100 0) [] = (true, (Code 222, true) :: l) /\
     rd_hostent 3 (wire l) = Some (sample_hostent, [])) /\
  (exists l, run accept (GetAddrInfoHandler (Some "host.example") None None 100 0) [] = (true, (Code 222, true) :: l) /\
     rd_addrinfos 3 (wire l) = Some ([sample_addrinfo; sample_addrinfo], [])).
Proof.
  split.
  - apply (answers_read_back (GetHostByNameHandler (Some "host.example") 2 100 0) sample_hostent); [apply sample_hostent_valid|reflexivity].
  - pose proof (answers_read_back (GetAddrInfoHandler (Some "host.example") None None 100 0)) as H.
    cbn [android_getaddrinfofornet sample_resolver] in H. apply H; [|reflexivity].
    constructor; [apply sample_addrinfo_valid|constructor; [apply sample_addrinfo_valid|constructor]].
Defined.
Lemma query_network_witness :
  exists h, dispatch sample_stray sample_state 10050 ["getaddrinfo"; "host.example"; "^"; "1024"; "-1"; "-1"; "-1"; "100"] = Some (Started h) /\
  mNetId h = 101 /\ fwmark_netId (mMark h) = 101 /\
  checkUserNetworkAccess sample_stray sample_state 10050 100 <> 0.
Proof.
  destruct (dispatch sample_stray sample_state 10050 ["getaddrinfo"; "host.example"; "^"; "1024"; "-1"; "-1"; "-1"; "100"])
    as [[?|h]|] eqn:E; [vm_compute in E; discriminate E| |vm_compute in E; discriminate E].
  destruct (query_network sample_stray sample_state 10050 _ h sample_state_ok E) as (_ & _ & Hm & _).
  exists h. split; [reflexivity|]. rewrite Hm. vm_compute in E. injection E as <-. split; [reflexivity|]. split; [reflexivity|].
  vm_compute. discriminate.
Defined.

(** A host entry without a name is written in full, and the writer reports a failure. *)
Lemma nameless_entry_reported : exists h, run accept (GetHostByAddrHandler [192; 0; 2; 1] 4 2 100 0) [] = (false, h) /\
  forallb snd h = true.
Proof. eexists. split; vm_compute; reflexivity. Qed.
