(* ===== verification/NetlinkHandler.v ===== *)
(** * NetlinkHandler: what the kernel's events become

    Models [server/NetlinkHandler.cpp].  The event is decoded by libsysutils: a
    subsystem, an action and named parameters, any of which may be missing.  What
    a handler does is a list of effects; [None] is a run that follows a null
    pointer.  A missing string is printed as "(null)", as the C library of
    Android does.  That memory for a message runs out is left out. *)
From S2P Require Import Prelude Cstd.

Module NetlinkHandler.

(** NetlinkEvent.h of libsysutils *)
Inductive Action :=
| NlActionUnknown | NlActionAdd | NlActionRemove | NlActionChange | NlActionLinkUp | NlActionLinkDown
| NlActionAddressUpdated | NlActionAddressRemoved | NlActionRdnss | NlActionRouteUpdated | NlActionRouteRemoved.
#[export] Instance Action_eq_dec : EqDecision Action.
Proof. solve_decision. Defined.

Record NetlinkEvent := Event {
  getSubsystem : option string;
  getAction : Action;
  findParam : string -> option string
}.

(** ifc.h of libnetutils *)
Class ResetMasks := {
  RESET_IPV4_ADDRESSES : Z;
  RESET_IPV6_ADDRESSES : Z;
  RESET_IGNORE_INTERFACE_ADDRESS : Z
}.

(** [ResponseCode.h] *)
Definition InterfaceChange : Z := 600.
Definition BandwidthControl : Z := 601.
Definition InterfaceClassActivity : Z := 613.
Definition InterfaceAddressChange : Z := 614.
Definition InterfaceDnsInfo : Z := 615.
Definition RouteChange : Z := 616.

Inductive effect :=
| SendBroadcast (code : Z) (msg : string)
| ResetConnections (iface : string) (mask : Z).   (** ifc_reset_connections() *)

Definition kUpdated : string := "updated".
Definition kRemoved : string := "removed".

(** "%s" *)
Definition str (s : option string) : string := default "(null)" s.

Definition notify (code : Z) (msg : string) : list effect := [SendBroadcast code msg].
Definition notifyInterfaceAdded (name : option string) : list effect :=
  notify InterfaceChange ("Iface added " +:+ str name).
Definition notifyInterfaceRemoved (name : option string) : list effect :=
  notify InterfaceChange ("Iface removed " +:+ str name).
Definition up_down (isUp : bool) : string := if isUp then "up" else "down".
Definition notifyInterfaceChanged (name : string) (isUp : bool) : list effect :=
  notify InterfaceChange ("Iface changed " +:+ name +:+ " " +:+ up_down isUp).
Definition notifyInterfaceLinkChanged (name : option string) (isUp : bool) : list effect :=
  notify InterfaceChange ("Iface linkstate " +:+ str name +:+ " " +:+ up_down isUp).
Definition notifyQuotaLimitReached (name iface : option string) : list effect :=
  notify BandwidthControl ("limit alert " +:+ str name +:+ " " +:+ str iface).
Definition notifyInterfaceClassActivity (name : option string) (isActive : bool) (timestamp : option string) : list effect :=
  let state := if isActive then "active" else "idle" in
  match timestamp with
  | None => notify InterfaceClassActivity ("IfaceClass " +:+ state +:+ " " +:+ str name)
  | Some timestamp => notify InterfaceClassActivity ("IfaceClass " +:+ state +:+ " " +:+ str name +:+ " " +:+ timestamp)
  end.
Definition notifyAddressChanged (action : Action) (addr : option string) (iface flags scope : string) : list effect :=
  notify InterfaceAddressChange
    ("Address " +:+ (if decide (action = NlActionAddressUpdated) then kUpdated else kRemoved) +:+ " " +:+
     str addr +:+ " " +:+ iface +:+ " " +:+ flags +:+ " " +:+ scope).
Definition notifyInterfaceDnsServers (iface : option string) (lifetime servers : string) : list effect :=
  notify InterfaceDnsInfo ("DnsInfo servers " +:+ str iface +:+ " " +:+ lifetime +:+ " " +:+ servers).
(** The first characters of both are read. *)
Definition notifyRouteChange (action : Action) (route : string) (gateway iface : option string) : option (list effect) :=
  match gateway, iface with
  | Some gateway, Some iface =>
      Some (notify RouteChange
        ("Route " +:+ (if decide (action = NlActionRouteUpdated) then kUpdated else kRemoved) +:+ " " +:+ route +:+
         (if String.eqb gateway "" then "" else " via ") +:+ gateway +:+
         (if String.eqb iface "" then "" else " dev ") +:+ iface))
  | _, _ => None
  end.

Section OnEvent.
Context {R : ResetMasks}.

(** The connections of an address that is gone. *)
Definition reset_address (iface address : string) : list effect :=
  [ResetConnections iface
     (Z.lor (match strchr address ":" with Some _ => RESET_IPV6_ADDRESSES | None => RESET_IPV4_ADDRESSES end) RESET_IGNORE_INTERFACE_ADDRESS)].

Definition onAddress (evt : NetlinkEvent) (iface : option string) : list effect :=
  let address := findParam evt "ADDRESS" in
  (match iface, address with
   | Some iface, Some address =>
       if decide (getAction evt = NlActionAddressRemoved) then reset_address iface address else []
   | _, _ => []
   end) ++
  (match iface, findParam evt "FLAGS", findParam evt "SCOPE" with
   | Some iface, Some flags, Some scope => notifyAddressChanged (getAction evt) address iface flags scope
   | _, _, _ => []
   end).

Definition onNet (evt : NetlinkEvent) : option (list effect) :=
  let iface := findParam evt "INTERFACE" in
  match getAction evt with
  | NlActionAdd => Some (notifyInterfaceAdded iface)
  | NlActionRemove => Some (notifyInterfaceRemoved iface)
  | NlActionChange => Some (notifyInterfaceChanged "nana" true)
  | NlActionLinkUp => Some (notifyInterfaceLinkChanged iface true)
  | NlActionLinkDown => Some (notifyInterfaceLinkChanged iface false)
  | NlActionAddressUpdated | NlActionAddressRemoved => Some (onAddress evt iface)
  | NlActionRdnss =>
      match findParam evt "LIFETIME", findParam evt "SERVERS" with
      | Some lifetime, Some servers => Some (notifyInterfaceDnsServers iface lifetime servers)
      | _, _ => Some []
      end
  | NlActionRouteUpdated | NlActionRouteRemoved =>
      match findParam evt "ROUTE", findParam evt "GATEWAY", findParam evt "INTERFACE" with
      | Some route, gateway, iface =>
          if bool_decide (is_Some gateway) || bool_decide (is_Some iface)
          then notifyRouteChange (getAction evt) route gateway iface else Some []
      | None, _, _ => Some []
      end
  | NlActionUnknown => Some []
  end.

Definition onEvent (evt : NetlinkEvent) : option (list effect) :=
  match getSubsystem evt with
  | None => Some []
  | Some subsys =>
      if String.eqb subsys "net" then onNet evt
      else if String.eqb subsys "qlog" then
        Some (notifyQuotaLimitReached (findParam evt "ALERT_NAME") (findParam evt "INTERFACE"))
      else if String.eqb subsys "xt_idletimer" then
        match findParam evt "STATE" with
        | Some state => Some (notifyInterfaceClassActivity (findParam evt "INTERFACE") (String.eqb "active" state)
                                (findParam evt "TIME_NS"))
        | None => Some []
        end
      else Some []
  end.

(** ** Reading the messages

    A listener splits a message at the spaces. *)

Fixpoint words_of (s : string) : list string :=
  match s with
  | EmptyString => [EmptyString]
  | String c s =>
      if Ascii.eqb c " " then EmptyString :: words_of s
      else match words_of s with [] => [String c EmptyString] | w :: ws => String c w :: ws end
  end.

Lemma words_of_word w : no_space w = true -> words_of w = [w].
Proof.
  induction w as [|c w IH]; [done|]. cbn [no_space words_of]. intros [Hc Hw]%andb_true_iff.
  apply negb_true_iff in Hc. by rewrite Hc, IH.
Qed.

Lemma words_of_cons w rest : no_space w = true -> words_of (w +:+ String " " rest) = w :: words_of rest.
Proof.
  induction w as [|c w IH]; [done|]. cbn [no_space]. intros [Hc Hw]%andb_true_iff. apply negb_true_iff in Hc.
  change (String c w +:+ String " " rest) with (String c (w +:+ String " " rest)). cbn [words_of]. by rewrite Hc, IH.
Qed.

(** What an event tells the listeners: the code and the words.  An empty gateway or
    interface of a route is left out. *)
Definition clause (word value : string) : list string := if String.eqb value "" then [] else [word; value].

Inductive tells (evt : NetlinkEvent) : Z -> list string -> Prop :=
| tells_interface action word i :
    getSubsystem evt = Some "net" -> (action, word) ∈ [(NlActionAdd, "added"); (NlActionRemove, "removed")] ->
    getAction evt = action -> findParam evt "INTERFACE" = Some i ->
    tells evt 600 ["Iface"; word; i]
| tells_link action word i :
    getSubsystem evt = Some "net" -> (action, word) ∈ [(NlActionLinkUp, "up"); (NlActionLinkDown, "down")] ->
    getAction evt = action -> findParam evt "INTERFACE" = Some i ->
    tells evt 600 ["Iface"; "linkstate"; i; word]
| tells_address action word address i flags scope :
    getSubsystem evt = Some "net" ->
    (action, word) ∈ [(NlActionAddressUpdated, "updated"); (NlActionAddressRemoved, "removed")] ->
    getAction evt = action -> findParam evt "ADDRESS" = Some address -> findParam evt "INTERFACE" = Some i ->
    findParam evt "FLAGS" = Some flags -> findParam evt "SCOPE" = Some scope ->
    tells evt 614 ["Address"; word; address; i; flags; scope]
| tells_dns i lifetime servers :
    getSubsystem evt = Some "net" -> getAction evt = NlActionRdnss -> findParam evt "INTERFACE" = Some i ->
    findParam evt "LIFETIME" = Some lifetime -> findParam evt "SERVERS" = Some servers ->
    tells evt 615 ["DnsInfo"; "servers"; i; lifetime; servers]
| tells_route action word route gateway i :
    getSubsystem evt = Some "net" ->
    (action, word) ∈ [(NlActionRouteUpdated, "updated"); (NlActionRouteRemoved, "removed")] ->
    getAction evt = action -> findParam evt "ROUTE" = Some route -> findParam evt "GATEWAY" = Some gateway ->
    findParam evt "INTERFACE" = Some i ->
    tells evt 616 (["Route"; word; route] ++ clause "via" gateway ++ clause "dev" i)
| tells_quota name i :
    getSubsystem evt = Some "qlog" -> findParam evt "ALERT_NAME" = Some name -> findParam evt "INTERFACE" = Some i ->
    tells evt 601 ["limit"; "alert"; name; i]
| tells_activity label state :
    getSubsystem evt = Some "xt_idletimer" -> findParam evt "INTERFACE" = Some label ->
    findParam evt "STATE" = Some state ->
    tells evt 613 (["IfaceClass"; if decide (state = "active") then "active" else "idle"; label] ++
                   match findParam evt "TIME_NS" with Some time => [time] | None => [] end).

Definition broadcasts (l : list effect) : list (Z * string) :=
  omap (fun e => match e with SendBroadcast code msg => Some (code, msg) | ResetConnections _ _ => None end) l.

(** No parameter holds a space. *)
Definition plain_params (evt : NetlinkEvent) : Prop :=
  forall name v, findParam evt name = Some v -> no_space v = true.

Lemma broadcasts_app l1 l2 : broadcasts (l1 ++ l2) = broadcasts l1 ++ broadcasts l2.
Proof. apply omap_app. Qed.

Lemma broadcasts_address evt iface address flags scope :
  findParam evt "ADDRESS" = Some address -> findParam evt "FLAGS" = Some flags -> findParam evt "SCOPE" = Some scope ->
  broadcasts (onAddress evt (Some iface)) =
  broadcasts (notifyAddressChanged (getAction evt) (Some address) iface flags scope).
Proof. intros Ha Hf Hs. unfold onAddress. rewrite Ha, Hf, Hs. by destruct (decide _). Qed.

Ltac one_of H := apply elem_of_cons in H as [[= -> ->]|[[= -> ->]|[]%elem_of_nil]%elem_of_cons].

Ltac closed_eqb :=
  repeat match goal with
  | |- context [String.eqb (String ?a ?s) (String ?b ?t)] =>
      let r := eval vm_compute in (String.eqb (String a s) (String b t)) in
      change (String.eqb (String a s) (String b t)) with r
  end; cbv iota.

Lemma append_cons c s1 s2 : String c s1 +:+ s2 = String c (s1 +:+ s2).
Proof. done. Qed.
Lemma append_nil s : "" +:+ s = s.
Proof. done. Qed.

Ltac read_words :=
  rewrite ?append_assoc; unfold kUpdated, kRemoved;
  repeat first
    [ rewrite words_of_cons by eauto
    | rewrite append_cons | rewrite append_nil
    | progress cbn [words_of Ascii.eqb Bool.eqb str default]
    | rewrite words_of_word by eauto ].

Lemma route_words word route gateway i :
  no_space word = true -> no_space route = true -> no_space gateway = true -> no_space i = true ->
  words_of ("Route " +:+ word +:+ " " +:+ route +:+ (if String.eqb gateway "" then "" else " via ") +:+ gateway +:+
            (if String.eqb i "" then "" else " dev ") +:+ i) =
  ["Route"; word; route] ++ clause "via" gateway ++ clause "dev" i.
Proof.
  intros. unfold clause. destruct (String.eqb_spec gateway "") as [->|], (String.eqb_spec i "") as [->|];
    rewrite ?append_empty_r; read_words; done.
Qed.

Definition about_route (evt : NetlinkEvent) : Prop :=
  getSubsystem evt = Some "net" /\ (getAction evt = NlActionRouteUpdated \/ getAction evt = NlActionRouteRemoved).

(** Handling an event of a route crashes when it has a gateway or an interface, but
    not both; nothing else does. *)
Lemma onEvent_crashes evt :
  onEvent evt = None <->
  about_route evt /\ is_Some (findParam evt "ROUTE") /\
  (is_Some (findParam evt "GATEWAY") /\ findParam evt "INTERFACE" = None \/
   findParam evt "GATEWAY" = None /\ is_Some (findParam evt "INTERFACE")).
Proof.
  unfold onEvent, onNet, about_route, notifyRouteChange. destruct (getSubsystem evt) as [subsys|]; [|naive_solver].
  destruct (String.eqb_spec subsys "net") as [->|Hn].
  - destruct (getAction evt); repeat case_match; repeat case_bool_decide; unfold is_Some in *; cbn in *; naive_solver.
  - repeat case_match; naive_solver.
Qed.

(** The effects of an event: the connections of an address are reset first, and
    only when it is removed; at most one broadcast follows, of the 600 series. *)
Definition reset_only (evt : NetlinkEvent) (l : list effect) : Prop :=
  l = [] \/ exists iface address,
    getSubsystem evt = Some "net" /\ getAction evt = NlActionAddressRemoved /\
    findParam evt "INTERFACE" = Some iface /\ findParam evt "ADDRESS" = Some address /\ l = reset_address iface address.
Definition one_broadcast (l : list effect) : Prop :=
  l = [] \/ exists code msg, l = [SendBroadcast code msg] /\ 600 <= code <= 616.
Definition shaped (evt : NetlinkEvent) (l : list effect) : Prop :=
  exists resets sends, l = resets ++ sends /\ reset_only evt resets /\ one_broadcast sends.

Lemma shaped_send evt l : one_broadcast l -> shaped evt l.
Proof. intros H. exists [], l. split_and!; [done|by left|done]. Qed.
Lemma one_notify code msg : 600 <= code <= 616 -> one_broadcast (notify code msg).
Proof. intros H. right. by exists code, msg. Qed.

Lemma shaped_address evt iface :
  getSubsystem evt = Some "net" -> findParam evt "INTERFACE" = iface -> shaped evt (onAddress evt iface).
Proof.
  intros Hs Hi. unfold onAddress. eexists _, _. split; [done|]. split.
  - destruct iface as [iface|], (findParam evt "ADDRESS") as [address|] eqn:Ha; try by left.
    destruct (decide _); [|by left]. right. by exists iface, address.
  - repeat case_match; try (by left). apply one_notify. unfold InterfaceAddressChange. lia.
Qed.

Ltac send := apply shaped_send, one_notify; vm_compute; split; discriminate.
Ltac send_or_nothing :=
  repeat match goal with
  | |- context [match ?x with _ => _ end] => destruct x
  end; intros [= <-]; first [send | apply shaped_send; by left].

Lemma onNet_shape evt l : getSubsystem evt = Some "net" -> onNet evt = Some l -> shaped evt l.
Proof.
  intros Hs. unfold onNet, notifyRouteChange, notifyInterfaceAdded, notifyInterfaceRemoved, notifyInterfaceChanged,
    notifyInterfaceLinkChanged, notifyInterfaceDnsServers.
  destruct (getAction evt); try (intros [= <-]; by apply shaped_address); send_or_nothing.
Qed.

Lemma effects_shape evt l : onEvent evt = Some l -> shaped evt l.
Proof.
  unfold onEvent. destruct (getSubsystem evt) as [subsys|] eqn:Hs; [|by intros [= <-]; apply shaped_send; left].
  destruct (String.eqb_spec subsys "net") as [->|_]; [by apply onNet_shape|].
  unfold notifyQuotaLimitReached, notifyInterfaceClassActivity. send_or_nothing.
Qed.

(** ** Properties *)

(** C34. Listeners learn what happened, for the events of [tells] whose parameters hold
    no space: an interface that comes or goes, a link up or down, an address updated or
    removed, DNS servers, a route with both its gateway and its interface (which may be
    empty), a quota, an idle timer.  One message is broadcast, its code is the one of the
    kind of event and its words, read back, are the event's.  (Not covered: a change of
    an interface, which is announced without what changed, and a route that lacks the
    parameter of its gateway or interface, where the code reads a null pointer.) *)
Theorem events_read_back evt code words :
  plain_params evt -> tells evt code words ->
  exists l msg, onEvent evt = Some l /\ broadcasts l = [(code, msg)] /\ words_of msg = words.
Proof.
  intros Hp Ht. unfold onEvent, onNet.
  destruct Ht as [a w i Hs Hw Ha Hi|a w i Hs Hw Ha Hi|a w addr i fl sc Hs Hw Ha Haddr Hi Hf Hsc|i lt sv Hs Ha Hi Hl Hv
    |a w r gw i Hs Hw Ha Hr Hg Hi|nm i Hs Hn Hi|lb st Hs Hi Hst]; rewrite Hs;
    closed_eqb.
  - one_of Hw; rewrite Ha, Hi; do 2 eexists; (split; [done|split; [done|]]); read_words; done.
  - one_of Hw; rewrite Ha, Hi; do 2 eexists; (split; [done|split; [done|]]); read_words; done.
  - one_of Hw; rewrite Ha, Hi; do 2 eexists; (split; [done|]); rewrite (broadcasts_address _ _ addr fl sc) by done;
      (split; [done|]); rewrite Ha; read_words; done.
  - rewrite Ha, Hi, Hl, Hv. do 2 eexists. split; [done|]. split; [done|]. read_words. done.
  - one_of Hw; rewrite Ha, Hr, Hg, Hi; do 2 eexists; (split; [done|split; [done|]]).
    + apply route_words; eauto.
    + apply route_words; eauto.
  - rewrite Hn, Hi. do 2 eexists. split; [done|]. split; [done|]. read_words. done.
  - rewrite Hi, Hst. rewrite String.eqb_sym. destruct (String.eqb_spec st "active") as [->|Hne];
      [rewrite decide_True by done|rewrite decide_False by done];
      destruct (findParam evt "TIME_NS") as [time|] eqn:Et; do 2 eexists; (split; [done|split; [done|]]); read_words; done.
Qed.

(** A change of an interface is announced for an interface "nana". *)
Lemma change_is_nana evt :
  getSubsystem evt = Some "net" -> getAction evt = NlActionChange ->
  onEvent evt = Some [SendBroadcast 600 "Iface changed nana up"].
Proof. intros Hs Ha. unfold onEvent, onNet. by rewrite Hs, Ha. Qed.
End OnEvent.

(** A route through a gateway is gone. *)
Definition sample_masks : ResetMasks := {| RESET_IPV4_ADDRESSES := 1; RESET_IPV6_ADDRESSES := 2; RESET_IGNORE_INTERFACE_ADDRESS := 4 |}.
Definition sample_event : NetlinkEvent :=
  Event (Some "net") NlActionRouteRemoved (fun name =>
    if String.eqb name "ROUTE" then Some "10.0.0.0/8" else if String.eqb name "GATEWAY" then Some "192.168.1.1"
    else if String.eqb name "INTERFACE" then Some "wlan0" else None).

Lemma events_read_back_witness :
  onEvent (R:=sample_masks) sample_event = Some [SendBroadcast 616 "Route removed 10.0.0.0/8 via 192.168.1.1 dev wlan0"] /\
  exists l msg, onEvent (R:=sample_masks) sample_event = Some l /\ broadcasts l = [(616, msg)] /\
    words_of msg = ["Route"; "removed"; "10.0.0.0/8"; "via"; "192.168.1.1"; "dev"; "wlan0"].
Proof.
  split; [vm_compute; reflexivity|]. apply (events_read_back (R:=sample_masks)).
  - intros name v. unfold sample_event. cbn [findParam]. repeat case_match; by intros [= <-].
  - apply (tells_route sample_event NlActionRouteRemoved "removed" "10.0.0.0/8" "192.168.1.1" "wlan0"); try reflexivity.
    right. left.
Defined.
End NetlinkHandler.
