(* ===== verification/NetlinkManager.v ===== *)
(** * NetlinkManager: the sockets on which the kernel's events arrive

    Models [server/NetlinkManager.cpp].  A call on a socket is an entry of a log;
    its result is the parameter [NetlinkKernel], a function of the log before it.
    A handler is its socket and the format of its messages; its thread runs from
    start() to stop(). *)
From S2P Require Import Prelude Platform Children.

Module NetlinkManager.

(** Constants of the kernel's headers and of libsysutils. *)
Definition NETLINK_ROUTE : Z := 0.
Definition NETLINK_NFLOG : Z := 5.
Definition NETLINK_KOBJECT_UEVENT : Z := 15.
Definition RTMGRP_LINK : Z := 1.
Definition RTMGRP_IPV4_IFADDR : Z := 0x10.
Definition RTMGRP_IPV6_IFADDR : Z := 0x100.
Definition RTMGRP_IPV6_ROUTE : Z := 0x400.
Definition RTNLGRP_ND_USEROPT : Z := 20.
Inductive Format := NETLINK_FORMAT_ASCII | NETLINK_FORMAT_BINARY.

(** [NetlinkManager.cpp] *)
Definition NFLOG_QUOTA_GROUP : Z := 1.

Inductive call :=
| Socket (family : Z)                 (** the descriptor, or -1 *)
| SetRcvbuf (sock sz : Z)
| SetPasscred (sock : Z)
| Bind (sock groups : Z)
| StartListener (sock : Z) (format : Format)   (** the handler's start() *)
| StopListener (sock : Z)
| Close (sock : Z).

Definition calls : Type := list (call * Z).

Class NetlinkKernel := { nk_reply : calls -> call -> Z }.

Record NetlinkHandler := Handler { h_sock : Z; h_format : Format }.

(** A null handler is [None]; the sockets are not set by the constructor. *)
Record t := State {
  mBroadcaster : bool;     (** whether there is one *)
  mUeventHandler : option NetlinkHandler;
  mUeventSock : Z;
  mRouteHandler : option NetlinkHandler;
  mRouteSock : Z;
  mQuotaHandler : option NetlinkHandler;
  mQuotaSock : Z;
  made : calls
}.

Definition set_mBroadcaster b s := State b (mUeventHandler s) (mUeventSock s) (mRouteHandler s) (mRouteSock s) (mQuotaHandler s) (mQuotaSock s) (made s).
Definition set_uevent h k s := State (mBroadcaster s) h k (mRouteHandler s) (mRouteSock s) (mQuotaHandler s) (mQuotaSock s) (made s).
Definition set_route h k s := State (mBroadcaster s) (mUeventHandler s) (mUeventSock s) h k (mQuotaHandler s) (mQuotaSock s) (made s).
Definition set_quota h k s := State (mBroadcaster s) (mUeventHandler s) (mUeventSock s) (mRouteHandler s) (mRouteSock s) h k (made s).
Definition set_made l s := State (mBroadcaster s) (mUeventHandler s) (mUeventSock s) (mRouteHandler s) (mRouteSock s) (mQuotaHandler s) (mQuotaSock s) l.

(** The constructor sets nothing else. *)
Definition construct (mem : t) : t := set_mBroadcaster false mem.

Section Operations.
Context {NK : NetlinkKernel}.

Definition sys (c : call) : M t Z :=
  fun s tr => let r := nk_reply (made s) c in (r, set_made (made s ++ [(c, r)]) s, tr).

(** [sock] and the handler: [sock] is set also when there is no handler. *)
Definition setupSocket (netlinkFamily groups : Z) (format : Format) : M t (option NetlinkHandler * Z) :=
  sock ← sys (Socket netlinkFamily);
  if sock <? 0 then mret (None, sock)
  else
    r ← sys (SetRcvbuf sock (64 * 1024));
    if r <? 0 then _ ← sys (Close sock); mret (None, sock)
    else
      r ← sys (SetPasscred sock);
      if r <? 0 then _ ← sys (Close sock); mret (None, sock)
      else
        r ← sys (Bind sock groups);
        if r <? 0 then _ ← sys (Close sock); mret (None, sock)
        else
          r ← sys (StartListener sock format);
          if negb (r =? 0) then _ ← sys (Close sock); mret (None, sock)
          else mret (Some (Handler sock format), sock).

Definition route_groups : Z :=
  foldr Z.lor 0 [RTMGRP_LINK; RTMGRP_IPV4_IFADDR; RTMGRP_IPV6_IFADDR; RTMGRP_IPV6_ROUTE;
                 Z.shiftl 1 (RTNLGRP_ND_USEROPT - 1)].

Definition start : M t Z :=
  u ← setupSocket NETLINK_KOBJECT_UEVENT 0xffffffff NETLINK_FORMAT_ASCII;
  modify (set_uevent u.1 u.2);;
  match u.1 with
  | None => mret (-1)
  | Some _ =>
      r ← setupSocket NETLINK_ROUTE route_groups NETLINK_FORMAT_BINARY;
      modify (set_route r.1 r.2);;
      match r.1 with
      | None => mret (-1)
      | Some _ =>
          q ← setupSocket NETLINK_NFLOG NFLOG_QUOTA_GROUP NETLINK_FORMAT_BINARY;
          modify (set_quota q.1 q.2);;
          mret 0
      end
  end.

(** One handler and its socket: the status, or [None] for a null handler. *)
Definition stop_one (h : option NetlinkHandler) (sock : Z) (put : option NetlinkHandler -> Z -> t -> t) : M t (option Z) :=
  match h with
  | None => mret None
  | Some h =>
      r ← sys (StopListener (h_sock h));
      sys (Close sock);;
      modify (put None (-1));;
      mret (Some (if negb (r =? 0) then -1 else 0))
  end.

(** The first two handlers are not checked. *)
Definition stop : M t (option Z) :=
  s ← gets id;
  u ← stop_one (mUeventHandler s) (mUeventSock s) set_uevent;
  match u with
  | None => mret None
  | Some u =>
      r ← stop_one (mRouteHandler s) (mRouteSock s) set_route;
      match r with
      | None => mret None
      | Some r =>
          match mQuotaHandler s with
          | None => mret (Some (Z.min u r))
          | Some _ =>
              q ← stop_one (mQuotaHandler s) (mQuotaSock s) set_quota;
              mret (match q with Some q => Some (Z.min (Z.min u r) q) | None => None end)
          end
      end
  end.
End Operations.

(** ** What is open, and what runs *)

Definition open_step (l : list Z) (c : call * Z) : list Z :=
  match c with
  | (Socket _, r) => if r <? 0 then l else l ++ [r]
  | (Close sock, _) => filter (fun k => k <> sock) l
  | _ => l
  end.
Definition open_sockets (l : calls) : list Z := foldl open_step [] l.

Definition running_step (l : list Z) (c : call * Z) : list Z :=
  match c with
  | (StartListener sock _, r) => if r =? 0 then l ++ [sock] else l
  | (StopListener sock, _) => filter (fun k => k <> sock) l
  | _ => l
  end.
Definition running (l : calls) : list Z := foldl running_step [] l.
#[global] Arguments open_sockets : simpl never.
#[global] Arguments running : simpl never.

Lemma open_snoc l c : open_sockets (l ++ [c]) = open_step (open_sockets l) c.
Proof. unfold open_sockets. by rewrite foldl_app. Qed.
Lemma running_snoc l c : running (l ++ [c]) = running_step (running l) c.
Proof. unfold running. by rewrite foldl_app. Qed.

(** A new socket has a descriptor that is not in use. *)
Definition fresh_sockets (NK : NetlinkKernel) : Prop :=
  forall l family, 0 <= nk_reply l (Socket family) -> nk_reply l (Socket family) ∉ open_sockets l.

(** The threads are those of open sockets. *)
Definition tidy (l : calls) : Prop := running l ⊆ open_sockets l.

Section Proofs.
Context {NK : NetlinkKernel} (Hfresh : fresh_sockets NK).

Lemma drop_last (o : list Z) (k : Z) : k ∉ o -> filter (fun x => x <> k) (o ++ [k]) = o.
Proof.
  intros Hk. rewrite filter_app, (filter_all _ o) by (by intros x Hx ->).
  rewrite filter_cons_False by (by intros []). by rewrite app_nil_r.
Qed.

(** What setupSocket does to the log: nothing stays open of a failure, and a
    success leaves one socket with its thread. *)
Definition set_up (h : option NetlinkHandler) (sock : Z) (before after : calls) : Prop :=
  match h with
  | None => open_sockets after = open_sockets before /\ running after = running before
  | Some h => h_sock h = sock /\ (sock ∉ open_sockets before) /\
      open_sockets after = open_sockets before ++ [sock] /\ running after = running before ++ [sock]
  end.

Lemma wp_sys c (Q : Z -> t -> trace -> Prop) s tr :
  (forall r, r = nk_reply (made s) c -> Q r (set_made (made s ++ [(c, r)]) s) tr) -> wp (sys c) Q s tr.
Proof. intros H. by apply H. Qed.

Ltac call r E := apply wp_bind, wp_sys; intros r E; cbn [made set_made].

Lemma setupSocket_spec family groups format s tr :
  wp (setupSocket family groups format)
    (fun r s' tr' => tr' = tr /\ exists l, s' = set_made l s /\ set_up r.1 r.2 (made s) l) s tr.
Proof.
  unfold setupSocket. call sock Es. destruct (sock <? 0) eqn:Esock.
  { apply wp_ret. split; [done|]. eexists. split; [done|]. unfold set_up. rewrite open_snoc, running_snoc. cbn. by rewrite Esock. }
  assert (sock ∉ open_sockets (made s)) as Hn by (rewrite Es in *; apply Hfresh; bool_to_prop; lia).
  assert (forall l, open_sockets l = open_sockets (made s) ++ [sock] -> running l = running (made s) -> forall s',
    (exists l', s' = set_made l' s /\ l' = l) ->
    wp (_ ← sys (Close sock); mret (None, sock)) (fun r s' tr' => tr' = tr /\ exists l, s' = set_made l s /\ set_up r.1 r.2 (made s) l) s' tr)
    as Hclose.
  { intros l Ho Hr s' (l' & -> & ->). call r Er. apply wp_ret. split; [done|]. eexists. split; [done|].
    cbn [set_up fst]. rewrite open_snoc, running_snoc, Ho, Hr. cbn. by rewrite drop_last. }
  call r1 E1. case_match; [eapply Hclose; [..|by eexists]; rewrite ?open_snoc, ?running_snoc; cbn; by rewrite ?Esock|].
  call r2 E2. case_match; [eapply Hclose; [..|by eexists]; rewrite ?open_snoc, ?running_snoc; cbn; by rewrite ?Esock|].
  call r3 E3. case_match; [eapply Hclose; [..|by eexists]; rewrite ?open_snoc, ?running_snoc; cbn; by rewrite ?Esock|].
  call r4 E4. destruct (r4 =? 0) eqn:E0; cbn [negb];
    [|eapply Hclose; [..|by eexists]; rewrite ?open_snoc, ?running_snoc; cbn; by rewrite ?Esock, ?E0].
  apply wp_ret. split; [done|]. eexists. split; [done|]. unfold set_up; cbn [fst snd h_sock]. split_and!; [done..| |];
    rewrite ?open_snoc, ?running_snoc; cbn; by rewrite ?Esock, ?E0.
Qed.

(** The manager has its two or three handlers, with sockets of their own beside
    those in [o]. *)
Definition handles (h : option NetlinkHandler) (sock : Z) (own : list Z) : Prop :=
  match h with None => own = [] | Some h => h_sock h = sock /\ own = [sock] end.
Definition started (o threads : list Z) (s : t) : Prop :=
  exists q, is_Some (mUeventHandler s) /\ is_Some (mRouteHandler s) /\
    handles (mUeventHandler s) (mUeventSock s) [mUeventSock s] /\
    handles (mRouteHandler s) (mRouteSock s) [mRouteSock s] /\ handles (mQuotaHandler s) (mQuotaSock s) q /\
    open_sockets (made s) = o ++ [mUeventSock s; mRouteSock s] ++ q /\
    running (made s) = threads ++ [mUeventSock s; mRouteSock s] ++ q /\
    NoDup ([mUeventSock s; mRouteSock s] ++ q) /\ forall k, k ∈ [mUeventSock s; mRouteSock s] ++ q -> k ∉ o.

(** A failed start leaves the first socket open when it is the second that fails. *)
Definition start_failed (o : list Z) (s : t) : Prop :=
  open_sockets (made s) = o \/ open_sockets (made s) = o ++ [mUeventSock s].

Lemma start_spec s tr :
  wp start (fun r s' tr' => tr' = tr /\ mBroadcaster s' = mBroadcaster s /\
    (r = 0 /\ started (open_sockets (made s)) (running (made s)) s' \/
     r = -1 /\ start_failed (open_sockets (made s)) s')) s tr.
Proof.
  unfold start. apply wp_bind. eapply wp_mono; [apply setupSocket_spec|]. cbn. intros [hu ku] _ tr1 (-> & l1 & -> & H1).
  apply wp_bind, wp_modify. cbn [fst snd] in *. destruct hu as [hu|]; cbn [set_up] in H1.
  2:{ apply wp_ret. do 2 (split; [done|]). right. split; [done|]. left. by destruct H1. }
  destruct H1 as (Hk1 & Hn1 & Ho1 & Hr1). apply wp_bind. eapply wp_mono; [apply setupSocket_spec|]. cbn.
  intros [hr kr] _ tr2 (-> & l2 & -> & H2). apply wp_bind, wp_modify. cbn [fst snd] in *.
  destruct hr as [hr|]; cbn [set_up] in H2.
  2:{ apply wp_ret. do 2 (split; [done|]). right. split; [done|]. right. destruct H2 as [H2 _]. exact (eq_trans H2 Ho1). }
  destruct H2 as (Hk2 & Hn2 & Ho2 & Hr2). apply wp_bind. eapply wp_mono; [apply setupSocket_spec|]. cbn.
  intros [hq kq] _ tr3 (-> & l3 & -> & H3). apply wp_bind, wp_modify, wp_ret. cbn [fst snd] in *.
  do 2 (split; [done|]). left. split; [done|]. rewrite Ho1 in *. rewrite Hr1 in *.
  apply not_elem_of_app in Hn2 as [Hn2 Hn2'%not_elem_of_cons]. destruct hq as [hq|]; cbn [set_up] in H3.
  - destruct H3 as (Hk3 & Hn3 & Ho3 & Hr3). rewrite Ho2 in *. rewrite Hr2 in *.
    apply not_elem_of_app in Hn3 as [[Hn3 Hn3']%not_elem_of_app Hn3'']. exists [kq]. cbn.
    rewrite Ho3, Hr3, <-!app_assoc. split_and!; try done.
    + apply NoDup_cons. split; [set_solver|]. apply NoDup_cons. split; [set_solver|]. apply NoDup_singleton.
    + set_solver.
  - destruct H3 as (Ho3 & Hr3). exists []. cbn. rewrite Ho3, Hr3, Ho2, Hr2, <-!app_assoc. split_and!; try done.
    + apply NoDup_cons. split; [set_solver|]. apply NoDup_singleton.
    + set_solver.
Qed.

Lemma stop_one_spec h sock put s tr :
  (forall h k s, made (put h k s) = made s) -> h_sock h = sock ->
  wp (stop_one (Some h) sock put)
    (fun r s' _ => is_Some r /\ exists l, s' = put None (-1) (set_made l s) /\
       open_sockets l = filter (fun k => k <> sock) (open_sockets (made s)) /\
       running l = filter (fun k => k <> sock) (running (made s))) s tr.
Proof.
  intros Hput <-. unfold stop_one. call r Er. call r' Er'. apply wp_bind, wp_modify, wp_ret. split; [by eexists|].
  eexists. split; [done|]. by rewrite !open_snoc, !running_snoc.
Qed.

(** The sockets of [own] are closed one after the other. *)
Lemma drop_own (o own : list Z) k :
  k ∉ o -> k ∉ own -> filter (fun x => x <> k) (o ++ k :: own) = o ++ own.
Proof.
  intros Ho Hown. rewrite filter_app, (filter_all _ o), filter_cons_False, (filter_all _ own); try done;
    [by intros x Hx ->|by intros []|by intros x Hx ->].
Qed.

Lemma stop_spec o threads s tr :
  threads ⊆ o -> started o threads s ->
  wp stop (fun r s' _ => is_Some r /\ mUeventHandler s' = None /\ mRouteHandler s' = None /\ mQuotaHandler s' = None /\
    open_sockets (made s') = o /\ running (made s') = threads) s tr.
Proof.
  intros Ht (q & [hu Eu] & [hr Er] & Hu & Hr & Hq & Ho & Hrun & Hnd & Hfr). rewrite Eu, Er in *.
  destruct Hu as [Hu _], Hr as [Hr _]. cbn in Ho, Hrun, Hnd, Hfr.
  apply NoDup_cons in Hnd as [Hn1 Hnd]. apply NoDup_cons in Hnd as [Hn2 Hnd].
  assert (forall k, k ∈ mUeventSock s :: mRouteSock s :: q -> k ∉ threads) as Hft.
  { intros k Hk Hin. exact (Hfr k Hk (Ht _ Hin)). }
  unfold stop. apply wp_bind, wp_gets. cbn [id]. rewrite Eu, Er. apply wp_bind.
  eapply wp_mono; [by apply stop_one_spec|]. intros r1 s1 tr1 ([u ->] & l1 & -> & Ho1 & Hr1).
  rewrite Ho, drop_own in Ho1 by (try apply Hfr; set_solver). rewrite Hrun, drop_own in Hr1 by (try apply Hft; set_solver).
  apply wp_bind. eapply wp_mono; [by apply stop_one_spec|]. cbn. intros r2 s2 tr2 ([r ->] & l2 & -> & Ho2 & Hr2).
  rewrite Ho1, drop_own in Ho2 by (try apply Hfr; set_solver). rewrite Hr1, drop_own in Hr2 by (try apply Hft; set_solver).
  destruct (mQuotaHandler s) as [hq|] eqn:Eq; cbn [handles] in Hq.
  - destruct Hq as [Hq ->]. apply wp_bind. eapply wp_mono; [by apply stop_one_spec|]. cbn.
    intros r3 s3 tr3 ([c ->] & l3 & -> & Ho3 & Hr3).
    rewrite Ho2, drop_last in Ho3 by (apply Hfr; set_solver). rewrite Hr2, drop_last in Hr3 by (apply Hft; set_solver).
    split_and!; try done; by eexists.
  - subst q. rewrite app_nil_r in *. apply wp_ret. split_and!; try done; by eexists.
Qed.
End Proofs.

(** ** Properties *)

(** Start and stop are inverse: when the manager starts, its two or three sockets
    are open, each with its thread, and whatever the calls reply, stopping it then
    closes them all, ends the threads and drops the handlers; sockets of others are
    left alone. *)
Theorem start_then_stop {NK : NetlinkKernel} s tr s1 tr1 r s2 tr2 :
  fresh_sockets NK -> tidy (made s) -> start s tr = (0, s1, tr1) -> stop s1 tr1 = (r, s2, tr2) ->
  started (open_sockets (made s)) (running (made s)) s1 /\ is_Some r /\
  mUeventHandler s2 = None /\ mRouteHandler s2 = None /\ mQuotaHandler s2 = None /\
  open_sockets (made s2) = open_sockets (made s) /\ running (made s2) = running (made s).
Proof.
  intros Hf Ht H1 H2. destruct (wp_run _ _ _ _ _ _ _ H1 (start_spec Hf s tr)) as (_ & _ & [[_ Hs]|[[=] _]]).
  split; [exact Hs|]. exact (wp_run _ _ _ _ _ _ _ H2 (stop_spec Hf _ _ s1 tr1 Ht Hs)).
Qed.

(** Everything works, with the number of a call as a new descriptor. *)
Definition sample_sockets : NetlinkKernel := {|
  nk_reply := fun l c => match c with Socket _ => 10 + foldr Z.max 0 (map snd l) | _ => 0 end
|}.

Lemma max_ge l x : x ∈ l -> x <= foldr Z.max 0 l.
Proof. induction 1; cbn; lia. Qed.

Lemma sample_sockets_fresh : fresh_sockets sample_sockets.
Proof.
  intros l family _ Hin. cbn in Hin. assert (forall l k, k ∈ open_sockets l -> k ∈ map snd l) as H.
  { clear. intros l. induction l as [|[c r] l IH] using rev_ind; intros k; [by intros []%elem_of_nil|].
    rewrite open_snoc, map_app, elem_of_app. destruct c; cbn; try (by left; apply IH).
    - destruct (r <? 0); [by left; apply IH|]. intros [?|?]%elem_of_app; [left; by apply IH|by right].
    - intros [_ ?]%list_elem_of_filter. left. by apply IH. }
  apply H, max_ge in Hin. lia.
Qed.

Definition no_memory : t := State false None 0 None 0 None 0 [].

Lemma start_then_stop_witness :
  let '(r1, s1, tr1) := start (NK:=sample_sockets) (construct no_memory) [] in
  let '(r, s2, tr2) := stop (NK:=sample_sockets) s1 tr1 in
  r1 = 0 /\ open_sockets (made s1) = [10; 20; 30] /\
  (started [] [] s1 /\ is_Some r /\
   mUeventHandler s2 = None /\ mRouteHandler s2 = None /\ mQuotaHandler s2 = None /\
   open_sockets (made s2) = [] /\ running (made s2) = []).
Proof.
  destruct (start _ _) as [[r1 s1] tr1] eqn:E1. destruct (stop _ _) as [[r s2] tr2] eqn:E2.
  assert (r1 = 0) as -> by (by vm_compute in E1; injection E1).
  split; [done|]. split; [by vm_compute in E1; injection E1 as <- <-|].
  apply (start_then_stop (NK:=sample_sockets) (construct no_memory) [] s1 tr1 r s2 tr2);
    [exact sample_sockets_fresh|by intros k []%elem_of_nil|exact E1|exact E2].
Defined.

(** When the second socket cannot be made, the first stays open and its thread
    goes on. *)
Lemma failed_start_leaks :
  let NK : NetlinkKernel := {| nk_reply := fun l c =>
    match c with Socket f => if f =? NETLINK_ROUTE then -1 else 10 | _ => 0 end |} in
  let '(r, s, _) := start (construct no_memory) [] in
  r = -1 /\ open_sockets (made s) = [10] /\ running (made s) = [10].
Proof. vm_compute. done. Qed.
End NetlinkManager.
