(* ===== verification/Startup.v ===== *)
(** * Startup: the order in which the parts of the daemon come up

    Models [server/main.cpp].  The result of [main] is the code it exits with, or
    nothing: then the listeners serve, and the thread of [main] goes through its
    loop, here any number of times.  That a listener starts, and the pid, are
    parameters. *)
From S2P Require Import Prelude Platform Cstd Fwmark UidRanges Children Netlink.
From S2P Require Import NetdConstants RouteController Networks NetworkController SampleKernel.
From S2P Require Import CommandListener NetlinkManager.

Module Startup.

Inductive listener := DnsProxyListener | MDnsSdListener | FwmarkServer | CommandListener.
#[export] Instance listener_eq_dec : EqDecision listener.
Proof. solve_decision. Defined.

Class Process := {
  getpid : Z;
  (** what sigprocmask() returns *)
  sigprocmask : Z;
  (** startListener() after the calls of the trace *)
  startListener : trace -> listener -> Z
}.

Record state := State {
  cl : CommandListener.t;
  nm : NetlinkManager.t;
  sigpipe_blocked : bool;
  dns_mode_local : bool;              (** ANDROID_DNS_MODE *)
  serving : list listener             (** in the order in which they were started *)
}.
Definition set_cl v s := State v (nm s) (sigpipe_blocked s) (dns_mode_local s) (serving s).
Definition set_nm v s := State (cl s) v (sigpipe_blocked s) (dns_mode_local s) (serving s).
Definition set_sigpipe b s := State (cl s) (nm s) (b || sigpipe_blocked s) (dns_mode_local s) (serving s).
Definition set_dns_mode s := State (cl s) (nm s) (sigpipe_blocked s) true (serving s).
Definition set_serving v s := State (cl s) (nm s) (sigpipe_blocked s) (dns_mode_local s) v.

Definition PID_FILE_PATH : string := "/data/misc/net/netd_pid".

Section Main.
Context {K : Kernel} {NK : NetlinkManager.NetlinkKernel} {P : Process}.

Definition on_nm {A} : M NetlinkManager.t A -> M state A := zoom nm set_nm.
Definition on_cl {A} : M CommandListener.t A -> M state A := zoom cl set_cl.

Definition remove_pid_file : M state unit := sys_file (FUnlink PID_FILE_PATH);; mret tt.

(** A failure is only logged. *)
Definition blockSigpipe : M state unit := modify (set_sigpipe (sigprocmask =? 0)).

(** [pid_buf] has 20 bytes. *)
Definition pid_buf : string := String.substring 0 19 (print_d getpid +:+ String newline "").

Definition write_pid_file : M state bool :=
  fd ← sys_file (FOpen PID_FILE_PATH);
  if fd =? -1 then mret false
  else
    r ← sys_file (FChmod PID_FILE_PATH);
    if r =? -1 then remove_pid_file;; mret false
    else
      n ← sys_file (FWrite PID_FILE_PATH pid_buf);
      if negb (n =? strlen pid_buf) then remove_pid_file;; mret false else mret true.

(** [n] times round the loop. *)
Fixpoint loop (n : nat) (wrote_pid : bool) : M state bool :=
  match n with
  | O => mret wrote_pid
  | S n => wrote_pid ← (if wrote_pid then mret true else write_pid_file); loop n wrote_pid
  end.

(** Start the listeners in this order; 1 when one does not start. *)
Fixpoint start_listeners (ls : list listener) : M state (option Z) :=
  match ls with
  | [] => mret None
  | l :: ls =>
      fun s tr =>
        if startListener tr l =? 0 then start_listeners ls (set_serving (serving s ++ [l]) s) tr
        else (Some 1, s, tr)
  end.

Definition all_listeners : list listener := [DnsProxyListener; MDnsSdListener; FwmarkServer; CommandListener].

Definition main (n : nat) (mem_nm : NetlinkManager.t) (mem_cl : memory) : M state (option Z) :=
  remove_pid_file;;
  blockSigpipe;;
  modify (set_nm (NetlinkManager.construct mem_nm));;
  modify (set_cl (CommandListener.init mem_cl));;
  on_cl CommandListener.construct;;
  on_nm (modify (NetlinkManager.set_mBroadcaster true));;
  r ← on_nm NetlinkManager.start;
  if negb (r =? 0) then mret (Some 1)
  else
    modify set_dns_mode;;
    failed ← start_listeners all_listeners;
    match failed with
    | Some code => mret (Some code)
    | None => wrote_pid ← write_pid_file; loop n wrote_pid;; mret None
    end.

(** ** The pid file *)

Definition pid_file_step (f : option string) (e : event) : option string :=
  match e with
  | EvFile (FOpen path) r => if String.eqb path PID_FILE_PATH && negb (r =? -1) then Some "" else f
  | EvFile (FWrite path data) r =>
      if String.eqb path PID_FILE_PATH && (0 <=? r) then Some (String.substring 0 (Z.to_nat r) data) else f
  | EvFile (FUnlink path) r => if String.eqb path PID_FILE_PATH && (r =? 0) then None else f
  | _ => f
  end.
(** What the file holds, [None] for no file; none at the start of the trace. *)
Definition pid_file (tr : trace) : option string := foldl pid_file_step None tr.

Lemma pid_file_snoc tr e : pid_file (tr ++ [e]) = pid_file_step (pid_file tr) e.
Proof. unfold pid_file. by rewrite foldl_app. Qed.

(** A file that is there can be removed. *)
Definition unlink_works : Prop :=
  forall tr, k_file tr (FUnlink PID_FILE_PATH) = 0 \/ pid_file tr = None.

Lemma substring_whole s : String.substring 0 (String.length s) s = s.
Proof. induction s as [|c s IH]; [done|]. cbn. by rewrite IH. Qed.

Context (Hunlink : unlink_works).

Lemma wp_remove (Q : bool -> state -> trace -> Prop) s tr :
  (forall tr', pid_file tr' = None -> Q false s tr') -> wp (_ ← remove_pid_file; mret false) Q s tr.
Proof.
  intros H. apply wp_bind, wp_bind. unfold sys_file, wp at 1. apply wp_ret, wp_ret, H. rewrite pid_file_snoc.
  cbn [pid_file_step]. destruct (Hunlink tr) as [E|E]; [by rewrite E|]. rewrite E. by destruct (_ && _).
Qed.

(** The file is whole or there is none; one that could not be opened is as before. *)
Lemma write_pid_file_spec s tr :
  wp write_pid_file (fun ok s' tr' => s' = s /\
    (ok = true -> pid_file tr' = Some pid_buf) /\
    (ok = false -> pid_file tr' = None \/ pid_file tr' = pid_file tr)) s tr.
Proof.
  unfold write_pid_file. apply wp_bind. unfold sys_file at 1, wp at 1. destruct (k_file tr _ =? -1) eqn:Eo.
  { apply wp_ret. split_and!; [done..|]. intros _. right. rewrite pid_file_snoc. cbn [pid_file_step]. by rewrite Eo. }
  apply wp_bind. unfold sys_file at 1, wp at 1. destruct (k_file _ (FChmod _) =? -1).
  { apply wp_remove. intros tr' E. split_and!; [done..|]. intros _. by left. }
  apply wp_bind. unfold sys_file at 1, wp at 1. destruct (negb _) eqn:Ew.
  { apply wp_remove. intros tr' E. split_and!; [done..|]. intros _. by left. }
  apply wp_ret. split_and!; [done| |done]. intros _. rewrite pid_file_snoc. cbn [pid_file_step].
  apply negb_false_iff, Z.eqb_eq in Ew. rewrite Ew. unfold strlen. rewrite (proj2 (Z.leb_le _ _)) by lia.
  rewrite Nat2Z.id, substring_whole. done.
Qed.

Definition whole_or_none (f : option string) : Prop := f = None \/ f = Some pid_buf.

Lemma loop_spec n wrote_pid s tr :
  whole_or_none (pid_file tr) -> (wrote_pid = true -> pid_file tr = Some pid_buf) ->
  wp (loop n wrote_pid) (fun ok s' tr' => s' = s /\ whole_or_none (pid_file tr') /\
    (ok = true -> pid_file tr' = Some pid_buf) /\ (wrote_pid = true -> ok = true /\ tr' = tr)) s tr.
Proof.
  revert wrote_pid tr. induction n as [|n IH]; intros w tr Hf Hw; cbn [loop].
  - by apply wp_ret.
  - apply wp_bind. destruct w.
    + apply wp_ret. eapply wp_mono; [by apply IH|]. cbn. intros ok s' tr' (? & ? & ? & ?). by split_and!.
    + eapply wp_mono; [apply write_pid_file_spec|]. cbn. intros ok s1 tr1 (-> & Hok & Hno).
      eapply wp_mono; [apply IH|].
      * destruct ok; [right; by apply Hok|]. destruct (Hno eq_refl) as [E|E]; [by left|by rewrite E].
      * exact Hok.
      * cbn. intros ok' s2 tr2 (? & ? & ? & ?). by split_and!.
Qed.
End Main.

(** ** The order *)

Section Order.
Context {K : Kernel} {NK : NetlinkManager.NetlinkKernel} {P : Process}.

Definition about_pid_file (e : event) : Prop :=
  match e with
  | EvFile (FOpen path) _ | EvFile (FChmod path) _ | EvFile (FWrite path _) _ | EvFile (FUnlink path) _ => path = PID_FILE_PATH
  | _ => False
  end.

(** Code that works on the pid file only. *)
Definition pid_only {A} (m : M state A) : Prop :=
  forall s tr, wp m (fun _ s' tr' => s' = s /\ exists evs, tr' = tr ++ evs /\ Forall about_pid_file evs) s tr.

Lemma pid_only_ret {A} (a : A) : pid_only (mret a).
Proof. intros s tr. apply wp_ret. split; [done|]. exists []. by rewrite app_nil_r. Qed.
Lemma pid_only_bind {A B} (m : M state A) (k : A -> M state B) :
  pid_only m -> (forall a, pid_only (k a)) -> pid_only (m ≫= k).
Proof.
  intros Hm Hk s tr. apply wp_bind. eapply wp_mono; [apply Hm|]. cbn. intros a s1 tr1 (-> & e1 & -> & H1).
  eapply wp_mono; [apply Hk|]. cbn. intros b s2 tr2 (-> & e2 & -> & H2). split; [done|].
  exists (e1 ++ e2). rewrite app_assoc. split; [done|]. by apply Forall_app.
Qed.
Lemma pid_only_file op : about_pid_file (EvFile op 0) -> pid_only (sys_file op).
Proof. intros H s tr. split; [done|]. eexists [_]. split; [done|]. apply Forall_singleton. by destruct op. Qed.

Lemma pid_only_write : pid_only write_pid_file.
Proof.
  unfold write_pid_file, remove_pid_file.
  repeat first [apply pid_only_ret|apply pid_only_bind; [|intros ?]|by apply pid_only_file|case_match].
Qed.

Lemma pid_only_loop n w : pid_only (loop n w).
Proof.
  revert w. induction n as [|n IH]; intros w; cbn [loop]; [apply pid_only_ret|].
  apply pid_only_bind; [|done]. destruct w; [apply pid_only_ret|apply pid_only_write].
Qed.

(** Listeners start one after the other, up to the first that does not. *)
Lemma start_listeners_spec ls s tr :
  wp (start_listeners ls) (fun r s' tr' => tr' = tr /\
    exists k, (k <= length ls)%nat /\ s' = set_serving (serving s ++ take k ls) s /\
      (r = None /\ k = length ls \/ r = Some 1 /\ (k < length ls)%nat)) s tr.
Proof.
  revert s. induction ls as [|l ls IH]; intros s; cbn [start_listeners].
  - apply wp_ret. split; [done|]. exists 0%nat. rewrite app_nil_r. destruct s. by split_and!; [..|left].
  - unfold wp at 1. destruct (startListener tr l =? 0).
    + eapply wp_mono; [apply IH|]. cbn. intros r s' tr' (-> & k & Hk & -> & Hr). split; [done|]. exists (S k).
      split; [lia|]. split; [destruct s; cbn; by rewrite <-app_assoc|]. destruct Hr as [[? ->]|[? ?]]; [by left|right; split; [done|lia]].
    + split; [done|]. exists 0%nat. split; [lia|]. rewrite app_nil_r. split; [by destruct s|]. right. split; [done|cbn; lia].
Qed.

(** What holds when [main] has returned [r], or is in its loop. *)
Definition came_up (mem_nm : NetlinkManager.t) (mem_cl : memory) (tr : trace) (r : option Z) (s' : state) (tr' : trace) : Prop :=
  (sigprocmask = 0 -> sigpipe_blocked s' = true) /\ NetlinkManager.mBroadcaster (nm s') = true /\
  (exists k, serving s' = take k all_listeners /\ (r = None /\ k = 4%nat \/ r = Some 1 /\ (k < 4)%nat)) /\
  (serving s' <> [] -> dns_mode_local s' = true /\
     NetlinkManager.started (NetlinkManager.open_sockets (NetlinkManager.made mem_nm))
       (NetlinkManager.running (NetlinkManager.made mem_nm)) (nm s')) /\
  exists removed tr0 evs,
    CommandListener.construct (CommandListener.init mem_cl) (tr ++ [EvFile (FUnlink PID_FILE_PATH) removed]) = (tt, cl s', tr0) /\
    tr' = tr0 ++ evs /\ Forall about_pid_file evs.

Lemma main_spec n mem_nm mem_cl s tr :
  NetlinkManager.fresh_sockets NK -> serving s = [] -> wp (main n mem_nm mem_cl) (came_up mem_nm mem_cl tr) s tr.
Proof.
  intros Hf Hs. unfold main, blockSigpipe.
  apply wp_bind, wp_bind. unfold sys_file, wp at 1. apply wp_ret.
  do 3 apply wp_bind, wp_modify. apply wp_bind, wp_zoom, wp_intro. intros [] c tr0 Hc. cbn [cl set_cl set_nm set_sigpipe] in Hc.
  apply wp_bind, wp_zoom, wp_modify, wp_bind, wp_zoom.
  eapply wp_mono; [by apply NetlinkManager.start_spec|]. cbv beta. intros r1 nm1 tr1 (-> & Hb & [[-> Hst]|[-> Hfail]]); cbn [Z.eqb negb].
  2:{ apply wp_ret. unfold came_up. cbn. split_and!; [by intros ->|done| |by rewrite Hs|].
      - exists 0%nat. split; [done|]. right. split; [done|lia].
      - eexists _, _, []. rewrite app_nil_r. split_and!; [exact Hc|done|constructor]. }
  apply wp_bind, wp_modify, wp_bind. eapply wp_mono; [apply start_listeners_spec|].
  intros r2 s2 tr2 (-> & k & Hk & -> & Hr). cbn [serving set_dns_mode set_serving set_nm set_cl set_sigpipe] in *.
  rewrite Hs in *. cbn [app] in *.
  destruct Hr as [[-> ->]|[-> Hk']].
  - apply wp_bind. eapply wp_mono; [apply pid_only_write|]. cbv beta. intros w s3 tr3 (-> & e3 & -> & H3).
    apply wp_bind. eapply wp_mono; [apply pid_only_loop|]. cbv beta. intros w' s4 tr4 (-> & e4 & -> & H4).
    apply wp_ret. unfold came_up. cbn. split_and!; try done; try (by intros ->).
    + exists 4%nat. split; [done|]. by left.
    + eexists _, _, (e3 ++ e4). rewrite app_assoc. split_and!; [exact Hc|done|by apply Forall_app].
  - apply wp_ret. unfold came_up. cbn. split_and!; try done; try (by intros ->).
    + exists k. split; [done|]. by right.
    + eexists _, _, []. rewrite app_nil_r. split_and!; [exact Hc|done|constructor].
Qed.

(** ** Properties *)

(** C28. The daemon comes up in order: whatever fails, the listeners that serve are the
    first ones of the list, all of them exactly when the daemon does not exit; by then
    SIGPIPE is blocked, the chains are hooked, the broadcaster is set, the sockets for
    the kernel's events are open with their threads and DNS is local; and afterwards
    only the pid file is touched. *)
Theorem startup_order n mem_nm mem_cl s tr r s' tr' :
  NetlinkManager.fresh_sockets NK -> serving s = [] -> main n mem_nm mem_cl s tr = (r, s', tr') ->
  (sigprocmask = 0 -> sigpipe_blocked s' = true) /\ NetlinkManager.mBroadcaster (nm s') = true /\
  (exists k, serving s' = take k all_listeners /\ (r = None /\ k = 4%nat \/ r = Some 1 /\ (k < 4)%nat)) /\
  (serving s' <> [] -> dns_mode_local s' = true /\
     NetlinkManager.started (NetlinkManager.open_sockets (NetlinkManager.made mem_nm))
       (NetlinkManager.running (NetlinkManager.made mem_nm)) (nm s')) /\
  exists removed tr0 evs,
    CommandListener.construct (CommandListener.init mem_cl) (tr ++ [EvFile (FUnlink PID_FILE_PATH) removed]) = (tt, cl s', tr0) /\
    tr' = tr0 ++ evs /\ Forall about_pid_file evs.
Proof. intros Hf Hs Hrun. exact (wp_run _ _ _ _ _ _ _ Hrun (main_spec n mem_nm mem_cl s tr Hf Hs)). Qed.
End Order.

(** A process whose third listener does not start. *)
Definition sample_process : Process := {|
  getpid := 4711; sigprocmask := 0; startListener := fun _ l => if decide (l = FwmarkServer) then -1 else 0
|}.
Definition before : state := State (CommandListener.init (Memory 0 0 0 0 (0, 0, 0, 0))) NetlinkManager.no_memory false false [].
Abbreviation sample_main :=
  (main (K:=good_kernel) (NK:=NetlinkManager.sample_sockets) (P:=sample_process) 3 NetlinkManager.no_memory (Memory 0 0 0 0 (0, 0, 0, 0))).

Lemma startup_order_witness :
  let '(r, s', tr') := sample_main before [] in
  r = Some 1 /\ serving s' = [DnsProxyListener; MDnsSdListener] /\
  came_up (K:=good_kernel) (P:=sample_process) NetlinkManager.no_memory (Memory 0 0 0 0 (0, 0, 0, 0)) [] r s' tr'.
Proof.
  destruct (sample_main before []) as [[r s'] tr'] eqn:E. split; [|split].
  - assert ((sample_main before []).1.1 = Some 1) as H by (vm_compute; reflexivity). by rewrite E in H.
  - assert (serving (sample_main before []).1.2 = [DnsProxyListener; MDnsSdListener]) as H by (vm_compute; reflexivity).
    by rewrite E in H.
  - unfold came_up.
    apply (startup_order (K:=good_kernel) (NK:=NetlinkManager.sample_sockets) (P:=sample_process) 3 NetlinkManager.no_memory
      (Memory 0 0 0 0 (0, 0, 0, 0)) before []); [exact NetlinkManager.sample_sockets_fresh|reflexivity|exact E].
Defined.
End Startup.
