(* ===== verification/Ndc.v ===== *)
(** * Ndc: the command-line client

    Models [server/ndc.c].  What the socket gives is a list of the results of
    select() and read(); [None] as the value of a function means that it waits for
    more.  The memory of the command line does not run out. *)
From S2P Require Import Prelude Platform Cstd Fwmark UidRanges Children Netlink.
From S2P Require Import NetdConstants RouteController Networks NetworkController NetworkCommand SampleKernel.
From S2P Require Import TetherController CommandListener Commands ListenerReplies.

Module Ndc.

Definition NUL : ascii := ascii_of_N 0.

(** ** do_cmd: the line that is sent *)

Definition has (c : ascii) (s : string) : bool := match strchr s c with Some _ => true | None => false end.
Definition quote : ascii := ascii_of_N 34.

(** The words, with spaces between them; [None]: a word holds a quote. *)
Fixpoint add_words (words : list string) (final_cmd : string) : option string :=
  match words with
  | [] => Some final_cmd
  | word :: words =>
      if has quote word then None
      else
        let quoted := if has " " word then String quote (word +:+ String quote "") else word in
        add_words words (final_cmd +:+ quoted +:+ match words with [] => "" | _ => " " end)
  end.

(** A sequence number is put in front when the first word is not one. *)
Definition command_line (words : list string) : option string :=
  match words with
  | [] => Some ""
  | word :: _ => add_words words (if String.eqb (strtol word 10).2 word then "0 " else "")
  end.

(** ** do_monitor *)

Inductive incoming :=
| Timeout
| SelectError (errno : Z)
| Lost                         (** read() returned 0 *)
| ReadError (errno : Z)
| Data (bytes : list ascii).   (** what one read() returned, at most 4096 bytes *)

Definition ECONNRESET : Z := 104.

Definition is_final (line : string) : bool :=
  let code := atoi (String.substring 0 3 line) in (200 <=? code) && (code <? 600).

(** One buffer: [line] is what comes before; printed lines, and whether to stop. *)
Fixpoint scan (stop_after_cmd : bool) (line : string) (bytes : list ascii) : list string * bool :=
  match bytes with
  | [] => ([], false)
  | c :: bytes =>
      if Ascii.eqb c NUL then
        if stop_after_cmd && is_final line then ([line], true)
        else let '(printed, stop) := scan stop_after_cmd "" bytes in (line :: printed, stop)
      else scan stop_after_cmd (line +:+ String c "") bytes
  end.

Fixpoint do_monitor (stop_after_cmd : bool) (l : list incoming) : list string * option Z :=
  match l with
  | [] => ([], None)
  | Timeout :: l => do_monitor stop_after_cmd l
  | SelectError e :: _ => ([], Some e)
  | Lost :: _ => ([], Some ECONNRESET)
  | ReadError e :: _ => ([], Some e)
  | Data bytes :: l =>
      let '(printed, stop) := scan stop_after_cmd "" bytes in
      if stop then (printed, Some 0)
      else let '(printed', r) := do_monitor stop_after_cmd l in (printed ++ printed', r)
  end.

(** What is sent, what is printed and the value. *)
Definition do_cmd (words : list string) (write_error : option Z) (l : list incoming) : option string * (list string * option Z) :=
  match command_line words with
  | None => (None, ([], Some 1))
  | Some final_cmd =>
      match write_error with
      | Some res => (Some final_cmd, ([], Some res))
      | None => (Some final_cmd, do_monitor true l)
      end
  end.

(** [main]: the first word may name a socket; [connect] says which exist. *)
Inductive outcome := Usage | Cannot_connect | Monitor (socket : string) | Command (socket : string) (words : list string).
Definition main (connect : string -> bool) (words : list string) : outcome :=
  match words with
  | [] => Usage
  | word :: rest =>
      let next socket words :=
        match words with "monitor" :: _ => Monitor socket | _ => Command socket words end in
      if connect word then match rest with [] => Usage | _ => next word rest end
      else if connect "netd" then next "netd" words else Cannot_connect
  end.

(** ** Lemmas *)

Definition no_nul (s : string) : Prop := Forall (fun c => Ascii.eqb c NUL = false) (String.list_ascii_of_string s).
(** Messages as they are sent. *)
Definition wire (lines : list string) : list ascii :=
  concat (map (fun line => String.list_ascii_of_string line ++ [NUL]) lines).

Lemma wire_cons line lines : wire (line :: lines) = String.list_ascii_of_string line ++ NUL :: wire lines.
Proof. unfold wire. cbn [map concat]. by rewrite <-app_assoc. Qed.
Lemma wire_lines_app l1 l2 : wire (l1 ++ l2) = wire l1 ++ wire l2.
Proof. unfold wire. by rewrite map_app, concat_app. Qed.

Lemma scan_line stop pre line rest :
  no_nul line ->
  scan stop pre (String.list_ascii_of_string line ++ NUL :: rest) =
  if stop && is_final (pre +:+ line) then ([pre +:+ line], true)
  else let '(printed, s) := scan stop "" rest in ((pre +:+ line) :: printed, s).
Proof.
  revert pre. induction line as [|c line IH]; intros pre.
  - intros _. cbn [String.list_ascii_of_string app scan]. by rewrite Ascii.eqb_refl, append_empty_r.
  - unfold no_nul. cbn [String.list_ascii_of_string]. intros [Hc Hl]%Forall_cons. cbn [app scan]. rewrite Hc, IH by done.
    rewrite append_assoc. done.
Qed.

(** Lines that are not final are printed. *)
Lemma scan_wire lines rest :
  Forall no_nul lines -> Forall (fun l => is_final l = false) lines ->
  scan true "" (wire lines ++ rest) = let '(printed, s) := scan true "" rest in (lines ++ printed, s).
Proof.
  intros Hn Hf. induction lines as [|line lines IH]; [cbn; by destruct (scan _ _ _)|].
  apply Forall_cons in Hn as [Hn1 Hn], Hf as [Hf1 Hf]. rewrite wire_cons, <-app_assoc. cbn [app].
  rewrite scan_line by done. change ("" +:+ line) with line. rewrite Hf1, andb_false_r.
  rewrite IH by done. by destruct (scan true _ rest).
Qed.

Lemma monitor_stops lines fin more rest :
  Forall no_nul (lines ++ [fin]) -> Forall (fun l => is_final l = false) lines -> is_final fin = true ->
  do_monitor true (Data (wire (lines ++ fin :: more)) :: rest) = (lines ++ [fin], Some 0).
Proof.
  intros [Hn [Hfin _]%Forall_cons]%Forall_app Hf Hs. cbn [do_monitor]. rewrite wire_lines_app, scan_wire, wire_cons by done.
  rewrite scan_line by done. change ("" +:+ fin) with fin. by rewrite Hs.
Qed.

Lemma monitor_goes_on lines rest :
  Forall no_nul lines -> Forall (fun l => is_final l = false) lines ->
  do_monitor true (Data (wire lines) :: rest) =
  (lines ++ (do_monitor true rest).1, (do_monitor true rest).2).
Proof.
  intros Hn Hf. cbn [do_monitor]. rewrite <-(app_nil_r (wire lines)), scan_wire by done. cbn [scan].
  rewrite app_nil_r. by destruct (do_monitor true rest).
Qed.

(** Whatever the boundaries of the reads between the messages. *)
Lemma monitor_reads chunks pre fin rest :
  concat chunks = pre ++ [fin] -> Forall (fun c => c <> []) chunks ->
  Forall no_nul (pre ++ [fin]) -> Forall (fun l => is_final l = false) pre -> is_final fin = true ->
  do_monitor true (map (fun c => Data (wire c)) chunks ++ rest) = (pre ++ [fin], Some 0).
Proof.
  revert pre. induction chunks as [|chunk chunks IH]; intros pre Hc Hne Hn Hf Hs; [by destruct pre|].
  apply Forall_cons in Hne as [Hne1 Hne]. cbn [concat map app] in *.
  assert (forall k, pre = chunk ++ k -> concat chunks = k ++ [fin] ->
    do_monitor true (Data (wire chunk) :: map (fun c => Data (wire c)) chunks ++ rest) = (pre ++ [fin], Some 0)) as Hgo.
  { intros k -> E. rewrite <-app_assoc in Hn. apply Forall_app in Hn as [Hn1 Hn]. apply Forall_app in Hf as [Hf1 Hf].
    rewrite monitor_goes_on by done. rewrite (IH k) by done. cbn. by rewrite app_assoc. }
  destruct (app_eq_inv _ _ _ _ Hc) as [(k & -> & E)|(k & -> & E)]; [|by apply (Hgo k)].
  symmetry in E. apply app_eq_unit in E as [[-> E]|[-> E]].
  - apply (Hgo []); [by rewrite !app_nil_r|done].
  - by apply monitor_stops.
Qed.

(** The second half of a message that is read in two parts is taken for a message:
    its code is not seen, and the client waits on. *)
Lemma split_message_missed :
  do_monitor true [Data (String.list_ascii_of_string "20"); Data (wire ["0 0 ok"])] = (["0 0 ok"], None).
Proof. vm_compute. reflexivity. Qed.

(** ** Properties *)

(** C27. A well-formed command through the client, from end to end: when the daemon runs
    the command ([well_formed]: with the exceptions of [one_final_reply], such as the
    tether statistics, after whose first final message the client stops), and its
    messages arrive in reads that hold whole messages, the client prints exactly what the
    daemon has sent, and ends with 0; [render] is the text that the library gives a
    message, which starts with the code. *)
Theorem client_gets_answer {K : Kernel} {A : Ambient} (render : reply -> string) argv m s tr c' tr' chunks rest :
  (forall r, 100 <= rp_code r < 600 -> atoi (String.substring 0 3 (render r)) = rp_code r /\ no_nul (render r)) ->
  dispatch argv = Some m -> well_formed argv -> m (Conn s []) tr = (Some tt, c', tr') ->
  concat chunks = map render (sent c') -> Forall (fun c => c <> []) chunks ->
  do_monitor true (map (fun c => Data (wire c)) chunks ++ rest) = (map render (sent c'), Some 0).
Proof.
  intros Hr Hm Hw Hrun Hc Hne.
  destruct (replies_once argv m (Conn s []) tr Hm Hw) as (c1 & tr1 & pre & fin & E & Hsent & Hpre & Hfin).
  rewrite Hrun in E. injection E as <- <-. cbn [sent app] in Hsent. rewrite Hsent, map_app in *. cbn [map] in *.
  assert (forall r, 100 <= rp_code r < 600 -> is_final (render r) = (200 <=? rp_code r)) as His.
  { intros r H. unfold is_final. destruct (Hr r H) as [-> _]. rewrite (proj2 (Z.ltb_lt (rp_code r) 600)) by lia.
    by rewrite andb_true_r. }
  assert (Forall (fun r => 100 <= rp_code r < 600) (pre ++ [fin])) as Hall.
  { apply Forall_app. split; [|by apply Forall_singleton; lia]. eapply Forall_impl; [exact Hpre|]. cbn. lia. }
  apply monitor_reads; [done|done| | |].
  - change [render fin] with (map render [fin]). rewrite <-map_app. apply Forall_map. eapply Forall_impl; [exact Hall|].
    cbn. intros r H. apply (Hr r H).
  - apply Forall_map. eapply Forall_impl; [exact Hpre|]. cbn. intros r H. rewrite His by lia. lia.
  - rewrite His by lia. lia.
Qed.

(** "%.3d 0 %s" *)
Definition sample_render (r : reply) : string := print_d (rp_code r) +:+ " 0 ok".

Lemma sample_render_code r : 100 <= rp_code r < 600 ->
  atoi (String.substring 0 3 (sample_render r)) = rp_code r /\ no_nul (sample_render r).
Proof.
  intros H. unfold sample_render. generalize dependent (rp_code r). intros n H.
  assert (forallb (fun k => (atoi (String.substring 0 3 (print_d (Z.of_nat k) +:+ " 0 ok")) =? Z.of_nat k) &&
    forallb (fun c => negb (Ascii.eqb c NUL)) (String.list_ascii_of_string (print_d (Z.of_nat k) +:+ " 0 ok"))) (seq 100 500) = true)
    as Ht by (vm_compute; reflexivity).
  rewrite forallb_forall in Ht. specialize (Ht (Z.to_nat n)). rewrite Z2Nat.id in Ht by lia.
  apply andb_true_iff in Ht as [H1%Z.eqb_eq H2]; [|apply in_seq; lia]. split; [done|].
  unfold no_nul. rewrite forallb_forall in H2. apply Forall_forall. intros c Hc. apply negb_true_iff, H2.
  by apply list_elem_of_In.
Qed.

Definition sample_words : list string := ["tether"; "interface"; "list"].

Lemma client_gets_answer_witness :
  let r := TetherCmd.runCommand (K:=good_kernel) sample_words (Conn sample_listener []) [] in
  do_monitor true (map (fun c => Data (wire c)) [["111 0 ok"]; ["111 0 ok"; "200 0 ok"]] ++ [Lost]) =
  (map sample_render (sent r.1.2), Some 0).
Proof.
  cbv zeta. apply (client_gets_answer (K:=good_kernel) (A:=sample_ambient) sample_render sample_words
    (TetherCmd.runCommand (K:=good_kernel) sample_words) sample_listener [] _
    (TetherCmd.runCommand (K:=good_kernel) sample_words (Conn sample_listener []) []).2).
  - exact sample_render_code.
  - reflexivity.
  - cbn. split_and!; discriminate.
  - vm_compute. reflexivity.
  - vm_compute. reflexivity.
  - by repeat constructor.
Defined.
End Ndc.
