(* ===== verification/Locks.v ===== *)
(** * Locks: what threads see through a readers-writer lock

    [NetworkController] guards its members by [mRWLock] (server/NetworkController.h):
    a public method opens a scope with [AutoRLock] or [AutoWLock], or touches none of
    them.  One thread runs the commands; the threads of the other listeners call methods
    that only read, several for one request.  This file models such threads over any
    guarded data [D].  A [method] says whether it has an [AutoRLock]; the lock is taken
    and released because the method does so, and a method without it reads at any
    moment.  A command asks methods that read and says, in the end, whether it goes on
    in the scope of an [AutoWLock]; without one it changes the data while others read.
    While the lock is held for writing the data may have any value.  The theorems are
    about programs [well_locked] and commands that change nothing without the lock; both
    are proved of the methods of NetworkController.cpp in Threads.v.  The lock itself is
    android::RWLock, a pthread_rwlock_t of the platform: it is a class here, with many
    readers or one writer as its laws. *)
From S2P Require Import Prelude.

Module Locks.

(** ** Programs *)

(** The body of a method under the lock: reads of the data, then the result. *)
Inductive body (D R : Type) : Type :=
| Done (r : R)
| Read {B : Type} (q : D -> B) (k : B -> body D R).
Arguments Done {D R} r.
Arguments Read {D R B} q k.

(** A method that reads: with [AutoRLock lock(mRWLock)] around its body, or without. *)
Inductive method (D R : Type) : Type :=
| AutoRLock (m : body D R)
| NoLock (m : body D R).
Arguments AutoRLock {D R} m.
Arguments NoLock {D R} m.
Definition code {D R} (m : method D R) : body D R := match m with AutoRLock m | NoLock m => m end.

(** A request: methods called one after the other. *)
Inductive prog (D A : Type) : Type :=
| Ret (a : A)
| Call {R : Type} (m : method D R) (k : R -> prog D A).
Arguments Ret {D A} a.
Arguments Call {D A R} m k.

(** What a command does after it has asked: change the data in the scope of an
    [AutoWLock], or end without. *)
Inductive scope := AutoWLock | Unlocked.

#[export] Instance body_ret D : MRet (body D) := fun A a => Done a.
#[export] Instance body_bind D : MBind (body D) := fun A B f =>
  fix go (m : body D A) : body D B := match m with Done a => f a | Read q k => Read q (fun b => go (k b)) end.
#[export] Instance prog_ret D : MRet (prog D) := fun A a => Ret a.
#[export] Instance prog_bind D : MBind (prog D) := fun A B f =>
  fix go (p : prog D A) : prog D B := match p with Ret a => f a | Call m k => Call m (fun r => go (k r)) end.

Definition read {D B} (q : D -> B) : body D B := Read q Done.
Definition call {D R} (m : method D R) : prog D R := Call m Ret.

(** Without other threads: all reads see the same data. *)
Fixpoint eval {D R} (d : D) (m : body D R) : R :=
  match m with Done r => r | Read q k => eval d (k (q d)) end.
Definition meval {D R} (d : D) (m : method D R) : R := eval d (code m).
Fixpoint run {D A} (d : D) (p : prog D A) : A :=
  match p with Ret a => a | Call m k => run d (k (meval d m)) end.

(** What a request can return when the data goes through the values [hist] while it
    runs: every call sees one of them, a later call none that is older. *)
Fixpoint sees {D A} (hist : list D) (p : prog D A) (r : A) : Prop :=
  match p with
  | Ret a => a = r
  | Call m k => exists i d, hist !! i = Some d /\ sees (drop i hist) (k (meval d m)) r
  end.

(** Every method called has an [AutoRLock]. *)
Fixpoint well_locked {D A} (p : prog D A) : Prop :=
  match p with
  | Ret _ => True
  | Call (AutoRLock _) k => forall r, well_locked (k r)
  | Call (NoLock _) _ => False
  end.

(** ** The lock *)

(** android::RWLock; [None]: the call blocks. *)
Class RWLock := {
  lock_t : Type;
  new_lock : lock_t;
  readLock : lock_t -> option lock_t;
  writeLock : lock_t -> option lock_t;
  unlock : lock_t -> lock_t
}.

Inductive held := Readers (n : nat) | Writer.

(** What its documentation says.  A call may block while others hold the lock, so
    that writers may go first; it does not when nobody does. *)
Class RWLockLaws (L : RWLock) := {
  held_by : lock_t -> held;
  held_new : held_by new_lock = Readers 0;
  held_readLock : forall l l', readLock l = Some l' -> exists n, held_by l = Readers n /\ held_by l' = Readers (S n);
  held_writeLock : forall l l', writeLock l = Some l' -> held_by l = Readers 0 /\ held_by l' = Writer;
  held_unlock_reader : forall l n, held_by l = Readers (S n) -> held_by (unlock l) = Readers n;
  held_unlock_writer : forall l, held_by l = Writer -> held_by (unlock l) = Readers 0;
  free_lock : forall l, held_by l = Readers 0 -> is_Some (readLock l) /\ is_Some (writeLock l)
}.

(** ** The machine *)

(** A thread between two calls, or inside of method [m] with [rest] of it to run. *)
Inductive thread (D A : Type) : Type :=
| At (p : prog D A)
| In {R : Type} (m : method D R) (rest : body D R) (k : R -> prog D A).
Arguments At {D A} p.
Arguments In {D A R} m rest k.

(** What a thread does next: call a method, read, or return from the method. *)
Inductive action := Enter | Access | Exit.

Section Threads.
Context {L : RWLock} {D A : Type}.

(** The scope of a method opens and closes. *)
Definition open {R} (m : method D R) (l : lock_t) : option lock_t :=
  match m with AutoRLock _ => readLock l | NoLock _ => Some l end.
Definition close {R} (m : method D R) (l : lock_t) : lock_t :=
  match m with AutoRLock _ => unlock l | NoLock _ => l end.

Definition act (a : action) (d : D) (l : lock_t) (t : thread D A) : option (lock_t * thread D A) :=
  match a, t with
  | Enter, At (Call m k) => l ← open m l; Some (l, In m (code m) k)
  | Access, In m (Read q kb) k => Some (l, In m (kb (q d)) k)
  | Exit, In m (Done r) k => Some (close m l, At (k r))
  | _, _ => None
  end.
End Threads.

Section Machine.
Context {L : RWLock} {D W C A : Type}.
(** The state of the thread that writes, what of it is guarded, and its commands: what
    a command asks, and what it does. *)
Context (view : W -> D) (asks : C -> prog D scope) (exec : C -> W -> W).

(** The thread of the commands. *)
Inductive updater := Idle | Checking (c : C) (t : thread D scope) | Updating (c : C).

(** [arrived]: how many values of [past], the current one aside, were there before
    the request. *)
Record client := Client { request : prog D A; arrived : nat; state : thread D A }.
Record config := Config {
  memory : D; lock : lock_t; upd : updater; world : W;
  past : list D;   (** the values between commands, oldest first *)
  clients : list client
}.

Inductive label : Type :=
| Arrive (p : prog D A)
| Step (i : nat) (a : action)
| Begin (c : C) | Ask (a : action) | Finish | WLock | Write (d : D) | WUnlock.

Definition set_lock l c := Config (memory c) l (upd c) (world c) (past c) (clients c).
Definition set_upd u c := Config (memory c) (lock c) u (world c) (past c) (clients c).
Definition set_memory d c := Config d (lock c) (upd c) (world c) (past c) (clients c).
Definition set_clients f c := Config (memory c) (lock c) (upd c) (world c) (past c) (f (clients c)).
(** The command is over: the members have the values it leaves. *)
Definition commit w c := Config (view w) (lock c) Idle w (past c ++ [view w]) (clients c).

Definition do (l : label) (c : config) : option config :=
  match l with
  | Arrive p => Some (set_clients (fun l => l ++ [Client p (pred (length (past c))) (At p)]) c)
  | Step i a =>
      cl ← clients c !! i; r ← act a (memory c) (lock c) (state cl);
      Some (set_lock r.1 (set_clients (fun l => <[i := Client (request cl) (arrived cl) r.2]> l) c))
  | Begin x => match upd c with Idle => Some (set_upd (Checking x (At (asks x))) c) | _ => None end
  | Ask a =>
      match upd c with
      | Checking x t => r ← act a (memory c) (lock c) t; Some (set_lock r.1 (set_upd (Checking x r.2) c))
      | _ => None
      end
  | Finish =>
      match upd c with
      | Checking x (At (Ret Unlocked)) => Some (commit (exec x (world c)) c)
      | _ => None
      end
  | WLock =>
      match upd c with
      | Checking x (At (Ret AutoWLock)) => l ← writeLock (lock c); Some (set_lock l (set_upd (Updating x) c))
      | _ => None
      end
  | Write d => match upd c with Updating _ => Some (set_memory d c) | _ => None end
  | WUnlock =>
      match upd c with
      | Updating x => Some (set_lock (unlock (lock c)) (commit (exec x (world c)) c))
      | _ => None
      end
  end.

Fixpoint execute (ls : list label) (c : config) : option config :=
  match ls with [] => Some c | l :: ls => c ← do l c; execute ls c end.

Definition start (w : W) : config := Config (view w) new_lock Idle w [view w] [].

(** ** The same threads when every method is one step *)

Record aclient := AClient { asked : prog D A; since : nat; now : prog D A }.
Record atomic := Atomic { aworld : W; apast : list D; aclients : list aclient }.

Inductive astep (good : C -> Prop) : atomic -> atomic -> Prop :=
| a_arrive w h l p : astep good (Atomic w h l) (Atomic w h (l ++ [AClient p (pred (length h)) p]))
| a_call w h l i p n R (m : method D R) k :
    l !! i = Some (AClient p n (Call m k)) ->
    astep good (Atomic w h l) (Atomic w h (<[i := AClient p n (k (meval (view w) m))]> l))
| a_command w h l c :
    good c -> astep good (Atomic w h l) (Atomic (exec c w) (h ++ [view (exec c w)]) l).

(** The values of [hist] are those a run of commands goes through, up to [w]. *)
Inductive history (good : C -> Prop) (w0 : W) : list D -> W -> Prop :=
| history_start : history good w0 [view w0] w0
| history_command hist w c :
    history good w0 hist w -> good c -> history good w0 (hist ++ [view (exec c w)]) (exec c w).

(** The commands of a run are [good], and its requests [fine]. *)
Definition good_label (good : C -> Prop) (fine : prog D A -> Prop) (l : label) : Prop :=
  match l with Begin c => good c | Arrive p => fine p | _ => True end.
End Machine.
Arguments Idle {D C}.
Arguments Checking {D C} c t.
Arguments Updating {D C} c.
Arguments client : clear implicits.
Arguments config {L} D W C A.
Arguments label : clear implicits.
Arguments aclient : clear implicits.
Arguments atomic : clear implicits.

(** ** Lemmas *)

Lemma eval_bind {D A B} (d : D) (m : body D A) (f : A -> body D B) :
  eval d (m ≫= f) = eval d (f (eval d m)).
Proof. induction m as [r|B' q k IH]; [done|]. cbn. apply IH. Qed.

Lemma run_bind {D A B} (d : D) (p : prog D A) (f : A -> prog D B) :
  run d (p ≫= f) = run d (f (run d p)).
Proof. induction p as [a|R m k IH]; [done|]. cbn. apply IH. Qed.

Lemma sees_prepend {D A} (h0 h : list D) (p : prog D A) r : sees h p r -> sees (h0 ++ h) p r.
Proof.
  induction p as [a|R m k IH]; [done|]. cbn. intros (i & d & Hi & Hs). exists (length h0 + i)%nat, d.
  rewrite lookup_app_r by lia. replace (length h0 + i - length h0)%nat with i by lia. split; [done|].
  by rewrite drop_app_add.
Qed.

(** With one value there is nothing to choose: the request returns what it returns alone. *)
Lemma sees_alone {D A} (d : D) (p : prog D A) r : sees [d] p r <-> r = run d p.
Proof.
  induction p as [a|R m k IH]; cbn; [done|]. split.
  - intros (i & d' & Hi & Hs). destruct i as [|i]; [|done]. cbn in Hi, Hs. injection Hi as <-. by apply IH.
  - intros ->. exists 0%nat, d. split; [done|]. by apply IH.
Qed.

Section Simulation.
Context {L : RWLock} {LL : RWLockLaws L} {D W C A : Type}.
Context (view : W -> D) (asks : C -> prog D scope) (exec : C -> W -> W).
Implicit Types (cl : client D A) (ac : aclient D A) (c : config D W C A) (w : atomic D W A).

(** ** Who holds the lock *)

Definition holds {B} (t : thread D B) : nat := match t with In (AutoRLock _) _ _ => 1 | _ => 0 end.
Definition holders (l : list (client D A)) : nat := sum_list_with (fun cl => holds (state cl)) l.
Definition updater_holds (u : updater (D:=D) (C:=C)) : nat := match u with Checking _ t => holds t | _ => 0 end.

Lemma holders_insert l i cl cl' :
  l !! i = Some cl -> (holders (<[i := cl']> l) + holds (state cl) = holders l + holds (state cl'))%nat.
Proof.
  unfold holders. revert i. induction l as [|x l IH]; intros [|i]; [done..| |]; cbn.
  - intros [= ->]. lia.
  - intros Hi. specialize (IH i Hi). unfold insert in *. lia.
Qed.

Lemma holders_snoc l cl : holders (l ++ [cl]) = (holders l + holds (state cl))%nat.
Proof. unfold holders. rewrite sum_list_with_app. cbn. lia. Qed.

Lemma holders_0 l : holders l = 0%nat -> Forall (fun cl => holds (state cl) = 0%nat) l.
Proof. induction l as [|x l IH]; constructor; unfold holders in *; cbn in *; [lia|]. apply IH. lia. Qed.

Lemma holders_le l i cl : l !! i = Some cl -> (holds (state cl) <= holders l)%nat.
Proof.
  intros Hi. pose proof (holders_insert _ _ _ (Client (request cl) 0 (At (request cl))) Hi) as E.
  cbn [holds state] in E. lia.
Qed.

(** ** One thread *)

(** The program a thread has still to run, as if its current method had not begun. *)
Definition pending {B} (t : thread D B) : prog D B := match t with At p => p | In m _ k => Call m k end.

(** The methods to come have an [AutoRLock], and what was read so far agrees with the
    data [d]. *)
Definition thread_ok {B} (d : D) (t : thread D B) : Prop :=
  well_locked (pending t) /\ match t with At _ => True | In m rest _ => eval d rest = meval d m end.

(** For threads whose methods are one step: nothing happens, or a whole call. *)
Definition advances {B} (d : D) (t t' : thread D B) : Prop :=
  pending t' = pending t \/
  exists R (m : method D R) k, pending t = Call m k /\ pending t' = k (meval d m).

Lemma act_ok {B} a d d0 l l' (t t' : thread D B) n :
  act a d l t = Some (l', t') -> thread_ok d0 t -> d = d0 -> held_by l = Readers n -> (holds t <= n)%nat ->
  exists n', held_by l' = Readers n' /\ (n' + holds t = n + holds t')%nat /\ thread_ok d0 t' /\ advances d0 t t'.
Proof.
  intros Ha [Hw Hc] -> El Hn. destruct a, t as [[r|R m k]|R m [r|B' q kb] k]; try done; cbn in Ha.
  - destruct m as [m|m]; [|done]. cbn in Ha. destruct (readLock l) as [lk|] eqn:E; [|done]. injection Ha as <- <-.
    apply held_readLock in E as (n1 & E & E'). rewrite E in El. injection El as <-.
    exists (S n1). split_and!; [done|cbn; lia|by split|by left].
  - injection Ha as <- <-. exists n. split_and!; [done|by destruct m|by split|by left].
  - destruct m as [m|m]; [|done]. cbn [act close] in Ha. injection Ha as <- <-. cbn in Hn. destruct n as [|n]; [lia|].
    exists n. cbn in Hc. split_and!; [by apply held_unlock_reader|cbn; lia|by split; [apply Hw|]|].
    right. exists _, (AutoRLock m), k. cbn. by rewrite <-Hc.
Qed.

(** While the lock is held for writing, no thread can move. *)
Lemma act_excluded {B} a d d0 l (t : thread D B) :
  thread_ok d0 t -> held_by l = Writer -> holds t = 0%nat -> act a d l t = None.
Proof.
  intros [Hw _] El Hh. destruct a, t as [[r|R [m|m] k]|R [m|m] [r|B' q kb] k]; try done. cbn.
  destruct (readLock l) as [lk|] eqn:E; [|done]. apply held_readLock in E as (n & E & _). congruence.
Qed.

Lemma thread_ok_change {B} d d' (t : thread D B) : holds t = 0%nat -> thread_ok d t -> thread_ok d' t.
Proof. intros Hh [Hw _]. by destruct t as [p|R [m|m] rest k]. Qed.

Lemma act_run {B} d (t t' : thread D B) : advances d t t' -> run d (pending t') = run d (pending t).
Proof. intros [->|(R & m & k & -> & ->)]; done. Qed.

(** ** The invariant *)

Definition agree (d : D) (cl : client D A) (ac : aclient D A) : Prop :=
  ac = AClient (request cl) (arrived cl) (pending (state cl)) /\ thread_ok d (state cl).

(** The lock is as its holders say, and outside of updates the memory is the data. *)
Definition lock_ok (c : config D W C A) : Prop :=
  match upd c with
  | Updating _ => held_by (lock c) = Writer /\ holders (clients c) = 0%nat
  | u => held_by (lock c) = Readers (holders (clients c) + updater_holds u) /\ memory c = view (world c)
  end.

(** The thread of the commands will be told what the data says. *)
Definition upd_ok (good : C -> Prop) (d : D) (u : updater (D:=D) (C:=C)) : Prop :=
  match u with
  | Idle => True
  | Checking x t => good x /\ thread_ok d t /\ run d (pending t) = run d (asks x)
  | Updating x => good x
  end.

Record related (good : C -> Prop) (c : config D W C A) (w : atomic D W A) : Prop := {
  rel_upd : upd_ok good (view (world c)) (upd c);
  rel_lock : lock_ok c;
  rel_world : aworld w = world c;
  rel_past : apast w = past c;
  rel_clients : Forall2 (agree (view (world c))) (clients c) (aclients w)
}.

(** Who waits for nobody: the commands are [good], the requests [fine], and both have
    the lock where they need it. *)
Context (good : C -> Prop) (fine : prog D A -> Prop).
Context (asks_locked : forall x, well_locked (asks x)).
Context (unlocked_keeps : forall x (w : W), good x -> run (view w) (asks x) = Unlocked -> view (exec x w) = view w).
Context (fine_locked : forall p, fine p -> well_locked p).

(** When nobody reads, the data may change. *)
Lemma agree_change d d' l al :
  holders l = 0%nat -> Forall2 (agree d) l al -> Forall2 (agree d') l al.
Proof.
  intros H0%holders_0 Hl. induction Hl as [|cl ac l al [-> Ht] _ IH]; constructor.
  - split; [done|]. apply Forall_cons in H0 as [H0 _]. by eapply thread_ok_change.
  - apply IH. by apply Forall_cons in H0 as [_ H0].
Qed.

(** What a step of the machine is for the atomic threads: a step, or none. *)
Definition simulated (c' : config D W C A) w : Prop :=
  exists w', (w' = w \/ astep view exec good w w') /\ related good c' w'.

(** The lock when nobody updates. *)
Lemma lock_readers c : lock_ok c -> (forall x, upd c <> Updating x) ->
  held_by (lock c) = Readers (holders (clients c) + updater_holds (upd c)) /\ memory c = view (world c).
Proof. unfold lock_ok. destruct (upd c) as [| |x]; [done..|]. intros _ Hx. by destruct (Hx x). Qed.

Lemma client_excluded c w i cl a x :
  related good c w -> upd c = Updating x -> clients c !! i = Some cl -> act a (memory c) (lock c) (state cl) = None.
Proof.
  intros [_ Hl _ _ Hc] Hx Hi. unfold lock_ok in Hl. rewrite Hx in Hl. destruct Hl as [El Hz].
  destruct (Forall2_lookup_l _ _ _ _ _ Hc Hi) as (ac & _ & _ & Ht). eapply act_excluded; [exact Ht|done|].
  pose proof (holders_le _ _ _ Hi). lia.
Qed.

Lemma simulation_client i a c c' w :
  related good c w -> do view asks exec (Step i a) c = Some c' -> simulated c' w.
Proof.
  intros Hr Hdo. cbn in Hdo. destruct (clients c !! i) as [cl|] eqn:Hi; [|done]. cbn in Hdo.
  destruct (act a (memory c) (lock c) (state cl)) as [[l' t']|] eqn:Ha; [|done]. cbn in Hdo. injection Hdo as <-.
  assert (forall x, upd c <> Updating x) as Hx.
  { intros x Hx. by rewrite (client_excluded c w i cl a x) in Ha. }
  pose proof Hr as [Hu Hl Hw Hp Hc]. destruct (lock_readers c Hl Hx) as [El Hm].
  destruct (Forall2_lookup_l _ _ _ _ _ Hc Hi) as (ac & Hac & -> & Ht). pose proof (holders_le _ _ _ Hi) as Hle.
  destruct (act_ok a (memory c) (view (world c)) (lock c) l' (state cl) t' _ Ha Ht Hm El) as (n' & El' & Hn & Ht' & Hadv); [lia|].
  assert (lock_ok (set_lock l' (set_clients (fun l => <[i := Client (request cl) (arrived cl) t']> l) c))) as Hl'.
  { pose proof (holders_insert _ _ _ (Client (request cl) (arrived cl) t') Hi) as Hh. cbn [state] in Hh.
    unfold lock_ok. cbn [upd lock memory world clients set_lock set_clients].
    destruct (upd c) as [| |x] eqn:Ex; [..|by destruct (Hx x)]; (split; [rewrite El'; f_equal; cbn in *; lia|done]). }
  destruct w as [w h al]. cbn in Hw, Hp, Hc, Hac. subst w h.
  assert (Forall2 (agree (view (world c))) (<[i := Client (request cl) (arrived cl) t']> (clients c))
    (<[i := AClient (request cl) (arrived cl) (pending t')]> al)) as Hc' by (by apply Forall2_insert).
  destruct Hadv as [E|(R & m & k & E & E')].
  - exists (Atomic (world c) (past c) al). split; [by left|]. split; try done. cbn.
    by rewrite E, (list_insert_id al i _ Hac) in Hc'.
  - rewrite E in Hac. eexists. split; [right; by eapply a_call|]. split; try done. cbn. by rewrite <-E'.
Qed.

Lemma simulation_ask a c c' w :
  related good c w -> do view asks exec (Ask a) c = Some c' -> simulated c' w.
Proof.
  intros Hr Hdo. cbn in Hdo. destruct (upd c) as [|x t|] eqn:Ex; [done| |done].
  destruct (act a (memory c) (lock c) t) as [[l' t']|] eqn:Ha; [|done]. cbn in Hdo. injection Hdo as <-.
  pose proof Hr as [Hu Hl Hw Hp Hc]. rewrite Ex in Hu. destruct Hu as (Hg & Ht & Hrun).
  unfold lock_ok in Hl. rewrite Ex in Hl. destruct Hl as [El Hm]. cbn [updater_holds] in El.
  destruct (act_ok a (memory c) (view (world c)) (lock c) l' t t' _ Ha Ht Hm El) as (n' & El' & Hn & Ht' & Hadv); [lia|].
  exists w. split; [by left|]. split; try done; cbn.
  - split_and!; [done..|]. by rewrite (act_run _ _ _ Hadv).
  - unfold lock_ok. cbn [upd lock memory world clients set_lock set_upd updater_holds]. split; [|done].
    assert (n' = (holders (clients c) + holds t')%nat) as -> by lia. exact El'.
Qed.

Lemma simulation_finish c c' w :
  related good c w -> do view asks exec Finish c = Some c' -> simulated c' w.
Proof.
  intros [Hu Hl Hw Hp Hc] Hdo. cbn in Hdo. destruct (upd c) as [|x [[[|]|]|]|] eqn:Ex; try done. injection Hdo as <-.
  destruct Hu as (Hg & _ & Hrun). cbn in Hrun. pose proof (unlocked_keeps x (world c) Hg (eq_sym Hrun)) as Hv.
  unfold lock_ok in Hl. rewrite Ex in Hl. destruct Hl as [El Hm]. destruct w as [w h al]. cbn in Hw, Hp. subst w h.
  eexists. split; [right; by apply (a_command _ _ _ _ _ _ x)|]. split; try done; cbn. by rewrite Hv.
Qed.

Lemma simulation l c c' w :
  related good c w -> good_label good fine l -> do view asks exec l c = Some c' -> simulated c' w.
Proof.
  intros Hr Hg Hdo. destruct l as [p|i a|x|a| | |d|]; [|by eapply simulation_client| |by eapply simulation_ask|by eapply simulation_finish|..].
  all: pose proof Hr as [Hu Hl Hw Hp Hc]; destruct w as [w h al]; cbn in Hw, Hp, Hc; subst w h; cbn in Hdo.
  - (* Arrive *) injection Hdo as <-. eexists. split; [right; apply (a_arrive _ _ _ _ _ _ p)|]. split; cbn; try done.
    + unfold lock_ok in *. cbn [upd lock memory world clients set_clients].
      assert (holders (clients c ++ [Client p (pred (length (past c))) (At p)]) = holders (clients c)) as ->; [|done].
      rewrite holders_snoc. cbn. lia.
    + apply Forall2_app; [done|]. constructor; [|done]. split; [done|]. split; [|done]. by apply fine_locked.
  - (* Begin *) destruct (upd c) eqn:Ex; [|done..]. injection Hdo as <-.
    eexists. split; [by left|]. split; try done; cbn.
    + split_and!; [done| |done]. split; [apply asks_locked|done].
    + unfold lock_ok in *. by rewrite Ex in Hl.
  - (* WLock *) destruct (upd c) as [|x [[[|]|]|]|] eqn:Ex; try done. destruct (writeLock (lock c)) as [lk|] eqn:El; [|done].
    cbn in Hdo. injection Hdo as <-. apply held_writeLock in El as [El Elk].
    eexists. split; [by left|]. split; try done; cbn; [by destruct Hu|].
    unfold lock_ok in *. rewrite Ex, El in Hl. cbn [updater_holds holds] in Hl. destruct Hl as [[= E] _].
    rewrite Nat.add_0_r in E. by cbn [upd lock clients set_lock set_upd].
  - (* Write *) destruct (upd c) as [| |x] eqn:Ex; [done..|]. injection Hdo as <-.
    eexists. split; [by left|]. split; try done; cbn; [by rewrite Ex|].
    unfold lock_ok in *. cbn. by rewrite Ex in *.
  - (* WUnlock *) destruct (upd c) as [| |x] eqn:Ex; [done..|]. injection Hdo as <-.
    unfold lock_ok in Hl. rewrite Ex in Hl. destruct Hl as [El Hz].
    eexists. split; [right; by apply (a_command _ _ _ _ _ _ x)|].
    split; try done; [|cbn; by eapply agree_change].
    unfold lock_ok. cbn [upd lock memory world clients set_lock commit updater_holds]. by rewrite Hz, held_unlock_writer.
Qed.

Lemma related_start (w0 : W) : related good (start view w0) (Atomic w0 [view w0] []).
Proof. split; try done. unfold lock_ok. cbn. by rewrite held_new. Qed.

Lemma simulation_execute ls c c' w :
  related good c w -> Forall (good_label good fine) ls -> execute view asks exec ls c = Some c' ->
  exists w', rtc (astep view exec good) w w' /\ related good c' w'.
Proof.
  intros Hr Hls. revert c w Hr. induction Hls as [|l ls Hl _ IH]; intros c w Hr He; cbn in He.
  - injection He as <-. by exists w.
  - destruct (do view asks exec l c) as [c1|] eqn:E; [|done].
    destruct (simulation _ _ _ _ Hr Hl E) as (w1 & Hstep & Hr1).
    destruct (IH _ _ Hr1 He) as (w' & Hsteps & Hr'). exists w'. split; [|done].
    destruct Hstep as [->|Hstep]; [done|]. by eapply rtc_l.
Qed.

(** ** The atomic threads *)

(** What a client is told if it goes on now, the data being [d] and then [tail], it
    could be told since it arrived. *)
Definition follows (past : list D) (d : D) (ac : aclient D A) : Prop :=
  (since ac < length past)%nat /\
  forall tail r, sees (d :: tail) (now ac) r -> sees (drop (since ac) past ++ tail) (asked ac) r.

Definition atomic_ok (w0 : W) (w : atomic D W A) : Prop :=
  history view exec good w0 (apast w) (aworld w) /\
  Forall (follows (apast w) (view (aworld w))) (aclients w).

Lemma history_last (w0 : W) hist (w1 : W) : history view exec good w0 hist w1 -> exists pre, hist = pre ++ [view w1].
Proof. intros [|pre w' x _ _]; [by exists []|by exists pre]. Qed.

Lemma drop_to_last {B} (pre : list B) b : drop (length pre) (pre ++ [b]) = [b].
Proof. by rewrite drop_app_length. Qed.

Lemma atomic_step (w0 : W) w w' : atomic_ok w0 w -> astep view exec good w w' -> atomic_ok w0 w'.
Proof.
  intros [Hh Hf] Hstep. destruct Hstep as [w h l p|w h l i p n R m k Hi|w h l x Hx];
    cbn in Hh, Hf; split; try done; cbn.
  - apply Forall_app. split; [done|]. constructor; [|done].
    destruct (history_last _ _ _ Hh) as [pre ->]. rewrite length_app, Nat.add_1_r. cbn. split; cbn.
    + rewrite length_app. cbn. lia.
    + intros tail r. by rewrite drop_to_last.
  - apply Forall_insert; [done|]. rewrite Forall_lookup in Hf. destruct (Hf _ _ Hi) as [Hn Hs]. split; [done|]. cbn in *.
    intros tail r Hr. apply Hs. cbn. exists 0%nat, (view w). done.
  - by constructor.
  - eapply Forall_impl; [exact Hf|]. intros ac [Hn Hs]. split; [rewrite length_app; lia|].
    intros tail r Hr. rewrite drop_app_le, <-(assoc_L (++)) by lia. apply Hs. apply (sees_prepend [view w]), Hr.
Qed.

Lemma atomic_steps (w0 : W) w w' : rtc (astep view exec good) w w' -> atomic_ok w0 w -> atomic_ok w0 w'.
Proof. induction 1; eauto using atomic_step. Qed.

(** ** What the lock gives *)

(** A run with the lock is a run in which every method is one step. *)
Lemma locked_is_atomic ls (w0 : W) c :
  execute view asks exec ls (start view w0) = Some c -> Forall (good_label good fine) ls ->
  exists w, rtc (astep view exec good) (Atomic w0 [view w0] []) w /\ related good c w /\ atomic_ok w0 w.
Proof.
  intros He Hls. destruct (simulation_execute _ _ _ _ (related_start w0) Hls He) as (w & Hs & Hr).
  exists w. split_and!; [done..|]. eapply atomic_steps; [exact Hs|]. by repeat constructor.
Qed.

(** What a finished request returned is what its calls saw one after the other. *)
Lemma answer_seen ls (w0 : W) c i cl r :
  execute view asks exec ls (start view w0) = Some c -> Forall (good_label good fine) ls ->
  clients c !! i = Some cl -> state cl = At (Ret r) ->
  history view exec good w0 (past c) (world c) /\ sees (drop (arrived cl) (past c)) (request cl) r.
Proof.
  intros He Hls Hi Hs. destruct (locked_is_atomic _ _ _ He Hls) as (w & _ & [_ _ Hw Hp Hc] & Hh & Hf).
  rewrite Hw, Hp in Hh. split; [done|].
  destruct (Forall2_lookup_l _ _ _ _ _ Hc Hi) as (ac & Hac & -> & _).
  rewrite Forall_lookup in Hf. destruct (Hf _ _ Hac) as [_ Hsees]. rewrite Hp, Hs in Hsees.
  specialize (Hsees [] r). rewrite app_nil_r in Hsees. by apply Hsees.
Qed.

(** The clients are those that arrived, in their order. *)
Definition arrivals (ls : list (label D C A)) : list (prog D A) :=
  omap (fun l => match l with Arrive p => Some p | _ => None end) ls.

Lemma do_requests l c c' :
  do view asks exec l c = Some c' -> request <$> clients c' = (request <$> clients c) ++ arrivals [l].
Proof.
  destruct l as [p|i a|x|a| | |d|]; cbn; rewrite ?app_nil_r; intros Hdo.
  - injection Hdo as <-. cbn [clients set_clients]. by rewrite fmap_app.
  - destruct (clients c !! i) as [cl|] eqn:Hi; [|done]. cbn in Hdo. destruct (act _ _ _ _) as [[l' t']|]; [|done].
    injection Hdo as <-. cbn [clients set_lock set_clients].
    rewrite list_fmap_insert. apply list_insert_id. by rewrite list_lookup_fmap, Hi.
  - destruct (upd c); [|done..]. by injection Hdo as <-.
  - destruct (upd c); [done| |done]. destruct (act _ _ _ _) as [[l' t']|]; [|done]. by injection Hdo as <-.
  - destruct (upd c) as [|x [[[|]|]|]|]; try done. by injection Hdo as <-.
  - destruct (upd c) as [|x [[[|]|]|]|]; try done. destruct (writeLock (lock c)); [|done]. by injection Hdo as <-.
  - destruct (upd c); [done..|]. by injection Hdo as <-.
  - destruct (upd c); [done..|]. by injection Hdo as <-.
Qed.

Lemma execute_requests ls c c' :
  execute view asks exec ls c = Some c' -> request <$> clients c' = (request <$> clients c) ++ arrivals ls.
Proof.
  revert c. induction ls as [|l ls IH]; intros c He; cbn in He.
  - injection He as <-. by rewrite app_nil_r.
  - destruct (do view asks exec l c) as [c1|] eqn:E; [|done]. rewrite (IH _ He), (do_requests _ _ _ E), <-(assoc_L (++)).
    f_equal. by destruct l.
Qed.

Definition done_client (cl : client D A) : bool :=
  match state cl with At (Ret _) => true | _ => false end.

(** A thread in the middle of something can go on: the step is not the start of a
    request or a command, nor one more write. *)
Definition goes_on (c : config D W C A) : Prop :=
  exists l, is_Some (do view asks exec l c) /\ match l with Arrive _ | Begin _ | Write _ => False | _ => True end.

(** Who is inside of a method can go on, and, when the lock is free, who is not done. *)
Lemma inside_acts {B} d l (t : thread D B) : holds t = 1%nat -> exists a, is_Some (act a d l t).
Proof.
  destruct t as [|R m [r|B' q kb] k]; [done|exists Exit|exists Access]; by eexists.
Qed.
Lemma free_acts {B} d l (t : thread D B) :
  held_by l = Readers 0 -> (exists b, t = At (Ret b)) \/ exists a, is_Some (act a d l t).
Proof.
  intros El. destruct t as [[b|R m k]|R m [r|B' q kb] k]; [left; by eexists|right..].
  - exists Enter. cbn. destruct m as [m|m]; cbn; [|by eexists]. destruct (free_lock _ El) as [[l' ->] _]. by eexists.
  - exists Exit. by eexists.
  - exists Access. by eexists.
Qed.
Lemma client_goes_on c i cl a : clients c !! i = Some cl -> is_Some (act a (memory c) (lock c) (state cl)) -> goes_on c.
Proof. intros Hi [r Hr]. exists (Step i a). split; [|done]. cbn. rewrite Hi. cbn. rewrite Hr. by eexists. Qed.
Lemma checker_goes_on c x t a : upd c = Checking x t -> is_Some (act a (memory c) (lock c) t) -> goes_on c.
Proof. intros Hx [r Hr]. exists (Ask a). split; [|done]. cbn. rewrite Hx, Hr. by eexists. Qed.

(** No deadlock: unless all is done, some thread in the middle of something can go on. *)
Lemma not_stuck ls (w0 : W) c :
  execute view asks exec ls (start view w0) = Some c -> Forall (good_label good fine) ls ->
  (upd c = Idle /\ Forall (fun cl => done_client cl = true) (clients c)) \/ goes_on c.
Proof.
  intros He Hls. destruct (locked_is_atomic _ _ _ He Hls) as (w & _ & [_ Hl _ _ _] & _).
  destruct (decide (Exists (fun cl => holds (state cl) = 1%nat) (clients c))) as [Hex|Hnex].
  { right. apply Exists_exists in Hex as (cl & (i & Hi)%list_elem_of_lookup & Hh).
    destruct (inside_acts (memory c) (lock c) _ Hh) as [a Ha]. by eapply client_goes_on. }
  assert (holders (clients c) = 0%nat) as Hz.
  { clear -Hnex. induction (clients c) as [|cl l IH]; [done|]. rewrite Exists_cons in Hnex.
    unfold holders in *. cbn. destruct (state cl) as [|? [m|m] ? ?]; cbn in *; tauto. }
  unfold lock_ok in Hl. rewrite Hz in Hl. destruct (upd c) as [|x t|x] eqn:Ex; destruct Hl as [El _]; cbn in El.
  - destruct (decide (Forall (fun cl => done_client cl = true) (clients c))) as [Hall|Hnot]; [by left|right].
    apply not_Forall_Exists, Exists_exists in Hnot; [|apply _].
    destruct Hnot as (cl & (i & Hi)%list_elem_of_lookup & Hn%not_true_is_false).
    destruct (free_acts (memory c) _ (state cl) El) as [[b Hb]|[a Ha]]; [|by eapply client_goes_on].
    unfold done_client in Hn. by rewrite Hb in Hn.
  - right. destruct (decide (holds t = 1%nat)) as [Hh|Hh].
    { destruct (inside_acts (memory c) (lock c) _ Hh) as [a Ha]. by eapply checker_goes_on. }
    assert (holds t = 0%nat) as Ht by (destruct t as [|? [m|m] ? ?]; cbn in *; [done|done|done]).
    rewrite Ht in El. destruct (free_acts (memory c) _ t El) as [[b ->]|[a Ha]]; [|by eapply checker_goes_on].
    destruct b; [exists WLock|exists Finish]; (split; [|done]); cbn; rewrite Ex; [|by eexists].
    destruct (free_lock _ El) as [_ [l ->]]. by eexists.
  - right. exists WUnlock. split; [|done]. cbn. rewrite Ex. by eexists.
Qed.
End Simulation.

(** A lock that lets every reader in while nobody writes, for the witnesses. *)
Definition sample_lock : RWLock := {|
  lock_t := held;
  new_lock := Readers 0;
  readLock := fun l => match l with Readers n => Some (Readers (S n)) | Writer => None end;
  writeLock := fun l => match l with Readers O => Some Writer | _ => None end;
  unlock := fun l => match l with Readers n => Readers (pred n) | Writer => Readers 0 end
|}.

#[export] Instance sample_lock_laws : RWLockLaws sample_lock.
Proof.
  refine {| held_by := fun l : @lock_t sample_lock => l |}; cbn; try done.
  - intros [n|] l' [= <-]. by exists n.
  - by intros [[|n]|] l' [= <-].
  - by intros l n ->.
  - by intros l ->.
  - intros l ->. split; by eexists.
Defined.
End Locks.
