(* ===== verification/Threads.v ===== *)
(** * Threads: requests served while commands run

    The listeners of main.cpp run in threads of their own and share one
    [NetworkController].  The thread of CommandListener writes; those of FwmarkServer
    and DnsProxyListener call the methods that read, several for one request, and
    between two calls a command may run.  The methods are those of Locks.v, with the
    [AutoRLock] the code has and a read for every access to a guarded member; what a
    command asks before its [AutoWLock], or instead of one, is [command_asks]; the
    requests are programs that call the methods in the order of
    server/FwmarkServer.cpp and server/DnsProxyListener.cpp.  What the other files say
    of a request in one state is compared with what it does here. *)
From S2P Require Import Prelude Platform Cstd Fwmark UidRanges NetdConstants Ledger.
From S2P Require Import RouteController RouteSpec Networks NetworkSpec NetworkController ControllerSpec.
From S2P Require Import Daemon SampleKernel Access NetworkCommand FwmarkServer DnsProxy Locks.
Import Locks.

Module Threads.

(** ** The methods of NetworkController that take the lock to read *)

Definition locked_getDefaultNetwork : method NC Z := AutoRLock (read mDefaultNetId).

Definition locked_getPermissionForUserLocked (uid : Z) : body NC Z :=
  iter ← read (fun s => mUsers s !! uid);
  mret (match iter with
        | Some permission => permission
        | None => if uid <? FIRST_APPLICATION_UID then PERMISSION_SYSTEM else PERMISSION_NONE
        end).
Definition locked_getPermissionForUser (uid : Z) : method NC Z := AutoRLock (locked_getPermissionForUserLocked uid).

Definition locked_getVirtualNetworkForUserLocked (uid : Z) : body NC (option VirtualNetwork.t) :=
  networks ← read mNetworks; mret (first_virtual (map_entries networks) uid).

Definition locked_getNetworkForUser (uid : Z) : method NC Z := AutoRLock (
  virtualNetwork ← locked_getVirtualNetworkForUserLocked uid;
  match virtualNetwork with Some n => mret (virtual_netId n) | None => read mDefaultNetId end).

Definition locked_getNetworkForConnect (uid : Z) : method NC Z := AutoRLock (
  virtualNetwork ← locked_getVirtualNetworkForUserLocked uid;
  match virtualNetwork with
  | Some n => if negb (VirtualNetwork.mSecure n) then mret (virtual_netId n) else read mDefaultNetId
  | None => read mDefaultNetId
  end).

Definition locked_getNetworkForInterface (interface : string) : method NC Z := AutoRLock (
  networks ← read mNetworks; mret (first_with_interface (map_entries networks) interface)).

Definition locked_isValidNetwork (netId : Z) : method NC bool := AutoRLock (
  network ← read (fun s => getNetworkLocked s netId);
  mret (match network with Some _ => true | None => false end)).

Definition locked_isVirtualNetwork (netId : Z) : method NC bool := AutoRLock (
  network ← read (fun s => getNetworkLocked s netId);
  mret (match network with Some n => bool_decide (getType n = VIRTUAL) | None => false end)).

Definition locked_canProtect (uid : Z) : method NC bool := AutoRLock (
  permission ← locked_getPermissionForUserLocked uid;
  if has_permission permission PERMISSION_SYSTEM then mret true
  else read (fun s => bool_decide (uid ∈ mProtectableUsers s))).

(** ** The methods of NetworkController that write: what they ask first *)

(** createPhysicalNetwork also calls setPermission on the new object, which no other
    thread sees, before it takes the lock. *)
Definition createPhysicalNetwork_asks (netId : Z) : prog NC scope :=
  if negb ((MIN_NET_ID <=? netId) && (netId <=? MAX_NET_ID) ||
           (MIN_OEM_ID <=? netId) && (netId <=? MAX_OEM_ID)) then mret Unlocked
  else duplicate ← call (locked_isValidNetwork netId); mret (if duplicate : bool then Unlocked else AutoWLock).

Definition createVirtualNetwork_asks (netId : Z) : prog NC scope :=
  if negb ((MIN_NET_ID <=? netId) && (netId <=? MAX_NET_ID)) then mret Unlocked
  else duplicate ← call (locked_isValidNetwork netId); mret (if duplicate : bool then Unlocked else AutoWLock).

Definition destroyNetwork_asks (netId : Z) : prog NC scope :=
  if netId =? LOCAL_NET_ID then mret Unlocked
  else valid ← call (locked_isValidNetwork netId); mret (if valid : bool then AutoWLock else Unlocked).

Definition addInterfaceToNetwork_asks (netId : Z) (interface : string) : prog NC scope :=
  valid ← call (locked_isValidNetwork netId);
  if negb valid then mret Unlocked
  else
    existingNetId ← call (locked_getNetworkForInterface interface);
    mret (if negb (existingNetId =? NETID_UNSET) && negb (existingNetId =? netId) then Unlocked else AutoWLock).

Definition removeInterfaceFromNetwork_asks (netId : Z) : prog NC scope :=
  valid ← call (locked_isValidNetwork netId); mret (if valid : bool then AutoWLock else Unlocked).

(** modifyRoute has no lock of its own. *)
Definition modifyRoute_asks (netId : Z) (interface : string) (legacy : bool) (uid : Z) : prog NC scope :=
  valid ← call (locked_isValidNetwork netId);
  if negb valid then mret Unlocked
  else
    existingNetId ← call (locked_getNetworkForInterface interface);
    if (existingNetId =? NETID_UNSET) || negb (existingNetId =? netId) then mret Unlocked
    else if (netId =? LOCAL_NET_ID) || negb legacy then mret Unlocked
    else _ ← call (locked_getPermissionForUser uid); mret Unlocked.

Definition command_asks (c : Daemon.command) : prog NC scope :=
  match c with
  | CreatePhysicalNetwork netId _ => createPhysicalNetwork_asks netId
  | CreateVirtualNetwork netId _ _ => createVirtualNetwork_asks netId
  | DestroyNetwork netId => destroyNetwork_asks netId
  | SetDefaultNetwork _ => mret AutoWLock
  | AddInterfaceToNetwork netId interface => addInterfaceToNetwork_asks netId interface
  | RemoveInterfaceFromNetwork netId _ => removeInterfaceFromNetwork_asks netId
  | AddUsersToNetwork _ _ => mret AutoWLock
  | RemoveUsersFromNetwork _ _ => mret AutoWLock
  | SetPermissionForUsers _ _ => mret AutoWLock
  | SetPermissionForNetworks _ _ => mret AutoWLock
  | AllowProtect _ => mret AutoWLock
  | DenyProtect _ => mret AutoWLock
  | ModifyRoute netId interface _ _ _ legacy uid => modifyRoute_asks netId interface legacy uid
  end.

Section Requests.
Variable stray : Network -> Z.

Definition locked_checkUserNetworkAccessLocked (uid netId : Z) : body NC Z :=
  network ← read (fun s => getNetworkLocked s netId);
  match network with
  | None => mret (- ENONET)
  | Some network =>
      if uid =? INVALID_UID then mret (- EREMOTEIO)
      else
        userPermission ← locked_getPermissionForUserLocked uid;
        if has_permission userPermission PERMISSION_SYSTEM then mret 0
        else
          match network with
          | Virtual n => mret (if VirtualNetwork.appliesToUser n uid then 0 else - EPERM)
          | _ =>
              virtualNetwork ← locked_getVirtualNetworkForUserLocked uid;
              denied ← match virtualNetwork with
                       | Some n =>
                           if VirtualNetwork.mSecure n
                           then read (fun s => negb (bool_decide (uid ∈ mProtectableUsers s))) else mret false
                       | None => mret false
                       end;
              if denied : bool then mret (- EPERM)
              else mret (if has_permission userPermission (cast_permission stray network) then 0 else - EACCES)
          end
  end.
Definition locked_checkUserNetworkAccess (uid netId : Z) : method NC Z := AutoRLock (locked_checkUserNetworkAccessLocked uid netId).

Definition locked_getNetworkForDns (netId uid : Z) : method NC (Z * Z) := AutoRLock (
  let fwmark := set_protectedFromVpn true Fwmark_init in
  let fwmark := set_permission PERMISSION_SYSTEM fwmark in
  ret ← locked_checkUserNetworkAccessLocked uid netId;
  if ret =? 0 then mret (netId, set_netId netId (set_explicitlySelected true fwmark))
  else
    virtualNetwork ← locked_getVirtualNetworkForUserLocked uid;
    netId ← match virtualNetwork with
            | Some n => if VirtualNetwork.mHasDns n then mret (virtual_netId n) else read mDefaultNetId
            | None => read mDefaultNetId
            end;
    mret (netId, set_netId netId fwmark)).

(** ** The requests *)

(** The [switch] of FwmarkServer::processClient. *)
Definition mark_request (uid : Z) (c : FwmarkCommand) (fwmark : Z) : prog NC (Z + Z * Z) :=
  permission ← call (locked_getPermissionForUser uid);
  if cmdId c =? ON_ACCEPT then mret (inr (fwmark, Z.lor permission (fwmark_permission fwmark)))
  else if cmdId c =? ON_CONNECT then
    if negb (fwmark_explicitlySelected fwmark) then
      if negb (fwmark_protectedFromVpn fwmark) then
        netId ← call (locked_getNetworkForConnect uid); mret (inr (set_netId netId fwmark, permission))
      else
        virtual ← call (locked_isVirtualNetwork (fwmark_netId fwmark));
        if negb virtual then
          netId ← call locked_getDefaultNetwork; mret (inr (set_netId netId fwmark, permission))
        else mret (inr (fwmark, permission))
    else mret (inr (fwmark, permission))
  else if cmdId c =? SELECT_NETWORK then
    let fwmark := set_netId (cmd_netId c) fwmark in
    if cmd_netId c =? NETID_UNSET then
      mret (inr (set_protectedFromVpn false (set_explicitlySelected false fwmark), PERMISSION_NONE))
    else
      ret ← call (locked_checkUserNetworkAccess uid (cmd_netId c));
      if negb (ret =? 0) then mret (inl ret)
      else
        can ← call (locked_canProtect uid);
        mret (inr (set_protectedFromVpn can (set_explicitlySelected true fwmark), permission))
  else if cmdId c =? PROTECT_FROM_VPN then
    can ← call (locked_canProtect uid);
    if negb can then mret (inl (- EPERM))
    else
      fwmark ← (if negb (fwmark_explicitlySelected fwmark) then
                  virtual ← call (locked_isVirtualNetwork (fwmark_netId fwmark));
                  if virtual : bool then netId ← call locked_getDefaultNetwork; mret (set_netId netId fwmark)
                  else mret fwmark
                else mret fwmark);
      let fwmark := set_protectedFromVpn true fwmark in
      mret (inr (fwmark, Z.lor permission (fwmark_permission fwmark)))
  else if cmdId c =? SELECT_FOR_USER then
    if negb (has_permission permission PERMISSION_SYSTEM) then mret (inl (- EPERM))
    else
      netId ← call (locked_getNetworkForUser (cmd_uid c));
      mret (inr (set_protectedFromVpn true (set_netId netId fwmark), permission))
  else mret (inl (- EPROTO)).

(** FwmarkServer::processClient; see [processClient] of FwmarkServer.v. *)
Definition fwmark_request (k : sockets) (uid : Z) (m : received) : prog NC (Z * Z * option Z) :=
  let socketFd := -1 in
  if messageLength m <=? 0 then mret (- recv_errno m, socketFd, None)
  else if negb (messageLength m =? sizeof_FwmarkCommand) then mret (- EBADMSG, socketFd, None)
  else
    let socketFd := match passed_fd m with Some fd => fd | None => socketFd end in
    if socketFd <? 0 then mret (- EBADF, socketFd, None)
    else
      match get_mark k socketFd with
      | inl e => mret (- e, socketFd, None)
      | inr fwmark =>
          r ← mark_request uid (command m) fwmark;
          match r with
          | inl ret => mret (ret, socketFd, None)
          | inr (fwmark, permission) =>
              let fwmark := set_permission permission fwmark in
              mret (match set_mark k socketFd fwmark with Some e => - e | None => 0 end, socketFd, Some fwmark)
          end
      end.

Context {R : DnsProxy.Resolver}.

(** The hints of GetAddrInfoCmd::runCommand: the default network is asked for after
    the network of the query, and only when AI_ADDRCONFIG is set. *)
Definition hints_request (netId flags family socktype protocol : Z) : prog NC (option DnsProxy.hints) :=
  if negb (flags =? -1) || negb (family =? -1) || negb (socktype =? -1) || negb (protocol =? -1) then
    flags ← (if negb (Z.land flags DnsProxy.AI_ADDRCONFIG =? 0) then
               defaultNetId ← call locked_getDefaultNetwork;
               mret (if negb (netId =? defaultNetId) then Z.land flags (Z.lnot DnsProxy.AI_ADDRCONFIG) else flags)
             else mret flags);
    mret (Some (DnsProxy.Hints flags family socktype protocol))
  else mret None.

Definition GetAddrInfo_request (uid : Z) (argv : list string) : prog NC DnsProxy.result :=
  match argv with
  | [_; name; service; a3; a4; a5; a6; a7] =>
      r ← call (locked_getNetworkForDns (u32 (strtoul a7 10).1) uid);
      let '(netId, mark) := r in
      hints ← hints_request netId (atoi a3) (atoi a4) (atoi a5) (atoi a6);
      mret (DnsProxy.Started (DnsProxy.GetAddrInfoHandler (DnsProxy.caret name) (DnsProxy.caret service) hints netId mark))
  | _ => mret (DnsProxy.bad_arguments "getaddrinfo" argv)
  end.

Definition GetHostByName_request (uid : Z) (argv : list string) : prog NC DnsProxy.result :=
  match argv with
  | [_; a1; name; a3] =>
      r ← call (locked_getNetworkForDns (u32 (strtoul a1 10).1) uid);
      mret (DnsProxy.Started (DnsProxy.GetHostByNameHandler (DnsProxy.caret name) (atoi a3) r.1 r.2))
  | _ => mret (DnsProxy.bad_arguments "gethostbyname" argv)
  end.

Definition GetHostByAddr_request (uid : Z) (argv : list string) : prog NC DnsProxy.result :=
  match argv with
  | [_; addrStr; a2; a3; a4] =>
      let '(ret, addr) := DnsProxy.inet_pton (atoi a3) addrStr in
      if ret <=? 0
      then mret (DnsProxy.Refused OperationFailed
             ("inet_pton(" +:+ String "034" (addrStr +:+ String "034" (") failed " +:+ DnsProxy.strerror_inet_pton (atoi a3) addrStr))))
      else
        r ← call (locked_getNetworkForDns (u32 (strtoul a4 10).1) uid);
        mret (DnsProxy.Started (DnsProxy.GetHostByAddrHandler addr (atoi a2) (atoi a3) r.1 r.2))
  | _ => mret (DnsProxy.bad_arguments "gethostbyaddr" argv)
  end.

(** The commands of DnsProxyListener. *)
Definition dns_request (uid : Z) (argv : list string) : prog NC (option DnsProxy.result) :=
  match argv with
  | cmd :: _ =>
      if String.eqb cmd "getaddrinfo" then r ← GetAddrInfo_request uid argv; mret (Some r)
      else if String.eqb cmd "gethostbyaddr" then r ← GetHostByAddr_request uid argv; mret (Some r)
      else if String.eqb cmd "gethostbyname" then r ← GetHostByName_request uid argv; mret (Some r)
      else mret None
  | [] => mret None
  end.
End Requests.

(** ** The threads *)

Section World.
Context {K : Kernel} {L : RWLock}.

(** The state of the thread of the commands, and what a command does to it. *)
Definition world_t : Type := NCState * trace.
Definition guarded (w : world_t) : NC := w.1.1.
Definition obey (c : Daemon.command) (w : world_t) : world_t :=
  let '(_, s, tr) := run_command c w.1 w.2 in (s, tr).

Definition execution {A} (ls : list (label NC Daemon.command A)) (w : world_t) : option (config NC world_t Daemon.command A) :=
  execute guarded command_asks obey ls (start guarded w).
End World.

(** The values of the members since the request of client [cl] came. *)
Definition during {L : RWLock} {A} (c : config NC world_t Daemon.command A) (cl : client NC A) : list NC :=
  drop (arrived cl) (past c).

(** ** Every request by weakest precondition *)

(** [Q] holds of what a request returns when each of its calls sees a value in [S]. *)
Fixpoint ensures {D A} (S : D -> Prop) (p : prog D A) (Q : A -> Prop) : Prop :=
  match p with Ret a => Q a | Call m k => forall d, S d -> ensures S (k (meval d m)) Q end.

Lemma ensures_sees {D A} (S : D -> Prop) (p : prog D A) Q hist r :
  ensures S p Q -> (forall d, d ∈ hist -> S d) -> sees hist p r -> Q r.
Proof.
  revert hist. induction p as [a|B m k IH]; intros hist Hp Hh; cbn in *; [by intros <-|].
  intros (i & d & Hi & Hs). eapply IH; [| |exact Hs].
  - apply Hp, Hh. by eapply list_elem_of_lookup_2.
  - intros d' (j & Hj)%list_elem_of_lookup. rewrite lookup_drop in Hj. apply Hh. by eapply list_elem_of_lookup_2.
Qed.

Lemma ensures_bind {D A B} (S : D -> Prop) (p : prog D A) (f : A -> prog D B) Q :
  ensures S p (fun a => ensures S (f a) Q) -> ensures S (p ≫= f) Q.
Proof. induction p as [a|R m k IH]; cbn; [done|]. intros Hp d Hd. by apply IH, Hp. Qed.

Lemma ensures_mono {D A} (S : D -> Prop) (p : prog D A) (Q Q' : A -> Prop) :
  ensures S p Q -> (forall a, Q a -> Q' a) -> ensures S p Q'.
Proof. induction p as [a|R m k IH]; cbn; [by auto|]. intros Hp HQ d Hd. eapply IH; [by apply Hp|done]. Qed.

Lemma ensures_call {D A B} (S : D -> Prop) (m : method D B) (f : B -> prog D A) Q :
  (forall d, S d -> ensures S (f (meval d m)) Q) -> ensures S (call m ≫= f) Q.
Proof. done. Qed.

Lemma run_call {D A B} (d : D) (m : method D B) (f : B -> prog D A) : run d (call m ≫= f) = run d (f (meval d m)).
Proof. done. Qed.

(** ** The methods, alone *)

Lemma meval_isValidNetwork s netId : meval s (locked_isValidNetwork netId) = isValidNetwork s netId.
Proof. done. Qed.
Lemma meval_getNetworkForInterface s interface :
  meval s (locked_getNetworkForInterface interface) = getNetworkForInterface s interface.
Proof. done. Qed.
Lemma meval_getPermissionForUser s uid : meval s (locked_getPermissionForUser uid) = getPermissionForUser s uid.
Proof. done. Qed.
Lemma meval_getDefaultNetwork s : meval s locked_getDefaultNetwork = getDefaultNetwork s.
Proof. done. Qed.
Lemma meval_isVirtualNetwork s netId : meval s (locked_isVirtualNetwork netId) = isVirtualNetwork s netId.
Proof. done. Qed.
Lemma meval_canProtect s uid : meval s (locked_canProtect uid) = canProtect s uid.
Proof.
  unfold meval, locked_canProtect, canProtect. cbn [code]. rewrite eval_bind.
  change (eval s (locked_getPermissionForUserLocked uid)) with (getPermissionForUserLocked s uid).
  by destruct (has_permission _ _).
Qed.
Lemma meval_getNetworkForUser s uid : meval s (locked_getNetworkForUser uid) = getNetworkForUser s uid.
Proof.
  unfold meval, locked_getNetworkForUser, getNetworkForUser. cbn [code]. rewrite eval_bind.
  change (eval s (locked_getVirtualNetworkForUserLocked uid)) with (getVirtualNetworkForUserLocked s uid).
  by case_match.
Qed.
Lemma meval_getNetworkForConnect s uid : meval s (locked_getNetworkForConnect uid) = getNetworkForConnect s uid.
Proof.
  unfold meval, locked_getNetworkForConnect, getNetworkForConnect. cbn [code]. rewrite eval_bind.
  change (eval s (locked_getVirtualNetworkForUserLocked uid)) with (getVirtualNetworkForUserLocked s uid).
  by repeat case_match.
Qed.

Lemma meval_checkUserNetworkAccess stray s uid netId :
  meval s (locked_checkUserNetworkAccess stray uid netId) = checkUserNetworkAccess stray s uid netId.
Proof.
  unfold meval, locked_checkUserNetworkAccess, locked_checkUserNetworkAccessLocked, checkUserNetworkAccess,
    checkUserNetworkAccessLocked.
  cbn [code]. rewrite eval_bind. cbn [eval read]. destruct (getNetworkLocked s netId) as [network|]; [|done].
  destruct (uid =? INVALID_UID); [done|]. rewrite eval_bind.
  change (eval s (locked_getPermissionForUserLocked uid)) with (getPermissionForUserLocked s uid).
  destruct (has_permission _ PERMISSION_SYSTEM); [done|].
  assert (forall (m : body NC bool) (perm : Z),
    eval s (denied ← m; if denied : bool then mret (- EPERM) else mret perm : body NC Z) =
    if eval s m then - EPERM else perm) as Hd.
  { intros m perm. rewrite eval_bind. by destruct (eval s m). }
  destruct network; [rewrite eval_bind, Hd..|done];
    change (eval s (locked_getVirtualNetworkForUserLocked uid)) with (getVirtualNetworkForUserLocked s uid);
    (destruct (getVirtualNetworkForUserLocked s uid) as [v|]; [by destruct (VirtualNetwork.mSecure v)|done]).
Qed.

Lemma meval_getNetworkForDns stray s netId uid :
  meval s (locked_getNetworkForDns stray netId uid) = getNetworkForDns stray s netId uid.
Proof.
  unfold meval, locked_getNetworkForDns, getNetworkForDns. cbn [code]. rewrite eval_bind.
  change (eval s (locked_checkUserNetworkAccessLocked stray uid netId)) with
    (meval s (locked_checkUserNetworkAccess stray uid netId)).
  rewrite meval_checkUserNetworkAccess. unfold checkUserNetworkAccess. destruct (_ =? 0); [done|].
  rewrite !eval_bind.
  change (eval s (locked_getVirtualNetworkForUserLocked uid)) with (getVirtualNetworkForUserLocked s uid).
  destruct (getVirtualNetworkForUserLocked s uid) as [n|]; [by destruct (VirtualNetwork.mHasDns n)|done].
Qed.

Create Rewrite HintDb locked.
#[local] Hint Rewrite meval_getPermissionForUser meval_getDefaultNetwork meval_isVirtualNetwork meval_isValidNetwork
  meval_getNetworkForInterface meval_canProtect meval_getNetworkForUser meval_getNetworkForConnect
  meval_checkUserNetworkAccess meval_getNetworkForDns : locked.

(** ** The requests, alone *)

Section Alone.
Variable stray : Network -> Z.

Lemma run_mark_request s uid c fwmark : run s (mark_request stray uid c fwmark) = mark_command stray s uid c fwmark.
Proof.
  unfold mark_request, mark_command. rewrite run_call. autorewrite with locked.
  repeat (first [rewrite run_call | rewrite run_bind | progress autorewrite with locked | done
    | match goal with |- run _ (if ?b then _ else _) = _ => destruct b eqn:? end]).
  destruct (negb (fwmark_explicitlySelected fwmark)); [|done]. rewrite run_call. autorewrite with locked.
  by destruct (isVirtualNetwork s (fwmark_netId fwmark)).
Qed.

Lemma run_fwmark_request s k uid m : run s (fwmark_request stray k uid m) = processClient stray k s uid m.
Proof.
  unfold fwmark_request, processClient. destruct (messageLength m <=? 0); [done|]. destruct (negb _); [done|].
  destruct (_ <? 0); [done|]. destruct (get_mark k _) as [|fwmark]; [done|].
  rewrite run_bind, run_mark_request. by destruct (mark_command stray s uid (command m) fwmark) as [|[]].
Qed.

Section Dns.
Context {R : DnsProxy.Resolver}.

Lemma run_GetAddrInfo_request s uid argv :
  run s (GetAddrInfo_request stray uid argv) = DnsProxy.GetAddrInfoCmd_runCommand stray s uid argv.
Proof.
  unfold GetAddrInfo_request, DnsProxy.GetAddrInfoCmd_runCommand.
  do 9 (destruct argv as [|? argv]; try done). rewrite run_call. autorewrite with locked.
  destruct (getNetworkForDns _ _ _ _) as [netId mark]. rewrite run_bind.
  assert (forall flags family socktype protocol, run s (hints_request netId flags family socktype protocol) =
    DnsProxy.make_hints s netId flags family socktype protocol) as ->; [|done].
  intros. unfold hints_request, DnsProxy.make_hints. destruct (_ || _); [|done]. rewrite run_bind.
  destruct (negb (Z.land flags _ =? 0)); [|done]. rewrite run_call. autorewrite with locked. by destruct (negb _).
Qed.

Lemma run_GetHostByName_request s uid argv :
  run s (GetHostByName_request stray uid argv) = DnsProxy.GetHostByNameCmd_runCommand stray s uid argv.
Proof.
  unfold GetHostByName_request, DnsProxy.GetHostByNameCmd_runCommand.
  do 5 (destruct argv as [|? argv]; try done). rewrite run_call. autorewrite with locked. by destruct (getNetworkForDns _ _ _ _).
Qed.

Lemma run_GetHostByAddr_request s uid argv :
  run s (GetHostByAddr_request stray uid argv) = DnsProxy.GetHostByAddrCmd_runCommand stray s uid argv.
Proof.
  unfold GetHostByAddr_request, DnsProxy.GetHostByAddrCmd_runCommand.
  do 6 (destruct argv as [|? argv]; try done). destruct (DnsProxy.inet_pton _ _) as [ret addr].
  destruct (ret <=? 0); [done|]. rewrite run_call. autorewrite with locked. by destruct (getNetworkForDns _ _ _ _).
Qed.

Lemma run_dns_request s uid argv : run s (dns_request stray uid argv) = DnsProxy.dispatch stray s uid argv.
Proof.
  unfold dns_request, DnsProxy.dispatch. destruct argv as [|cmd argv]; [done|].
  destruct (String.eqb cmd "getaddrinfo"); [by rewrite run_bind, run_GetAddrInfo_request|].
  destruct (String.eqb cmd "gethostbyaddr"); [by rewrite run_bind, run_GetHostByAddr_request|].
  destruct (String.eqb cmd "gethostbyname"); [by rewrite run_bind, run_GetHostByName_request|done].
Qed.
End Dns.

(** ** The marks, with other threads *)

Context (S : NC -> Prop) (HS : forall s, S s -> nc_ok s).

(** What holds of the outcome of [mark_request]: whatever it grants was allowed by the
    state at one of the calls. *)
Definition granted (uid : Z) (c : FwmarkCommand) (old : Z) (r : Z + Z * Z) : Prop :=
  match r with
  | inl _ => True
  | inr (w, p) =>
      (fwmark_protectedFromVpn w = true ->
        fwmark_protectedFromVpn old = true \/ exists s, S s /\ canProtect s uid = true) /\
      (fwmark_explicitlySelected w = true ->
        fwmark_explicitlySelected old = true /\ fwmark_netId w = fwmark_netId old \/
        exists s, S s /\ (checkUserNetworkAccess stray s uid (fwmark_netId w) = 0 \/ canProtect s uid = true)) /\
      (cmdId c = SELECT_NETWORK -> cmd_netId c <> NETID_UNSET ->
        fwmark_netId w = cmd_netId c /\ fwmark_explicitlySelected w = true /\
        exists s, S s /\ checkUserNetworkAccess stray s uid (cmd_netId c) = 0) /\
      exists s, S s /\
        (p = getPermissionForUser s uid \/ p = PERMISSION_NONE \/
         p = Z.lor (getPermissionForUser s uid) (fwmark_permission old))
  end.

Lemma system_canProtect s uid : has_permission (getPermissionForUser s uid) PERMISSION_SYSTEM = true -> canProtect s uid = true.
Proof. intros H. unfold canProtect. apply orb_true_iff. by left. Qed.

(** A netId is written into a mark as it is. *)
Lemma netId_written s uid netId w :
  S s -> checkUserNetworkAccess stray s uid netId = 0 -> fwmark_netId (set_netId netId w) = netId.
Proof. intros Hs Hc. apply read_netId_netId. eapply checkUserNetworkAccess_fits; [by apply HS|exact Hc]. Qed.

(** Run a request call by call; the calls see the states of [S]. *)
Ltac ensures_steps :=
  repeat first
  [ apply ensures_call; let s := fresh "s" in let Hs := fresh "Hs" in intros s Hs; autorewrite with locked
  | match goal with |- ensures _ (if ?b then _ else _) _ => destruct b eqn:? end
  | apply ensures_bind ].

Lemma mark_request_granted uid c old : ensures S (mark_request stray uid c old) (granted uid c old).
Proof.
  unfold mark_request. ensures_steps; cbn [ensures mret prog_ret granted]; try done; bool_to_prop;
    try (exfalso; congruence).
  all: split_and!; autorewrite with fwmark; try (by eauto 6 using system_canProtect);
    try (by intros Hc; rewrite Hc in *); try (intros; congruence).
  - intros _. right. exists s0. split; [done|]. left. by rewrite (netId_written s0 uid).
  - intros _ _. split_and!; [by apply (netId_written s0 uid)|done|by eauto].
Qed.

Lemma fwmark_request_granted k uid m :
  ensures S (fwmark_request stray k uid m) (fun r => forall ret fd mark, r = (ret, fd, Some mark) ->
    exists old w p, get_mark k fd = inr old /\ granted uid (command m) old (inr (w, p)) /\ mark = set_permission p w).
Proof.
  unfold fwmark_request. destruct (messageLength m <=? 0); [done|]. destruct (negb _); [done|].
  destruct (_ <? 0); [done|]. destruct (get_mark k _) as [|old] eqn:Eg; [done|].
  apply ensures_bind. eapply ensures_mono; [apply mark_request_granted|].
  intros [ret|[w p]] Hg; cbn [ensures mret prog_ret]; [done|]. intros ret fd mark [= _ <- <-]. by exists old, w, p.
Qed.

(** A permission that [granted] allows. *)
Lemma permission_granted s uid old p :
  nc_ok s ->
  p = getPermissionForUser s uid \/ p = PERMISSION_NONE \/
    p = Z.lor (getPermissionForUser s uid) (fwmark_permission old) ->
  valid_permission p /\ Z.ldiff p (Z.lor (getPermissionForUser s uid) (fwmark_permission old)) = 0.
Proof.
  intros Hok Hp. pose proof (getPermissionForUserLocked_valid s uid Hok) as Hv.
  pose proof (fwmark_permission_valid old) as Ho. split.
  - destruct Hp as [-> | [-> | ->]]; [done|apply none_valid|by apply lor_valid].
  - apply ldiff_0_testbit. intros i Hi Hb. rewrite Z.lor_spec.
    destruct Hp as [-> | [-> | ->]]; [by rewrite Hb|by rewrite Z.bits_0 in Hb|by rewrite Z.lor_spec in Hb].
Qed.
End Alone.

(** ** The clients of the daemon *)

Inductive answer :=
| Marked (r : Z * Z * option Z)      (** FwmarkServer: as [processClient] *)
| Queried (r : option DnsProxy.result).   (** DnsProxyListener: as [dispatch] *)

Definition fwmark_client (stray : Network -> Z) (k : sockets) (uid : Z) (m : received) : prog NC answer :=
  r ← fwmark_request stray k uid m; mret (Marked r).
Definition dns_client {R : DnsProxy.Resolver} (stray : Network -> Z) (uid : Z) (argv : list string) : prog NC answer :=
  r ← dns_request stray uid argv; mret (Queried r).

(** The requests of a run: those of the two listeners, or any other that calls only
    methods with an [AutoRLock]. *)
Definition listener_request (p : prog NC answer) : Prop :=
  (exists stray k uid m, p = fwmark_client stray k uid m) \/
  (exists (R : DnsProxy.Resolver) stray uid argv, p = dns_client stray uid argv) \/
  well_locked p.

(** ** The locks the methods have *)

Lemma well_locked_bind {D A B} (p : prog D A) (f : A -> prog D B) :
  well_locked p -> (forall a, well_locked (f a)) -> well_locked (p ≫= f).
Proof. intros Hp Hf. induction p as [a|R [m|m] k IH]; cbn in *; [done| |done]. intros r. apply IH, Hp. Qed.

Lemma well_locked_call {D A R} (m : body D R) (f : R -> prog D A) :
  (forall r, well_locked (f r)) -> well_locked (call (AutoRLock m) ≫= f).
Proof. done. Qed.

(** Go through a program call by call. *)
Ltac lock_steps :=
  repeat first
  [ exact I
  | apply well_locked_call; intros ?
  | apply well_locked_bind; [|intros ?]
  | match goal with |- well_locked (match ?x with _ => _ end) => destruct x end ].

Lemma fwmark_client_locked stray k uid m : well_locked (fwmark_client stray k uid m).
Proof.
  apply well_locked_bind; [|done]. unfold fwmark_request. lock_steps. unfold mark_request. lock_steps.
Qed.

Lemma dns_client_locked {R : DnsProxy.Resolver} stray uid argv : well_locked (dns_client stray uid argv).
Proof.
  apply well_locked_bind; [|done]. unfold dns_request. destruct argv as [|cmd args]; [done|].
  generalize (cmd :: args). intros argv. lock_steps.
  - unfold GetAddrInfo_request, hints_request. lock_steps.
  - unfold GetHostByAddr_request. lock_steps.
  - unfold GetHostByName_request. lock_steps.
Qed.

Lemma listener_request_locked p : listener_request p -> well_locked p.
Proof.
  intros [(stray & k & uid & m & ->)|[(R & stray & uid & argv & ->)|H]];
    [apply fwmark_client_locked|apply dns_client_locked|done].
Qed.

Lemma command_asks_locked c : well_locked (command_asks c).
Proof.
  destruct c; cbn [command_asks]; unfold createPhysicalNetwork_asks, createVirtualNetwork_asks, destroyNetwork_asks,
    addInterfaceToNetwork_asks, removeInterfaceFromNetwork_asks, modifyRoute_asks; lock_steps.
Qed.

Section Unlocked.
Context {K : Kernel}.

(** A command that ends without an [AutoWLock] leaves the members as they are. *)
Lemma unlocked_keeps_members c s r tr :
  run s (command_asks c) = Unlocked -> wp (run_command c) (fun _ s' _ => s'.1 = s) (s, r) tr.
Proof.
  destruct c as [netId ?|netId ? ?|netId|netId|netId interface|netId interface| | | | | | |netId interface ? ? ? legacy uid];
    cbn [command_asks run_command]; try done; try (intros Hrun; apply wp_bind, wp_gets; revert Hrun; cbn [fst]).
  - unfold createPhysicalNetwork_asks. destruct (negb _); [done|]. rewrite run_call. autorewrite with locked.
    by destruct (isValidNetwork s netId).
  - unfold createVirtualNetwork_asks. destruct (negb _); [done|]. rewrite run_call. autorewrite with locked.
    by destruct (isValidNetwork s netId).
  - unfold destroyNetwork_asks. destruct (netId =? LOCAL_NET_ID); [done|]. rewrite run_call. autorewrite with locked.
    unfold isValidNetwork. by destruct (getNetworkLocked s netId).
  - unfold addInterfaceToNetwork_asks. rewrite run_call. autorewrite with locked. unfold isValidNetwork.
    destruct (getNetworkLocked s netId); [|done]. cbn [negb]. rewrite run_call. autorewrite with locked. by destruct (_ && _).
  - unfold removeInterfaceFromNetwork_asks. rewrite run_call. autorewrite with locked. unfold isValidNetwork.
    by destruct (getNetworkLocked s netId).
  - intros _. destruct (negb (isValidNetwork s netId)); [done|]. destruct (_ =? NETID_UNSET); [done|].
    destruct (negb _); [done|]. apply wp_zoom, wp_intro. done.
Qed.
Lemma unlocked_keeps c (w : world_t) : run (guarded w) (command_asks c) = Unlocked -> guarded (obey c w) = guarded w.
Proof.
  destruct w as [[s r] tr]. unfold guarded, obey. cbn [fst snd]. intros Hrun.
  pose proof (unlocked_keeps_members c s r tr Hrun) as H. unfold wp in H. by destruct (run_command c (s, r) tr) as [[ret s'] tr'].
Qed.
End Unlocked.

(** ** The states during a request *)

Section Runs.
Context {K : Kernel} {KL : KernelLaws K} {L : RWLock} {LL : RWLockLaws L}.

Lemma history_reachable w0 hist (w : world_t) :
  reachable w0.1 w0.2 -> history guarded obey wf_command w0 hist w ->
  reachable w.1 w.2 /\ Forall nc_ok hist.
Proof.
  intros H0 Hh. induction Hh as [|hist w c Hh [IH IHf] Hc].
  - split; [done|]. constructor; [|done]. by apply (reachable_ok _ _ H0).
  - assert (reachable (obey c w).1 (obey c w).2) as Hr.
    { unfold obey. destruct (run_command c w.1 w.2) as [[ret s'] tr'] eqn:E. by eapply reach_command. }
    split; [done|]. apply Forall_app. split; [done|]. constructor; [|done]. by apply (reachable_ok _ _ Hr).
Qed.

(** A finished request of a run. *)
Lemma finished ls w0 (c : config NC world_t Daemon.command answer) i cl r :
  reachable w0.1 w0.2 -> Forall (good_label wf_command listener_request) ls -> execution ls w0 = Some c ->
  clients c !! i = Some cl -> state cl = At (Ret r) ->
  Forall nc_ok (during c cl) /\ sees (during c cl) (request cl) r.
Proof.
  intros H0 Hls He Hi Hs.
  destruct (answer_seen _ _ _ wf_command listener_request command_asks_locked (fun x w _ => unlocked_keeps x w)
    listener_request_locked _ _ _ _ _ _ He Hls Hi Hs) as [Hh Hsees].
  split; [|done]. apply Forall_drop. by eapply history_reachable.
Qed.
End Runs.

(** ** Properties *)

(** C17. Every method of NetworkController is one step.  The thread of the commands asks
    and changes as the code does, with an [AutoWLock] where the code has one; the
    other threads make the requests of the two listeners, and their methods take the
    lock where the code does.  Whatever the members hold while a command writes them,
    the run is one of threads that call whole methods between whole commands.  There is
    no deadlock: as long as a thread is not done, some thread that has begun something
    can go on (a writer may still wait while readers come and go).  And a request with
    no command in its way does what FwmarkServer.v and DnsProxy.v say. *)
Theorem methods_atomic {K : Kernel} {L : RWLock} {LL : RWLockLaws L} {R : DnsProxy.Resolver}
    stray ls w0 (c : config NC world_t Daemon.command answer) :
  Forall (good_label wf_command listener_request) ls -> execution ls w0 = Some c ->
  (exists w, rtc (astep guarded obey wf_command) (Atomic w0 [guarded w0] []) w /\
     aworld w = world c /\ apast w = past c /\
     Forall2 (fun cl ac => ac = AClient (request cl) (arrived cl) (pending (state cl))) (clients c) (aclients w)) /\
  (upd c = Idle /\ Forall (fun cl => done_client cl = true) (clients c) \/ goes_on guarded command_asks obey c) /\
  forall i cl r s, clients c !! i = Some cl -> state cl = At (Ret r) -> during c cl = [s] ->
    (forall k uid m, request cl = fwmark_client stray k uid m -> r = Marked (processClient stray k s uid m)) /\
    (forall uid argv, request cl = dns_client stray uid argv ->
       r = Queried (DnsProxy.dispatch stray s uid argv)).
Proof.
  intros Hls He. destruct (locked_is_atomic _ _ _ wf_command listener_request command_asks_locked (fun x w _ => unlocked_keeps x w)
    listener_request_locked _ _ _ He Hls) as (w & Hw & [_ _ Hworld Hpast Hc] & _).
  split_and!.
  - exists w. split_and!; [done..|]. eapply Forall2_impl; [exact Hc|]. by intros cl ac [-> _].
  - by eapply not_stuck; [apply command_asks_locked|intros; apply unlocked_keeps|apply listener_request_locked|..].
  - intros i cl r s Hi Hs Hd. destruct (answer_seen _ _ _ wf_command listener_request command_asks_locked (fun x w _ => unlocked_keeps x w)
      listener_request_locked _ _ _ _ _ _ He Hls Hi Hs) as [_ Hsees].
    fold (during c cl) in Hsees. rewrite Hd in Hsees. apply sees_alone in Hsees. split.
    + intros k uid m Hr. rewrite Hsees, Hr. unfold fwmark_client. by rewrite run_bind, run_fwmark_request.
    + intros uid argv Hr. rewrite Hsees, Hr. unfold dns_client. by rewrite run_bind, run_dns_request.
Qed.

(** C16. What a mark grants was allowed while the request was served, whatever commands
    ran between its questions: protection from VPNs and explicit selection by the
    state at one of them (or the old mark had them), and no permission is in it that
    neither the old mark had nor the user at one of them. *)
Theorem marks_granted {K : Kernel} {KL : KernelLaws K} {L : RWLock} {LL : RWLockLaws L}
    stray ls w0 (c : config NC world_t Daemon.command answer) i cl k uid m ret fd mark old :
  reachable w0.1 w0.2 -> Forall (good_label wf_command listener_request) ls -> execution ls w0 = Some c ->
  clients c !! i = Some cl -> request cl = fwmark_client stray k uid m ->
  state cl = At (Ret (Marked (ret, fd, Some mark))) -> get_mark k fd = inr old ->
  Forall nc_ok (during c cl) /\
  (fwmark_protectedFromVpn mark = true ->
     fwmark_protectedFromVpn old = true \/ exists s, s ∈ during c cl /\ canProtect s uid = true) /\
  (fwmark_explicitlySelected mark = true ->
     fwmark_explicitlySelected old = true /\ fwmark_netId mark = fwmark_netId old \/
     exists s, s ∈ during c cl /\
       (checkUserNetworkAccess stray s uid (fwmark_netId mark) = 0 \/ canProtect s uid = true)) /\
  (cmdId (command m) = SELECT_NETWORK -> cmd_netId (command m) <> NETID_UNSET ->
     fwmark_netId mark = cmd_netId (command m) /\ fwmark_explicitlySelected mark = true /\
     exists s, s ∈ during c cl /\ checkUserNetworkAccess stray s uid (cmd_netId (command m)) = 0) /\
  exists s, s ∈ during c cl /\
    Z.ldiff (fwmark_permission mark) (Z.lor (getPermissionForUser s uid) (fwmark_permission old)) = 0.
Proof.
  intros H0 Hls He Hi Hr Hs Hold. destruct (finished _ _ _ _ _ _ H0 Hls He Hi Hs) as [Hok Hsees].
  rewrite Hr in Hsees. split; [done|]. set (S s := s ∈ during c cl).
  assert (forall s, S s -> nc_ok s) as HS by (by apply Forall_forall).
  assert (ensures S (fwmark_client stray k uid m) (fun r => forall ret fd mark, r = Marked (ret, fd, Some mark) ->
    exists old w p, get_mark k fd = inr old /\ granted stray S uid (command m) old (inr (w, p)) /\ mark = set_permission p w)) as He'.
  { apply ensures_bind. eapply ensures_mono; [by apply fwmark_request_granted|].
    intros r Hg ret' fd' mark' [= ->]. by eapply Hg. }
  destruct (ensures_sees _ _ _ _ _ He' (fun s Hs => Hs) Hsees _ _ _ eq_refl)
    as (old' & w & p & Hold' & (H1 & H2 & H3 & s & Hin & Hp) & ->).
  rewrite Hold in Hold'. injection Hold' as <-. autorewrite with fwmark. split_and!; [done..|].
  exists s. split; [done|]. destruct (permission_granted s uid old p (HS _ Hin) Hp) as [Hv Hd].
  by rewrite read_permission_permission.
Qed.

(** The handler of a query goes with [getNetworkForDns] in a state of [S]. *)
Definition goes_with {R : DnsProxy.Resolver} (stray : Network -> Z) (S : NC -> Prop) (uid : Z) (r : DnsProxy.result) : Prop :=
  match r with
  | DnsProxy.Started h => exists s asked, S s /\ (DnsProxy.mNetId h, DnsProxy.mMark h) = getNetworkForDns stray s asked uid
  | DnsProxy.Refused _ _ => True
  end.

Lemma dns_request_seen {R : DnsProxy.Resolver} stray S uid argv :
  ensures S (dns_request stray uid argv) (fun r => match r with Some r => goes_with stray S uid r | None => True end).
Proof.
  unfold dns_request. destruct argv as [|cmd args]; [done|]. set (argv := cmd :: args). clearbody argv.
  repeat (destruct (String.eqb cmd _); [apply ensures_bind; eapply (ensures_mono _ _ (goes_with stray S uid)); [|done]|]); [..|done].
  - unfold GetAddrInfo_request.
    destruct argv as [|a0 [|a1 [|a2 [|a3 [|a4 [|a5 [|a6 [|a7 [|a8 argv]]]]]]]]]; try done.
    apply ensures_call. intros s Hin. rewrite meval_getNetworkForDns.
    destruct (getNetworkForDns _ _ _ _) as [netId mark] eqn:E.
    apply ensures_bind. eapply (ensures_mono _ _ (fun _ => True)).
    + unfold hints_request. destruct (_ || _); [|done]. apply ensures_bind. destruct (negb _); [|done].
      by apply ensures_call.
    + intros hints _. by exists s, (u32 (strtoul a7 10).1).
  - unfold GetHostByAddr_request. destruct argv as [|a0 [|a1 [|a2 [|a3 [|a4 [|a5 argv]]]]]]; try done.
    destruct (DnsProxy.inet_pton _ _) as [ret addr]. destruct (ret <=? 0); [done|].
    apply ensures_call. intros s Hin. rewrite meval_getNetworkForDns.
    exists s, (u32 (strtoul a4 10).1). split; [done|]. cbn. by destruct (getNetworkForDns _ _ _ _).
  - unfold GetHostByName_request. destruct argv as [|a0 [|a1 [|a2 [|a3 [|a4 argv]]]]]; try done.
    apply ensures_call. intros s Hin. rewrite meval_getNetworkForDns.
    exists s, (u32 (strtoul a1 10).1). split; [done|]. cbn. by destruct (getNetworkForDns _ _ _ _).
Qed.

(** The network and the mark of a query are those of one state while the request was
    served; the hints may go with a later one. *)
Lemma query_seen {K : Kernel} {KL : KernelLaws K} {L : RWLock} {LL : RWLockLaws L} {R : DnsProxy.Resolver}
    stray ls w0 (c : config NC world_t Daemon.command answer) i cl uid argv r :
  reachable w0.1 w0.2 -> Forall (good_label wf_command listener_request) ls -> execution ls w0 = Some c ->
  clients c !! i = Some cl -> request cl = dns_client stray uid argv -> state cl = At (Ret (Queried (Some r))) ->
  goes_with stray (fun s => s ∈ during c cl /\ nc_ok s) uid r.
Proof.
  intros H0 Hls He Hi Hr Hs. destruct (finished _ _ _ _ _ _ H0 Hls He Hi Hs) as [Hok Hsees]. rewrite Hr in Hsees.
  set (S s := s ∈ during c cl /\ nc_ok s).
  assert (ensures S (dns_client stray uid argv) (fun a => forall r, a = Queried (Some r) -> goes_with stray S uid r)) as Hq.
  { apply ensures_bind. eapply ensures_mono; [apply dns_request_seen|]. intros o Ho r' [= ->]. done. }
  eapply (ensures_sees _ _ _ _ _ Hq); [|exact Hsees|done].
  intros s Hin. split; [done|]. rewrite Forall_forall in Hok. by apply Hok.
Qed.

(** ** Witnesses *)

(** A network for the system's applications only, and a user with the other permission. *)
Definition race_setup : list Daemon.command :=
  [CreatePhysicalNetwork 100 PERMISSION_SYSTEM; SetPermissionForUsers PERMISSION_NETWORK [20000]].
Definition race_world : world_t := Eval vm_compute in
  default ((NC_init, ∅), []) (boot_and_run (K:=good_kernel) race_setup).

Lemma race_world_reachable : reachable (K:=good_kernel) race_world.1 race_world.2.
Proof.
  apply clean_reachable. destruct race_world as [s tr] eqn:E. apply (clean_boot_and_run (K:=good_kernel) race_setup).
  - repeat (apply Forall_cons_2 || apply Forall_nil_2); cbn;
      by (unfold valid_permission, PERMISSION_SYSTEM, PERMISSION_NETWORK; lia).
  - reflexivity.
  - rewrite <-E. vm_compute. reflexivity.
Qed.

Definition select_100 : prog NC answer :=
  fwmark_client sample_stray (sample_sockets 0) 20000 (sample_request SELECT_NETWORK 100 0).

(** A call of client [i] that reads [n] times. *)
Definition one_call (i n : nat) : list (label NC Daemon.command answer) := Step i Enter :: replicate n (Step i Access) ++ [Step i Exit].
(** A command while nobody reads; for a while, nothing is registered. *)
Definition one_command (c : Daemon.command) : list (label NC Daemon.command answer) :=
  [Begin c; WLock; Write (MakeNC 7 ∅ ∅ ∅); WUnlock].

Definition quiet_run : list (label NC Daemon.command answer) :=
  one_command (SetPermissionForNetworks PERMISSION_NONE [100]) ++
  Arrive select_100 :: one_call 0 1 ++ one_call 0 3 ++ one_call 0 2.

(** Between the first question and the second the user loses his permission, and then
    the network is opened to all. *)
Definition race_run : list (label NC Daemon.command answer) :=
  Arrive select_100 :: one_call 0 1 ++ one_command (SetPermissionForUsers PERMISSION_NONE [20000]) ++
  one_command (SetPermissionForNetworks PERMISSION_NONE [100]) ++ one_call 0 3 ++ one_call 0 2.

Lemma select_100_served : listener_request select_100.
Proof. left. by eexists _, _, _, _. Qed.
Lemma quiet_run_good : Forall (good_label wf_command listener_request) quiet_run.
Proof.
  repeat (apply Forall_cons_2 || apply Forall_nil_2); cbn [good_label wf_command]; try exact I; try apply select_100_served;
    unfold valid_permission, PERMISSION_NONE; lia.
Qed.
Lemma race_run_good : Forall (good_label wf_command listener_request) race_run.
Proof.
  repeat (apply Forall_cons_2 || apply Forall_nil_2); cbn [good_label wf_command]; try exact I; try apply select_100_served;
    unfold valid_permission, PERMISSION_NONE; lia.
Qed.

Abbreviation sample_execution := (execution (K:=good_kernel) (L:=sample_lock)).

(** What the first client of a run was told, and the number of states since it came. *)
Definition first_client (ls : list (label NC Daemon.command answer)) : option (answer * nat) :=
  c ← sample_execution ls race_world; cl ← clients c !! 0%nat;
  match state cl with At (Ret r) => Some (r, length (during c cl)) | _ => None end.

Lemma first_client_found ls r n p : first_client ls = Some (r, n) -> arrivals ls = [p] ->
  exists c cl, sample_execution ls race_world = Some c /\ clients c !! 0%nat = Some cl /\ request cl = p /\
    state cl = At (Ret r) /\ length (during c cl) = n.
Proof.
  unfold first_client. destruct (sample_execution ls race_world) as [c|] eqn:E; [|done]. cbn [mbind option_bind].
  destruct (clients c !! 0%nat) as [cl|] eqn:Hi; [|done]. cbn [mbind option_bind].
  destruct (state cl) as [[a|]|] eqn:Es; [|done..]. intros [= -> <-] Ha. exists c, cl.
  apply execute_requests in E as Er. rewrite Ha in Er. cbn in Er. split_and!; try done.
  assert ((request <$> clients c) !! 0%nat = Some (request cl)) as Hr by (by rewrite list_lookup_fmap, Hi).
  rewrite Er in Hr. by injection Hr.
Qed.

Definition race_mark : Z := pack 100 true false PERMISSION_NETWORK.

Lemma methods_atomic_witness :
  exists c cl s, sample_execution quiet_run race_world = Some c /\ clients c !! 0%nat = Some cl /\ during c cl = [s] /\
    state cl = At (Ret (Marked (0, 5, Some race_mark))) /\
    Marked (0, 5, Some race_mark) =
      Marked (processClient sample_stray (sample_sockets 0) s 20000 (sample_request SELECT_NETWORK 100 0)).
Proof.
  destruct (first_client_found quiet_run (Marked (0, 5, Some race_mark)) 1 select_100)
    as (c & cl & E & Hi & Hr & Hs & Hn); [vm_compute; reflexivity|reflexivity|].
  destruct (during c cl) as [|s [|]] eqn:Ed; [discriminate Hn| |discriminate Hn].
  exists c, cl, s. split; [exact E|]. split; [exact Hi|]. split; [exact Ed|]. split; [exact Hs|].
  destruct (methods_atomic (K:=good_kernel) (L:=sample_lock) sample_stray quiet_run race_world c quiet_run_good E) as (_ & _ & H).
  destruct (H _ _ _ _ Hi Hs Ed) as [Hf _]. exact (Hf _ _ _ Hr).
Defined.

Lemma marks_granted_witness :
  exists c cl, sample_execution race_run race_world = Some c /\ clients c !! 0%nat = Some cl /\ length (during c cl) = 3%nat /\
    state cl = At (Ret (Marked (0, 5, Some race_mark))) /\
    exists s, s ∈ during c cl /\ checkUserNetworkAccess sample_stray s 20000 100 = 0.
Proof.
  destruct (first_client_found race_run (Marked (0, 5, Some race_mark)) 3 select_100)
    as (c & cl & E & Hi & Hr & Hs & Hn); [vm_compute; reflexivity|reflexivity|].
  exists c, cl. split; [exact E|]. split; [exact Hi|]. split; [exact Hn|]. split; [exact Hs|].
  destruct (marks_granted (K:=good_kernel) (L:=sample_lock) sample_stray race_run race_world c 0 cl (sample_sockets 0) 20000
    (sample_request SELECT_NETWORK 100 0) 0 5 race_mark 0 race_world_reachable race_run_good E Hi Hr Hs eq_refl)
    as (_ & _ & _ & H & _).
  apply H; [reflexivity|discriminate].
Defined.

(** A request as a whole is not one step: the mark of [race_run] is one that the request
    gets in none of the states while it is served. *)
Lemma selection_not_atomic :
  exists c cl, sample_execution race_run race_world = Some c /\ clients c !! 0%nat = Some cl /\
    state cl = At (Ret (Marked (0, 5, Some race_mark))) /\
    Forall (fun s => processClient sample_stray (sample_sockets 0) s 20000 (sample_request SELECT_NETWORK 100 0) <>
      (0, 5, Some race_mark)) (during c cl).
Proof.
  destruct (first_client_found race_run (Marked (0, 5, Some race_mark)) 3 select_100)
    as (c & cl & E & Hi & _ & Hs & _); [vm_compute; reflexivity|reflexivity|]. exists c, cl. split_and!; [done..|].
  assert (match sample_execution race_run race_world with
          | Some c => match clients c !! 0%nat with
                      | Some cl => bool_decide (Forall (fun s => processClient sample_stray (sample_sockets 0) s 20000
                          (sample_request SELECT_NETWORK 100 0) <> (0, 5, Some race_mark)) (during c cl)) = true
                      | None => False end
          | None => False end) as Hf by (vm_compute; reflexivity).
  rewrite E, Hi in Hf. by apply bool_decide_eq_true in Hf.
Qed.
End Threads.
